(* ===== verification/_CoqProject ===== *)
-Q . S2P
Prelude.v
Aes.v
AegisSpec.v
Aegis.v
Aead.v
AegisX86.v
AegisArm.v
AegisNeon.v
Util.v
Io.v
Frame.v
FrameReader.v
Handshake.v
Tunnel.v
ModeCommon.v
Socks5.v
ThreadPool.v
Keyfile.v
IniConfig.v
Udp.v
UdpTunnel.v
ConfDoc.v
ConfigMgmt.v
CreateTun.v
Main.v
Log.v
Start.v
Tun.v
Modes.v
Lifecycle.v
Cli.v
Keygen.v
Workflow.v
Disk.v
