(* ===== verification/Prelude.v ===== *)
(** * AEGIS-Tunnel: a verification development (root file)

    AEGIS-Tunnel is an encrypted tunnel written in C: a process on each side
    holds a long-term X25519 key, a handshake authenticates the peer and gives
    two session keys, and packets or a byte stream are then carried in frames
    sealed with an AEGIS-128 AEAD.  This development translates the C code under
    [src/src/] into executable definitions and proves what makes it correct, and,
    where the code does not do what it says, what it does instead.

    ** The program and the files that model it

    Cryptography ([src/src/crypto]).
    - [Aes]: the table-driven AES round of aegis.c, against FIPS-197.
    - [AegisSpec]: AEGIS-128 as its specification states it, on FIPS-197 rounds;
      the published algorithm, checked on its test vectors, and the variant the
      program computes, which differs from it in four places.
    - [Aegis]: the portable backend of aegis.c, streaming and one-shot, against
      that variant.
    - [Aead]: the interface the rest uses ([Aead], its laws [AeadLaws]), and the
      portable backend as an instance.
    - [AegisX86], [AegisArm], [AegisNeon]: the backends of aegis128-x86.c,
      aegis128-armcrypto.c and aegis128-plain.c, each shown to compute the
      portable one; [AegisArm] also has the choice of the backend.  The AES
      instructions are parameters with their documented meaning as laws.  A
      vector load of NEON reads sixteen bytes, also where the code has fewer; a
      load past the memory that can be read has no result.

    Wire ([tunnel.c], [frame_reader.c]).
    - [Util]: util.c and the outcomes of system calls.
    - [Io]: the [world] of a process (scripts of its system calls, what it has
      sent, clock, key generator, replay cache) and the state monad over it.
    - [Frame]: building and parsing of frames, with counter and explicit nonces.
    - [FrameReader]: the buffered reader of a stream of frames.

    Protocol ([handshake.c], [ecdh.c], [tunnel.c], [mode_common.c]).
    - [Handshake]: messages, key schedule, timestamps and replay cache, key
      confirmation, re-keying.  OpenSSL's X25519 and SHA-256 are the class
      [Crypto] with the laws [CryptoLaws]; uninitialised C locals that the code
      reads, and locals read after their scope has ended, are the class [Locals].
    - [Tunnel]: the event loop, one iteration at a time.
    - [ModeCommon]: rate limiter, handshake with several peers.

    Modes ([mode_psk.c], [mode_tun.c], [mode_socks5.c], [mode_tun_udp.c]).
    - [Socks5]: the SOCKS5 negotiation and the set-up of a proxied connection.
    - [Udp], [UdpTunnel]: the UDP handshake; session table and loops of the UDP
      server and client.
    - [Tun]: the commands that set the TUN device up and take it down.
    - [Modes]: connecting, both ends of a session, accept and reconnect loops,
      with the increment of the connection counter as a load and a store between
      which the signal handler can run, and with the commands it collects.
    - [Lifecycle]: the modes from start to end: signals, device, listener, loop,
      teardown, and every descriptor they open and close.
    - [ThreadPool]: the worker pool of threadpool.c as a state machine over all
      threads, with the heap cells of the jobs and threads that could not be
      created.  The counter [pending] is a number without width: it counts the
      queued jobs exactly, each of which is a cell of the heap.

    Keys, configuration, start-up ([keyfile.c], [iniconfig.c], [config_mgmt.c],
    [main.c]).
    - [Keyfile]: key files in a file system with modes.
    - [IniConfig]: the configuration parser; [ConfDoc]: configuration texts as
      documents and what they mean.
    - [ConfigMgmt], [CreateTun]: the commands keygen, peer add, peer delete and
      create tun.
    - [Main]: options, configuration and choice of the mode; [Start]: the
      commands and the start-up together.
    - [Cli]: the command line (getopt, subcommands), peer list, status, tun
      down, and [main] as a whole; [Keygen]: the key generator program;
      [Workflow]: the commands one after the other; [Disk]: the same on a disk
      with directories, which the program makes as it goes.
    - [Log]: the log lines of log.c and [hex_dump].

    ** How the code is translated

    A w-bit integer is a [Z] in its range with the wrap-around written out;
    bytes are [list Z]; a C buffer with its length is the list of its bytes, an
    array with offsets ([FrameReader]) is kept as an array.  A C string is the
    list of its characters without the NUL; a [char] array written by [strncpy]
    or [snprintf] is the string it holds, cut as the call cuts it.  Error codes
    are kept as the numbers the code returns.  System calls take their outcome
    from a script, so that a theorem about all scripts covers every way the
    kernel may split, delay or fail them; [None] is a call that never returns,
    because its script has ended.  Sub-processes are the list of the commands
    that ran, with a function that says which succeed.  The file system is a map
    from paths to contents and mode, with an environment that decides what can be
    opened and how much a write takes; in [Disk] a file can be opened only where
    its directory exists.

    Loops that are not structural have a measure as fuel: the number of blocks
    ([Aegis]), the size of the receive script ([FrameReader], [Tunnel],
    [Udp]), the number of digits of a number ([Main.dec_u], 10 for 32 bits),
    MAX_PEERS for loops over peers.  Theorems that a loop delivers something
    prove that it returns with this fuel, not only what holds if it does.

    ** What the theorems show

    - Cipher: the code computes the stated variant of AEGIS-128, decryption
      accepts exactly what encryption makes, and all backends interoperate.
    - Frames and streams: parsing accepts exactly what building makes; the reader
      delivers the frames of a stream however it is cut, refines a queue, and
      terminates; the tunnel carries packets intact and in order and its
      counters never wrap.
    - Handshake: honest parties agree on keys over TCP (the client being the
      first configured peer), over UDP (any peer) and up to the start of the
      tunnel in every mode; a server accepts only messages sealed under the
      peer's key, within the window and not replayed; the rate limiter treats
      every address by itself and lets five attempts through.
    - UDP: only authenticated payload reaches the TUN device; a session comes
      from a fresh message of a configured peer and a confirmation received
      under its new key; sessions are unique, datagrams are delivered in any
      order (and as often as they are repeated).
    - Processes: the pool is a FIFO queue, loses no wake-up, completes every job
      before its shutdown returns and touches no freed memory; the number of
      children is bounded and what the counter of connections is, wherever a
      signal falls; clients try their peers in turn and back off; the TUN modes
      close every descriptor and run the commands that remove what they added.
    - Configuration: round trips of configuration files, key files and command
      lines; adding, listing and deleting peers; the recommended sequence of
      commands, from an empty disk to a running server; which peers are routed.
    - Errors: where the code falls short (a tunnel that stalls on blocking
      sockets, nonce reuse after a failed re-keying, re-keying that ends the
      session, only the first peer over TCP, a SOCKS5 server that never counts its
      children down, ...), the theorem states what happens.

    ** Not modelled, and why

    Which messages each function prints on stderr and stdout (the names that
    peer list shows apart) and the usage text: nothing depends on them; how a
    log line is made is in [Log].  Socket options other than the firewall mark,
    and file modes of directories.  secure_memzero of dead locals.  The
    intermediate vectors of the NEON MixColumns that the code computes and does
    not use.  The
    kernel, OpenSSL and the CPU instructions are parameters.  Confidentiality
    and unforgeability are cryptographic assumptions and not theorems here: the
    authentication theorems say under which keys an accepted message was sealed.

    This file holds the shared tactics, hint databases and lemmas on lists and
    integers. *)

From stdpp Require Export base list list_numbers numbers strings.
From Stdlib Require Export ZArith Lia.

#[export] Set Default Goal Selector "!".
#[export] Set Warnings "-clear-no-such-hyp".

#[global] Arguments Nat.div : simpl never.
#[global] Arguments Nat.modulo : simpl never.
#[global] Arguments Nat.mul : simpl never.

Declare Scope aegis_scope.
Delimit Scope aegis_scope with aegis.
Open Scope Z_scope.

(** ** Machine integers *)

(** [uint8_t], [uint16_t], [uint32_t], [uint64_t] conversions: reduction modulo
    the width, as C does for unsigned types. *)
Definition u8 (x : Z) : Z := x mod 2 ^ 8.
Definition u16 (x : Z) : Z := x mod 2 ^ 16.
Definition u32 (x : Z) : Z := x mod 2 ^ 32.
Definition u64 (x : Z) : Z := x mod 2 ^ 64.

(** Conversion of a 64-bit pattern to [int64_t] (two's complement). *)
Definition s64 (x : Z) : Z :=
  let y := u64 x in if y <? 2 ^ 63 then y else y - 2 ^ 64.

(** The same for [int] (32 bits): what arithmetic that leaves the range gives on
    the machines the program is built for; C leaves it undefined. *)
Definition s32 (x : Z) : Z :=
  let y := u32 x in if y <? 2 ^ 31 then y else y - 2 ^ 32.

(** [x] fits an unsigned type of [w] bits. *)
Definition is_uint (w : Z) (x : Z) : Prop := 0 <= x < 2 ^ w.

Abbreviation bytes := (list Z).

(** Every element is a [uint8_t]. *)
Definition wf_bytes (l : bytes) : Prop := Forall (is_uint 8) l.

(** Executable version, for witnesses. *)
Definition wf_bytesb (l : bytes) : bool :=
  forallb (fun b => (0 <=? b) && (b <? 256)) l.

(** [a\[i\]] of a C array read inside its bounds. *)
Definition get (l : bytes) (i : nat) : Z := nth i l 0.

(** [for (i...) out\[i\] = a\[i\] ^ b\[i\]] and the same with [&]. *)
Definition xor_bytes (a b : bytes) : bytes := zip_with Z.lxor a b.
Definition and_bytes (a b : bytes) : bytes := zip_with Z.land a b.

Infix "⊻" := xor_bytes (at level 45, left associativity) : aegis_scope.
Infix "⊼" := and_bytes (at level 44, left associativity) : aegis_scope.
Open Scope aegis_scope.

(** [memset(p, 0, n)]. *)
Definition zeros (n : nat) : bytes := replicate n 0.

(** Big- and little-endian encodings of [n] bytes. *)
Fixpoint le_bytes (n : nat) (x : Z) : bytes :=
  match n with
  | O => []
  | S n' => Z.land x 255 :: le_bytes n' (Z.shiftr x 8)
  end.

Fixpoint le_value (l : bytes) : Z :=
  match l with
  | [] => 0
  | b :: l' => Z.lor b (Z.shiftl (le_value l') 8)
  end.

Definition be_bytes (n : nat) (x : Z) : bytes := rev (le_bytes n x).
Definition be_value (l : bytes) : Z := le_value (rev l).

(** ** Automation of the development *)

Create HintDb aegis.
#[export] Hint Constants Opaque : aegis.

(** Case analysis on the next [if] or [match] of a hypothesis or of the goal. *)
Ltac case_step :=
  match goal with
  | |- context [if ?b then _ else _] => destruct b eqn:?
  | |- context [match ?x with _ => _ end] => destruct x eqn:?
  | H : context [if ?b then _ else _] |- _ => destruct b eqn:?
  | H : context [match ?x with _ => _ end] |- _ => destruct x eqn:?
  end.

(** Boolean comparisons on [Z] and [nat] to propositions. *)
Ltac zbool :=
  repeat match goal with
  | H : (_ <? _) = true |- _ => apply Z.ltb_lt in H
  | H : (_ <? _) = false |- _ => apply Z.ltb_ge in H
  | H : (_ <=? _) = true |- _ => apply Z.leb_le in H
  | H : (_ <=? _) = false |- _ => apply Z.leb_gt in H
  | H : (_ =? _) = true |- _ => apply Z.eqb_eq in H
  | H : (_ =? _) = false |- _ => apply Z.eqb_neq in H
  | H : (_ <? _)%nat = true |- _ => apply Nat.ltb_lt in H
  | H : (_ <? _)%nat = false |- _ => apply Nat.ltb_ge in H
  | H : (_ <=? _)%nat = true |- _ => apply Nat.leb_le in H
  | H : (_ <=? _)%nat = false |- _ => apply Nat.leb_gt in H
  | H : (_ =? _)%nat = true |- _ => apply Nat.eqb_eq in H
  | H : (_ =? _)%nat = false |- _ => apply Nat.eqb_neq in H
  | H : (_ && _)%bool = true |- _ => apply andb_true_iff in H as [? ?]
  | H : (_ || _)%bool = false |- _ => apply orb_false_iff in H as [? ?]
  | H : negb _ = true |- _ => apply negb_true_iff in H
  | H : negb _ = false |- _ => apply negb_false_iff in H
  end.

(** Length side conditions: normalise every [length] and call [lia]. *)
Create Rewrite HintDb len.
#[export] Hint Rewrite @length_app @length_take @length_drop @length_replicate
  @length_zip_with @length_map @length_cons @length_rev : len.
Ltac len := unfold xor_bytes, and_bytes, zeros in *; autorewrite with len in *; simpl length in *; try lia.

(** ** Bytes *)

Lemma is_uint_land (w x : Z) : 0 <= w -> (is_uint w x <-> Z.land x (Z.ones w) = x).
Proof.
  intros Hw. unfold is_uint. rewrite Z.land_ones by done. split.
  - intros. by apply Z.mod_small.
  - intros <-. apply Z.mod_pos_bound. by apply Z.pow_pos_nonneg.
Qed.

Lemma is_uint_lxor (w x y : Z) : 0 <= w -> is_uint w x -> is_uint w y -> is_uint w (Z.lxor x y).
Proof.
  intros Hw Hx%is_uint_land Hy%is_uint_land; [|done..]. apply is_uint_land; [done|].
  rewrite <- Hx, <- Hy. apply Z.bits_inj'. intros n Hn.
  rewrite !Z.land_spec, !Z.lxor_spec, !Z.land_spec.
  destruct (Z.testbit x n), (Z.testbit y n), (Z.testbit (Z.ones w) n); done.
Qed.

Lemma is_uint_land_l (w x y : Z) : 0 <= w -> is_uint w x -> is_uint w (Z.land x y).
Proof.
  intros Hw Hx%is_uint_land; [|done]. apply is_uint_land; [done|].
  by rewrite <- Z.land_assoc, (Z.land_comm y), Z.land_assoc, Hx.
Qed.

Lemma is_uint_lor (w x y : Z) : 0 <= w -> is_uint w x -> is_uint w y -> is_uint w (Z.lor x y).
Proof.
  intros Hw Hx%is_uint_land Hy%is_uint_land; [|done..]. apply is_uint_land; [done|].
  by rewrite Z.land_lor_distr_l, Hx, Hy.
Qed.

Lemma is_uint_mod (w x : Z) : 0 <= w -> is_uint w (x mod 2 ^ w).
Proof. intros Hw. apply Z.mod_pos_bound. by apply Z.pow_pos_nonneg. Qed.

Lemma is_uint_u8 (x : Z) : is_uint 8 (u8 x).
Proof. by apply is_uint_mod. Qed.

Lemma is_uint_land_255 (x : Z) : is_uint 8 (Z.land x 255).
Proof. change 255 with (Z.ones 8). rewrite Z.land_ones by done. by apply is_uint_mod. Qed.

#[export] Hint Resolve is_uint_lxor is_uint_land_l is_uint_lor is_uint_u8 is_uint_land_255 : aegis.
#[export] Hint Extern 1 (_ <= _)%Z => lia : aegis.

Lemma wf_bytesb_spec (l : bytes) : wf_bytesb l = true <-> wf_bytes l.
Proof.
  unfold wf_bytesb, wf_bytes, is_uint. rewrite forallb_forall, Forall_forall.
  split; intros H x Hx; apply list_elem_of_In in Hx || apply list_elem_of_In; specialize (H x).
  all: try (apply list_elem_of_In in Hx).
  all: specialize (H ltac:(first [done | by apply list_elem_of_In])); lia.
Qed.

Lemma wf_bytes_nil : wf_bytes [].
Proof. constructor. Qed.

Lemma wf_bytes_cons (b : Z) (l : bytes) : wf_bytes (b :: l) <-> is_uint 8 b /\ wf_bytes l.
Proof. apply Forall_cons. Qed.

Lemma wf_bytes_app (a b : bytes) : wf_bytes (a ++ b) <-> wf_bytes a /\ wf_bytes b.
Proof. apply Forall_app. Qed.

Lemma wf_bytes_app_2 (a b : bytes) : wf_bytes a -> wf_bytes b -> wf_bytes (a ++ b).
Proof. intros. by apply wf_bytes_app. Qed.

Lemma wf_bytes_take (n : nat) (l : bytes) : wf_bytes l -> wf_bytes (take n l).
Proof. apply Forall_take. Qed.

Lemma wf_bytes_drop (n : nat) (l : bytes) : wf_bytes l -> wf_bytes (drop n l).
Proof. apply Forall_drop. Qed.

Lemma wf_bytes_zeros (n : nat) : wf_bytes (zeros n).
Proof. apply Forall_replicate. unfold is_uint. lia. Qed.

Lemma wf_bytes_zip (f : Z -> Z -> Z) (a b : bytes) :
  (forall x y, is_uint 8 x -> is_uint 8 y -> is_uint 8 (f x y)) ->
  wf_bytes a -> wf_bytes b -> wf_bytes (zip_with f a b).
Proof.
  intros Hf Ha. revert b. induction Ha; intros b Hb; [constructor|].
  destruct Hb; simpl; constructor; [auto|]. by apply IHHa.
Qed.

Lemma wf_bytes_xor (a b : bytes) : wf_bytes a -> wf_bytes b -> wf_bytes (a ⊻ b).
Proof. apply wf_bytes_zip. auto with aegis. Qed.

Lemma wf_bytes_and (a b : bytes) : wf_bytes a -> wf_bytes b -> wf_bytes (a ⊼ b).
Proof. apply wf_bytes_zip. auto with aegis. Qed.

Lemma wf_bytes_le_bytes (n : nat) (x : Z) : wf_bytes (le_bytes n x).
Proof.
  revert x. induction n as [|n IH]; intros x; simpl; constructor; auto with aegis.
  apply IH.
Qed.

Lemma wf_bytes_rev (l : bytes) : wf_bytes l -> wf_bytes (rev l).
Proof. apply Forall_rev. Qed.

Lemma wf_bytes_be_bytes (n : nat) (x : Z) : wf_bytes (be_bytes n x).
Proof. apply wf_bytes_rev, wf_bytes_le_bytes. Qed.

#[export] Hint Resolve wf_bytes_nil wf_bytes_app_2 wf_bytes_take wf_bytes_drop wf_bytes_zeros
  wf_bytes_xor wf_bytes_and wf_bytes_le_bytes wf_bytes_be_bytes wf_bytes_rev : aegis.

Lemma get_wf (l : bytes) (i : nat) : wf_bytes l -> is_uint 8 (get l i).
Proof.
  intros Hl. unfold get. destruct (nth_in_or_default i l 0) as [Hin|Hd].
  - apply (proj1 (Forall_forall _ _) Hl). by apply list_elem_of_In.
  - rewrite Hd. unfold is_uint. lia.
Qed.
#[export] Hint Resolve get_wf : aegis.

(** ** XOR of byte strings *)

Lemma xor_bytes_length (a b : bytes) : length (a ⊻ b) = Nat.min (length a) (length b).
Proof. apply length_zip_with. Qed.

Lemma and_bytes_length (a b : bytes) : length (a ⊼ b) = Nat.min (length a) (length b).
Proof. apply length_zip_with. Qed.

Lemma xor_bytes_comm (a b : bytes) : a ⊻ b = b ⊻ a.
Proof.
  revert b. induction a as [|x a IH]; intros [|y b]; simpl; [done..|].
  unfold xor_bytes in *. simpl. by rewrite Z.lxor_comm, IH.
Qed.

Lemma xor_bytes_assoc (a b c : bytes) : a ⊻ (b ⊻ c) = a ⊻ b ⊻ c.
Proof.
  revert b c. induction a as [|x a IH]; intros [|y b] [|z c]; simpl; [done..|].
  unfold xor_bytes in *. simpl. by rewrite Z.lxor_assoc, IH.
Qed.

(** Encrypting twice with the same keystream gives the text back. *)
Lemma xor_bytes_cancel (a k : bytes) : (length a <= length k)%nat -> a ⊻ k ⊻ k = a.
Proof.
  revert k. induction a as [|x a IH]; intros [|y k] H; simpl in *; try done; [lia|].
  unfold xor_bytes in *. simpl. rewrite IH by lia.
  by rewrite Z.lxor_assoc, Z.lxor_nilpotent, Z.lxor_0_r.
Qed.

Lemma xor_bytes_zeros (a : bytes) (n : nat) : (length a <= n)%nat -> a ⊻ zeros n = a.
Proof.
  revert n. induction a as [|x a IH]; intros [|n] H; simpl in *; try done; [lia|].
  unfold xor_bytes, zeros in *. simpl. by rewrite Z.lxor_0_r, IH by lia.
Qed.

Lemma xor_bytes_take (n : nat) (a b : bytes) : take n (a ⊻ b) = take n a ⊻ take n b.
Proof. apply zip_with_take. Qed.

Lemma xor_bytes_app (a1 a2 b1 b2 : bytes) :
  length a1 = length b1 -> (a1 ++ a2) ⊻ (b1 ++ b2) = (a1 ⊻ b1) ++ (a2 ⊻ b2).
Proof. intros H. by apply zip_with_app. Qed.

Lemma get_xor_bytes (a b : bytes) (i : nat) :
  (i < length a)%nat -> length a = length b -> get (a ⊻ b) i = Z.lxor (get a i) (get b i).
Proof.
  revert b i. induction a as [|x a IH]; intros [|y b] i Hi H; simpl in *; try lia.
  destruct i; [done|]. apply (IH b i); lia.
Qed.

(** ** Endian encodings *)

Lemma le_bytes_length (n : nat) (x : Z) : length (le_bytes n x) = n.
Proof. revert x. induction n as [|n IH]; intros x; simpl; [done|]. by rewrite IH. Qed.

Lemma be_bytes_length (n : nat) (x : Z) : length (be_bytes n x) = n.
Proof. unfold be_bytes. by rewrite length_rev, le_bytes_length. Qed.

#[export] Hint Rewrite le_bytes_length be_bytes_length xor_bytes_length and_bytes_length : len.

Lemma le_value_le_bytes (n : nat) (x : Z) :
  le_value (le_bytes n x) = x mod 2 ^ (8 * Z.of_nat n).
Proof.
  revert x. induction n as [|n IH]; intros x; simpl.
  { by rewrite Z.mod_1_r. }
  rewrite IH. rewrite <- !Z.land_ones by lia. change 255 with (Z.ones 8).
  apply Z.bits_inj'. intros i Hi.
  rewrite Z.lor_spec, Z.shiftl_spec, !Z.land_spec by done.
  destruct (Z.ltb_spec i 8).
  - rewrite (Z.testbit_neg_r _ (i - 8)) by lia.
    simpl. rewrite !Z.testbit_ones_nonneg by lia.
    destruct (Z.ltb_spec i 8), (Z.ltb_spec i (8 * Z.of_nat (S n))); try lia.
    by rewrite orb_false_r.
  - rewrite Z.shiftr_spec by lia. rewrite !Z.testbit_ones_nonneg by lia.
    replace (i - 8 + 8) with i by lia.
    destruct (Z.ltb_spec i 8), (Z.ltb_spec (i - 8) (8 * Z.of_nat n)),
      (Z.ltb_spec i (8 * Z.of_nat (S n))); try lia; by rewrite ?andb_false_r.
Qed.

Lemma le_bytes_inj (n : nat) (x y : Z) :
  is_uint (8 * Z.of_nat n) x -> is_uint (8 * Z.of_nat n) y ->
  le_bytes n x = le_bytes n y -> x = y.
Proof.
  intros Hx Hy H%(f_equal le_value). rewrite !le_value_le_bytes in H.
  unfold is_uint in *. by rewrite !Z.mod_small in H.
Qed.

Lemma be_value_be_bytes (n : nat) (x : Z) :
  be_value (be_bytes n x) = x mod 2 ^ (8 * Z.of_nat n).
Proof. unfold be_value, be_bytes. by rewrite rev_involutive, le_value_le_bytes. Qed.

(** The 16-bit big-endian length field. *)
Lemma be16_roundtrip (n : Z) : is_uint 16 n ->
  Z.lor (Z.shiftl (Z.land (Z.shiftr n 8) 255) 8) (Z.land n 255) = n.
Proof.
  intros Hn. pose proof (le_value_le_bytes 2 n) as H. simpl in H.
  rewrite Z.shiftl_0_l, Z.lor_0_r, Z.lor_comm in H. rewrite H. by apply Z.mod_small.
Qed.

(** ** Lists *)

Lemma take_drop_app_split {A} (a b c : list A) (n m : nat) :
  length a = n -> length b = m -> take m (drop n (a ++ b ++ c)) = b.
Proof. intros <- <-. by rewrite drop_app_length, take_app_length. Qed.

Lemma divmod16 (n : nat) : (n = 16 * (n / 16) + n mod 16 /\ n mod 16 < 16)%nat.
Proof. split; [apply Nat.div_mod_eq | by apply Nat.mod_upper_bound]. Qed.

Lemma Forall_sublist {A} (P : A -> Prop) (l k : list A) : l `sublist_of` k -> Forall P k -> Forall P l.
Proof. induction 1; rewrite ?Forall_cons; naive_solver. Qed.

Lemma map_sublist {A B} (f : A -> B) (l k : list A) : l `sublist_of` k -> map f l `sublist_of` map f k.
Proof. induction 1; simpl; by constructor. Qed.
