(* ===== verification/Aes.v ===== *)
(** * Aes: the AES building blocks of src/crypto/aegis.c

    The S-box, GF(2^8) doubling, SubBytes, ShiftRows, MixColumns and the keyless
    AES round of the portable C backend, as functions on 16-byte lists; an
    independent transcription of the FIPS-197 transformations (finite-field
    inverse and affine map, row rotation, circulant matrix); and the theorem that
    the two agree on every block. *)

From S2P Require Import Prelude.

(** ** The C code *)

Definition aes_sbox : bytes :=
  [0x63; 0x7c; 0x77; 0x7b; 0xf2; 0x6b; 0x6f; 0xc5; 0x30; 0x01; 0x67; 0x2b; 0xfe; 0xd7; 0xab; 0x76;
   0xca; 0x82; 0xc9; 0x7d; 0xfa; 0x59; 0x47; 0xf0; 0xad; 0xd4; 0xa2; 0xaf; 0x9c; 0xa4; 0x72; 0xc0;
   0xb7; 0xfd; 0x93; 0x26; 0x36; 0x3f; 0xf7; 0xcc; 0x34; 0xa5; 0xe5; 0xf1; 0x71; 0xd8; 0x31; 0x15;
   0x04; 0xc7; 0x23; 0xc3; 0x18; 0x96; 0x05; 0x9a; 0x07; 0x12; 0x80; 0xe2; 0xeb; 0x27; 0xb2; 0x75;
   0x09; 0x83; 0x2c; 0x1a; 0x1b; 0x6e; 0x5a; 0xa0; 0x52; 0x3b; 0xd6; 0xb3; 0x29; 0xe3; 0x2f; 0x84;
   0x53; 0xd1; 0x00; 0xed; 0x20; 0xfc; 0xb1; 0x5b; 0x6a; 0xcb; 0xbe; 0x39; 0x4a; 0x4c; 0x58; 0xcf;
   0xd0; 0xef; 0xaa; 0xfb; 0x43; 0x4d; 0x33; 0x85; 0x45; 0xf9; 0x02; 0x7f; 0x50; 0x3c; 0x9f; 0xa8;
   0x51; 0xa3; 0x40; 0x8f; 0x92; 0x9d; 0x38; 0xf5; 0xbc; 0xb6; 0xda; 0x21; 0x10; 0xff; 0xf3; 0xd2;
   0xcd; 0x0c; 0x13; 0xec; 0x5f; 0x97; 0x44; 0x17; 0xc4; 0xa7; 0x7e; 0x3d; 0x64; 0x5d; 0x19; 0x73;
   0x60; 0x81; 0x4f; 0xdc; 0x22; 0x2a; 0x90; 0x88; 0x46; 0xee; 0xb8; 0x14; 0xde; 0x5e; 0x0b; 0xdb;
   0xe0; 0x32; 0x3a; 0x0a; 0x49; 0x06; 0x24; 0x5c; 0xc2; 0xd3; 0xac; 0x62; 0x91; 0x95; 0xe4; 0x79;
   0xe7; 0xc8; 0x37; 0x6d; 0x8d; 0xd5; 0x4e; 0xa9; 0x6c; 0x56; 0xf4; 0xea; 0x65; 0x7a; 0xae; 0x08;
   0xba; 0x78; 0x25; 0x2e; 0x1c; 0xa6; 0xb4; 0xc6; 0xe8; 0xdd; 0x74; 0x1f; 0x4b; 0xbd; 0x8b; 0x8a;
   0x70; 0x3e; 0xb5; 0x66; 0x48; 0x03; 0xf6; 0x0e; 0x61; 0x35; 0x57; 0xb9; 0x86; 0xc1; 0x1d; 0x9e;
   0xe1; 0xf8; 0x98; 0x11; 0x69; 0xd9; 0x8e; 0x94; 0x9b; 0x1e; 0x87; 0xe9; 0xce; 0x55; 0x28; 0xdf;
   0x8c; 0xa1; 0x89; 0x0d; 0xbf; 0xe6; 0x42; 0x68; 0x41; 0x99; 0x2d; 0x0f; 0xb0; 0x54; 0xbb; 0x16].

(** Multiply by 2 in GF(2^8). *)
Definition xtime (x : Z) : Z :=
  u8 (Z.lxor (u8 (Z.shiftl x 1)) (Z.land (Z.shiftr x 7) 1 * 0x1b)).

(** Multiply by 3 in GF(2^8). *)
Definition mul3 (x : Z) : Z := Z.lxor (xtime x) x.

Definition aes_sub_bytes (block : bytes) : bytes :=
  map (fun b => get aes_sbox (Z.to_nat b)) block.

Definition sr_perm : list nat :=
  [0; 5; 10; 15; 4; 9; 14; 3; 8; 13; 2; 7; 12; 1; 6; 11]%nat.

Definition aes_shift_rows (block : bytes) : bytes :=
  map (fun i => get block i) sr_perm.

(** One iteration of the column loop: columns are updated in place. *)
Definition aes_mix_column (block : bytes) (c : nat) : bytes :=
  let i := (c * 4)%nat in
  let a0 := get block (i + 0) in
  let a1 := get block (i + 1) in
  let a2 := get block (i + 2) in
  let a3 := get block (i + 3) in
  let block := <[(i + 0)%nat := Z.lxor (Z.lxor (Z.lxor (xtime a0) (mul3 a1)) a2) a3]> block in
  let block := <[(i + 1)%nat := Z.lxor (Z.lxor (Z.lxor a0 (xtime a1)) (mul3 a2)) a3]> block in
  let block := <[(i + 2)%nat := Z.lxor (Z.lxor (Z.lxor a0 a1) (xtime a2)) (mul3 a3)]> block in
  <[(i + 3)%nat := Z.lxor (Z.lxor (Z.lxor (mul3 a0) a1) a2) (xtime a3)]> block.

Definition aes_mix_columns (block : bytes) : bytes :=
  foldl aes_mix_column block [0; 1; 2; 3]%nat.

Definition aes_round (block : bytes) : bytes :=
  aes_mix_columns (aes_shift_rows (aes_sub_bytes block)).

Arguments aes_round : simpl never.
#[global] Strategy 1000 [aes_round aes_mix_columns aes_mix_column].

(** ** FIPS-197, transcribed independently of the code *)

Module Fips197.

(** Carry-less product of two polynomials of degree below 8, and reduction by
    m(x) = x^8 + x^4 + x^3 + x + 1 (section 4.2). *)
Definition clmul (a b : Z) : Z :=
  foldl (fun acc i => Z.lxor acc (if Z.testbit b (Z.of_nat i) then Z.shiftl a (Z.of_nat i) else 0))
    0 (seq 0 8).

Definition poly_reduce (a : Z) : Z :=
  foldr (fun i acc => if Z.testbit acc (Z.of_nat i + 8)
                      then Z.lxor acc (Z.shiftl 0x11b (Z.of_nat i)) else acc)
    a (seq 0 7).

Definition gmul (a b : Z) : Z := poly_reduce (clmul a b).

(** The product of a^2, a^4, ..., a^(2^n). *)
Fixpoint gsquares (n : nat) (a : Z) : Z :=
  match n with O => 1 | S n' => let s := gmul a a in gmul s (gsquares n' s) end.

(** The multiplicative inverse, with 0 mapped to itself: a^254, and
    254 = 2 + 4 + ... + 128. *)
Definition ginv (a : Z) : Z := gsquares 7 a.

(** The affine transformation over GF(2) of section 5.1.1. *)
Definition affine_bit (b : Z) (i : nat) : bool :=
  let bit k := Z.testbit b (Z.of_nat (k mod 8)) in
  xorb (xorb (xorb (xorb (xorb (bit i) (bit (i + 4)%nat)) (bit (i + 5)%nat))
    (bit (i + 6)%nat)) (bit (i + 7)%nat)) (Z.testbit 0x63 (Z.of_nat i)).

Definition affine (b : Z) : Z :=
  foldl (fun acc i => if affine_bit b i then Z.lor acc (Z.shiftl 1 (Z.of_nat i)) else acc)
    0 (seq 0 8).

Definition sbox (b : Z) : Z := affine (ginv b).

(** The state s\[r,c\] is byte r + 4c of the block (section 3.4). *)
Definition state_at (s : bytes) (r c : nat) : Z := get s (r + 4 * c).
Definition of_state (f : nat -> nat -> Z) : bytes :=
  flat_map (fun c => map (fun r => f r c) [0; 1; 2; 3]%nat) [0; 1; 2; 3]%nat.

Definition SubBytes (s : bytes) : bytes := of_state (fun r c => sbox (state_at s r c)).
Definition ShiftRows (s : bytes) : bytes := of_state (fun r c => state_at s r ((c + r) mod 4)).

(** The circulant matrix of section 5.1.3. *)
Definition mix_coeff (r k : nat) : Z := get [2; 3; 1; 1] ((k + 4 - r) mod 4).
Definition MixColumns (s : bytes) : bytes :=
  of_state (fun r c =>
    foldl Z.lxor 0 (map (fun k => gmul (mix_coeff r k) (state_at s k c)) [0; 1; 2; 3]%nat)).

(** One round with round key [k] (Cipher, section 5.1). *)
Definition Round (s k : bytes) : bytes := MixColumns (ShiftRows (SubBytes s)) ⊻ k.

End Fips197.

(** ** Lemmas *)

(** A property of every byte, decided by evaluation. *)
Lemma byte_forall (P : Z -> bool) :
  forallb (fun n => P (Z.of_nat n)) (seq 0 256) = true ->
  forall b, is_uint 8 b -> P b = true.
Proof.
  intros H b Hb. unfold is_uint in Hb. rewrite forallb_forall in H.
  rewrite <- (Z2Nat.id b) by lia. apply H, in_seq. lia.
Qed.

Lemma sbox_fips (b : Z) : is_uint 8 b -> get aes_sbox (Z.to_nat b) = Fips197.sbox b.
Proof.
  intros Hb. apply Z.eqb_eq. revert b Hb. apply byte_forall. vm_compute. reflexivity.
Qed.

Lemma sbox_byte (b : Z) : is_uint 8 b -> is_uint 8 (get aes_sbox (Z.to_nat b)).
Proof. intros _. apply get_wf, wf_bytesb_spec. reflexivity. Qed.

Lemma gmul_2_xtime (b : Z) : is_uint 8 b -> Fips197.gmul 2 b = xtime b.
Proof.
  intros Hb. apply Z.eqb_eq. revert b Hb. apply byte_forall. vm_compute. reflexivity.
Qed.

Lemma gmul_3_mul3 (b : Z) : is_uint 8 b -> Fips197.gmul 3 b = mul3 b.
Proof.
  intros Hb. apply Z.eqb_eq. revert b Hb. apply byte_forall. vm_compute. reflexivity.
Qed.

Lemma gmul_1 (b : Z) : is_uint 8 b -> Fips197.gmul 1 b = b.
Proof.
  intros Hb. apply Z.eqb_eq. revert b Hb. apply byte_forall. vm_compute. reflexivity.
Qed.

(** A 16-byte block. *)
Definition wf_block (b : bytes) : Prop := length b = 16%nat /\ wf_bytes b.

(** Expose the sixteen bytes of a block. *)
Ltac split16 b :=
  do 16 (destruct b as [|? b]; [discriminate|]); destruct b; [|discriminate].

Ltac wf_split :=
  repeat match goal with
  | H : wf_block _ |- _ => destruct H
  | H : wf_bytes (_ :: _) |- _ => apply wf_bytes_cons in H as [? ?]
  end.

Lemma xtime_byte (x : Z) : is_uint 8 (xtime x).
Proof. apply is_uint_u8. Qed.

Lemma mul3_byte (x : Z) : is_uint 8 x -> is_uint 8 (mul3 x).
Proof. intros. apply is_uint_lxor; [lia| apply xtime_byte | done]. Qed.
#[export] Hint Resolve xtime_byte mul3_byte sbox_byte : aegis.

Lemma aes_sub_bytes_wf (b : bytes) : wf_block b -> wf_block (aes_sub_bytes b).
Proof.
  intros [Hl Hb]. split; [unfold aes_sub_bytes; by len|].
  apply Forall_map. eapply Forall_impl; [exact Hb|]. intros. by apply sbox_byte.
Qed.

Lemma aes_shift_rows_wf (b : bytes) : wf_block b -> wf_block (aes_shift_rows b).
Proof. intros [Hl Hb]. split; [done|]. repeat (apply Forall_cons; split; [auto with aegis|]). constructor. Qed.

Lemma aes_mix_columns_wf (b : bytes) : wf_block b -> wf_block (aes_mix_columns b).
Proof.
  intros [Hl Hb]. split16 b. wf_split. split; [reflexivity|].
  cbv -[xtime mul3 Z.lxor is_uint wf_bytes].
  repeat (apply wf_bytes_cons; split; [auto 6 with aegis|]). constructor.
Qed.

Lemma aes_round_wf (b : bytes) : wf_block b -> wf_block (aes_round b).
Proof. intros. by apply aes_mix_columns_wf, aes_shift_rows_wf, aes_sub_bytes_wf. Qed.

Lemma aes_sub_bytes_fips (b : bytes) : wf_block b -> aes_sub_bytes b = Fips197.SubBytes b.
Proof.
  intros [Hl Hb]. transitivity (map Fips197.sbox b).
  - apply map_ext_Forall. eapply Forall_impl; [exact Hb|]. intros. by apply sbox_fips.
  - split16 b. reflexivity.
Qed.

Lemma aes_shift_rows_fips (b : bytes) : wf_block b -> aes_shift_rows b = Fips197.ShiftRows b.
Proof. intros [Hl _]. split16 b. reflexivity. Qed.

Lemma aes_mix_columns_fips (b : bytes) : wf_block b -> aes_mix_columns b = Fips197.MixColumns b.
Proof.
  intros [Hl Hb]. split16 b. wf_split.
  cbv -[xtime mul3 Z.lxor Fips197.gmul].
  rewrite !gmul_1, !gmul_2_xtime, !gmul_3_mul3, !Z.lxor_0_l by done. reflexivity.
Qed.

(** The FIPS-197 round is the keyless round of the code, then AddRoundKey. *)
Lemma fips_round_keyless (s k : bytes) : wf_block s -> Fips197.Round s k = aes_round s ⊻ k.
Proof.
  intros Hs. unfold Fips197.Round. rewrite <- aes_sub_bytes_fips by done.
  assert (H1 := aes_sub_bytes_wf s Hs). assert (H2 := aes_shift_rows_wf _ H1).
  by rewrite <- aes_shift_rows_fips, <- aes_mix_columns_fips by done.
Qed.

(** C22: the keyless AES round of the portable backend is the FIPS-197 round: the
    256-entry S-box is the field inverse followed by the affine map, [sr_perm] is
    the row rotation and the in-place column loop is the circulant product. *)
Theorem aes_round_is_fips197 (b : bytes) :
  wf_block b ->
  aes_round b = Fips197.MixColumns (Fips197.ShiftRows (Fips197.SubBytes b)).
Proof.
  intros Hb. unfold aes_round.
  rewrite aes_mix_columns_fips, aes_shift_rows_fips, aes_sub_bytes_fips;
    auto using aes_shift_rows_wf, aes_sub_bytes_wf.
Qed.

(** FIPS-197 appendix B, round 1: the block after the first AddRoundKey. *)
Definition appendix_b_start : bytes :=
  [0x19; 0x3d; 0xe3; 0xbe; 0xa0; 0xf4; 0xe2; 0x2b;
   0x9a; 0xc6; 0x8d; 0x2a; 0xe9; 0xf8; 0x48; 0x08].

Lemma aes_round_is_fips197_witness :
  wf_block appendix_b_start /\
  Fips197.MixColumns (Fips197.ShiftRows (Fips197.SubBytes appendix_b_start)) =
    [0x04; 0x66; 0x81; 0xe5; 0xe0; 0xcb; 0x19; 0x9a;
     0x48; 0xf8; 0xd3; 0x7a; 0x28; 0x06; 0x26; 0x4c].
Proof.
  assert (Hwf : wf_block appendix_b_start).
  { split; [reflexivity|]. apply wf_bytesb_spec. reflexivity. }
  split; [exact Hwf|].
  rewrite <- (aes_round_is_fips197 appendix_b_start Hwf). vm_compute. reflexivity.
Defined.
