(* ===== verification/AegisSpec.v ===== *)
(** * AegisSpec: AEGIS-128 as its specification describes it

    A transcription of the AEGIS-128 specification (the CAESAR submission of Wu
    and Preneel, version 1.1) that shares no definition with the code of
    src/crypto: the state is a sequence of five blocks, the AES round is the
    FIPS-197 round with a round key, messages are cut into zero-padded blocks and
    the ciphertext is the prefix of the masked blocks.

    The code departs from the published algorithm in four places: two bytes of
    the first constant, the initial contents of the fourth and fifth state word,
    the order in which the initialisation absorbs key and nonce, and what the
    finalisation absorbs.  These four are the fields of a [variant]; everything
    else is common.  [published] is the algorithm of the specification, checked
    on two of its test vectors, and [deployed] the variant that the program runs:
    [Aegis] proves that the code computes [encrypt deployed]. *)

From S2P Require Import Prelude Aes.

Module Spec.

(** ** The state *)

Definition word (s : list bytes) (i : nat) : bytes := nth i s [].

(** StateUpdate128: each word is the AES round of the word before it, with the
    old word as the round key; the message enters the first key. *)
Definition StateUpdate128 (s : list bytes) (m : bytes) : list bytes :=
  [Fips197.Round (word s 4) (word s 0 ⊻ m);
   Fips197.Round (word s 0) (word s 1);
   Fips197.Round (word s 1) (word s 2);
   Fips197.Round (word s 2) (word s 3);
   Fips197.Round (word s 3) (word s 4)].

(** The 32 bytes of the two constants: the Fibonacci sequence modulo 256. *)
Fixpoint fib_bytes (n : nat) (a b : Z) : bytes :=
  match n with O => [] | S n' => a :: fib_bytes n' b ((a + b) mod 256) end.

Definition const : bytes := fib_bytes 32 0 1.

(** ** What the published algorithm and the program do differently *)

Record variant := mkVariant {
  const0 : bytes;
  const1 : bytes;
  start3 : bytes -> bytes -> bytes;           (* key, nonce: the fourth word *)
  start4 : bytes -> bytes -> bytes;           (* and the fifth *)
  init_msg : bytes -> bytes -> nat -> bytes;  (* key, nonce, step 0..9 *)
  (* lengths in bytes, the state before the finalisation, the current state *)
  final_msg : nat -> nat -> list bytes -> list bytes -> bytes
}.

Definition sum_words (s : list bytes) : bytes := word s 0 ⊻ word s 1 ⊻ word s 2 ⊻ word s 3 ⊻ word s 4.

(** 64-bit little-endian lengths in bits. *)
Definition len_block (adlen mlen : nat) : bytes :=
  le_bytes 8 (8 * Z.of_nat adlen) ++ le_bytes 8 (8 * Z.of_nat mlen).

Definition published : variant := {|
  const0 := take 16 const;
  const1 := drop 16 const;
  start3 := fun k _ => k ⊻ take 16 const;
  start4 := fun k _ => k ⊻ drop 16 const;
  init_msg := fun k iv i => if Nat.even i then k else k ⊻ iv;
  final_msg := fun adlen mlen s _ => word s 3 ⊻ len_block adlen mlen
|}.

(** Bytes 10 and 14 of the first constant are 0x33 and 0x62 (the sequence has
    0x37 and 0x79); the fourth word starts as the key, the fifth as the sum of
    key and nonce; that sum is absorbed first; the finalisation absorbs the sum
    of the current words and no lengths. *)
Definition deployed : variant := {|
  const0 := <[10%nat := 0x33]> (<[14%nat := 0x62]> (take 16 const));
  const1 := drop 16 const;
  start3 := fun k _ => k;
  start4 := fun k iv => k ⊻ iv;
  init_msg := fun k iv i => if Nat.even i then k ⊻ iv else k;
  final_msg := fun _ _ _ s => sum_words s
|}.

(** ** The algorithm *)

(** The first [n] blocks of [l], the last one padded with zeros. *)
Fixpoint blocks (n : nat) (l : bytes) : list bytes :=
  match n with
  | O => []
  | S n' => take 16 (l ++ zeros 16) :: blocks n' (drop 16 l)
  end.

Definition padded (l : bytes) : list bytes := blocks ((length l + 15) / 16) l.

Section algorithm.
Context (v : variant).

Fixpoint iterate (n i : nat) (f : nat -> list bytes -> bytes) (s : list bytes) : list bytes :=
  match n with O => s | S n' => iterate n' (S i) f (StateUpdate128 s (f i s)) end.

Definition Initialization (key iv : bytes) : list bytes :=
  iterate 10 0 (fun i _ => init_msg v key iv i)
    [key ⊻ iv; const1 v; const0 v; start3 v key iv; start4 v key iv].

Definition Absorb (s : list bytes) (ad : bytes) : list bytes := foldl StateUpdate128 s (padded ad).

(** The mask of one block. *)
Definition mask (s : list bytes) : bytes := word s 1 ⊻ word s 4 ⊻ (word s 2 ⊼ word s 3).

Fixpoint Mask (s : list bytes) (ps : list bytes) : list bytes * bytes :=
  match ps with
  | [] => (s, [])
  | p :: ps' => let '(s', c) := Mask (StateUpdate128 s p) ps' in (s', (p ⊻ mask s) ++ c)
  end.

Definition Finalize (adlen mlen : nat) (s : list bytes) : bytes :=
  sum_words (iterate 7 0 (fun _ s' => final_msg v adlen mlen s s') s).

Definition encrypt (key iv ad m : bytes) : bytes * bytes :=
  let s := Absorb (Initialization key iv) ad in
  let '(s, c) := Mask s (padded m) in
  (take (length m) c, Finalize (length ad) (length m) s).
End algorithm.

End Spec.

(** ** Test vectors of the published algorithm *)

Lemma published_vector_1 :
  Spec.encrypt Spec.published (zeros 16) (zeros 16) [] (zeros 16) =
    ([0x95; 0x1b; 0x05; 0x0f; 0xa7; 0x2b; 0x1a; 0x2f; 0xc1; 0x6d; 0x2e; 0x1f; 0x01; 0xb0; 0x7d; 0x7e],
     [0xa7; 0xd2; 0xa9; 0x97; 0x73; 0x24; 0x95; 0x42; 0xf4; 0x22; 0x21; 0x7e; 0xe8; 0x88; 0xd5; 0xf1]).
Proof. vm_compute. reflexivity. Qed.

Lemma published_vector_2 :
  Spec.encrypt Spec.published
    [0x0f; 0xc9; 0x8e; 0x67; 0x44; 0x9e; 0xaa; 0x86; 0x20; 0x36; 0x2c; 0x24; 0xfe; 0xc9; 0x30; 0x81]
    [0x1e; 0x92; 0x1c; 0xcf; 0x88; 0x3d; 0x54; 0x0d; 0x40; 0x6d; 0x59; 0x48; 0xfc; 0x92; 0x61; 0x03] [] [] =
    ([], [0x07; 0xa5; 0x11; 0xf2; 0x9d; 0x40; 0xb8; 0x6d; 0xda; 0xb8; 0x12; 0x34; 0x4c; 0x53; 0xd9; 0x72]).
Proof. vm_compute. reflexivity. Qed.
