(* ===== verification/Aegis.v ===== *)
(** * Aegis: the portable AEGIS-128 backend of src/crypto/aegis.c

    The five-word state, its update function, the key stream, the streaming API
    ([aegis_init], [aegis_ad_update], [aegis_enc_update], [aegis_enc_final] and
    the decryption counterparts) and the one-shot functions, on byte lists.  A
    buffer argument [(ptr, len)] is the list of its [len] bytes; an output buffer
    is a result.  The [for] loops that step by 16 bytes are fixpoints on their
    number of iterations. *)

From S2P Require Import Prelude Aes AegisSpec.

Definition AEGIS_KEY_LEN : nat := 16.
Definition AEGIS_NONCE_LEN : nat := 16.
Definition AEGIS_TAG_LEN : nat := 16.

(** [aegis_state_t]: [uint8_t S\[5\]\[16\]]. *)
Record aegis_state_t := mkState { S0 : bytes; S1 : bytes; S2 : bytes; S3 : bytes; S4 : bytes }.

Definition xor5_blocks (a b c d e : bytes) : bytes := a ⊻ b ⊻ c ⊻ d ⊻ e.

(** All five rounds read the old state. *)
Definition state_update128 (st : aegis_state_t) (m : bytes) : aegis_state_t :=
  mkState
    (aes_round (S4 st) ⊻ S0 st ⊻ m)
    (aes_round (S0 st) ⊻ S1 st)
    (aes_round (S1 st) ⊻ S2 st)
    (aes_round (S2 st) ⊻ S3 st)
    (aes_round (S3 st) ⊻ S4 st).

Definition C0 : bytes :=
  [0x00; 0x01; 0x01; 0x02; 0x03; 0x05; 0x08; 0x0d;
   0x15; 0x22; 0x33; 0x59; 0x90; 0xe9; 0x62; 0x62].

Definition C1 : bytes :=
  [0xdb; 0x3d; 0x18; 0x55; 0x6d; 0xc2; 0x2f; 0xf1;
   0x20; 0x11; 0x31; 0x42; 0x73; 0xb5; 0x28; 0xdd].

Definition key_stream (st : aegis_state_t) : bytes :=
  S1 st ⊻ S4 st ⊻ (S2 st ⊼ S3 st).

(** One full block, encrypt direction: the state absorbs the plaintext. *)
Definition process_enc_block (st : aegis_state_t) (src : bytes) : aegis_state_t * bytes :=
  let ks := key_stream st in
  let dst := src ⊻ ks in
  (state_update128 st src, dst).

(** One full block, decrypt direction: the state absorbs the recovered plaintext. *)
Definition process_dec_block (st : aegis_state_t) (src : bytes) : aegis_state_t * bytes :=
  let ks := key_stream st in
  let dst := src ⊻ ks in
  (state_update128 st dst, dst).

Definition aegis_init_round (key kn : bytes) (st : aegis_state_t) (i : nat) : aegis_state_t :=
  if (i mod 2 =? 0)%nat then state_update128 st kn else state_update128 st key.

Definition aegis_init (key nonce : bytes) : aegis_state_t :=
  let kn := key ⊻ nonce in
  foldl (aegis_init_round key kn) (mkState kn C1 C0 key kn) (seq 0 10).

(** [memset(pad, 0, 16); memcpy(pad, p, rem)]. *)
Definition pad16 (p : bytes) : bytes := p ++ zeros (16 - length p).

Fixpoint ad_blocks (n : nat) (st : aegis_state_t) (ad : bytes) : aegis_state_t :=
  match n with
  | O => st
  | S n' => ad_blocks n' (state_update128 st (take 16 ad)) (drop 16 ad)
  end.

Definition aegis_ad_update (st : aegis_state_t) (ad : bytes) : aegis_state_t :=
  let n := (length ad / 16)%nat in
  let st := ad_blocks n st ad in
  let rest := drop (16 * n) ad in
  if (0 <? length rest)%nat then state_update128 st (pad16 rest) else st.

(** A loop that runs [process] on [n] consecutive 16-byte blocks of [src]. *)
Fixpoint block_loop (process : aegis_state_t -> bytes -> aegis_state_t * bytes)
    (n : nat) (st : aegis_state_t) (src : bytes) : aegis_state_t * bytes :=
  match n with
  | O => (st, [])
  | S n' =>
      let '(st1, d) := process st (take 16 src) in
      let '(st2, ds) := block_loop process n' st1 (drop 16 src) in
      (st2, d ++ ds)
  end.

(** [for (i = 0; i < len; i += 16)]: ceil(len/16) iterations; callers pass whole
    blocks. *)
Definition aegis_enc_update (st : aegis_state_t) (src : bytes) : aegis_state_t * bytes :=
  block_loop process_enc_block ((length src + 15) / 16) st src.

Definition aegis_dec_update (st : aegis_state_t) (src : bytes) : aegis_state_t * bytes :=
  block_loop process_dec_block ((length src + 15) / 16) st src.

(** The seven finalisation rounds shared by [aegis_enc_final] and
    [aegis_dec_final]. *)
Definition xor_state (st : aegis_state_t) : bytes :=
  xor5_blocks (S0 st) (S1 st) (S2 st) (S3 st) (S4 st).

Definition tag_round (p : aegis_state_t * bytes) (i : nat) : aegis_state_t * bytes :=
  let st := state_update128 (fst p) (snd p) in (st, xor_state st).

Definition aegis_tag (st : aegis_state_t) : bytes :=
  snd (foldl tag_round (st, xor_state st) (seq 0 7)).

#[global] Strategy 500 [state_update128 aegis_init].

(** [len & ~(size_t)15]. *)
Definition full_len (len : nat) : nat := (len - len mod 16)%nat.

Definition aegis_enc_final (st : aegis_state_t) (src : bytes) : bytes * bytes :=
  let full := full_len (length src) in
  let '(st, d1) := block_loop process_enc_block (full / 16) st src in
  let rest := drop full src in
  if (0 <? length rest)%nat then
    let ks := key_stream st in
    (d1 ++ rest ⊻ ks, aegis_tag (state_update128 st (pad16 rest)))
  else (d1, aegis_tag st).

(** [diff |= expected\[i\] ^ tag\[i\]]: the accumulator of the constant-time
    comparison. *)
Definition tag_diff (expected tag : bytes) : Z := foldl Z.lor 0 (expected ⊻ tag).

Definition aegis_dec_final (st : aegis_state_t) (src tag : bytes) : Z * bytes :=
  let full := full_len (length src) in
  let '(st, d1) := block_loop process_dec_block (full / 16) st src in
  let rest := drop full src in
  let '(st, dst) :=
    if (0 <? length rest)%nat then
      let ks := key_stream st in
      let d2 := rest ⊻ ks in
      (state_update128 st (pad16 d2), d1 ++ d2)
    else (st, d1) in
  let diff := tag_diff (aegis_tag st) tag in
  if negb (diff =? 0) then (-1, zeros (length src)) else (0, dst).

(** One-shot encryption: ciphertext and tag. *)
Definition aegis_pure_encrypt (key nonce ad m : bytes) : bytes * bytes :=
  let st := aegis_init key nonce in
  let st := if (0 <? length ad)%nat then aegis_ad_update st ad else st in
  let full_blocks := full_len (length m) in
  let '(st, c1) := if (0 <? full_blocks)%nat then aegis_enc_update st (take full_blocks m)
                   else (st, []) in
  let '(c2, tag) := aegis_enc_final st (drop full_blocks m) in
  (c1 ++ c2, tag).

(** One-shot decryption: return code and contents of the output buffer. *)
Definition aegis_pure_decrypt (key nonce ad c tag : bytes) : Z * bytes :=
  let st := aegis_init key nonce in
  let st := if (0 <? length ad)%nat then aegis_ad_update st ad else st in
  let full_blocks := full_len (length c) in
  let '(st, m1) := if (0 <? full_blocks)%nat then aegis_dec_update st (take full_blocks c)
                   else (st, []) in
  let '(ret, m2) := aegis_dec_final st (drop full_blocks c) tag in
  (ret, m1 ++ m2).

(** ** A reference definition

    One uniform rule for every 16-byte chunk of the input, the last one possibly
    shorter: output [chunk xor key_stream], absorb the zero-padded plaintext. *)

Module Ref.

Fixpoint chunks_aux (fuel : nat) (l : bytes) : list bytes :=
  match fuel, l with
  | O, _ | _, [] => []
  | S fuel', _ => take 16 l :: chunks_aux fuel' (drop 16 l)
  end.

Definition chunks16 (l : bytes) : list bytes := chunks_aux (length l) l.

Definition absorb (st : aegis_state_t) (ad : bytes) : aegis_state_t :=
  foldl (fun st b => state_update128 st (pad16 b)) st (chunks16 ad).

(** [dec] tells which side is the plaintext that the state absorbs. *)
Fixpoint crypt_chunks (dec : bool) (st : aegis_state_t) (bs : list bytes) : aegis_state_t * bytes :=
  match bs with
  | [] => (st, [])
  | b :: bs' =>
      let d := b ⊻ key_stream st in
      let '(st', ds) := crypt_chunks dec (state_update128 st (pad16 (if dec then d else b))) bs' in
      (st', d ++ ds)
  end.

Definition crypt (dec : bool) (st : aegis_state_t) (m : bytes) : aegis_state_t * bytes :=
  crypt_chunks dec st (chunks16 m).

Definition start (key nonce ad : bytes) : aegis_state_t := absorb (aegis_init key nonce) ad.

Definition encrypt (key nonce ad m : bytes) : bytes * bytes :=
  let '(st, c) := crypt false (start key nonce ad) m in (c, aegis_tag st).

(** The plaintext of [c] and the tag that authenticates it. *)
Definition open_raw (key nonce ad c : bytes) : bytes * bytes :=
  let '(st, m) := crypt true (start key nonce ad) c in (m, aegis_tag st).

End Ref.

(** ** Chunks *)

(** Induction on a byte string by leading 16-byte blocks. *)
Lemma blocks_ind (P : bytes -> Prop) :
  (forall l, (length l < 16)%nat -> P l) ->
  (forall b l, length b = 16%nat -> P l -> P (b ++ l)) ->
  forall l, P l.
Proof.
  intros Hs Hb l. remember (length l) as n eqn:Hn. revert l Hn.
  induction n as [n IH] using lt_wf_ind. intros l ->.
  destruct (decide (length l < 16)%nat); [by apply Hs|].
  rewrite <- (take_drop 16 l). apply Hb; [len|].
  eapply IH; [|done]. len.
Qed.

Lemma pad16_full (b : bytes) : length b = 16%nat -> pad16 b = b.
Proof. intros H. unfold pad16. by rewrite H, app_nil_r. Qed.

Lemma pad16_length (b : bytes) : (length b <= 16)%nat -> length (pad16 b) = 16%nat.
Proof. intros H. unfold pad16. len. Qed.

Lemma pad16_wf (b : bytes) : wf_bytes b -> wf_bytes (pad16 b).
Proof. intros. unfold pad16. auto with aegis. Qed.
#[export] Hint Resolve pad16_wf : aegis.

Lemma chunks_aux_fuel (n m : nat) (l : bytes) :
  (length l <= n)%nat -> (length l <= m)%nat -> Ref.chunks_aux n l = Ref.chunks_aux m l.
Proof.
  revert m l. induction n as [|n IH]; intros [|m] [|x l] Hn Hm; simpl in *; try done; try lia.
  f_equal. apply IH; len.
Qed.

Lemma chunks16_block (b l : bytes) :
  length b = 16%nat -> Ref.chunks16 (b ++ l) = b :: Ref.chunks16 l.
Proof.
  intros Hb. unfold Ref.chunks16. destruct b as [|x b]; [done|].
  change (length ((x :: b) ++ l)) with (S (length (b ++ l))).
  cbn [Ref.chunks_aux]. rewrite <- Hb, take_app_length, drop_app_length.
  destruct ((x :: b) ++ l) eqn:E; [done|]. f_equal. apply chunks_aux_fuel; len.
Qed.

Lemma chunks16_short (l : bytes) :
  (0 < length l <= 16)%nat -> Ref.chunks16 l = [l].
Proof.
  intros Hl. unfold Ref.chunks16. destruct l as [|x l]; [simpl in *; lia|].
  cbn [length Ref.chunks_aux]. rewrite take_ge by len. rewrite drop_ge by len.
  by destruct (length l).
Qed.

Lemma chunks16_app (a b : bytes) :
  (length a mod 16 = 0)%nat -> Ref.chunks16 (a ++ b) = Ref.chunks16 a ++ Ref.chunks16 b.
Proof.
  induction a as [l Hl|x l Hx IH] using blocks_ind.
  - rewrite Nat.mod_small by done. by intros ->%nil_length_inv.
  - rewrite length_app, Hx. replace (16 + length l)%nat with (length l + 1 * 16)%nat by lia.
    rewrite Nat.Div0.mod_add. intros Hm.
    rewrite <- app_assoc. rewrite (chunks16_block x l), (chunks16_block x (l ++ b)) by done.
    simpl. f_equal. by apply IH.
Qed.

(** Number of whole blocks of [b ++ l]. *)
Lemma div16_block (b l : bytes) :
  length b = 16%nat -> (length (b ++ l) / 16 = S (length l / 16))%nat.
Proof.
  intros Hb. rewrite length_app, Hb.
  replace (16 + length l)%nat with (1 * 16 + length l)%nat by lia.
  by rewrite Nat.div_add_l.
Qed.

Lemma drop_block (b l : bytes) (n : nat) :
  length b = 16%nat -> drop (16 * S n) (b ++ l) = drop (16 * n) l.
Proof.
  intros Hb. replace (16 * S n)%nat with (length b + 16 * n)%nat by lia.
  by rewrite <- drop_drop, drop_app_length.
Qed.

Lemma full_len_div (n : nat) : full_len n = (16 * (n / 16))%nat.
Proof. unfold full_len. pose proof (divmod16 n). lia. Qed.

Lemma full_len_div16 (n : nat) : (full_len n / 16 = n / 16)%nat.
Proof. rewrite full_len_div, Nat.mul_comm. by apply Nat.div_mul. Qed.

Lemma full_len_small (n : nat) : (n < 16)%nat -> full_len n = 0%nat.
Proof. intros. unfold full_len. rewrite Nat.mod_small by done. lia. Qed.

Lemma drop_full_length (l : bytes) : (length (drop (full_len (length l)) l) < 16)%nat.
Proof. rewrite length_drop, full_len_div. pose proof (divmod16 (length l)). lia. Qed.

(** ** The state invariant *)

#[export] Hint Rewrite @length_insert : len.

Definition wf_state (st : aegis_state_t) : Prop :=
  wf_block (S0 st) /\ wf_block (S1 st) /\ wf_block (S2 st) /\ wf_block (S3 st) /\ wf_block (S4 st).

(** Lengths only: enough for everything that does not look inside the S-box. *)
Definition len_state (st : aegis_state_t) : Prop :=
  length (S0 st) = 16%nat /\ length (S1 st) = 16%nat /\ length (S2 st) = 16%nat /\
  length (S3 st) = 16%nat /\ length (S4 st) = 16%nat.

Lemma aes_mix_column_length (b : bytes) (c : nat) : length (aes_mix_column b c) = length b.
Proof. unfold aes_mix_column. cbv zeta. by rewrite !length_insert. Qed.

Lemma aes_round_length (b : bytes) : length (aes_round b) = 16%nat.
Proof.
  unfold aes_round, aes_mix_columns. cbn [foldl].
  by rewrite !aes_mix_column_length.
Qed.
#[export] Hint Rewrite aes_round_length : len.

Lemma state_update128_len (st : aegis_state_t) (m : bytes) :
  len_state st -> length m = 16%nat -> len_state (state_update128 st m).
Proof.
  intros (?&?&?&?&?) Hm. unfold len_state, state_update128; cbn [S0 S1 S2 S3 S4].
  repeat split; len.
Qed.

Lemma state_update128_wf (st : aegis_state_t) (m : bytes) :
  wf_state st -> wf_block m -> wf_state (state_update128 st m).
Proof.
  intros ((?&?)&(?&?)&(?&?)&(?&?)&(?&?)) [Hl Hm].
  unfold wf_state, wf_block, state_update128; cbn [S0 S1 S2 S3 S4].
  repeat split; try (by len); repeat apply wf_bytes_xor; try done; by apply aes_round_wf.
Qed.

Lemma wf_state_len (st : aegis_state_t) : wf_state st -> len_state st.
Proof. unfold wf_state, wf_block, len_state. tauto. Qed.
#[export] Hint Resolve state_update128_len state_update128_wf wf_state_len pad16_length : aegis.

Lemma key_stream_len (st : aegis_state_t) : len_state st -> length (key_stream st) = 16%nat.
Proof. intros (?&?&?&?&?). unfold key_stream. len. Qed.

Lemma key_stream_wf (st : aegis_state_t) : wf_state st -> wf_bytes (key_stream st).
Proof. intros ((?&?)&(?&?)&(?&?)&(?&?)&(?&?)). unfold key_stream. auto with aegis. Qed.
#[export] Hint Resolve key_stream_wf : aegis.

Lemma xor_state_len (st : aegis_state_t) : len_state st -> length (xor_state st) = 16%nat.
Proof. intros (?&?&?&?&?). unfold xor_state, xor5_blocks. len. Qed.

Lemma xor_state_wf (st : aegis_state_t) : wf_state st -> wf_bytes (xor_state st).
Proof.
  intros ((?&?)&(?&?)&(?&?)&(?&?)&(?&?)). unfold xor_state, xor5_blocks.
  repeat (apply wf_bytes_xor; [|done]). done.
Qed.

Lemma C0_len : length C0 = 16%nat. Proof. reflexivity. Qed.
Lemma C1_len : length C1 = 16%nat. Proof. reflexivity. Qed.

Lemma foldl_invariant {A B} (P : A -> Prop) (f : A -> B -> A) (l : list B) (a : A) :
  P a -> (forall a b, P a -> P (f a b)) -> P (foldl f a l).
Proof. intros Ha Hf. revert a Ha. induction l; simpl; auto. Qed.

Lemma aegis_init_len (key nonce : bytes) :
  length key = 16%nat -> length nonce = 16%nat -> len_state (aegis_init key nonce).
Proof.
  intros Hk Hn. unfold aegis_init.
  assert (length (key ⊻ nonce) = 16%nat) by len.
  apply foldl_invariant; [by repeat split|].
  intros st i Hst. unfold aegis_init_round. case_match; auto with aegis.
Qed.

Lemma aegis_init_wf (key nonce : bytes) :
  wf_block key -> wf_block nonce -> wf_state (aegis_init key nonce).
Proof.
  intros [Hk Hk'] [Hn Hn']. unfold aegis_init.
  assert (wf_block (key ⊻ nonce)) by (split; [len | auto with aegis]).
  apply foldl_invariant.
  - split_and!; try done; (split; [reflexivity|]; apply wf_bytesb_spec; reflexivity).
  - intros st i Hst. unfold aegis_init_round. case_match; auto with aegis.
    by apply state_update128_wf.
Qed.

(** ** The C functions compute the reference *)

Lemma aegis_ad_update_ref (st : aegis_state_t) (ad : bytes) :
  aegis_ad_update st ad = Ref.absorb st ad.
Proof.
  revert st. induction ad as [l Hl|b l Hb IH] using blocks_ind; intros st.
  - unfold aegis_ad_update. rewrite (Nat.div_small _ _ Hl). simpl.
    destruct l as [|x l]; [done|]. unfold Ref.absorb.
    by rewrite chunks16_short by (simpl in *; lia).
  - unfold aegis_ad_update. rewrite div16_block, drop_block by done. cbn [ad_blocks].
    replace (take 16 (b ++ l)) with b by (by rewrite <- Hb, take_app_length).
    replace (drop 16 (b ++ l)) with l by (by rewrite <- Hb, drop_app_length).
    specialize (IH (state_update128 st b)). unfold aegis_ad_update in IH. rewrite IH.
    unfold Ref.absorb. rewrite (chunks16_block b l) by done. simpl. by rewrite pad16_full.
Qed.

Definition process (dec : bool) : aegis_state_t -> bytes -> aegis_state_t * bytes :=
  if dec then process_dec_block else process_enc_block.

Lemma block_loop_cons p (n : nat) (st : aegis_state_t) (b l : bytes) :
  length b = 16%nat ->
  block_loop p (S n) st (b ++ l) =
    let '(st1, d) := p st b in
    let '(st2, ds) := block_loop p n st1 l in (st2, d ++ ds).
Proof. intros Hb. simpl. by rewrite <- Hb, take_app_length, drop_app_length. Qed.

(** Only the first [16 * n] bytes are read. *)
Lemma block_loop_take p (n : nat) (st : aegis_state_t) (src : bytes) :
  block_loop p n st (take (16 * n) src) = block_loop p n st src.
Proof.
  revert st src. induction n as [|n IH]; intros st src; [done|]. cbn [block_loop].
  rewrite take_take, Nat.min_l by lia.
  replace (drop 16 (take (16 * S n) src)) with (take (16 * n) (drop 16 src)).
  - destruct (p st (take 16 src)). by rewrite IH.
  - rewrite take_drop_commute. do 2 f_equal. lia.
Qed.

(** Whole blocks by the loop, then the padded remainder: the reference. *)
Lemma block_loop_ref (dec : bool) (st : aegis_state_t) (m : bytes) :
  len_state st ->
  let '(st1, d1) := block_loop (process dec) (length m / 16) st m in
  let rest := drop (16 * (length m / 16)) m in
  let d2 := rest ⊻ key_stream st1 in
  len_state st1 /\
  Ref.crypt dec st m =
    if (0 <? length rest)%nat
    then (state_update128 st1 (pad16 (if dec then d2 else rest)), d1 ++ d2)
    else (st1, d1).
Proof.
  revert st. induction m as [l Hl|b l Hb IH] using blocks_ind; intros st Hst.
  - rewrite (Nat.div_small _ _ Hl). simpl. split; [done|]. unfold Ref.crypt.
    destruct l as [|x l]; [done|]. rewrite chunks16_short by (simpl in *; lia).
    simpl. by rewrite app_nil_r.
  - rewrite div16_block, drop_block, block_loop_cons by done.
    unfold Ref.crypt. rewrite chunks16_block by done. cbn [Ref.crypt_chunks].
    assert (Hd : length (b ⊻ key_stream st) = 16%nat)
      by (rewrite xor_bytes_length, key_stream_len by done; lia).
    set (a := if dec then b ⊻ key_stream st else b).
    assert (Ha : length a = 16%nat) by (unfold a; by destruct dec).
    assert (Hp : process dec st b = (state_update128 st (pad16 a), b ⊻ key_stream st))
      by (rewrite pad16_full by done; unfold a; by destruct dec).
    rewrite Hp. specialize (IH (state_update128 st (pad16 a))).
    rewrite pad16_full in * by done.
    destruct (block_loop (process dec) (length l / 16) _ l) as [st1 d1].
    destruct IH as [H1 H2]; [auto with aegis|]. split; [done|].
    unfold Ref.crypt in H2. rewrite H2. case_match; by rewrite ?app_assoc.
Qed.

(** The "process full blocks" step of the one-shot functions. *)
Lemma full_blocks_loop (dec : bool) (st : aegis_state_t) (m : bytes) :
  (if (0 <? full_len (length m))%nat
   then block_loop (process dec) ((length (take (full_len (length m)) m) + 15) / 16) st
          (take (full_len (length m)) m)
   else (st, [])) = block_loop (process dec) (length m / 16) st m.
Proof.
  rewrite full_len_div. pose proof (divmod16 (length m)) as [Hd Hlt].
  rewrite length_take, Nat.min_l by lia.
  replace ((16 * (length m / 16) + 15) / 16)%nat with (length m / 16)%nat.
  - rewrite block_loop_take. destruct (Nat.ltb_spec 0 (16 * (length m / 16))); [done|].
    by replace (length m / 16)%nat with 0%nat by lia.
  - rewrite (Nat.mul_comm 16), Nat.div_add_l by lia. change (15 / 16)%nat with 0%nat. lia.
Qed.

Lemma aegis_enc_final_short (st : aegis_state_t) (r : bytes) :
  (length r < 16)%nat ->
  aegis_enc_final st r =
    if (0 <? length r)%nat
    then (r ⊻ key_stream st, aegis_tag (state_update128 st (pad16 r)))
    else ([], aegis_tag st).
Proof. intros Hr. unfold aegis_enc_final. by rewrite full_len_small by done. Qed.

Lemma aegis_dec_final_short (st : aegis_state_t) (r tag : bytes) :
  (length r < 16)%nat ->
  aegis_dec_final st r tag =
    let d := r ⊻ key_stream st in
    let '(st', dst) := if (0 <? length r)%nat then (state_update128 st (pad16 d), d) else (st, []) in
    if negb (tag_diff (aegis_tag st') tag =? 0) then (-1, zeros (length r)) else (0, dst).
Proof. intros Hr. unfold aegis_dec_final. by rewrite full_len_small by done. Qed.

Lemma start_ref (key nonce ad : bytes) :
  (let st := aegis_init key nonce in
   if (0 <? length ad)%nat then aegis_ad_update st ad else st) = Ref.start key nonce ad.
Proof.
  unfold Ref.start. rewrite aegis_ad_update_ref. by destruct ad.
Qed.

Lemma absorb_len (st : aegis_state_t) (ad : bytes) : len_state st -> len_state (Ref.absorb st ad).
Proof.
  revert st. induction ad as [l Hl|b l Hb IH] using blocks_ind; intros st Hst; unfold Ref.absorb.
  - destruct l as [|x l]; [done|]. rewrite chunks16_short by (simpl in *; lia). simpl.
    apply state_update128_len; [done|]. apply pad16_length. lia.
  - rewrite chunks16_block by done. simpl. apply IH. rewrite pad16_full by done. auto with aegis.
Qed.

Lemma absorb_wf (st : aegis_state_t) (ad : bytes) :
  wf_state st -> wf_bytes ad -> wf_state (Ref.absorb st ad).
Proof.
  revert st. induction ad as [l Hl|b l Hb IH] using blocks_ind; intros st Hst Had; unfold Ref.absorb.
  - destruct l as [|x l]; [done|]. rewrite chunks16_short by (simpl in *; lia). simpl.
    apply state_update128_wf; [done|]. split; [apply pad16_length; lia | auto with aegis].
  - apply wf_bytes_app in Had as [? ?]. rewrite chunks16_block by done. simpl.
    apply IH; [|done]. rewrite pad16_full by done. by apply state_update128_wf.
Qed.

Lemma start_len (key nonce ad : bytes) :
  length key = 16%nat -> length nonce = 16%nat -> len_state (Ref.start key nonce ad).
Proof. intros. by apply absorb_len, aegis_init_len. Qed.

Lemma start_wf (key nonce ad : bytes) :
  wf_block key -> wf_block nonce -> wf_bytes ad -> wf_state (Ref.start key nonce ad).
Proof. intros. by apply absorb_wf; [apply aegis_init_wf|]. Qed.

Lemma pure_encrypt_ref (key nonce ad m : bytes) :
  length key = 16%nat -> length nonce = 16%nat ->
  aegis_pure_encrypt key nonce ad m = Ref.encrypt key nonce ad m.
Proof.
  intros Hk Hn. unfold aegis_pure_encrypt, aegis_enc_update, Ref.encrypt. cbv zeta.
  rewrite start_ref. pose proof (full_blocks_loop false (Ref.start key nonce ad) m) as E.
  unfold process in E. rewrite E.
  pose proof (block_loop_ref false _ m (start_len key nonce ad Hk Hn)) as R.
  unfold process in R. clear E. revert R.
  destruct (block_loop _ _ _ _) as [st1 d1]. intros [_ ->].
  rewrite aegis_enc_final_short by apply drop_full_length. rewrite full_len_div.
  destruct (0 <? length _)%nat; [done|]. by rewrite app_nil_r.
Qed.

Lemma block_loop_length (dec : bool) (n : nat) (st : aegis_state_t) (src : bytes) :
  len_state st -> (16 * n <= length src)%nat ->
  length (snd (block_loop (process dec) n st src)) = (16 * n)%nat.
Proof.
  revert st src. induction n as [|n IH]; intros st src Hst Hl; [done|]. cbn [block_loop].
  assert (Hks := key_stream_len st Hst).
  assert (Ht : length (take 16 src) = 16%nat) by len.
  assert (Hd : length (take 16 src ⊻ key_stream st) = 16%nat) by len.
  specialize (IH (state_update128 st (if dec then take 16 src ⊻ key_stream st else take 16 src))
    (drop 16 src)).
  destruct dec; simpl in *; destruct (block_loop _ _ _ _); simpl in *;
    rewrite length_app, IH, Hd; auto with aegis; len.
Qed.

(** On failure the buffer keeps the whole blocks and only the remainder is
    cleared: the caller of [aegis_dec_final] passes [m + full_blocks]. *)
Lemma pure_decrypt_ref (key nonce ad c tag : bytes) :
  length key = 16%nat -> length nonce = 16%nat ->
  aegis_pure_decrypt key nonce ad c tag =
    let '(m, expected) := Ref.open_raw key nonce ad c in
    if negb (tag_diff expected tag =? 0)
    then (-1, take (full_len (length c)) m ++ zeros (length c mod 16))
    else (0, m).
Proof.
  intros Hk Hn. unfold aegis_pure_decrypt, aegis_dec_update, Ref.open_raw. cbv zeta.
  rewrite start_ref. pose proof (full_blocks_loop true (Ref.start key nonce ad) c) as E.
  unfold process in E. rewrite E.
  pose proof (block_loop_ref true _ c (start_len key nonce ad Hk Hn)) as R.
  pose proof (block_loop_length true (length c / 16) _ c (start_len key nonce ad Hk Hn)) as L.
  pose proof (divmod16 (length c)) as [Hd Hlt].
  unfold process in R, L. clear E. revert R L.
  destruct (block_loop _ _ _ _) as [st1 d1]. intros [_ ->] L.
  rewrite aegis_dec_final_short by apply drop_full_length. rewrite full_len_div. cbv zeta.
  specialize (L ltac:(lia)). cbn [snd] in L.
  rewrite <- L. replace (length c mod 16)%nat with (length (drop (length d1) c)) by len.
  destruct (Nat.ltb_spec 0 (length (drop (length d1) c))) as [Hr|Hr].
  - rewrite take_app_length. by destruct (negb _).
  - rewrite firstn_all. destruct (negb _); [done|]. by rewrite app_nil_r.
Qed.

(** ** Involution, length and well-formedness of the reference *)

Lemma absorb_chunk_len (dec : bool) (st : aegis_state_t) (b : bytes) :
  len_state st -> (length b <= 16)%nat ->
  len_state (state_update128 st (pad16 (if dec then b ⊻ key_stream st else b))).
Proof.
  intros Hst Hb. apply state_update128_len; [done|]. apply pad16_length.
  destruct dec; rewrite ?xor_bytes_length; lia.
Qed.

Lemma absorb_chunk_wf (dec : bool) (st : aegis_state_t) (b : bytes) :
  wf_state st -> wf_bytes b -> (length b <= 16)%nat ->
  wf_state (state_update128 st (pad16 (if dec then b ⊻ key_stream st else b))).
Proof.
  intros Hst Hb Hl. apply state_update128_wf; [done|]. split.
  - apply pad16_length. destruct dec; rewrite ?xor_bytes_length; lia.
  - destruct dec; auto with aegis.
Qed.

(** Encrypting what decryption produced, or decrypting what encryption produced,
    gives the input back and ends in the same state. *)
Lemma crypt_involutive (dec : bool) (st : aegis_state_t) (m : bytes) :
  len_state st ->
  Ref.crypt (negb dec) st (snd (Ref.crypt dec st m)) = (fst (Ref.crypt dec st m), m).
Proof.
  revert st. induction m as [l Hl|b l Hb IH] using blocks_ind; intros st Hst; unfold Ref.crypt.
  - destruct l as [|x l]; [done|]. rewrite (chunks16_short (x :: l)) by (simpl in *; lia).
    cbn [Ref.crypt_chunks snd fst]. rewrite app_nil_r.
    assert (Hks := key_stream_len st Hst).
    rewrite chunks16_short by (rewrite xor_bytes_length, Hks; simpl in *; lia).
    cbn [Ref.crypt_chunks]. rewrite xor_bytes_cancel, app_nil_r by lia. by destruct dec.
  - rewrite chunks16_block by done. cbn [Ref.crypt_chunks].
    assert (Hks := key_stream_len st Hst).
    assert (Hd : length (b ⊻ key_stream st) = 16%nat) by (rewrite xor_bytes_length; lia).
    set (st' := state_update128 st _). specialize (IH st').
    unfold Ref.crypt in IH. destruct (Ref.crypt_chunks dec st' (Ref.chunks16 l)) as [st1 ds].
    cbn [snd fst] in *. rewrite (chunks16_block (b ⊻ key_stream st)) by done.
    cbn [Ref.crypt_chunks]. rewrite xor_bytes_cancel by lia.
    replace (if negb dec then b else b ⊻ key_stream st)
      with (if dec then b ⊻ key_stream st else b) by (by destruct dec).
    fold st'. rewrite IH; [done|]. apply absorb_chunk_len; [done|lia].
Qed.

Lemma crypt_length (dec : bool) (st : aegis_state_t) (m : bytes) :
  len_state st -> length (snd (Ref.crypt dec st m)) = length m.
Proof.
  revert st. induction m as [l Hl|b l Hb IH] using blocks_ind; intros st Hst; unfold Ref.crypt.
  - destruct l as [|x l]; [done|]. rewrite (chunks16_short (x :: l)) by (simpl in *; lia).
    cbn [Ref.crypt_chunks snd]. rewrite app_nil_r, xor_bytes_length, key_stream_len by done. lia.
  - rewrite chunks16_block by done. cbn [Ref.crypt_chunks].
    set (st' := state_update128 st _). specialize (IH st').
    unfold Ref.crypt in IH. destruct (Ref.crypt_chunks dec st' (Ref.chunks16 l)) as [st1 ds].
    cbn [snd] in *. rewrite !length_app, IH by (apply absorb_chunk_len; [done|lia]).
    rewrite xor_bytes_length, key_stream_len by done. lia.
Qed.

Lemma crypt_wf (dec : bool) (st : aegis_state_t) (m : bytes) :
  wf_state st -> wf_bytes m ->
  wf_state (fst (Ref.crypt dec st m)) /\ wf_bytes (snd (Ref.crypt dec st m)).
Proof.
  revert st. induction m as [l Hl|b l Hb IH] using blocks_ind; intros st Hst Hm; unfold Ref.crypt.
  - destruct l as [|x l]; [done|]. rewrite (chunks16_short (x :: l)) by (simpl in *; lia).
    cbn [Ref.crypt_chunks snd fst]. rewrite app_nil_r. split; [|auto with aegis].
    apply absorb_chunk_wf; [done..|lia].
  - apply wf_bytes_app in Hm as [Hb' Hl]. rewrite chunks16_block by done. cbn [Ref.crypt_chunks].
    set (st' := state_update128 st _).
    destruct (IH st') as [H1 H2]; [|done|].
    + apply absorb_chunk_wf; [done..|lia].
    + unfold Ref.crypt in *. destruct (Ref.crypt_chunks dec st' (Ref.chunks16 l)) as [st1 ds].
      cbn [snd fst] in *. auto with aegis.
Qed.

(** ** Tags *)

Lemma foldl_lor_zero (l : bytes) (a : Z) : foldl Z.lor a l = 0 <-> a = 0 /\ Forall (fun x => x = 0) l.
Proof.
  revert a. induction l as [|x l IH]; intros a; simpl.
  - split; [intros ->; by split | by intros [-> _]].
  - rewrite IH, Forall_cons, Z.lor_eq_0_iff. tauto.
Qed.

(** The constant-time accumulator is zero exactly on equal tags. *)
Lemma tag_diff_zero (a b : bytes) : length a = length b -> (tag_diff a b = 0 <-> a = b).
Proof.
  intros Hl. unfold tag_diff. rewrite foldl_lor_zero.
  revert b Hl. induction a as [|x a IH]; intros [|y b] Hl; try discriminate.
  { split; [done|]. intros _. split; [done|constructor]. }
  change ((x :: a) ⊻ (y :: b)) with (Z.lxor x y :: (a ⊻ b)).
  injection Hl as Hl. specialize (IH b Hl).
  rewrite Forall_cons, Z.lxor_eq_0_iff. split.
  - intros (_ & -> & H). f_equal. by apply IH.
  - intros [= -> ->]. split; [done|]. split; [done|]. by apply IH.
Qed.

Lemma aegis_tag_len (st : aegis_state_t) : len_state st -> length (aegis_tag st) = 16%nat.
Proof.
  intros Hst.
  apply (foldl_invariant (fun p => len_state (fst p) /\ length (snd p) = 16%nat)).
  - split; [done|]. by apply xor_state_len.
  - intros [s t] i [Hs Ht]. split; [|apply xor_state_len]; by apply state_update128_len.
Qed.

Lemma aegis_tag_wf (st : aegis_state_t) : wf_state st -> wf_bytes (aegis_tag st).
Proof.
  intros Hst.
  apply (foldl_invariant (fun p => wf_state (fst p) /\ wf_block (snd p))).
  - split; [done|]. split; [apply xor_state_len; auto with aegis | by apply xor_state_wf].
  - intros [s t] i [Hs Ht]. assert (H := state_update128_wf s t Hs Ht).
    split; [done|]. split; [apply xor_state_len; auto with aegis | by apply xor_state_wf].
Qed.

(** ** Encryption and decryption are inverse *)

Lemma open_encrypt (key nonce ad m : bytes) :
  length key = 16%nat -> length nonce = 16%nat ->
  Ref.open_raw key nonce ad (fst (Ref.encrypt key nonce ad m)) =
    (m, snd (Ref.encrypt key nonce ad m)).
Proof.
  intros Hk Hn. unfold Ref.open_raw, Ref.encrypt.
  pose proof (crypt_involutive false _ m (start_len key nonce ad Hk Hn)) as H.
  destruct (Ref.crypt false _ m) as [st c]. cbn [fst snd negb] in *. by rewrite H.
Qed.

Lemma encrypt_open (key nonce ad c : bytes) :
  length key = 16%nat -> length nonce = 16%nat ->
  Ref.encrypt key nonce ad (fst (Ref.open_raw key nonce ad c)) =
    (c, snd (Ref.open_raw key nonce ad c)).
Proof.
  intros Hk Hn. unfold Ref.open_raw, Ref.encrypt.
  pose proof (crypt_involutive true _ c (start_len key nonce ad Hk Hn)) as H.
  destruct (Ref.crypt true _ c) as [st m]. cbn [fst snd negb] in *. by rewrite H.
Qed.

Lemma ref_encrypt_lens (key nonce ad m : bytes) :
  length key = 16%nat -> length nonce = 16%nat ->
  length (fst (Ref.encrypt key nonce ad m)) = length m /\
  length (snd (Ref.encrypt key nonce ad m)) = 16%nat.
Proof.
  intros Hk Hn. unfold Ref.encrypt.
  pose proof (block_loop_ref false _ m (start_len key nonce ad Hk Hn)) as R.
  pose proof (crypt_length false _ m (start_len key nonce ad Hk Hn)) as L.
  destruct (block_loop _ _ _ _) as [st1 d1]. destruct R as [Hst1 R].
  destruct (Ref.crypt false _ m) as [st c]. split; [exact L|]. apply aegis_tag_len.
  pose proof (drop_full_length m) as Hr. rewrite full_len_div in Hr.
  destruct (0 <? length (drop (16 * (length m / 16)) m))%nat; injection R as -> _; [|exact Hst1].
  apply (absorb_chunk_len false); [exact Hst1 | lia].
Qed.

Lemma ref_open_lens (key nonce ad c : bytes) :
  length key = 16%nat -> length nonce = 16%nat ->
  length (fst (Ref.open_raw key nonce ad c)) = length c /\
  length (snd (Ref.open_raw key nonce ad c)) = 16%nat.
Proof.
  intros Hk Hn. pose proof (ref_encrypt_lens key nonce ad (fst (Ref.open_raw key nonce ad c)) Hk Hn) as H.
  rewrite encrypt_open in H by done. destruct H as [H1 H2].
  split; [symmetry; exact H1 | exact H2].
Qed.

Lemma ref_encrypt_wf (key nonce ad m : bytes) :
  wf_block key -> wf_block nonce -> wf_bytes ad -> wf_bytes m ->
  wf_bytes (fst (Ref.encrypt key nonce ad m)) /\ wf_bytes (snd (Ref.encrypt key nonce ad m)).
Proof.
  intros Hk Hn Ha Hm. unfold Ref.encrypt.
  pose proof (crypt_wf false _ m (start_wf key nonce ad Hk Hn Ha) Hm) as [? ?].
  destruct (Ref.crypt false _ m) as [st c]. cbn [fst snd] in *. split; [done|]. by apply aegis_tag_wf.
Qed.

(** Decryption in terms of the reference. *)
Lemma pure_decrypt_spec (key nonce ad c tag : bytes) :
  length key = 16%nat -> length nonce = 16%nat -> length tag = 16%nat ->
  aegis_pure_decrypt key nonce ad c tag =
    let '(m, expected) := Ref.open_raw key nonce ad c in
    if decide (expected = tag) then (0, m)
    else (-1, take (full_len (length c)) m ++ zeros (length c mod 16)).
Proof.
  intros Hk Hn Ht. rewrite pure_decrypt_ref by done.
  pose proof (ref_open_lens key nonce ad c Hk Hn) as [_ Hl].
  destruct (Ref.open_raw key nonce ad c) as [m e]. cbn [fst snd] in Hl.
  pose proof (tag_diff_zero e tag ltac:(lia)) as Hz.
  destruct (Z.eqb_spec (tag_diff e tag) 0), (decide (e = tag)); simpl; tauto.
Qed.

(** ** Streaming *)

Lemma crypt_app (dec : bool) (st : aegis_state_t) (a b : bytes) :
  (length a mod 16 = 0)%nat ->
  Ref.crypt dec st (a ++ b) =
    let '(st1, d1) := Ref.crypt dec st a in
    let '(st2, d2) := Ref.crypt dec st1 b in (st2, d1 ++ d2).
Proof.
  intros Ha. unfold Ref.crypt. rewrite chunks16_app by done. generalize (Ref.chunks16 a).
  intros l. revert st. induction l as [|x l IH]; intros st; cbn [app Ref.crypt_chunks].
  - by destruct (Ref.crypt_chunks dec st (Ref.chunks16 b)).
  - rewrite IH. destruct (Ref.crypt_chunks dec _ l) as [st1 d1].
    destruct (Ref.crypt_chunks dec st1 _). by rewrite app_assoc.
Qed.

Lemma update_ref (dec : bool) (st : aegis_state_t) (src : bytes) :
  len_state st -> (length src mod 16 = 0)%nat ->
  block_loop (process dec) ((length src + 15) / 16) st src = Ref.crypt dec st src /\
  len_state (fst (Ref.crypt dec st src)).
Proof.
  intros Hst Hm. pose proof (block_loop_ref dec st src Hst) as R.
  pose proof (divmod16 (length src)) as [Hd _]. rewrite Hm in Hd.
  replace ((length src + 15) / 16)%nat with (length src / 16)%nat.
  - destruct (block_loop _ _ _ _) as [st1 d1]. destruct R as [H1 ->].
    rewrite drop_ge by lia. split; done.
  - rewrite Hd at 2. rewrite Nat.add_0_r, (Nat.mul_comm 16), Nat.div_add_l by lia.
    change (15 / 16)%nat with 0%nat. lia.
Qed.

Lemma enc_final_ref (st : aegis_state_t) (src : bytes) :
  len_state st ->
  aegis_enc_final st src = let '(st', c) := Ref.crypt false st src in (c, aegis_tag st').
Proof.
  intros Hst. unfold aegis_enc_final. pose proof (block_loop_ref false st src Hst) as R.
  unfold process in R. cbv zeta. rewrite full_len_div16. rewrite full_len_div. revert R.
  destruct (block_loop _ _ _ _) as [st1 d1]. intros [_ ->].
  by destruct (0 <? length _)%nat.
Qed.

(** Zero bytes appended inside the last block change neither the state nor the
    leading ciphertext. *)
Lemma crypt_zero_pad (st : aegis_state_t) (m : bytes) (n : nat) :
  len_state st -> (0 < length m mod 16)%nat -> (length m mod 16 + n <= 16)%nat ->
  fst (Ref.crypt false st (m ++ zeros n)) = fst (Ref.crypt false st m) /\
  take (length m) (snd (Ref.crypt false st (m ++ zeros n))) = snd (Ref.crypt false st m).
Proof.
  revert st. induction m as [l Hl|b l Hb IH] using blocks_ind; intros st Hst H0 Hn.
  - rewrite Nat.mod_small in * by done. unfold Ref.crypt.
    assert (Hz : length (zeros n) = n) by apply length_replicate.
    rewrite !chunks16_short by (rewrite ?length_app; lia). cbn [Ref.crypt_chunks fst snd].
    rewrite !app_nil_r. pose proof (key_stream_len st Hst) as Hks. split.
    + f_equal. unfold pad16, zeros. rewrite <- app_assoc, <- replicate_add.
      rewrite length_app, length_replicate. do 2 f_equal. lia.
    + rewrite xor_bytes_take, take_app_length. rewrite <- (take_drop (length l) (key_stream st)) at 2.
      rewrite <- (app_nil_r l) at 3. rewrite xor_bytes_app by len.
      unfold xor_bytes at 3. simpl. by rewrite app_nil_r.
  - rewrite length_app, Hb in H0, Hn.
    replace (16 + length l)%nat with (length l + 1 * 16)%nat in H0, Hn by lia.
    rewrite Nat.Div0.mod_add in H0, Hn. rewrite <- app_assoc. unfold Ref.crypt.
    rewrite (chunks16_block b l), (chunks16_block b (l ++ zeros n)) by done. cbn [Ref.crypt_chunks].
    assert (Hst' := absorb_chunk_len false st b Hst ltac:(lia)). cbn [negb] in Hst'.
    destruct (IH _ Hst' H0 Hn) as [I1 I2]. unfold Ref.crypt in I1, I2.
    destruct (Ref.crypt_chunks false _ (Ref.chunks16 (l ++ zeros n))) as [s1 d1].
    destruct (Ref.crypt_chunks false _ (Ref.chunks16 l)) as [s2 d2]. cbn [fst snd] in *.
    split; [done|]. assert (Hd : length (b ⊻ key_stream st) = length b)
      by (rewrite xor_bytes_length, key_stream_len by done; lia).
    rewrite length_app, <- Hd, take_app_add. by f_equal.
Qed.

(** ** Theorems *)

(** *** The specification *)

(** The state as the specification has it. *)
Definition words (st : aegis_state_t) : list bytes := [S0 st; S1 st; S2 st; S3 st; S4 st].

Lemma update_spec (st : aegis_state_t) (m : bytes) :
  wf_state st -> Spec.StateUpdate128 (words st) m = words (state_update128 st m).
Proof.
  intros (H0 & H1 & H2 & H3 & H4). unfold Spec.StateUpdate128, words, Spec.word. cbn [nth].
  rewrite !fips_round_keyless by done. rewrite xor_bytes_assoc. reflexivity.
Qed.

(** The counted loops of the specification are the [for] loops of the code. *)
Lemma iterate_spec (P : aegis_state_t -> Prop) (f : nat -> list bytes -> bytes) (g : aegis_state_t -> nat -> aegis_state_t) (n : nat) :
  (forall st i, P st -> P (g st i) /\ Spec.StateUpdate128 (words st) (f i (words st)) = words (g st i)) ->
  forall i st, P st -> Spec.iterate n i f (words st) = words (foldl g st (seq i n)) /\ P (foldl g st (seq i n)).
Proof.
  intros Hg. induction n as [|n IH]; intros i st Hst; [done|]. cbn [Spec.iterate seq foldl].
  destruct (Hg st i Hst) as [Hp ->]. by apply IH.
Qed.

Lemma even_mod2 (i : nat) : Nat.even i = (i mod 2 =? 0)%nat.
Proof.
  rewrite <- Nat.bit0_mod, <- Nat.negb_odd, Nat.bit0_odd. by destruct (Nat.odd i).
Qed.

Lemma init_spec (key nonce : bytes) :
  wf_block key -> wf_block nonce -> Spec.Initialization Spec.deployed key nonce = words (aegis_init key nonce).
Proof.
  intros Hk Hn. unfold Spec.Initialization, aegis_init.
  assert (wf_block (key ⊻ nonce)) as Hkn by (destruct Hk, Hn; split; [len | auto with aegis]).
  change [_; _; _; _; _] with (words (mkState (key ⊻ nonce) C1 C0 key (key ⊻ nonce))).
  apply (iterate_spec wf_state).
  - intros st i Hst. unfold aegis_init_round. cbn [Spec.init_msg Spec.deployed].
    rewrite <- even_mod2. destruct (Nat.even i); (split; [by apply state_update128_wf | by apply update_spec]).
  - split_and!; try done; (split; [reflexivity|]; apply wf_bytesb_spec; reflexivity).
Qed.

Lemma sum_words_spec (st : aegis_state_t) : Spec.sum_words (words st) = xor_state st.
Proof. reflexivity. Qed.

Lemma xor_state_block (st : aegis_state_t) : wf_state st -> wf_block (xor_state st).
Proof. intros H. split; [apply xor_state_len; auto with aegis | by apply xor_state_wf]. Qed.

(** The code keeps the sum of the words beside the state. *)
Lemma tag_rounds (n i : nat) (st : aegis_state_t) :
  foldl tag_round (st, xor_state st) (seq i n) =
    (let st' := foldl (fun st _ => state_update128 st (xor_state st)) st (seq i n) in (st', xor_state st')).
Proof. revert i st. induction n as [|n IH]; intros i st; [done|]. cbn [seq foldl]. apply IH. Qed.

Lemma finalize_spec (adlen mlen : nat) (st : aegis_state_t) :
  wf_state st -> Spec.Finalize Spec.deployed adlen mlen (words st) = aegis_tag st.
Proof.
  intros Hst. unfold Spec.Finalize, aegis_tag. rewrite tag_rounds. cbn [snd].
  rewrite <- sum_words_spec. f_equal.
  apply (iterate_spec wf_state _ (fun st _ => state_update128 st (xor_state st))); [|done].
  intros st' i H'. split; [apply state_update128_wf; [done|by apply xor_state_block]|].
  cbn [Spec.final_msg Spec.deployed]. rewrite sum_words_spec. by apply update_spec.
Qed.

Lemma padded_block (b l : bytes) : length b = 16%nat -> Spec.padded (b ++ l) = b :: Spec.padded l.
Proof.
  intros Hb. unfold Spec.padded.
  replace ((length (b ++ l) + 15) / 16)%nat with (S ((length l + 15) / 16)).
  - cbn [Spec.blocks]. rewrite <- app_assoc, <- Hb, take_app_length, drop_app_length. done.
  - rewrite length_app, Hb. replace (16 + length l + 15)%nat with (1 * 16 + (length l + 15))%nat by lia.
    by rewrite Nat.div_add_l.
Qed.

Lemma padded_short (l : bytes) : (0 < length l < 16)%nat -> Spec.padded l = [pad16 l].
Proof.
  intros Hl. unfold Spec.padded. replace ((length l + 15) / 16)%nat with 1%nat.
  - cbn [Spec.blocks]. unfold pad16, zeros. rewrite take_app, take_replicate.
    rewrite take_ge by lia. do 3 f_equal. lia.
  - apply (Nat.div_unique _ _ _ (length l - 1)); lia.
Qed.

Lemma absorb_spec (st : aegis_state_t) (ad : bytes) :
  wf_state st -> wf_bytes ad -> Spec.Absorb (words st) ad = words (Ref.absorb st ad).
Proof.
  unfold Spec.Absorb, Ref.absorb. revert st. induction ad as [l Hl|b l Hb IH] using blocks_ind; intros st Hst Had.
  - destruct l as [|x l]; [done|]. rewrite padded_short, chunks16_short by (simpl in *; lia). cbn [foldl].
    by apply update_spec.
  - apply wf_bytes_app in Had as [? ?]. rewrite padded_block, chunks16_block by done. cbn [foldl].
    rewrite pad16_full, update_spec by done. apply IH; [by apply state_update128_wf|done].
Qed.

(** The masked blocks, cut to the length of the message. *)
Lemma mask_spec (st : aegis_state_t) (m : bytes) :
  wf_state st -> wf_bytes m ->
  let '(s, c) := Spec.Mask (words st) (Spec.padded m) in
  s = words (fst (Ref.crypt false st m)) /\ take (length m) c = snd (Ref.crypt false st m).
Proof.
  unfold Ref.crypt. revert st. induction m as [l Hl|b l Hb IH] using blocks_ind; intros st Hst Hm.
  - destruct l as [|x l]; [done|]. rewrite padded_short, chunks16_short by (simpl in *; lia).
    set (r := x :: l) in *. cbn [Spec.Mask Ref.crypt_chunks fst snd]. rewrite update_spec, !app_nil_r by done.
    split; [done|]. change (Spec.mask (words st)) with (key_stream st).
    rewrite xor_bytes_take. unfold pad16. rewrite take_app_length.
    pose proof (key_stream_len st (wf_state_len _ Hst)).
    rewrite <- (take_drop (length r) (key_stream st)) at 2.
    rewrite <- (app_nil_r r) at 3. rewrite xor_bytes_app by len. simpl. by rewrite app_nil_r.
  - apply wf_bytes_app in Hm as [? ?]. rewrite padded_block, chunks16_block by done. cbn [Spec.Mask Ref.crypt_chunks].
    rewrite pad16_full, update_spec by done. specialize (IH (state_update128 st b)).
    destruct (Spec.Mask _ _) as [s c], (Ref.crypt_chunks _ _ _) as [st' d]. cbn [fst snd] in *.
    destruct IH as [-> <-]; [by apply state_update128_wf|done|]. split; [done|].
    change (Spec.mask (words st)) with (key_stream st).
    pose proof (key_stream_len st (wf_state_len _ Hst)).
    rewrite length_app, take_app, take_ge by len. f_equal. f_equal. len.
Qed.

(** C10: the one-shot encryption computes the AEGIS-128 of the specification in
    the variant [deployed]: for every key, nonce, associated data and message,
    ciphertext and tag are those of the algorithm stated on FIPS-197 rounds,
    Fibonacci constants and zero-padded blocks, changed in the four places in
    which the program departs from the published one. *)
Theorem aegis_pure_encrypt_is_reference (key nonce ad m : bytes) :
  wf_block key -> wf_block nonce -> wf_bytes ad -> wf_bytes m ->
  aegis_pure_encrypt key nonce ad m = Spec.encrypt Spec.deployed key nonce ad m.
Proof.
  intros Hk Hn Ha Hm. rewrite pure_encrypt_ref by (by destruct Hk, Hn).
  unfold Spec.encrypt, Ref.encrypt. rewrite init_spec, absorb_spec by (try apply aegis_init_wf; done).
  change (Ref.absorb (aegis_init key nonce) ad) with (Ref.start key nonce ad).
  assert (Hs := start_wf key nonce ad Hk Hn Ha). pose proof (mask_spec _ m Hs Hm) as H.
  pose proof (proj1 (crypt_wf false _ m Hs Hm)) as Hw.
  destruct (Spec.Mask _ _) as [s c], (Ref.crypt false _ m) as [st d]. cbn [fst snd] in *. destruct H as [-> ->].
  by rewrite finalize_spec.
Qed.

(** The published algorithm gives other ciphertexts and tags. *)
Lemma deployed_is_not_published :
  aegis_pure_encrypt (zeros 16) (zeros 16) [] (zeros 16) <> Spec.encrypt Spec.published (zeros 16) (zeros 16) [] (zeros 16).
Proof. rewrite published_vector_1. vm_compute. discriminate. Qed.

(** Decryption inverts encryption: for every key, nonce, associated data and
    message, decrypting the ciphertext with its tag returns 0 and the message. *)
Theorem aegis_pure_roundtrip (key nonce ad m : bytes) :
  length key = AEGIS_KEY_LEN -> length nonce = AEGIS_NONCE_LEN ->
  let '(c, tag) := aegis_pure_encrypt key nonce ad m in
  length c = length m /\ length tag = AEGIS_TAG_LEN /\
  aegis_pure_decrypt key nonce ad c tag = (0, m).
Proof.
  intros Hk Hn. rewrite pure_encrypt_ref by done.
  pose proof (ref_encrypt_lens key nonce ad m Hk Hn) as [Hc Ht].
  pose proof (open_encrypt key nonce ad m Hk Hn) as Ho.
  destruct (Ref.encrypt key nonce ad m) as [c tag]. cbn [fst snd] in *.
  split; [done|]. split; [done|]. rewrite pure_decrypt_spec by done. rewrite Ho.
  by rewrite decide_True.
Qed.

(** C11: decryption accepts exactly the outputs of encryption: it returns 0 with
    plaintext [m] if and only if the ciphertext and tag are what encryption of [m]
    produces under the same key, nonce and associated data. *)
Theorem aegis_pure_accepts_exactly (key nonce ad c tag m : bytes) :
  length key = AEGIS_KEY_LEN -> length nonce = AEGIS_NONCE_LEN -> length tag = AEGIS_TAG_LEN ->
  (aegis_pure_decrypt key nonce ad c tag = (0, m) <->
   aegis_pure_encrypt key nonce ad m = (c, tag)).
Proof.
  intros Hk Hn Ht. rewrite pure_encrypt_ref, pure_decrypt_spec by done. split.
  - pose proof (encrypt_open key nonce ad c Hk Hn) as He.
    destruct (Ref.open_raw key nonce ad c) as [m' e]. cbn [fst snd] in He.
    destruct (decide (e = tag)) as [->|]; intros [= ->]. done.
  - intros E. pose proof (open_encrypt key nonce ad m Hk Hn) as Ho. rewrite E in Ho.
    cbn [fst snd] in Ho. rewrite Ho. by rewrite decide_True.
Qed.

(** What a failed decryption leaves in the output buffer: with any wrong tag
    the call returns -1, but every whole 16-byte block of the buffer holds the
    decrypted plaintext; only the trailing partial block is cleared. *)
Theorem aegis_pure_reject_leaves_blocks (key nonce ad m tag' : bytes) :
  length key = AEGIS_KEY_LEN -> length nonce = AEGIS_NONCE_LEN -> length tag' = AEGIS_TAG_LEN ->
  tag' <> snd (aegis_pure_encrypt key nonce ad m) ->
  aegis_pure_decrypt key nonce ad (fst (aegis_pure_encrypt key nonce ad m)) tag' =
    (-1, take (full_len (length m)) m ++ zeros (length m mod 16)).
Proof.
  intros Hk Hn Ht Hne. rewrite pure_encrypt_ref in * by done.
  rewrite pure_decrypt_spec, open_encrypt by done.
  rewrite decide_False by congruence. by rewrite (proj1 (ref_encrypt_lens key nonce ad m Hk Hn)).
Qed.

(** The streaming API agrees with the one-shot call: initialise, absorb the
    associated data, encrypt any whole number of blocks with [aegis_enc_update],
    then any remainder of any length with [aegis_enc_final]; the concatenated
    output and the tag are those of [aegis_pure_encrypt]. *)
Theorem aegis_streaming_is_oneshot (key nonce ad a b : bytes) :
  length key = AEGIS_KEY_LEN -> length nonce = AEGIS_NONCE_LEN -> (length a mod 16 = 0)%nat ->
  let '(st, c1) := aegis_enc_update (aegis_ad_update (aegis_init key nonce) ad) a in
  let '(c2, tag) := aegis_enc_final st b in
  aegis_pure_encrypt key nonce ad (a ++ b) = (c1 ++ c2, tag).
Proof.
  intros Hk Hn Ha. rewrite pure_encrypt_ref, aegis_ad_update_ref by done.
  pose proof (update_ref false _ a (start_len key nonce ad Hk Hn) Ha) as [E Hl].
  unfold process, Ref.start in *. unfold aegis_enc_update. rewrite E. clear E.
  unfold Ref.encrypt, Ref.start. rewrite crypt_app by done.
  destruct (Ref.crypt false _ a) as [st c1]. rewrite enc_final_ref by done.
  by destruct (Ref.crypt false st b).
Qed.

(** The tag does not bind the length of the message: appending zero bytes
    inside the last, partial block leaves the tag unchanged, so cutting them off
    the ciphertext yields a message that still authenticates. *)
Theorem aegis_tag_ignores_zero_padding (key nonce ad m : bytes) (n : nat) :
  length key = AEGIS_KEY_LEN -> length nonce = AEGIS_NONCE_LEN ->
  (0 < length m mod 16)%nat -> (length m mod 16 + n <= 16)%nat ->
  let '(c, tag) := aegis_pure_encrypt key nonce ad (m ++ zeros n) in
  aegis_pure_decrypt key nonce ad (take (length m) c) tag = (0, m).
Proof.
  intros Hk Hn H0 Hp. rewrite pure_encrypt_ref by done.
  pose proof (crypt_zero_pad _ m n (start_len key nonce ad Hk Hn) H0 Hp) as [P1 P2].
  pose proof (ref_encrypt_lens key nonce ad m Hk Hn) as [_ Ht].
  pose proof (open_encrypt key nonce ad m Hk Hn) as Ho. unfold Ref.encrypt in *.
  destruct (Ref.crypt false _ (m ++ zeros n)) as [s1 d1].
  destruct (Ref.crypt false _ m) as [s2 d2]. cbn [fst snd] in *. subst s1.
  rewrite pure_decrypt_spec, P2, Ho by done. by rewrite decide_True.
Qed.

(** Byte ranges are preserved: on byte inputs every output of encryption is a
    sequence of bytes, so no intermediate value leaves its [uint8_t]. *)
Theorem aegis_pure_encrypt_bytes (key nonce ad m : bytes) :
  wf_block key -> wf_block nonce -> wf_bytes ad -> wf_bytes m ->
  wf_bytes (fst (aegis_pure_encrypt key nonce ad m)) /\
  wf_bytes (snd (aegis_pure_encrypt key nonce ad m)).
Proof.
  intros [Hk Hk'] [Hn Hn'] Ha Hm. rewrite pure_encrypt_ref by done.
  by apply ref_encrypt_wf.
Qed.

(** The Fibonacci numbers modulo 256, as the AEGIS specification lists them. *)
Fixpoint fib_bytes (n : nat) (a b : Z) : bytes :=
  match n with O => [] | S n' => a :: fib_bytes n' b (u8 (a + b)) end.

(** The initialisation constant [C1] is the second half of the 32 first
    Fibonacci numbers modulo 256, as its comment says; [C0] is the first half
    except at bytes 10 and 14, which the code has as 0x33 and 0x62 where the
    sequence has 0x37 and 0x79. *)
Theorem aegis_constants_fibonacci :
  C1 = drop 16 (fib_bytes 32 0 1) /\
  C0 = <[10%nat := 0x33]> (<[14%nat := 0x62]> (take 16 (fib_bytes 32 0 1))) /\
  get (fib_bytes 32 0 1) 10 = 0x37 /\ get (fib_bytes 32 0 1) 14 = 0x79.
Proof. vm_compute. repeat split. Qed.

(** Absorbing the associated data in two calls is the same as in one call when the
    first chunk is a whole number of blocks ... *)
Lemma aegis_ad_update_app (st : aegis_state_t) (a b : bytes) :
  (length a mod 16 = 0)%nat ->
  aegis_ad_update (aegis_ad_update st a) b = aegis_ad_update st (a ++ b).
Proof.
  intros Ha. rewrite !aegis_ad_update_ref. unfold Ref.absorb.
  by rewrite chunks16_app, foldl_app.
Qed.

(** ... and not otherwise: each call pads its own last block. *)
Example aegis_ad_update_misaligned :
  aegis_ad_update (aegis_ad_update (aegis_init (zeros 16) (zeros 16)) [1]) [2] <>
  aegis_ad_update (aegis_init (zeros 16) (zeros 16)) [1; 2].
Proof. intros H%(f_equal (fun s => get (S0 s) 0)). vm_compute in H. discriminate. Qed.

(** ** Witnesses *)

Definition demo_key : bytes := le_bytes 16 0x0f0e0d0c0b0a09080706050403020100.
Definition demo_nonce : bytes := le_bytes 16 0x1f1e1d1c1b1a19181716151413121110.
Definition demo_ad : bytes := [1; 0; 3].
Definition demo_msg : bytes := le_bytes 20 0x4847464544434241403f3e3d3c3b3a3938373635.

Lemma demo_key_block : wf_block demo_key.
Proof. split; [reflexivity|]. apply wf_bytesb_spec. reflexivity. Qed.
Lemma demo_nonce_block : wf_block demo_nonce.
Proof. split; [reflexivity|]. apply wf_bytesb_spec. reflexivity. Qed.

Lemma aegis_pure_encrypt_is_reference_witness :
  length demo_msg = 20%nat /\
  aegis_pure_encrypt demo_key demo_nonce demo_ad demo_msg =
    Spec.encrypt Spec.deployed demo_key demo_nonce demo_ad demo_msg.
Proof.
  split; [reflexivity|].
  apply aegis_pure_encrypt_is_reference; try (split; [reflexivity|]); apply wf_bytesb_spec; reflexivity.
Defined.

Lemma aegis_pure_roundtrip_witness :
  let '(c, tag) := aegis_pure_encrypt demo_key demo_nonce demo_ad demo_msg in
  length c = 20%nat /\ length tag = 16%nat /\
  aegis_pure_decrypt demo_key demo_nonce demo_ad c tag = (0, demo_msg).
Proof. exact (aegis_pure_roundtrip demo_key demo_nonce demo_ad demo_msg eq_refl eq_refl). Defined.

(** What encryption made of a 20-byte message is accepted, with an all-zero tag it
    is not. *)
Lemma aegis_pure_accepts_exactly_witness :
  let '(c, tag) := aegis_pure_encrypt demo_key demo_nonce demo_ad demo_msg in
  aegis_pure_decrypt demo_key demo_nonce demo_ad c tag = (0, demo_msg) /\
  aegis_pure_decrypt demo_key demo_nonce demo_ad c (zeros 16) <> (0, demo_msg).
Proof.
  destruct (aegis_pure_encrypt demo_key demo_nonce demo_ad demo_msg) as [c tag] eqn:E.
  assert (length tag = 16%nat) as Ht by (vm_compute in E; injection E as <- <-; reflexivity).
  split.
  - apply (aegis_pure_accepts_exactly demo_key demo_nonce demo_ad c tag demo_msg eq_refl eq_refl Ht). exact E.
  - intros H. apply (aegis_pure_accepts_exactly demo_key demo_nonce demo_ad c (zeros 16) demo_msg eq_refl eq_refl eq_refl) in H.
    vm_compute in H, E. rewrite E in H. injection E as <- <-. discriminate H.
Defined.

(** A 20-byte message with an all-zero tag: 16 plaintext bytes survive. *)
Lemma aegis_pure_reject_leaves_blocks_witness :
  aegis_pure_decrypt demo_key demo_nonce demo_ad
    (fst (aegis_pure_encrypt demo_key demo_nonce demo_ad demo_msg)) (zeros 16) =
    (-1, take 16 demo_msg ++ zeros 4).
Proof.
  apply (aegis_pure_reject_leaves_blocks demo_key demo_nonce demo_ad demo_msg (zeros 16));
    try reflexivity.
  intros H%(f_equal (fun l => get l 0)). vm_compute in H. discriminate.
Defined.

Lemma aegis_streaming_is_oneshot_witness :
  let a := take 16 demo_msg in let b := drop 16 demo_msg in
  let '(st, c1) := aegis_enc_update (aegis_ad_update (aegis_init demo_key demo_nonce) demo_ad) a in
  let '(c2, tag) := aegis_enc_final st b in
  aegis_pure_encrypt demo_key demo_nonce demo_ad (a ++ b) = (c1 ++ c2, tag).
Proof.
  exact (aegis_streaming_is_oneshot demo_key demo_nonce demo_ad (take 16 demo_msg) (drop 16 demo_msg)
    eq_refl eq_refl eq_refl).
Defined.

Lemma aegis_tag_ignores_zero_padding_witness :
  let '(c, tag) := aegis_pure_encrypt demo_key demo_nonce demo_ad ([1; 2; 3] ++ zeros 5) in
  aegis_pure_decrypt demo_key demo_nonce demo_ad (take 3 c) tag = (0, [1; 2; 3]).
Proof.
  apply (aegis_tag_ignores_zero_padding demo_key demo_nonce demo_ad [1; 2; 3] 5);
    first [reflexivity | apply Nat.ltb_lt; reflexivity | apply Nat.leb_le; reflexivity].
Defined.

Lemma aegis_pure_encrypt_bytes_witness :
  wf_bytes (fst (aegis_pure_encrypt demo_key demo_nonce demo_ad demo_msg)) /\
  wf_bytes (snd (aegis_pure_encrypt demo_key demo_nonce demo_ad demo_msg)).
Proof.
  apply aegis_pure_encrypt_bytes;
    [apply demo_key_block | apply demo_nonce_block | apply wf_bytesb_spec; reflexivity ..].
Defined.
