(* ===== verification/Aead.v ===== *)
(** * Aead: what the protocol layers need of the cipher

    [aegis_encrypt] and [aegis_decrypt] of src/crypto/aegis.h as a type class,
    its laws as a second class, the instance given by the portable backend, and
    the lemmas that transfer a loop from one block function to another, by which
    the hardware backends are shown to satisfy the same laws. *)

From S2P Require Import Prelude Aes Aegis.

(** The one-shot API of aegis.h: ciphertext and tag; return code and output
    buffer. *)
Class Aead := {
  aead_encrypt : forall key nonce ad m : bytes, bytes * bytes;
  aead_decrypt : forall key nonce ad c tag : bytes, Z * bytes;
}.

(** What a caller may rely on, for byte inputs and 16-byte keys and nonces. *)
Class AeadLaws (A : Aead) : Prop := {
  aead_lens : forall key nonce ad m,
    wf_block key -> wf_block nonce -> wf_bytes ad -> wf_bytes m ->
    length (fst (aead_encrypt key nonce ad m)) = length m /\
    length (snd (aead_encrypt key nonce ad m)) = 16%nat;
  aead_wf : forall key nonce ad m,
    wf_block key -> wf_block nonce -> wf_bytes ad -> wf_bytes m ->
    wf_bytes (fst (aead_encrypt key nonce ad m)) /\ wf_bytes (snd (aead_encrypt key nonce ad m));
  aead_accept : forall key nonce ad c tag m,
    wf_block key -> wf_block nonce -> wf_bytes ad -> wf_bytes c -> wf_block tag ->
    (aead_decrypt key nonce ad c tag = (0, m) <->
     wf_bytes m /\ aead_encrypt key nonce ad m = (c, tag));
  aead_ret : forall key nonce ad c tag,
    wf_block key -> wf_block nonce -> wf_bytes ad -> wf_bytes c -> wf_block tag ->
    fst (aead_decrypt key nonce ad c tag) = 0 \/ fst (aead_decrypt key nonce ad c tag) = -1;
}.

(** The portable backend, the default of the function pointers. *)
#[export] Instance pure_c : Aead := {|
  aead_encrypt := aegis_pure_encrypt;
  aead_decrypt := aegis_pure_decrypt;
|}.

Lemma open_wf (key nonce ad c : bytes) :
  wf_block key -> wf_block nonce -> wf_bytes ad -> wf_bytes c ->
  wf_bytes (fst (Ref.open_raw key nonce ad c)).
Proof.
  intros Hk Hn Ha Hc. unfold Ref.open_raw.
  pose proof (crypt_wf true _ c (start_wf key nonce ad Hk Hn Ha) Hc) as [_ ?].
  by destruct (Ref.crypt true _ c).
Qed.

#[export] Instance pure_c_laws : AeadLaws pure_c.
Proof.
  split; intros key nonce ad.
  - intros m [Hk _] [Hn _] _ _. simpl. rewrite pure_encrypt_ref by done. by apply ref_encrypt_lens.
  - intros m Hk Hn Ha Hm. simpl. rewrite pure_encrypt_ref by (apply Hk || apply Hn).
    by apply ref_encrypt_wf.
  - intros c tag m Hk Hn Ha Hc Ht. simpl.
    pose proof (open_wf key nonce ad c Hk Hn Ha Hc) as Ho.
    destruct Hk as [Hk Hk'], Hn as [Hn Hn'], Ht as [Ht Ht'].
    rewrite pure_encrypt_ref, pure_decrypt_spec by done.
    pose proof (encrypt_open key nonce ad c Hk Hn) as He.
    pose proof (open_encrypt key nonce ad m Hk Hn) as Hm.
    destruct (Ref.open_raw key nonce ad c) as [m' e] eqn:E. cbn [fst snd] in *. split.
    + destruct (decide (e = tag)) as [->|]; intros [= <-]. done.
    + intros [_ Hx]. rewrite Hx in Hm. cbn [fst snd] in Hm. rewrite E in Hm.
      injection Hm as -> ->. by rewrite decide_True.
  - intros c tag [Hk _] [Hn _] _ _ [Ht _]. simpl. rewrite pure_decrypt_spec by done.
    destruct (Ref.open_raw key nonce ad c). destruct (decide _); simpl; auto.
Qed.

(** Consequences used throughout the protocol layers. *)
Section Consequences.
Context {A : Aead} {L : AeadLaws A}.

Lemma aead_roundtrip (key nonce ad m : bytes) :
  wf_block key -> wf_block nonce -> wf_bytes ad -> wf_bytes m ->
  aead_decrypt key nonce ad (fst (aead_encrypt key nonce ad m))
    (snd (aead_encrypt key nonce ad m)) = (0, m).
Proof.
  intros Hk Hn Ha Hm. destruct (aead_wf _ _ _ _ Hk Hn Ha Hm).
  apply aead_accept; [done..| |].
  - split; [|done]. by apply aead_lens.
  - split; [done|]. by destruct (aead_encrypt key nonce ad m).
Qed.

(** A decryption that does not return 0 returns -1. *)
Lemma aead_reject (key nonce ad c tag : bytes) :
  wf_block key -> wf_block nonce -> wf_bytes ad -> wf_bytes c -> wf_block tag ->
  fst (aead_decrypt key nonce ad c tag) <> 0 ->
  forall m, wf_bytes m -> aead_encrypt key nonce ad m <> (c, tag).
Proof.
  intros Hk Hn Ha Hc Ht H m Hm E. apply H.
  by rewrite (proj2 (aead_accept _ _ _ _ _ m Hk Hn Ha Hc Ht)).
Qed.
End Consequences.

(** ** Transfer between block functions *)

Lemma foldl_ext_inv {A B} (P : A -> Prop) (f g : A -> B -> A) (l : list B) (a : A) :
  P a -> (forall a b, P a -> f a b = g a b /\ P (g a b)) ->
  foldl f a l = foldl g a l /\ P (foldl g a l).
Proof.
  intros Ha Hf. revert a Ha. induction l as [|b l IH]; intros a Ha; simpl; [done|].
  destruct (Hf a b Ha) as [-> ?]. by apply IH.
Qed.

Lemma block_loop_ext (p q : aegis_state_t -> bytes -> aegis_state_t * bytes) (n : nat)
    (st : aegis_state_t) (src : bytes) :
  (forall st b, wf_state st -> wf_block b -> p st b = q st b /\ wf_state (fst (q st b))) ->
  wf_state st -> wf_bytes src -> (16 * n <= length src)%nat ->
  block_loop p n st src = block_loop q n st src /\ wf_state (fst (block_loop q n st src)).
Proof.
  intros Hpq. revert st src. induction n as [|n IH]; intros st src Hst Hs Hl; [done|].
  cbn [block_loop]. destruct (Hpq st (take 16 src)) as [-> H]; [done| |].
  { split; [rewrite length_take; lia | auto with aegis]. }
  destruct (q st (take 16 src)) as [st1 d]. cbn [fst] in H.
  destruct (IH st1 (drop 16 src)) as [-> H']; [done | auto with aegis | rewrite length_drop; lia |].
  by destruct (block_loop q n st1 (drop 16 src)).
Qed.

Lemma process_enc_wf (st : aegis_state_t) (b : bytes) :
  wf_state st -> wf_block b -> wf_state (fst (process_enc_block st b)).
Proof. intros. by apply state_update128_wf. Qed.

Lemma process_dec_wf (st : aegis_state_t) (b : bytes) :
  wf_state st -> wf_block b -> wf_state (fst (process_dec_block st b)).
Proof.
  intros Hst [Hb Hb']. apply state_update128_wf; [done|]. split.
  - rewrite xor_bytes_length, key_stream_len by auto with aegis. lia.
  - auto with aegis.
Qed.

(** Masking a partial block to its first bytes commutes with the key stream. *)
Lemma take_pad16_xor (r ks : bytes) :
  (length r <= 16)%nat -> length ks = 16%nat -> take (length r) (pad16 r ⊻ ks) = r ⊻ ks.
Proof.
  intros Hr Hk. rewrite xor_bytes_take. unfold pad16. rewrite take_app_length.
  rewrite <- (take_drop (length r) ks) at 2. rewrite <- (app_nil_r r) at 3.
  rewrite xor_bytes_app by (rewrite length_take; lia).
  unfold xor_bytes at 3. simpl. by rewrite app_nil_r.
Qed.

Lemma drop_full_wf (src : bytes) : wf_bytes src ->
  wf_bytes (drop (full_len (length src)) src) /\
  (length (drop (full_len (length src)) src) < 16)%nat.
Proof. intros. split; [auto with aegis | apply drop_full_length]. Qed.

(** The update loops stay inside a buffer of whole blocks. *)
Lemma aligned_count (n : nat) : (n mod 16 = 0)%nat -> (16 * ((n + 15) / 16) <= n)%nat.
Proof.
  intros Hm. pose proof (divmod16 n) as [Hd _]. rewrite Hm in Hd.
  pose proof (Nat.Div0.mul_div_le (n + 15) 16) as H.
  pose proof (divmod16 (n + 15)) as [Hd' Hl]. lia.
Qed.

Lemma take_full_aligned (m : bytes) : (length (take (full_len (length m)) m) mod 16 = 0)%nat.
Proof.
  rewrite length_take, full_len_div. pose proof (divmod16 (length m)) as [Hd _].
  rewrite Nat.min_l by lia. by rewrite Nat.mul_comm, Nat.Div0.mod_mul.
Qed.

Lemma full_blocks_count (m : bytes) : (16 * (full_len (length m) / 16) <= length m)%nat.
Proof. rewrite full_len_div16. pose proof (divmod16 (length m)). lia. Qed.

(** A backend that agrees with a lawful one on byte inputs is lawful. *)
Lemma aead_laws_transfer (A B : Aead) :
  AeadLaws A ->
  (forall key nonce ad m, wf_block key -> wf_block nonce -> wf_bytes ad -> wf_bytes m ->
     @aead_encrypt B key nonce ad m = @aead_encrypt A key nonce ad m) ->
  (forall key nonce ad c tag, wf_block key -> wf_block nonce -> wf_bytes ad -> wf_bytes c ->
     @aead_decrypt B key nonce ad c tag = @aead_decrypt A key nonce ad c tag) ->
  AeadLaws B.
Proof.
  intros HA He Hd. split; intros key nonce ad.
  - intros m Hk Hn Ha Hm. rewrite He by done. by apply aead_lens.
  - intros m Hk Hn Ha Hm. rewrite He by done. by apply aead_wf.
  - intros c tag m Hk Hn Ha Hc Ht. rewrite Hd by done. rewrite aead_accept by done.
    split; intros [Hm E]; (split; [done|]); by rewrite ?He in * by done.
  - intros c tag Hk Hn Ha Hc Ht. rewrite Hd by done. by apply aead_ret.
Qed.
