(* ===== verification/AegisX86.v ===== *)
(** * AegisX86: the AES-NI backend, src/crypto/x86/aegis128-x86.c

    A [__m128i] is the list of its sixteen bytes in memory order, so
    [_mm_loadu_si128]/[_mm_storeu_si128] are the identity on 16-byte lists and
    [_mm_xor_si128]/[_mm_and_si128] are bytewise.  The AESENC instruction is a
    parameter, with Intel's definition of it (FIPS-197 ShiftRows, SubBytes,
    MixColumns, then XOR with the round key) as its law.  The theorem: the whole
    backend computes what the portable backend computes. *)

From S2P Require Import Prelude Aes Aegis Aead.

Class AesNi := { mm_aesenc_si128 : bytes -> bytes -> bytes }.

(** Intel SDM, AESENC: one round of the AES encryption flow. *)
Class AesNiLaws (I : AesNi) : Prop := {
  aesenc_round : forall s k, wf_block s -> wf_block k -> mm_aesenc_si128 s k = Fips197.Round s k
}.

Section X86.
Context {I : AesNi}.

Definition mm_setzero_si128 : bytes := zeros 16.

Definition aes_round (s : bytes) : bytes := mm_aesenc_si128 s mm_setzero_si128.

Definition xor128 (a b : bytes) : bytes := a ⊻ b.
Definition and128 (a b : bytes) : bytes := a ⊼ b.

Definition key_stream (st : aegis_state_t) : bytes :=
  xor128 (xor128 (S1 st) (S4 st)) (and128 (S2 st) (S3 st)).

Definition state_update128 (st : aegis_state_t) (m : bytes) : aegis_state_t :=
  let r0 := aes_round (S4 st) in
  let r1 := aes_round (S0 st) in
  let r2 := aes_round (S1 st) in
  let r3 := aes_round (S2 st) in
  let r4 := aes_round (S3 st) in
  mkState (xor128 (xor128 r0 (S0 st)) m) (xor128 r1 (S1 st)) (xor128 r2 (S2 st))
    (xor128 r3 (S3 st)) (xor128 r4 (S4 st)).

Definition C0_bytes : bytes :=
  [0x00; 0x01; 0x01; 0x02; 0x03; 0x05; 0x08; 0x0d;
   0x15; 0x22; 0x33; 0x59; 0x90; 0xe9; 0x62; 0x62].
Definition C1_bytes : bytes :=
  [0xdb; 0x3d; 0x18; 0x55; 0x6d; 0xc2; 0x2f; 0xf1;
   0x20; 0x11; 0x31; 0x42; 0x73; 0xb5; 0x28; 0xdd].

Definition aegis128_x86_init (key nonce : bytes) : aegis_state_t :=
  let k := key in
  let n := nonce in
  let kn := xor128 k n in
  foldl (fun st i => state_update128 st (if (i mod 2 =? 0)%nat then kn else k))
    (mkState kn C1_bytes C0_bytes k kn) (seq 0 10).

Fixpoint x86_ad_blocks (n : nat) (st : aegis_state_t) (ad : bytes) : aegis_state_t :=
  match n with
  | O => st
  | S n' => x86_ad_blocks n' (state_update128 st (take 16 ad)) (drop 16 ad)
  end.

Definition aegis128_x86_ad_update (st : aegis_state_t) (ad : bytes) : aegis_state_t :=
  let n := (length ad / 16)%nat in
  let st := x86_ad_blocks n st ad in
  let rest := drop (16 * n) ad in
  if (0 <? length rest)%nat then state_update128 st (pad16 rest) else st.

(** The loop bodies of [enc_update]/[enc_final] and [dec_update]/[dec_final]. *)
Definition x86_enc_block (st : aegis_state_t) (src : bytes) : aegis_state_t * bytes :=
  let ks := key_stream st in
  let pt := src in
  let ct := xor128 pt ks in
  (state_update128 st pt, ct).

Definition x86_dec_block (st : aegis_state_t) (src : bytes) : aegis_state_t * bytes :=
  let ks := key_stream st in
  let ct := src in
  let pt := xor128 ct ks in
  (state_update128 st pt, pt).

Definition aegis128_x86_enc_update (st : aegis_state_t) (src : bytes) : aegis_state_t * bytes :=
  block_loop x86_enc_block ((length src + 15) / 16) st src.

Definition aegis128_x86_dec_update (st : aegis_state_t) (src : bytes) : aegis_state_t * bytes :=
  block_loop x86_dec_block ((length src + 15) / 16) st src.

Definition x86_fold (st : aegis_state_t) : bytes :=
  xor128 (xor128 (xor128 (xor128 (S0 st) (S1 st)) (S2 st)) (S3 st)) (S4 st).

(** "Tag: 7 rounds". *)
Definition x86_tag (st : aegis_state_t) : bytes :=
  snd (foldl (fun p (_ : nat) => let st := state_update128 (fst p) (snd p) in (st, x86_fold st))
    (st, x86_fold st) (seq 0 7)).

Definition aegis128_x86_enc_final (st : aegis_state_t) (src : bytes) : bytes * bytes :=
  let full := full_len (length src) in
  let '(st, d1) := block_loop x86_enc_block (full / 16) st src in
  let rest := drop full src in
  if (0 <? length rest)%nat then
    let pt := pad16 rest in
    let ct_buf := xor128 pt (key_stream st) in
    (d1 ++ take (length rest) ct_buf, x86_tag (state_update128 st pt))
  else (d1, x86_tag st).

Definition aegis128_x86_dec_final (st : aegis_state_t) (src tag : bytes) : Z * bytes :=
  let full := full_len (length src) in
  let '(st, d1) := block_loop x86_dec_block (full / 16) st src in
  let rest := drop full src in
  let '(st, dst) :=
    if (0 <? length rest)%nat then
      let ct := pad16 rest in
      let pt_buf := xor128 ct (key_stream st) in
      let d2 := take (length rest) pt_buf in
      (state_update128 st (pad16 d2), d1 ++ d2)
    else (st, d1) in
  let diff := tag_diff (x86_tag st) tag in
  if negb (diff =? 0) then (-1, zeros (length src)) else (0, dst).

Definition aegis128_x86_encrypt (key nonce ad m : bytes) : bytes * bytes :=
  let st := aegis128_x86_init key nonce in
  let st := if (0 <? length ad)%nat then aegis128_x86_ad_update st ad else st in
  let full := full_len (length m) in
  let '(st, c1) := if (0 <? full)%nat then aegis128_x86_enc_update st (take full m) else (st, []) in
  let '(c2, tag) := aegis128_x86_enc_final st (drop full m) in
  (c1 ++ c2, tag).

Definition aegis128_x86_decrypt (key nonce ad c tag : bytes) : Z * bytes :=
  let st := aegis128_x86_init key nonce in
  let st := if (0 <? length ad)%nat then aegis128_x86_ad_update st ad else st in
  let full := full_len (length c) in
  let '(st, m1) := if (0 <? full)%nat then aegis128_x86_dec_update st (take full c) else (st, []) in
  let '(ret, m2) := aegis128_x86_dec_final st (drop full c) tag in
  (ret, m1 ++ m2).

(** ** Equivalence with the portable backend *)

(** All that matters of the instruction: it computes the portable round. *)
Hypothesis round_ok : forall s, wf_block s -> aes_round s = Aes.aes_round s.

Lemma state_update128_eq (st : aegis_state_t) (m : bytes) :
  wf_state st -> state_update128 st m = Aegis.state_update128 st m.
Proof.
  intros (?&?&?&?&?). unfold state_update128, Aegis.state_update128.
  by rewrite !round_ok by done.
Qed.

Lemma init_eq (key nonce : bytes) :
  wf_block key -> wf_block nonce ->
  aegis128_x86_init key nonce = aegis_init key nonce.
Proof.
  intros Hk Hn. assert (Hkn : wf_block (key ⊻ nonce)).
  { destruct Hk, Hn. split; [len | auto with aegis]. }
  apply (foldl_ext_inv wf_state).
  - split_and!; try done; (split; [reflexivity|]; apply wf_bytesb_spec; reflexivity).
  - intros st i Hst. unfold aegis_init_round. rewrite state_update128_eq by done.
    destruct (i mod 2 =? 0)%nat; (split; [done|]; by apply state_update128_wf).
Qed.

Lemma ad_blocks_eq (n : nat) (st : aegis_state_t) (ad : bytes) :
  wf_state st -> wf_bytes ad -> (16 * n <= length ad)%nat ->
  x86_ad_blocks n st ad = ad_blocks n st ad /\ wf_state (ad_blocks n st ad).
Proof.
  revert st ad. induction n as [|n IH]; intros st ad Hst Had Hl; [done|].
  cbn [x86_ad_blocks ad_blocks]. rewrite state_update128_eq by done.
  apply IH; [|auto with aegis|rewrite length_drop; lia].
  apply state_update128_wf; [done|]. split; [rewrite length_take; lia | auto with aegis].
Qed.

Lemma ad_update_eq (st : aegis_state_t) (ad : bytes) :
  wf_state st -> wf_bytes ad ->
  aegis128_x86_ad_update st ad = aegis_ad_update st ad.
Proof.
  intros Hst Had. pose proof (divmod16 (length ad)) as [Hd _].
  unfold aegis128_x86_ad_update, aegis_ad_update. cbv zeta.
  destruct (ad_blocks_eq (length ad / 16) st ad) as [-> Hw]; [done..|lia|].
  by rewrite state_update128_eq by done.
Qed.

Lemma enc_block_ext (st : aegis_state_t) (b : bytes) :
  wf_state st -> wf_block b ->
  x86_enc_block st b = process_enc_block st b /\ wf_state (fst (process_enc_block st b)).
Proof.
  intros Hst Hb. unfold x86_enc_block. rewrite state_update128_eq by done.
  split; [done|]. by apply process_enc_wf.
Qed.

Lemma dec_block_ext (st : aegis_state_t) (b : bytes) :
  wf_state st -> wf_block b ->
  x86_dec_block st b = process_dec_block st b /\ wf_state (fst (process_dec_block st b)).
Proof.
  intros Hst Hb. unfold x86_dec_block. rewrite state_update128_eq by done.
  split; [done|]. by apply process_dec_wf.
Qed.

Lemma tag_eq (st : aegis_state_t) : wf_state st -> x86_tag st = aegis_tag st.
Proof.
  intros Hst. unfold x86_tag, aegis_tag. f_equal.
  apply (foldl_ext_inv (fun p => wf_state (fst p) /\ wf_block (snd p))).
  - split; [done|]. split; [apply xor_state_len; auto with aegis | by apply xor_state_wf].
  - intros [s t] i [Hs Ht]. unfold tag_round. cbn [fst snd] in *.
    rewrite state_update128_eq by done. assert (H := state_update128_wf s t Hs Ht).
    split; [done|]. split; [done|].
    split; [apply xor_state_len; auto with aegis | by apply xor_state_wf].
Qed.

Lemma enc_update_eq (st : aegis_state_t) (src : bytes) :
  wf_state st -> wf_bytes src -> (length src mod 16 = 0)%nat ->
  aegis128_x86_enc_update st src = aegis_enc_update st src /\
  wf_state (fst (aegis_enc_update st src)).
Proof.
  intros. apply (block_loop_ext _ _ _ _ _ enc_block_ext); [done..|]. by apply aligned_count.
Qed.

Lemma dec_update_eq (st : aegis_state_t) (src : bytes) :
  wf_state st -> wf_bytes src -> (length src mod 16 = 0)%nat ->
  aegis128_x86_dec_update st src = aegis_dec_update st src /\
  wf_state (fst (aegis_dec_update st src)).
Proof.
  intros. apply (block_loop_ext _ _ _ _ _ dec_block_ext); [done..|]. by apply aligned_count.
Qed.

Lemma enc_final_eq (st : aegis_state_t) (src : bytes) :
  wf_state st -> wf_bytes src -> aegis128_x86_enc_final st src = aegis_enc_final st src.
Proof.
  intros Hst Hs. unfold aegis128_x86_enc_final, aegis_enc_final. cbv zeta.
  destruct (block_loop_ext _ _ (full_len (length src) / 16) st src enc_block_ext)
    as [-> Hw]; [done..|apply full_blocks_count|].
  destruct (block_loop process_enc_block _ st src) as [st1 d1]. cbn [fst] in Hw.
  destruct (drop_full_wf src Hs) as [Hr Hl].
  assert (Hw' := absorb_chunk_wf false st1 _ Hw Hr ltac:(lia)). cbv iota in Hw'.
  rewrite state_update128_eq, !tag_eq by done. unfold xor128. change (key_stream st1) with (Aegis.key_stream st1).
  by rewrite take_pad16_xor by (lia || apply key_stream_len; auto with aegis).
Qed.

Lemma dec_final_eq (st : aegis_state_t) (src tag : bytes) :
  wf_state st -> wf_bytes src -> aegis128_x86_dec_final st src tag = aegis_dec_final st src tag.
Proof.
  intros Hst Hs. unfold aegis128_x86_dec_final, aegis_dec_final. cbv zeta.
  destruct (block_loop_ext _ _ (full_len (length src) / 16) st src dec_block_ext)
    as [-> Hw]; [done..|apply full_blocks_count|].
  destruct (block_loop process_dec_block _ st src) as [st1 d1]. cbn [fst] in Hw.
  destruct (drop_full_wf src Hs) as [Hr Hl]. unfold xor128.
  change (key_stream st1) with (Aegis.key_stream st1).
  rewrite take_pad16_xor by (lia || apply key_stream_len; auto with aegis).
  rewrite state_update128_eq by done.
  assert (Hw' := absorb_chunk_wf true st1 _ Hw Hr ltac:(lia)). cbv iota in Hw'.
  destruct (0 <? length _)%nat; by rewrite tag_eq.
Qed.

Lemma x86_encrypt_eq (key nonce ad m : bytes) :
  wf_block key -> wf_block nonce -> wf_bytes ad -> wf_bytes m ->
  aegis128_x86_encrypt key nonce ad m = aegis_pure_encrypt key nonce ad m.
Proof.
  intros Hk Hn Ha Hm. unfold aegis128_x86_encrypt, aegis_pure_encrypt. cbv zeta.
  rewrite init_eq, ad_update_eq by (done || by apply aegis_init_wf).
  assert (Hs := start_wf key nonce ad Hk Hn Ha). rewrite <- start_ref in Hs. cbv zeta in Hs.
  revert Hs. generalize (if (0 <? length ad)%nat
    then aegis_ad_update (aegis_init key nonce) ad else aegis_init key nonce).
  intros st Hs. destruct (enc_update_eq st (take (full_len (length m)) m)) as [-> Hw];
    [done | auto with aegis | apply take_full_aligned |].
  destruct (0 <? full_len (length m))%nat; [|by rewrite enc_final_eq by auto with aegis].
  destruct (aegis_enc_update _ _) as [st1 c1]. cbn [fst] in Hw.
  by rewrite enc_final_eq by auto with aegis.
Qed.

Lemma x86_decrypt_eq (key nonce ad c tag : bytes) :
  wf_block key -> wf_block nonce -> wf_bytes ad -> wf_bytes c ->
  aegis128_x86_decrypt key nonce ad c tag = aegis_pure_decrypt key nonce ad c tag.
Proof.
  intros Hk Hn Ha Hm. unfold aegis128_x86_decrypt, aegis_pure_decrypt. cbv zeta.
  rewrite init_eq, ad_update_eq by (done || by apply aegis_init_wf).
  assert (Hs := start_wf key nonce ad Hk Hn Ha). rewrite <- start_ref in Hs. cbv zeta in Hs.
  revert Hs. generalize (if (0 <? length ad)%nat
    then aegis_ad_update (aegis_init key nonce) ad else aegis_init key nonce).
  intros st Hs. destruct (dec_update_eq st (take (full_len (length c)) c)) as [-> Hw];
    [done | auto with aegis | apply take_full_aligned |].
  destruct (0 <? full_len (length c))%nat; [|by rewrite dec_final_eq by auto with aegis].
  destruct (aegis_dec_update _ _) as [st1 c1]. cbn [fst] in Hw.
  by rewrite dec_final_eq by auto with aegis.
Qed.

End X86.

Lemma aesenc_is_round {I : AesNi} {IL : AesNiLaws I} (s : bytes) :
  wf_block s -> aes_round s = Aes.aes_round s.
Proof.
  intros Hs. unfold aes_round. rewrite aesenc_round;
    [|done | split; [reflexivity | apply wf_bytes_zeros]].
  rewrite fips_round_keyless by done. apply xor_bytes_zeros. by rewrite aes_round_length.
Qed.

#[export] Instance x86_backend {I : AesNi} : Aead := {|
  aead_encrypt := aegis128_x86_encrypt;
  aead_decrypt := aegis128_x86_decrypt;
|}.

#[export] Instance x86_backend_laws {I : AesNi} {IL : AesNiLaws I} : AeadLaws x86_backend.
Proof.
  apply (aead_laws_transfer pure_c);
    [apply _|apply x86_encrypt_eq, aesenc_is_round|apply x86_decrypt_eq, aesenc_is_round].
Qed.

(** An implementation of the instruction, so that its law can be met. *)
Definition soft_aesni : AesNi := {| mm_aesenc_si128 := Fips197.Round |}.

Lemma soft_aesni_laws : AesNiLaws soft_aesni.
Proof. by split. Qed.

(** The AES-NI backend computes the portable backend: same ciphertext, same
    tag, same return code and same output buffer, for every byte input. *)
Theorem x86_backend_is_pure_c (I : AesNi) (IL : AesNiLaws I) (key nonce ad m c tag : bytes) :
  wf_block key -> wf_block nonce -> wf_bytes ad -> wf_bytes m -> wf_bytes c ->
  aegis128_x86_encrypt key nonce ad m = aegis_pure_encrypt key nonce ad m /\
  aegis128_x86_decrypt key nonce ad c tag = aegis_pure_decrypt key nonce ad c tag.
Proof.
  intros. split; [by apply (x86_encrypt_eq aesenc_is_round) | by apply (x86_decrypt_eq aesenc_is_round)].
Qed.

Lemma x86_backend_is_pure_c_witness :
  @aegis128_x86_encrypt soft_aesni demo_key demo_nonce demo_ad demo_msg =
    aegis_pure_encrypt demo_key demo_nonce demo_ad demo_msg /\
  @aegis128_x86_decrypt soft_aesni demo_key demo_nonce demo_ad demo_msg (zeros 16) =
    aegis_pure_decrypt demo_key demo_nonce demo_ad demo_msg (zeros 16).
Proof.
  apply (x86_backend_is_pure_c soft_aesni soft_aesni_laws);
    [apply demo_key_block | apply demo_nonce_block | apply wf_bytesb_spec; reflexivity ..].
Defined.
