(* ===== verification/AegisArm.v ===== *)
(** * AegisArm: the ARM Crypto backend and the choice of backend

    src/crypto/neon/aegis128-armcrypto.c, whose AES round is the instruction pair
    AESE and AESMC, and [aegis_crypto_init], [aegis_encrypt], [aegis_decrypt] of
    src/crypto/aegis.c, which pick a backend for the process.  A [uint8x16_t] is
    the list of its lanes.  Apart from the round the file is, definition by
    definition, the AES-NI file over another instruction, which is how it is
    verified. *)

From S2P Require Import Prelude Aes Aegis Aead AegisX86.

(** ** The backend *)

Class ArmAes := {
  vaeseq_u8 : bytes -> bytes -> bytes;
  vaesmcq_u8 : bytes -> bytes;
}.

(** Arm ARM: AESE is AddRoundKey, then SubBytes and ShiftRows; AESMC is
    MixColumns. *)
Class ArmAesLaws (R : ArmAes) : Prop := {
  aese_spec : forall s k, wf_block s -> wf_block k ->
    vaeseq_u8 s k = Fips197.ShiftRows (Fips197.SubBytes (s ⊻ k));
  aesmc_spec : forall s, wf_block s -> vaesmcq_u8 s = Fips197.MixColumns s;
}.

Module Arm.
Section Backend.
Context {R : ArmAes}.

Definition aes_round (s : bytes) : bytes :=
  let zero := zeros 16 in vaesmcq_u8 (vaeseq_u8 s zero).

Definition vxor (a b : bytes) : bytes := a ⊻ b.
Definition vand (a b : bytes) : bytes := a ⊼ b.

Definition key_stream (st : aegis_state_t) : bytes :=
  vxor (vxor (S1 st) (S4 st)) (vand (S2 st) (S3 st)).

Definition state_update128 (st : aegis_state_t) (m : bytes) : aegis_state_t :=
  let r0 := aes_round (S4 st) in
  let r1 := aes_round (S0 st) in
  let r2 := aes_round (S1 st) in
  let r3 := aes_round (S2 st) in
  let r4 := aes_round (S3 st) in
  let new0 := vxor (vxor r0 (S0 st)) m in
  let new1 := vxor r1 (S1 st) in
  let new2 := vxor r2 (S2 st) in
  let new3 := vxor r3 (S3 st) in
  let new4 := vxor r4 (S4 st) in
  mkState new0 new1 new2 new3 new4.

Definition C0_bytes : bytes :=
  [0x00; 0x01; 0x01; 0x02; 0x03; 0x05; 0x08; 0x0d;
   0x15; 0x22; 0x33; 0x59; 0x90; 0xe9; 0x62; 0x62].
Definition C1_bytes : bytes :=
  [0xdb; 0x3d; 0x18; 0x55; 0x6d; 0xc2; 0x2f; 0xf1;
   0x20; 0x11; 0x31; 0x42; 0x73; 0xb5; 0x28; 0xdd].

Definition aegis128_armcrypto_init (key nonce : bytes) : aegis_state_t :=
  let kn := vxor key nonce in
  foldl (fun st i => state_update128 st (if (i mod 2 =? 0)%nat then kn else key))
    (mkState kn C1_bytes C0_bytes key kn) (seq 0 10).

Fixpoint arm_ad_blocks (n : nat) (st : aegis_state_t) (ad : bytes) : aegis_state_t :=
  match n with
  | O => st
  | S n' => arm_ad_blocks n' (state_update128 st (take 16 ad)) (drop 16 ad)
  end.

Definition aegis128_armcrypto_ad_update (st : aegis_state_t) (ad : bytes) : aegis_state_t :=
  let n := (length ad / 16)%nat in
  let st := arm_ad_blocks n st ad in
  let rest := drop (16 * n) ad in
  if (0 <? length rest)%nat then state_update128 st (pad16 rest) else st.

Definition arm_enc_block (st : aegis_state_t) (src : bytes) : aegis_state_t * bytes :=
  let ks := key_stream st in
  (state_update128 st src, vxor src ks).

(** The update form computes the plaintext twice, the final form once. *)
Definition arm_dec_block (st : aegis_state_t) (src : bytes) : aegis_state_t * bytes :=
  let ks := key_stream st in
  (state_update128 st (vxor src ks), vxor src ks).

Definition aegis128_armcrypto_enc_update (st : aegis_state_t) (src : bytes) : aegis_state_t * bytes :=
  block_loop arm_enc_block ((length src + 15) / 16) st src.

Definition aegis128_armcrypto_dec_update (st : aegis_state_t) (src : bytes) : aegis_state_t * bytes :=
  block_loop arm_dec_block ((length src + 15) / 16) st src.

Definition arm_fold (st : aegis_state_t) : bytes :=
  vxor (vxor (vxor (vxor (S0 st) (S1 st)) (S2 st)) (S3 st)) (S4 st).

Definition arm_tag (st : aegis_state_t) : bytes :=
  snd (foldl (fun p (_ : nat) => let st := state_update128 (fst p) (snd p) in (st, arm_fold st))
    (st, arm_fold st) (seq 0 7)).

Definition aegis128_armcrypto_enc_final (st : aegis_state_t) (src : bytes) : bytes * bytes :=
  let full := full_len (length src) in
  let '(st, d1) := block_loop arm_enc_block (full / 16) st src in
  let rest := drop full src in
  if (0 <? length rest)%nat then
    let pt := pad16 rest in
    let ct_buf := vxor pt (key_stream st) in
    (d1 ++ take (length rest) ct_buf, arm_tag (state_update128 st pt))
  else (d1, arm_tag st).

Definition aegis128_armcrypto_dec_final (st : aegis_state_t) (src tag : bytes) : Z * bytes :=
  let full := full_len (length src) in
  let '(st, d1) := block_loop arm_dec_block (full / 16) st src in
  let rest := drop full src in
  let '(st, dst) :=
    if (0 <? length rest)%nat then
      let ct_buf := pad16 rest in
      let pt_buf := vxor ct_buf (key_stream st) in
      let d2 := take (length rest) pt_buf in
      (state_update128 st (pad16 d2), d1 ++ d2)
    else (st, d1) in
  let diff := tag_diff (arm_tag st) tag in
  if negb (diff =? 0) then (-1, zeros (length src)) else (0, dst).

Definition aegis128_armcrypto_encrypt (key nonce ad m : bytes) : bytes * bytes :=
  let st := aegis128_armcrypto_init key nonce in
  let st := if (0 <? length ad)%nat then aegis128_armcrypto_ad_update st ad else st in
  let full := full_len (length m) in
  let '(st, c1) := if (0 <? full)%nat then aegis128_armcrypto_enc_update st (take full m) else (st, []) in
  let '(c2, tag) := aegis128_armcrypto_enc_final st (drop full m) in
  (c1 ++ c2, tag).

Definition aegis128_armcrypto_decrypt (key nonce ad c tag : bytes) : Z * bytes :=
  let st := aegis128_armcrypto_init key nonce in
  let st := if (0 <? length ad)%nat then aegis128_armcrypto_ad_update st ad else st in
  let full := full_len (length c) in
  let '(st, m1) := if (0 <? full)%nat then aegis128_armcrypto_dec_update st (take full c) else (st, []) in
  let '(ret, m2) := aegis128_armcrypto_dec_final st (drop full c) tag in
  (ret, m1 ++ m2).
End Backend.

(** ** Detection *)

(** [strstr(line, s)]. *)
Definition strstr (line s : string) : bool :=
  match String.index 0 s line with Some _ => true | None => false end.

(** On Linux: the two auxiliary-vector words and the lines of /proc/cpuinfo, if
    it can be opened. *)
Definition hwcap_detect (linux : bool) (hwcap hwcap2 : Z) (cpuinfo : option (list string)) : Z :=
  if linux then
    if negb (Z.land hwcap (Z.shiftl 1 3) =? 0) then 1
    else if negb (Z.land hwcap2 (Z.shiftl 1 1) =? 0) then 1
    else
      match cpuinfo with
      | None => 0
      | Some lines =>
          if existsb (fun line => (strstr line "Features" || strstr line "flags") && strstr line " aes ") lines
          then 1 else 0
      end
  else 0.

Definition aegis128_armcrypto_available (hw : Z) : Z := if negb (hw =? 0) then 1 else 1.
End Arm.

(** ** The choice of backend, aegis.c *)

Inductive platform := X86_64 | Aarch64 | OtherArch.
Inductive backend := PureC | X86AesNi | ArmCrypto.

(** The values of the two function pointers after [aegis_crypto_init], which
    start at the portable functions. *)
Definition aegis_crypto_init (pure_c_forced : bool) (p : platform) (hw : Z) : backend :=
  if pure_c_forced then PureC
  else
    match p with
    | X86_64 => X86AesNi
    | Aarch64 => if negb (Arm.aegis128_armcrypto_available hw =? 0) then ArmCrypto else PureC
    | OtherArch => PureC
    end.

Section Dispatch.
Context {I : AesNi} {R : ArmAes}.

Definition aegis_encrypt (b : backend) (key nonce ad m : bytes) : bytes * bytes :=
  match b with
  | PureC => aegis_pure_encrypt key nonce ad m
  | X86AesNi => aegis128_x86_encrypt key nonce ad m
  | ArmCrypto => Arm.aegis128_armcrypto_encrypt key nonce ad m
  end.

Definition aegis_decrypt (b : backend) (key nonce ad c tag : bytes) : Z * bytes :=
  match b with
  | PureC => aegis_pure_decrypt key nonce ad c tag
  | X86AesNi => aegis128_x86_decrypt key nonce ad c tag
  | ArmCrypto => Arm.aegis128_armcrypto_decrypt key nonce ad c tag
  end.
End Dispatch.

(** ** Equivalence *)

(** The AES-NI file over the ARM instruction pair. *)
Definition arm_as_ni (R : ArmAes) : AesNi := {| mm_aesenc_si128 s k := vaesmcq_u8 (vaeseq_u8 s k) |}.

Lemma arm_round {R : ArmAes} {RL : ArmAesLaws R} (s : bytes) : wf_block s ->
  @AegisX86.aes_round (arm_as_ni R) s = Aes.aes_round s.
Proof.
  intros Hs. unfold AegisX86.aes_round, mm_aesenc_si128, arm_as_ni, mm_setzero_si128.
  assert (Hz : wf_block (zeros 16)) by (split; [reflexivity | apply wf_bytes_zeros]).
  rewrite aese_spec by done. rewrite xor_bytes_zeros by (destruct Hs; lia).
  rewrite <- aes_sub_bytes_fips by done. assert (H1 := aes_sub_bytes_wf s Hs).
  assert (H2 := aes_shift_rows_wf _ H1). rewrite <- aes_shift_rows_fips by done.
  rewrite aesmc_spec by done. by rewrite <- aes_mix_columns_fips.
Qed.

Section SameCode.
Context {R : ArmAes}.
#[local] Existing Instance arm_as_ni.

Lemma arm_update_is_ni : Arm.state_update128 = AegisX86.state_update128.
Proof. reflexivity. Qed.

Lemma arm_init_is_ni : Arm.aegis128_armcrypto_init = aegis128_x86_init.
Proof.
  unfold Arm.aegis128_armcrypto_init, aegis128_x86_init. rewrite arm_update_is_ni.
  change Arm.vxor with xor128. reflexivity.
Qed.

Lemma arm_ad_blocks_is_ni (n : nat) (st : aegis_state_t) (ad : bytes) :
  Arm.arm_ad_blocks n st ad = x86_ad_blocks n st ad.
Proof.
  revert st ad. induction n as [|n IH]; intros st ad; [done|].
  cbn [Arm.arm_ad_blocks x86_ad_blocks]. by rewrite arm_update_is_ni, IH.
Qed.

Lemma arm_ad_update_is_ni (st : aegis_state_t) (ad : bytes) :
  Arm.aegis128_armcrypto_ad_update st ad = aegis128_x86_ad_update st ad.
Proof.
  unfold Arm.aegis128_armcrypto_ad_update, aegis128_x86_ad_update. cbv zeta.
  by rewrite arm_ad_blocks_is_ni, arm_update_is_ni.
Qed.

Lemma arm_enc_block_is_ni : Arm.arm_enc_block = x86_enc_block.
Proof. unfold Arm.arm_enc_block. rewrite arm_update_is_ni. reflexivity. Qed.

Lemma arm_dec_block_is_ni : Arm.arm_dec_block = x86_dec_block.
Proof. unfold Arm.arm_dec_block. rewrite arm_update_is_ni. reflexivity. Qed.

Lemma arm_tag_is_ni (st : aegis_state_t) : Arm.arm_tag st = x86_tag st.
Proof.
  unfold Arm.arm_tag, x86_tag. rewrite arm_update_is_ni. change Arm.arm_fold with x86_fold. reflexivity.
Qed.

Lemma arm_enc_final_is_ni (st : aegis_state_t) (src : bytes) :
  Arm.aegis128_armcrypto_enc_final st src = aegis128_x86_enc_final st src.
Proof.
  unfold Arm.aegis128_armcrypto_enc_final, aegis128_x86_enc_final. cbv zeta.
  rewrite arm_enc_block_is_ni. destruct (block_loop _ _ _ _) as [st1 d1].
  by rewrite arm_update_is_ni, !arm_tag_is_ni.
Qed.

Lemma arm_dec_final_is_ni (st : aegis_state_t) (src tag : bytes) :
  Arm.aegis128_armcrypto_dec_final st src tag = aegis128_x86_dec_final st src tag.
Proof.
  unfold Arm.aegis128_armcrypto_dec_final, aegis128_x86_dec_final. cbv zeta.
  rewrite arm_dec_block_is_ni, arm_update_is_ni. destruct (block_loop _ _ _ _) as [st1 d1].
  by destruct (0 <? length _)%nat; rewrite arm_tag_is_ni.
Qed.

Lemma arm_encrypt_is_ni (key nonce ad m : bytes) :
  Arm.aegis128_armcrypto_encrypt key nonce ad m = aegis128_x86_encrypt key nonce ad m.
Proof.
  unfold Arm.aegis128_armcrypto_encrypt, aegis128_x86_encrypt. cbv zeta.
  rewrite arm_init_is_ni, arm_ad_update_is_ni. unfold Arm.aegis128_armcrypto_enc_update.
  rewrite arm_enc_block_is_ni. fold (aegis128_x86_enc_update (if (0 <? length ad)%nat
    then aegis128_x86_ad_update (aegis128_x86_init key nonce) ad else aegis128_x86_init key nonce)
    (take (full_len (length m)) m)).
  destruct (if (0 <? full_len _)%nat then _ else _) as [st c1]. by rewrite arm_enc_final_is_ni.
Qed.

Lemma arm_decrypt_is_ni (key nonce ad c tag : bytes) :
  Arm.aegis128_armcrypto_decrypt key nonce ad c tag = aegis128_x86_decrypt key nonce ad c tag.
Proof.
  unfold Arm.aegis128_armcrypto_decrypt, aegis128_x86_decrypt. cbv zeta.
  rewrite arm_init_is_ni, arm_ad_update_is_ni. unfold Arm.aegis128_armcrypto_dec_update.
  rewrite arm_dec_block_is_ni. fold (aegis128_x86_dec_update (if (0 <? length ad)%nat
    then aegis128_x86_ad_update (aegis128_x86_init key nonce) ad else aegis128_x86_init key nonce)
    (take (full_len (length c)) c)).
  destruct (if (0 <? full_len _)%nat then _ else _) as [st m1]. by rewrite arm_dec_final_is_ni.
Qed.
End SameCode.

#[export] Instance process_backend {I : AesNi} {R : ArmAes} (b : backend) : Aead := {|
  aead_encrypt := aegis_encrypt b;
  aead_decrypt := aegis_decrypt b;
|}.

Section DispatchFacts.
Context {I : AesNi} {IL : AesNiLaws I} {R : ArmAes} {RL : ArmAesLaws R}.

Lemma encrypt_backend (b : backend) (key nonce ad m : bytes) :
  wf_block key -> wf_block nonce -> wf_bytes ad -> wf_bytes m ->
  aegis_encrypt b key nonce ad m = aegis_pure_encrypt key nonce ad m.
Proof.
  intros. destruct b; [done|by apply (x86_encrypt_eq aesenc_is_round)|].
  unfold aegis_encrypt. rewrite arm_encrypt_is_ni. by apply (x86_encrypt_eq arm_round).
Qed.

Lemma decrypt_backend (b : backend) (key nonce ad c tag : bytes) :
  wf_block key -> wf_block nonce -> wf_bytes ad -> wf_bytes c ->
  aegis_decrypt b key nonce ad c tag = aegis_pure_decrypt key nonce ad c tag.
Proof.
  intros. destruct b; [done|by apply (x86_decrypt_eq aesenc_is_round)|].
  unfold aegis_decrypt. rewrite arm_decrypt_is_ni. by apply (x86_decrypt_eq arm_round).
Qed.

(** Whatever backend the process runs on, the protocol layers may rely on the laws. *)
#[export] Instance process_backend_laws (b : backend) : AeadLaws (process_backend b).
Proof.
  apply (aead_laws_transfer pure_c); [apply _|apply encrypt_backend|].
  intros. by apply decrypt_backend.
Qed.
End DispatchFacts.

Definition soft_arm : ArmAes := {|
  vaeseq_u8 s k := Fips197.ShiftRows (Fips197.SubBytes (s ⊻ k));
  vaesmcq_u8 := Fips197.MixColumns;
|}.

Lemma soft_arm_laws : ArmAesLaws soft_arm.
Proof. by split. Qed.

(** C23: two processes interoperate whatever machines they run on and however the
    backend was chosen: a message sealed by one is opened by the other, and every
    ciphertext gets the same verdict on both. *)
Theorem backends_interoperate (I : AesNi) (IL : AesNiLaws I) (R : ArmAes) (RL : ArmAesLaws R)
    (forced1 forced2 : bool) (p1 p2 : platform) (hw1 hw2 : Z) (key nonce ad m c tag : bytes) :
  wf_block key -> wf_block nonce -> wf_bytes ad -> wf_bytes m -> wf_bytes c ->
  let b1 := aegis_crypto_init forced1 p1 hw1 in
  let b2 := aegis_crypto_init forced2 p2 hw2 in
  aegis_decrypt b2 key nonce ad (fst (aegis_encrypt b1 key nonce ad m))
    (snd (aegis_encrypt b1 key nonce ad m)) = (0, m) /\
  aegis_decrypt b1 key nonce ad c tag = aegis_decrypt b2 key nonce ad c tag.
Proof.
  intros Hk Hn Ha Hm Hc. cbv zeta. generalize (aegis_crypto_init forced1 p1 hw1), (aegis_crypto_init forced2 p2 hw2).
  intros b1 b2. destruct (aead_wf key nonce ad m Hk Hn Ha Hm). split.
  - rewrite encrypt_backend by done. rewrite decrypt_backend by done.
    exact (aead_roundtrip key nonce ad m Hk Hn Ha Hm).
  - by rewrite !decrypt_backend by done.
Qed.

Lemma backends_interoperate_witness :
  let b1 := aegis_crypto_init false X86_64 0 in
  let b2 := aegis_crypto_init false Aarch64 0 in
  @aegis_decrypt soft_aesni soft_arm b2 demo_key demo_nonce demo_ad
    (fst (@aegis_encrypt soft_aesni soft_arm b1 demo_key demo_nonce demo_ad demo_msg))
    (snd (@aegis_encrypt soft_aesni soft_arm b1 demo_key demo_nonce demo_ad demo_msg)) = (0, demo_msg) /\
  @aegis_decrypt soft_aesni soft_arm b1 demo_key demo_nonce demo_ad demo_msg (zeros 16) =
    @aegis_decrypt soft_aesni soft_arm b2 demo_key demo_nonce demo_ad demo_msg (zeros 16).
Proof.
  apply (backends_interoperate soft_aesni soft_aesni_laws soft_arm soft_arm_laws false false X86_64 Aarch64 0 0);
    [apply demo_key_block | apply demo_nonce_block | apply wf_bytesb_spec; reflexivity ..].
Defined.
