(* ===== verification/AegisNeon.v ===== *)
(** * AegisNeon: the NEON backend, src/crypto/neon/aegis128-plain.c

    SubBytes by four table lookups and bitwise selects, ShiftRows by one table
    lookup, MixColumns in scalar code, and the streaming functions.  A
    [uint8x16_t] is the list of its sixteen lanes; the lane operations are
    written out.  The dead computations of [aes_mix_columns_neon] (the vectors
    dbl, tri, s1..s3, d1..d3, t1..t3, of which the result uses none) are left
    out; its copy of the S-box is the table of aegis.c.  A load of sixteen bytes
    whose result is overwritten is kept where it reads past its buffer: it is
    the only one that can fail ([aegis128_neon_dec_final]).  The file has no
    one-shot functions and no caller under src/; the theorem is about the
    streaming functions in their documented order. *)

From S2P Require Import Prelude Aes Aegis Aead AegisX86.

(** ** Lane operations *)

Definition vmap (f : Z -> Z) (a : bytes) : bytes := map (fun i => f (get a i)) (seq 0 16).
Definition vzip (f : Z -> Z -> Z) (a b : bytes) : bytes :=
  map (fun i => f (get a i) (get b i)) (seq 0 16).

Definition vdupq_n_u8 (x : Z) : bytes := replicate 16 x.
Definition veorq_u8 (a b : bytes) : bytes := a ⊻ b.
Definition vandq_u8 (a b : bytes) : bytes := a ⊼ b.
Definition vorrq_u8 : bytes -> bytes -> bytes := vzip Z.lor.
Definition vmvnq_u8 : bytes -> bytes := vmap (fun x => 255 - x).
Definition vsubq_u8 : bytes -> bytes -> bytes := vzip (fun x y => u8 (x - y)).
Definition vshrq_n_u8 (a : bytes) (n : Z) : bytes := vmap (fun x => Z.shiftr x n) a.
Definition vceqq_u8 : bytes -> bytes -> bytes := vzip (fun x y => if x =? y then 255 else 0).

(** Bit by bit: [b] where the mask is set, [c] elsewhere. *)
Definition vbslq_u8 (m b c : bytes) : bytes :=
  map (fun i => Z.lor (Z.land (get m i) (get b i)) (Z.land (255 - get m i) (get c i))) (seq 0 16).

(** Table lookups: an index outside the table gives 0. *)
Definition vqtbl (n : Z) (tbl idx : bytes) : bytes :=
  vmap (fun j => if j <? n then get tbl (Z.to_nat j) else 0) idx.
Definition vtbl4q_u8 : bytes -> bytes -> bytes := vqtbl 64.
Definition vqtbl1q_u8 : bytes -> bytes -> bytes := vqtbl 16.

(** A load of sixteen bytes from an address at which the bytes [mem] can be read:
    it fails where there are fewer. *)
Definition vld1q_u8 (mem : bytes) : option bytes :=
  if (16 <=? length mem)%nat then Some (take 16 mem) else None.

(** ** The AES round *)

Definition aes_sub_bytes_neon (state : bytes) : bytes :=
  let tbl0 := take 64 aes_sbox in
  let tbl1 := take 64 (drop 64 aes_sbox) in
  let tbl2 := take 64 (drop 128 aes_sbox) in
  let tbl3 := take 64 (drop 192 aes_sbox) in
  let hi2 := vshrq_n_u8 state 6 in
  let r0 := vtbl4q_u8 tbl0 state in
  let r1 := vtbl4q_u8 tbl1 (vsubq_u8 state (vdupq_n_u8 64)) in
  let r2 := vtbl4q_u8 tbl2 (vsubq_u8 state (vdupq_n_u8 128)) in
  let r3 := vtbl4q_u8 tbl3 (vsubq_u8 state (vdupq_n_u8 192)) in
  let mask0 := vceqq_u8 hi2 (vdupq_n_u8 0) in
  let mask1 := vceqq_u8 hi2 (vdupq_n_u8 1) in
  let mask2 := vceqq_u8 hi2 (vdupq_n_u8 2) in
  let result := r0 in
  let result := vbslq_u8 mask1 r1 result in
  let result := vbslq_u8 mask2 r2 result in
  let mask3 := vmvnq_u8 (vorrq_u8 (vorrq_u8 mask0 mask1) mask2) in
  vbslq_u8 mask3 r3 result.

Definition sr_perm_neon : bytes := [0; 5; 10; 15; 4; 9; 14; 3; 8; 13; 2; 7; 12; 1; 6; 11].

Definition aes_shift_rows_neon (state : bytes) : bytes := vqtbl1q_u8 state sr_perm_neon.

(** [(uint8_t)((a << 1) ^ ((a >> 7) * 0x1b))]. *)
Definition xtime_neon (a : Z) : Z := u8 (Z.lxor (Z.shiftl a 1) (Z.shiftr a 7 * 0x1b)).

Definition aes_mix_column_neon (inp output : bytes) (c : nat) : bytes :=
  let i := (c * 4)%nat in
  let a0 := get inp (i + 0) in
  let a1 := get inp (i + 1) in
  let a2 := get inp (i + 2) in
  let a3 := get inp (i + 3) in
  let x0 := xtime_neon a0 in
  let x1 := xtime_neon a1 in
  let x2 := xtime_neon a2 in
  let x3 := xtime_neon a3 in
  let output := <[(i + 0)%nat := Z.lxor (Z.lxor (Z.lxor x0 (Z.lxor x1 a1)) a2) a3]> output in
  let output := <[(i + 1)%nat := Z.lxor (Z.lxor (Z.lxor a0 x1) (Z.lxor x2 a2)) a3]> output in
  let output := <[(i + 2)%nat := Z.lxor (Z.lxor (Z.lxor a0 a1) x2) (Z.lxor x3 a3)]> output in
  <[(i + 3)%nat := Z.lxor (Z.lxor (Z.lxor (Z.lxor x0 a0) a1) a2) x3]> output.

(** The sixteen bytes of [output] are all written, so it may start as zeros. *)
Definition aes_mix_columns_neon (state : bytes) : bytes :=
  foldl (aes_mix_column_neon state) (zeros 16) [0; 1; 2; 3]%nat.

Definition aes_round_neon (state : bytes) : bytes :=
  let state := aes_sub_bytes_neon state in
  let state := aes_shift_rows_neon state in
  aes_mix_columns_neon state.

(** ** The streaming functions *)

Definition xor_neon (a b : bytes) : bytes := veorq_u8 a b.

Definition state_update128_neon (st : aegis_state_t) (m : bytes) : aegis_state_t :=
  mkState (xor_neon (xor_neon (aes_round_neon (S4 st)) (S0 st)) m)
    (xor_neon (aes_round_neon (S0 st)) (S1 st)) (xor_neon (aes_round_neon (S1 st)) (S2 st))
    (xor_neon (aes_round_neon (S2 st)) (S3 st)) (xor_neon (aes_round_neon (S3 st)) (S4 st)).

Definition C0_neon : bytes :=
  [0x00; 0x01; 0x01; 0x02; 0x03; 0x05; 0x08; 0x0d;
   0x15; 0x22; 0x33; 0x59; 0x90; 0xe9; 0x62; 0x62].
Definition C1_neon : bytes :=
  [0xdb; 0x3d; 0x18; 0x55; 0x6d; 0xc2; 0x2f; 0xf1;
   0x20; 0x11; 0x31; 0x42; 0x73; 0xb5; 0x28; 0xdd].

Definition key_stream_neon (st : aegis_state_t) : bytes :=
  veorq_u8 (veorq_u8 (S1 st) (S4 st)) (vandq_u8 (S2 st) (S3 st)).

Definition aegis128_neon_init (key nonce : bytes) : aegis_state_t :=
  let kn := veorq_u8 key nonce in
  foldl (fun st i => state_update128_neon st (if (i mod 2 =? 0)%nat then kn else key))
    (mkState kn C1_neon C0_neon key kn) (seq 0 10).

Fixpoint neon_ad_blocks (n : nat) (st : aegis_state_t) (ad : bytes) : aegis_state_t :=
  match n with
  | O => st
  | S n' => neon_ad_blocks n' (state_update128_neon st (take 16 ad)) (drop 16 ad)
  end.

Definition aegis128_neon_ad_update (st : aegis_state_t) (ad : bytes) : aegis_state_t :=
  let n := (length ad / 16)%nat in
  let st := neon_ad_blocks n st ad in
  let rest := drop (16 * n) ad in
  if (0 <? length rest)%nat then state_update128_neon st (pad16 rest) else st.

Definition neon_enc_block (st : aegis_state_t) (src : bytes) : aegis_state_t * bytes :=
  let ks := key_stream_neon st in
  let ct := veorq_u8 src ks in (state_update128_neon st src, ct).

Definition neon_dec_block (st : aegis_state_t) (src : bytes) : aegis_state_t * bytes :=
  let ks := key_stream_neon st in
  let pt := veorq_u8 src ks in (state_update128_neon st pt, pt).

Definition aegis128_neon_enc_update (st : aegis_state_t) (src : bytes) : aegis_state_t * bytes :=
  block_loop neon_enc_block ((length src + 15) / 16) st src.

Definition aegis128_neon_dec_update (st : aegis_state_t) (src : bytes) : aegis_state_t * bytes :=
  block_loop neon_dec_block ((length src + 15) / 16) st src.

Definition neon_fold (st : aegis_state_t) : bytes :=
  veorq_u8 (veorq_u8 (veorq_u8 (S0 st) (S1 st)) (veorq_u8 (S2 st) (S3 st))) (S4 st).

Definition neon_tag (st : aegis_state_t) : bytes :=
  snd (foldl (fun p (_ : nat) => let st := state_update128_neon (fst p) (snd p) in (st, neon_fold st))
    (st, neon_fold st) (seq 0 7)).

(** At most sixteen bytes may be passed here: the buffers have that size. *)
Definition aegis128_neon_enc_final (st : aegis_state_t) (src : bytes) : bytes * bytes :=
  if (0 <? length src)%nat then
    let pt := pad16 src in
    let ct := veorq_u8 pt (key_stream_neon st) in
    (take (length src) ct, neon_tag (state_update128_neon st pt))
  else ([], neon_tag st).

(** The first load of [ct] takes sixteen bytes from [src], of which only [len]
    belong to the buffer; [beyond] is what can be read after them.  The loaded
    value is then replaced by the copy in [ct_buf]. *)
Definition aegis128_neon_dec_final (st : aegis_state_t) (src beyond tag : bytes) : option (Z * bytes) :=
  '(st, dst) ←
    (if (0 <? length src)%nat then
       let ks := key_stream_neon st in
       _ ← vld1q_u8 (src ++ beyond);
       let ct_buf := pad16 src in
       ct ← vld1q_u8 ct_buf;
       let pt := veorq_u8 ct ks in
       let dst := take (length src) pt in
       Some (state_update128_neon st (pad16 dst), dst)
     else Some (st, []));
  let diff := tag_diff (neon_tag st) tag in
  Some (if negb (diff =? 0) then (-1, zeros (length src)) else (0, dst)).

(** The functions in the order of the streaming API. *)
Definition neon_encrypt (key nonce ad m : bytes) : bytes * bytes :=
  let st := aegis128_neon_ad_update (aegis128_neon_init key nonce) ad in
  let full := full_len (length m) in
  let '(st, c1) := aegis128_neon_enc_update st (take full m) in
  let '(c2, tag) := aegis128_neon_enc_final st (drop full m) in
  (c1 ++ c2, tag).

Definition neon_decrypt (key nonce ad c beyond tag : bytes) : option (Z * bytes) :=
  let st := aegis128_neon_ad_update (aegis128_neon_init key nonce) ad in
  let full := full_len (length c) in
  let '(st, m1) := aegis128_neon_dec_update st (take full c) in
  '(ret, m2) ← aegis128_neon_dec_final st (drop full c) beyond tag;
  Some (ret, m1 ++ m2).

(** Whether the load of [aegis128_neon_dec_final] finds its sixteen bytes. *)
Definition can_load (src beyond : bytes) : bool :=
  (length src =? 0)%nat || (16 <=? length src + length beyond)%nat.

#[global] Strategy 1000 [aes_round_neon aes_sub_bytes_neon aes_mix_columns_neon].

(** ** The round is the portable round *)

Lemma get_lanes (f : nat -> Z) (i : nat) : (i < 16)%nat -> get (map f (seq 0 16)) i = f i.
Proof. intros Hi. do 16 (destruct i as [|i]; [reflexivity|]). lia. Qed.

Lemma get_vdup (x : Z) (i : nat) : (i < 16)%nat -> get (vdupq_n_u8 x) i = x.
Proof. intros Hi. do 16 (destruct i as [|i]; [reflexivity|]). lia. Qed.

(** One lane of [aes_sub_bytes_neon]. *)
Definition sub_lane (b : Z) : Z :=
  let look k x := if x <? 64 then get (take 64 (drop k aes_sbox)) (Z.to_nat x) else 0 in
  let sel m x y := Z.lor (Z.land m x) (Z.land (255 - m) y) in
  let eqm k := if Z.shiftr b 6 =? k then 255 else 0 in
  sel (255 - Z.lor (Z.lor (eqm 0) (eqm 1)) (eqm 2)) (look 192%nat (u8 (b - 192)))
    (sel (eqm 2) (look 128%nat (u8 (b - 128)))
      (sel (eqm 1) (look 64%nat (u8 (b - 64))) (look 0%nat b))).

Lemma sub_lane_sbox (b : Z) : is_uint 8 b -> sub_lane b = get aes_sbox (Z.to_nat b).
Proof.
  intros Hb. apply Z.eqb_eq. revert b Hb. apply byte_forall. vm_compute. reflexivity.
Qed.

Lemma sub_bytes_lane (s : bytes) (i : nat) : (i < 16)%nat ->
  get (aes_sub_bytes_neon s) i = sub_lane (get s i).
Proof.
  intros Hi. unfold aes_sub_bytes_neon, vbslq_u8, vmvnq_u8, vorrq_u8, vceqq_u8, vsubq_u8,
    vshrq_n_u8, vtbl4q_u8, vqtbl, vmap, vzip. cbv zeta.
  repeat first [rewrite get_lanes by done | rewrite get_vdup by done]. reflexivity.
Qed.

Lemma block_ext (a b : bytes) : length a = 16%nat -> length b = 16%nat ->
  (forall i, (i < 16)%nat -> get a i = get b i) -> a = b.
Proof.
  intros Ha Hb H. apply (nth_ext a b 0 0); [congruence|]. intros n Hn. apply H. lia.
Qed.

Lemma aes_sub_bytes_neon_eq (s : bytes) : wf_block s -> aes_sub_bytes_neon s = aes_sub_bytes s.
Proof.
  intros [Hl Hw]. apply block_ext; [done|unfold aes_sub_bytes; by rewrite length_map|].
  intros i Hi. rewrite sub_bytes_lane, sub_lane_sbox by auto with aegis.
  unfold aes_sub_bytes, get at 3. rewrite (nth_indep _ 0 (get aes_sbox (Z.to_nat 0))).
  - by rewrite (map_nth (fun b => get aes_sbox (Z.to_nat b))).
  - rewrite length_map. lia.
Qed.

Lemma aes_shift_rows_neon_eq (s : bytes) : aes_shift_rows_neon s = aes_shift_rows s.
Proof. reflexivity. Qed.

Lemma xtime_neon_eq (a : Z) : is_uint 8 a -> xtime_neon a = xtime a.
Proof. intros H. apply Z.eqb_eq. revert a H. apply byte_forall. vm_compute. reflexivity. Qed.

Lemma aes_mix_columns_neon_eq (s : bytes) : wf_block s -> aes_mix_columns_neon s = aes_mix_columns s.
Proof.
  intros [Hl Hw]. split16 s. wf_split.
  cbv -[xtime xtime_neon Z.lxor]. by rewrite !xtime_neon_eq by done.
Qed.

Lemma aes_round_neon_eq (s : bytes) : wf_block s -> aes_round_neon s = Aes.aes_round s.
Proof.
  intros Hs. unfold aes_round_neon, Aes.aes_round. cbv zeta.
  rewrite aes_sub_bytes_neon_eq, aes_shift_rows_neon_eq by done.
  apply aes_mix_columns_neon_eq, aes_shift_rows_wf, aes_sub_bytes_wf, Hs.
Qed.

(** ** The streaming functions are those of the AES-NI file over this round *)

Definition neon_as_ni : AesNi := {| mm_aesenc_si128 s _ := aes_round_neon s |}.

Section SameCode.
#[local] Existing Instance neon_as_ni.

Lemma neon_update_is_ni : state_update128_neon = state_update128.
Proof. reflexivity. Qed.

Lemma neon_init_is_ni : aegis128_neon_init = aegis128_x86_init.
Proof.
  unfold aegis128_neon_init, aegis128_x86_init. rewrite neon_update_is_ni.
  change veorq_u8 with xor128. reflexivity.
Qed.

Lemma neon_ad_blocks_is_ni (n : nat) (st : aegis_state_t) (ad : bytes) :
  neon_ad_blocks n st ad = x86_ad_blocks n st ad.
Proof.
  revert st ad. induction n as [|n IH]; intros st ad; [done|].
  cbn [neon_ad_blocks x86_ad_blocks]. by rewrite neon_update_is_ni, IH.
Qed.

Lemma neon_ad_update_is_ni (st : aegis_state_t) (ad : bytes) :
  aegis128_neon_ad_update st ad = if (0 <? length ad)%nat then aegis128_x86_ad_update st ad else st.
Proof.
  destruct ad; [done|]. unfold aegis128_neon_ad_update, aegis128_x86_ad_update. cbv zeta.
  by rewrite neon_ad_blocks_is_ni, neon_update_is_ni.
Qed.

Lemma neon_enc_block_is_ni : neon_enc_block = x86_enc_block.
Proof. unfold neon_enc_block. rewrite neon_update_is_ni. reflexivity. Qed.

Lemma neon_dec_block_is_ni : neon_dec_block = x86_dec_block.
Proof. unfold neon_dec_block. rewrite neon_update_is_ni. reflexivity. Qed.

Lemma neon_fold_is_ni (st : aegis_state_t) : neon_fold st = x86_fold st.
Proof. unfold neon_fold, x86_fold, veorq_u8, xor128. by rewrite xor_bytes_assoc. Qed.

Lemma neon_tag_is_ni (st : aegis_state_t) : neon_tag st = x86_tag st.
Proof.
  unfold neon_tag, x86_tag. rewrite neon_update_is_ni, neon_fold_is_ni. f_equal.
  apply (foldl_ext_inv (fun _ => True)); [done|]. intros [s t] i _. cbn [fst snd]. by rewrite neon_fold_is_ni.
Qed.

Lemma neon_enc_final_is_ni (st : aegis_state_t) (src : bytes) : (length src < 16)%nat ->
  aegis128_neon_enc_final st src = aegis128_x86_enc_final st src.
Proof.
  intros H. unfold aegis128_neon_enc_final, aegis128_x86_enc_final. cbv zeta.
  rewrite full_len_small by done. change (0 / 16)%nat with 0%nat. cbn [block_loop]. rewrite drop_0.
  rewrite neon_update_is_ni, !neon_tag_is_ni. by destruct (0 <? length src)%nat.
Qed.

Lemma neon_dec_final_is_ni (st : aegis_state_t) (src beyond tag : bytes) : (length src < 16)%nat ->
  aegis128_neon_dec_final st src beyond tag =
    if can_load src beyond then Some (aegis128_x86_dec_final st src tag) else None.
Proof.
  intros H. unfold aegis128_neon_dec_final, aegis128_x86_dec_final, can_load, vld1q_u8. cbv zeta.
  rewrite full_len_small by done. change (0 / 16)%nat with 0%nat. cbn [block_loop]. rewrite drop_0.
  rewrite neon_update_is_ni, length_app, pad16_length by lia.
  destruct (0 <? length src)%nat eqn:E; zbool.
  - replace (length src =? 0)%nat with false by (symmetry; apply Nat.eqb_neq; lia).
    cbn [orb]. destruct (16 <=? length src + length beyond)%nat; [|done].
    cbn [mbind option_bind Nat.leb]. rewrite (take_ge (pad16 src)) by (rewrite pad16_length; lia). by rewrite neon_tag_is_ni.
  - replace (length src =? 0)%nat with true by (symmetry; apply Nat.eqb_eq; lia).
    cbn [orb mbind option_bind]. by rewrite neon_tag_is_ni.
Qed.

(** The update loop on no bytes does nothing. *)
Lemma update_guard (f : aegis_state_t -> bytes -> aegis_state_t * bytes) (st : aegis_state_t) (m : bytes) :
  block_loop f ((length (take (full_len (length m)) m) + 15) / 16) st (take (full_len (length m)) m) =
  if (0 <? full_len (length m))%nat
  then block_loop f ((length (take (full_len (length m)) m) + 15) / 16) st (take (full_len (length m)) m)
  else (st, []).
Proof. destruct (0 <? _)%nat eqn:E; [done|]. zbool. by replace (full_len (length m)) with 0%nat by lia. Qed.

Lemma neon_encrypt_is_ni (key nonce ad m : bytes) :
  neon_encrypt key nonce ad m = aegis128_x86_encrypt key nonce ad m.
Proof.
  unfold neon_encrypt, aegis128_x86_encrypt. cbv zeta. rewrite neon_init_is_ni, neon_ad_update_is_ni.
  unfold aegis128_neon_enc_update. rewrite update_guard, neon_enc_block_is_ni.
  unfold aegis128_x86_enc_update. destruct (if (0 <? full_len _)%nat then _ else _) as [st c1].
  by rewrite neon_enc_final_is_ni by apply drop_full_length.
Qed.

Lemma neon_decrypt_is_ni (key nonce ad c beyond tag : bytes) :
  neon_decrypt key nonce ad c beyond tag =
    if can_load (drop (full_len (length c)) c) beyond then Some (aegis128_x86_decrypt key nonce ad c tag) else None.
Proof.
  unfold neon_decrypt, aegis128_x86_decrypt. cbv zeta. rewrite neon_init_is_ni, neon_ad_update_is_ni.
  unfold aegis128_neon_dec_update. rewrite update_guard, neon_dec_block_is_ni.
  unfold aegis128_x86_dec_update. destruct (if (0 <? full_len _)%nat then _ else _) as [st c1].
  rewrite neon_dec_final_is_ni by apply drop_full_length.
  destruct (can_load _ beyond); [|done]. by destruct (aegis128_x86_dec_final st _ tag).
Qed.
End SameCode.

(** C24: the NEON code, with its table lookups, selects and re-associated tag sum,
    computes what the portable backend computes: same ciphertext, tag, return code
    and output, when its functions are called in the order of the streaming API.
    But decryption reads sixteen bytes from the start of a last partial block:
    it completes exactly if the ciphertext is a multiple of sixteen bytes or
    enough memory can be read after it; its result does not depend on what is
    read there. *)
Theorem neon_backend_is_pure_c (key nonce ad m c beyond tag : bytes) :
  wf_block key -> wf_block nonce -> wf_bytes ad -> wf_bytes m -> wf_bytes c ->
  neon_encrypt key nonce ad m = aegis_pure_encrypt key nonce ad m /\
  neon_decrypt key nonce ad c beyond tag =
    (if (length c mod 16 =? 0)%nat || (16 <=? length c mod 16 + length beyond)%nat
     then Some (aegis_pure_decrypt key nonce ad c tag) else None).
Proof.
  intros. rewrite neon_encrypt_is_ni, neon_decrypt_is_ni. unfold can_load.
  replace (length (drop (full_len (length c)) c)) with (length c mod 16)%nat
    by (pose proof (divmod16 (length c)); rewrite length_drop, full_len_div; lia).
  rewrite (@x86_encrypt_eq neon_as_ni aes_round_neon_eq), (@x86_decrypt_eq neon_as_ni aes_round_neon_eq) by done.
  done.
Qed.

(** Twenty bytes: with twelve readable bytes after them decryption completes, with
    eleven it does not. *)
Lemma neon_backend_is_pure_c_witness :
  neon_encrypt demo_key demo_nonce demo_ad demo_msg = aegis_pure_encrypt demo_key demo_nonce demo_ad demo_msg /\
  neon_decrypt demo_key demo_nonce demo_ad demo_msg (replicate 12 7) (zeros 16) =
    Some (aegis_pure_decrypt demo_key demo_nonce demo_ad demo_msg (zeros 16)) /\
  neon_decrypt demo_key demo_nonce demo_ad demo_msg (replicate 11 7) (zeros 16) = None.
Proof.
  assert (wf_bytes demo_ad) as Ha by (apply wf_bytesb_spec; reflexivity).
  assert (wf_bytes demo_msg) as Hm by (apply wf_bytesb_spec; reflexivity).
  split_and!.
  - apply (neon_backend_is_pure_c demo_key demo_nonce demo_ad demo_msg demo_msg [] (zeros 16)
      demo_key_block demo_nonce_block Ha Hm Hm).
  - rewrite (proj2 (neon_backend_is_pure_c demo_key demo_nonce demo_ad demo_msg demo_msg (replicate 12 7) (zeros 16)
      demo_key_block demo_nonce_block Ha Hm Hm)). reflexivity.
  - rewrite (proj2 (neon_backend_is_pure_c demo_key demo_nonce demo_ad demo_msg demo_msg (replicate 11 7) (zeros 16)
      demo_key_block demo_nonce_block Ha Hm Hm)). reflexivity.
Defined.
