(* ===== verification/Util.v ===== *)
(** * Util: system calls and src/util/util.c

    The operating system is not part of the repository: a call of [recv],
    [send], [read], [write] or [poll] takes the next entry of a script of
    outcomes, so a theorem that quantifies over scripts covers every way the
    kernel may split, delay or fail the calls.  A script that has run out stands
    for a call that does not return; the functions then give [None].  The
    second half holds the functions of util.c. *)

From S2P Require Import Prelude.

(** ** Outcomes of system calls *)

(** The values of [errno] the code distinguishes ([EWOULDBLOCK] is [EAGAIN] on
    Linux); [EIO] stands for every other one. *)
Inductive errno := EINTR | EAGAIN | EIO.

#[export] Instance errno_eq_dec : EqDecision errno.
Proof. solve_decision. Defined.

(** What the kernel has for the next [recv] or [read]: bytes ([RxData \[\]] is
    end of file), or an error. *)
Inductive rx_ev := RxData (d : bytes) | RxErr (e : errno).

(** How many bytes the next [send] or [write] may take, or an error. *)
Inductive tx_ev := TxSome (n : nat) | TxErr (e : errno).

(** [recv(fd, p, n, 0)] on a stream: at most [n] of the bytes that are there;
    the others stay for the next call. *)
Definition sys_recv (n : nat) (rx : list rx_ev) : option ((errno + bytes) * list rx_ev) :=
  match rx with
  | [] => None
  | RxErr e :: rx' => Some (inl e, rx')
  | RxData d :: rx' =>
      Some (inr (take n d), match drop n d with [] => rx' | r => RxData r :: rx' end)
  end.

(** [read(fd, p, n)] on a device that returns one packet (or one fresh random
    string) per call: what does not fit is gone. *)
Definition sys_read (n : nat) (rx : list rx_ev) : option ((errno + bytes) * list rx_ev) :=
  match rx with
  | [] => None
  | RxErr e :: rx' => Some (inl e, rx')
  | RxData d :: rx' => Some (inr (take n d), rx')
  end.

(** [send(fd, p, len, flags)] and [write]: the number of bytes taken. *)
Definition sys_send (len : nat) (tx : list tx_ev) : option ((errno + nat) * list tx_ev) :=
  match tx with
  | [] => None
  | TxErr e :: tx' => Some (inl e, tx')
  | TxSome n :: tx' => Some (inr (Nat.min n len), tx')
  end.

(** [memcpy(buf + off, d, length d)] into an array. *)
Definition splice (buf : bytes) (off : nat) (d : bytes) : bytes :=
  take off buf ++ d ++ drop (off + length d) buf.

Lemma splice_length (buf : bytes) (off : nat) (d : bytes) :
  (off + length d <= length buf)%nat -> length (splice buf off d) = length buf.
Proof. intros. unfold splice. len. Qed.

Lemma splice_wf (buf : bytes) (off : nat) (d : bytes) :
  wf_bytes buf -> wf_bytes d -> wf_bytes (splice buf off d).
Proof. intros. unfold splice. auto with aegis. Qed.
#[export] Hint Resolve splice_wf : aegis.

Lemma take_splice (buf : bytes) (off : nat) (d : bytes) :
  (off <= length buf)%nat -> take (off + length d) (splice buf off d) = take off buf ++ d.
Proof.
  intros H. unfold splice. rewrite app_assoc. apply take_app_length'. len.
Qed.

Lemma drop_splice (buf : bytes) (off k : nat) (d : bytes) :
  (off <= length buf)%nat -> (off + length d <= k)%nat ->
  drop k (splice buf off d) = drop k buf.
Proof.
  intros H Hk. unfold splice. rewrite app_assoc, drop_app_ge by len.
  rewrite drop_drop. f_equal. len.
Qed.

(** ** util.c *)

(** [/dev/urandom] as one call of [random_bytes] meets it: whether [open]
    succeeds and what the reads give. *)
Record urandom := mkUrandom { ur_open : bool; ur_reads : list rx_ev }.

(** The [while (total < len)] loop; the script bounds the number of rounds. *)
Fixpoint random_loop (rx : list rx_ev) (buf : bytes) (total len : nat) : option (Z * bytes) :=
  if (total <? len)%nat then
    match rx with
    | [] => None
    | RxErr EINTR :: rx' => random_loop rx' buf total len
    | RxErr _ :: _ => Some (-1, buf)
    | RxData d :: rx' =>
        let d := take (len - total) d in
        if (length d =? 0)%nat then Some (-1, buf)
        else random_loop rx' (splice buf total d) (total + length d) len
    end
  else Some (0, buf).

Definition random_bytes (u : urandom) (buf : bytes) (len : nat) : option (Z * bytes) :=
  if negb (ur_open u) then Some (-1, buf)
  else random_loop (ur_reads u) buf 0 len.

(** [secure_memzero(ptr, len)] on the first [len] bytes of an object. *)
Fixpoint secure_memzero (ptr : bytes) (len : nat) : bytes :=
  match len, ptr with
  | S len', _ :: p' => 0 :: secure_memzero p' len'
  | _, _ => ptr
  end.

(** [clock_gettime] gives the seconds, or fails. *)
Definition timestamp_now (clock : option Z) : Z :=
  match clock with None => -1 | Some tv_sec => tv_sec end.

Definition memcmp_constant (a b : bytes) (len : nat) : Z :=
  foldl (fun diff i => Z.lor diff (Z.lxor (get a i) (get b i))) 0 (seq 0 len).

(** ** Properties *)

Lemma random_loop_spec (rx : list rx_ev) (buf : bytes) (total len : nat) (r : Z) (buf' : bytes) :
  (total <= len <= length buf)%nat -> wf_bytes buf ->
  Forall (fun e => match e with RxData d => wf_bytes d | _ => True end) rx ->
  random_loop rx buf total len = Some (r, buf') ->
  (r = 0 \/ r = -1) /\ length buf' = length buf /\ wf_bytes buf' /\
  drop len buf' = drop len buf.
Proof.
  revert buf total. induction rx as [|e rx IH]; intros buf total Hl Hw Hrx; simpl;
    (destruct (total <? len)%nat eqn:E; [|intros [= <- <-]; auto]); [done|].
  apply Forall_cons in Hrx as [He Hrx]. zbool. destruct e as [d|e'].
  - destruct (_ =? 0)%nat eqn:E0; [intros [= <- <-]; auto|]. zbool. intros H.
    apply IH in H as (? & Hlen & ? & Hd); [|rewrite ?splice_length; len..|auto with aegis|done].
    rewrite splice_length in Hlen by len. rewrite drop_splice in Hd by len. auto.
  - destruct e'; [by apply IH|intros [= <- <-]; auto..].
Qed.

(** Reads that deliver [len] bytes in any number of pieces, with interruptions
    anywhere, make [random_bytes] succeed with exactly those bytes. *)
Fixpoint rx_payload (rx : list rx_ev) : option bytes :=
  match rx with
  | [] => Some []
  | RxErr EINTR :: rx' => rx_payload rx'
  | RxErr _ :: _ => None
  | RxData [] :: _ => None
  | RxData d :: rx' => r ← rx_payload rx'; Some (d ++ r)
  end.

Lemma random_loop_total (rx : list rx_ev) (buf : bytes) (total len : nat) (p : bytes) :
  rx_payload rx = Some p -> (total <= len <= length buf)%nat -> (len - total <= length p)%nat ->
  exists buf', random_loop rx buf total len = Some (0, buf').
Proof.
  revert buf total p. induction rx as [|e rx IH]; intros buf total p Hp Hl Hn; simpl in *.
  { injection Hp as <-. simpl in Hn. rewrite (proj2 (Nat.ltb_ge _ _)) by lia. eauto. }
  destruct (total <? len)%nat eqn:E; [|eauto]. zbool. destruct e as [[|b d]|[| |]]; try done.
  - apply bind_Some in Hp as (r & Hr & [= <-]).
    assert ((length (take (len - total) (b :: d)) =? 0)%nat = false) as ->.
    { apply Nat.eqb_neq. len. }
    apply (IH _ _ r Hr); [rewrite ?splice_length; len|]. len.
  - by apply (IH _ _ p).
Qed.

Lemma random_bytes_total (open_ok : bool) (rx : list rx_ev) (buf : bytes) (p : bytes) (len : nat) :
  open_ok = true -> rx_payload rx = Some p -> (len <= length buf)%nat -> (len <= length p)%nat ->
  exists buf', random_bytes (mkUrandom open_ok rx) buf len = Some (0, buf').
Proof. intros -> Hp Hl Hn. apply (random_loop_total _ _ _ _ p); [done|lia..]. Qed.

Lemma secure_memzero_spec (ptr : bytes) (len : nat) :
  (len <= length ptr)%nat -> secure_memzero ptr len = zeros len ++ drop len ptr.
Proof.
  revert ptr. induction len as [|n IH]; intros [|b p] H; simpl in *; try done; [lia|].
  by rewrite IH by lia.
Qed.

Lemma lor_zero (x y : Z) : Z.lor x y = 0 <-> x = 0 /\ y = 0.
Proof. apply Z.lor_eq_0_iff. Qed.

(** The comparison result is 0 exactly for equal prefixes. *)
Lemma memcmp_constant_spec (a b : bytes) (len : nat) :
  (len <= length a)%nat -> (len <= length b)%nat ->
  memcmp_constant a b len = 0 <-> take len a = take len b.
Proof.
  intros Ha Hb. unfold memcmp_constant.
  induction len as [|n IH]; [done|].
  rewrite seq_S, foldl_snoc, lor_zero, IH by lia. simpl plus.
  unfold get. rewrite Z.lxor_eq_0_iff. clear IH.
  destruct (lookup_lt_is_Some_2 a n) as [x Hx]; [lia|].
  destruct (lookup_lt_is_Some_2 b n) as [y Hy]; [lia|].
  rewrite (take_S_r a n x Hx), (take_S_r b n y Hy).
  rewrite !(nth_lookup _ n), Hx, Hy. simpl. split.
  - by intros [-> ->].
  - intros H. apply app_inj_tail in H. tauto.
Qed.

(** ** Streams *)

(** Bytes and events of a script: every round of the loop uses some up. *)
Fixpoint rx_size (rx : list rx_ev) : nat :=
  match rx with
  | [] => 0
  | RxErr _ :: rx' => S (rx_size rx')
  | RxData d :: rx' => S (length d + rx_size rx')
  end.

(** How a script goes on: its bytes up to the first event that ends the stream,
    and that event. *)
Inductive rx_end := EndEof | EndAgain | EndErr.

Fixpoint rx_flow (rx : list rx_ev) : bytes * option rx_end :=
  match rx with
  | [] => ([], None)
  | RxErr EINTR :: rx' => rx_flow rx'
  | RxErr EAGAIN :: _ => ([], Some EndAgain)
  | RxErr EIO :: _ => ([], Some EndErr)
  | RxData [] :: _ => ([], Some EndEof)
  | RxData d :: rx' => let '(b, e) := rx_flow rx' in (d ++ b, e)
  end.

Definition wf_rx (rx : list rx_ev) : Prop :=
  Forall (fun e => match e with RxData d => wf_bytes d | _ => True end) rx.

Definition wf_rxb (rx : list rx_ev) : bool :=
  forallb (fun e => match e with RxData d => wf_bytesb d | _ => true end) rx.

Lemma wf_rxb_spec (rx : list rx_ev) : wf_rxb rx = true -> wf_rx rx.
Proof.
  induction rx as [|[d|e] rx IH]; simpl; [constructor|..].
  - intros [Hd Hr]%andb_true_iff. constructor; [by apply wf_bytesb_spec|]. by apply IH.
  - intros. constructor; [done|]. by apply IH.
Qed.

(** One [recv] moves bytes from the front of the stream. *)
Lemma sys_recv_flow (n : nat) (rx rx' : list rx_ev) (d : bytes) :
  (0 < n)%nat -> wf_rx rx -> sys_recv n rx = Some (inr d, rx') ->
  wf_rx rx' /\ wf_bytes d /\ (length d <= n)%nat /\
  (if decide (d = []) then rx_flow rx = ([], Some EndEof)
   else rx_flow rx = (d ++ fst (rx_flow rx'), snd (rx_flow rx')) /\ (rx_size rx' < rx_size rx)%nat).
Proof.
  intros Hn Hw H. destruct rx as [|[e|e] rx]; simpl in H; [done| |done].
  injection H as <- <-. apply Forall_cons in Hw as [He Hw]. split_and!.
  - destruct (drop n e) eqn:E; [done|]. constructor; [|done]. rewrite <- E. auto with aegis.
  - auto with aegis.
  - rewrite length_take. lia.
  - destruct (decide (take n e = [])) as [Hd|Hd].
    + destruct e; [done|]. by destruct n; [lia|].
    + destruct e as [|b e]; [by rewrite take_nil in Hd|].
      assert (length (take n (b :: e)) + length (drop n (b :: e)) = length (b :: e))%nat
        by (rewrite length_take, length_drop; lia).
      assert (0 < length (take n (b :: e)))%nat by (destruct n; [lia|simpl; lia]).
      destruct (drop n (b :: e)) as [|x r] eqn:E.
      * assert (take n (b :: e) = b :: e) as -> by (apply take_ge; revert E; rewrite <- length_zero_iff_nil, length_drop; lia).
        simpl. destruct (rx_flow rx). simpl. split; [done|lia].
      * split.
        -- assert (Hx : b :: e = take n (b :: e) ++ x :: r) by (by rewrite <- E, take_drop).
           change (rx_flow (RxData (b :: e) :: rx)) with (let '(y, z) := rx_flow rx in ((b :: e) ++ y, z)).
           change (rx_flow (RxData (x :: r) :: rx)) with (let '(y, z) := rx_flow rx in ((x :: r) ++ y, z)).
           destruct (rx_flow rx) as [y z]. cbn [fst snd]. rewrite Hx at 1. by rewrite <- app_assoc.
        -- cbn [rx_size]. lia.
Qed.
