(* ===== verification/Io.v ===== *)
(** * Io: the process, its sockets and the state monad of the protocol code

    [world] holds what the code of handshake.c, tunnel.c and socks5.c reads and
    writes outside its arguments: the scripts of the system calls, the bytes the
    kernel has taken on each descriptor, the key generator, the clock, the memory
    allocator and the replay cache (a static of handshake.c).  A computation is a function on
    worlds; [None] is a call that does not return because its script has run out.
    [send_all] and [recv_all] of src/protocol/handshake.c close the file. *)

From S2P Require Import Prelude Util.

(** ** Worlds *)

(** [revents] of one descriptor: POLLIN, and any of POLLERR, POLLHUP, POLLNVAL. *)
Record revents := mkRev { pollin : bool; pollbad : bool }.

Definition no_event : revents := mkRev false false.
Definition readable : revents := mkRev true false.

(** An outcome of [poll]: failure, or the events on the plaintext and on the
    encrypted descriptor (all absent is the timeout). *)
Inductive poll_ev := PollFail (e : errno) | PollRet (pt enc : revents).

(** An entry of the replay cache of handshake.c. *)
Record replay_entry_t := mkReplay { rp_ts : Z; rp_eph_prefix : Z }.

#[export] Instance replay_entry_eq_dec : EqDecision replay_entry_t.
Proof. solve_decision. Defined.

Record world := mkWorld {
  w_poll : list poll_ev;
  w_rx : list rx_ev;             (* encrypted descriptor *)
  w_tx : list tx_ev;
  w_out : bytes;
  w_pt_rx : list rx_ev;          (* plaintext descriptor *)
  w_pt_tx : list tx_ev;
  w_pt_out : bytes;
  w_clock : list (option Z);
  w_keygen : list (option bytes);
  w_rand : list urandom;
  w_malloc : list bool;          (* whether the next [malloc] succeeds *)
  w_replay : list replay_entry_t;
  w_replay_idx : nat;
}.

Definition set_poll (x : list poll_ev) (w : world) : world :=
  mkWorld x (w_rx w) (w_tx w) (w_out w) (w_pt_rx w) (w_pt_tx w) (w_pt_out w) (w_clock w)
    (w_keygen w) (w_rand w) (w_malloc w) (w_replay w) (w_replay_idx w).
Definition set_rx (x : list rx_ev) (w : world) : world :=
  mkWorld (w_poll w) x (w_tx w) (w_out w) (w_pt_rx w) (w_pt_tx w) (w_pt_out w) (w_clock w)
    (w_keygen w) (w_rand w) (w_malloc w) (w_replay w) (w_replay_idx w).
Definition set_tx (x : list tx_ev) (o : bytes) (w : world) : world :=
  mkWorld (w_poll w) (w_rx w) x o (w_pt_rx w) (w_pt_tx w) (w_pt_out w) (w_clock w)
    (w_keygen w) (w_rand w) (w_malloc w) (w_replay w) (w_replay_idx w).
Definition set_pt_rx (x : list rx_ev) (w : world) : world :=
  mkWorld (w_poll w) (w_rx w) (w_tx w) (w_out w) x (w_pt_tx w) (w_pt_out w) (w_clock w)
    (w_keygen w) (w_rand w) (w_malloc w) (w_replay w) (w_replay_idx w).
Definition set_pt_tx (x : list tx_ev) (o : bytes) (w : world) : world :=
  mkWorld (w_poll w) (w_rx w) (w_tx w) (w_out w) (w_pt_rx w) x o (w_clock w)
    (w_keygen w) (w_rand w) (w_malloc w) (w_replay w) (w_replay_idx w).
Definition set_clock (x : list (option Z)) (w : world) : world :=
  mkWorld (w_poll w) (w_rx w) (w_tx w) (w_out w) (w_pt_rx w) (w_pt_tx w) (w_pt_out w) x
    (w_keygen w) (w_rand w) (w_malloc w) (w_replay w) (w_replay_idx w).
Definition set_keygen (x : list (option bytes)) (w : world) : world :=
  mkWorld (w_poll w) (w_rx w) (w_tx w) (w_out w) (w_pt_rx w) (w_pt_tx w) (w_pt_out w) (w_clock w)
    x (w_rand w) (w_malloc w) (w_replay w) (w_replay_idx w).
Definition set_rand (x : list urandom) (w : world) : world :=
  mkWorld (w_poll w) (w_rx w) (w_tx w) (w_out w) (w_pt_rx w) (w_pt_tx w) (w_pt_out w) (w_clock w)
    (w_keygen w) x (w_malloc w) (w_replay w) (w_replay_idx w).
Definition set_replay (x : list replay_entry_t) (i : nat) (w : world) : world :=
  mkWorld (w_poll w) (w_rx w) (w_tx w) (w_out w) (w_pt_rx w) (w_pt_tx w) (w_pt_out w) (w_clock w)
    (w_keygen w) (w_rand w) (w_malloc w) x i.
Definition set_malloc (x : list bool) (w : world) : world :=
  mkWorld (w_poll w) (w_rx w) (w_tx w) (w_out w) (w_pt_rx w) (w_pt_tx w) (w_pt_out w) (w_clock w)
    (w_keygen w) (w_rand w) x (w_replay w) (w_replay_idx w).

(** ** Descriptors *)

Inductive proto := TCP | MPTCP | UDP.

(** What happens to the sockets of a process: one is opened, marked
    ([SO_MARK]), an address is tried on it, it is closed. *)
Inductive net_ev := Opened (fd : Z) (p : proto) | Marked (fd mark : Z) | Tried (fd : Z) (addr : nat) | Closed (fd : Z).

Definition fds_opened (evs : list net_ev) : list Z := omap (fun e => match e with Opened fd _ => Some fd | _ => None end) evs.
Definition fds_closed (evs : list net_ev) : list Z := omap (fun e => match e with Closed fd => Some fd | _ => None end) evs.

Lemma fds_opened_app a b : fds_opened (a ++ b) = fds_opened a ++ fds_opened b.
Proof. apply omap_app. Qed.

Lemma fds_closed_app a b : fds_closed (a ++ b) = fds_closed a ++ fds_closed b.
Proof. apply omap_app. Qed.

(** ** The monad *)

Definition M (A : Type) : Type := world -> option (A * world).

#[export] Instance M_ret : MRet M := fun A x w => Some (x, w).
#[export] Instance M_bind : MBind M := fun A B f m w =>
  match m w with None => None | Some (x, w') => f x w' end.

Lemma M_bind_some {A B} (m : M A) (f : A -> M B) (w : world) (b : B) (w2 : world) :
  (m ≫= f) w = Some (b, w2) -> exists a w1, m w = Some (a, w1) /\ f a w1 = Some (b, w2).
Proof. unfold mbind, M_bind. destruct (m w) as [[a w1]|]; [eauto|done]. Qed.

Lemma M_bind_eq {A B} (m : M A) (f : A -> M B) (w : world) (a : A) (w1 : world) :
  m w = Some (a, w1) -> (m ≫= f) w = f a w1.
Proof. unfold mbind, M_bind. by intros ->. Qed.

(** Splits a hypothesis about a run into its steps. *)
Ltac run_step :=
  match goal with
  | H : (_ ≫= _) _ = Some (_, _) |- _ =>
      let a := fresh "a" in let w := fresh "w" in let E := fresh "E" in
      apply M_bind_some in H as (a & w & E & H)
  | H : mret _ _ = Some (_, _) |- _ => injection H as ? ?; subst
  end.

(** ** Calls that take the next entry of a script *)

(** [timestamp_now()]. *)
Definition do_timestamp : M Z := fun w =>
  match w_clock w with [] => None | c :: l => Some (timestamp_now c, set_clock l w) end.

(** [random_bytes(buf, len)]; the caller's buffer holds [buf] before. *)
Definition do_random (buf : bytes) (len : nat) : M (Z * bytes) := fun w =>
  match w_rand w with
  | [] => None
  | u :: l =>
      match random_bytes u buf len with
      | None => None
      | Some r => Some (r, set_rand l w)
      end
  end.

(** [malloc]: whether it returns memory. *)
Definition do_malloc : M bool := fun w =>
  match w_malloc w with [] => None | b :: l => Some (b, set_malloc l w) end.

(** The [while] loop of [send_all]: what is left to send, the script, the bytes
    the kernel has taken. *)
Fixpoint send_all_loop (tx : list tx_ev) (b out : bytes) : option (Z * list tx_ev * bytes) :=
  if (length b =? 0)%nat then Some (0, tx, out)
  else
    match tx with
    | [] => None
    | TxErr EINTR :: tx' => send_all_loop tx' b out
    | TxErr _ :: tx' => Some (-1, tx', out)
    | TxSome n :: tx' =>
        let r := Nat.min n (length b) in
        if (r =? 0)%nat then Some (-1, tx', out)
        else send_all_loop tx' (drop r b) (out ++ take r b)
    end.

Definition send_all (b : bytes) : M Z := fun w =>
  match send_all_loop (w_tx w) b (w_out w) with
  | None => None
  | Some (r, tx, out) => Some (r, set_tx tx out w)
  end.

(** The [while (r < n)] loop of [recv_all] with what has arrived so far; the
    result is the buffer, or [None] for -1. *)
Fixpoint recv_all_loop (poll : list poll_ev) (rx : list rx_ev) (acc : bytes) (n : nat) :
    option (option bytes * list poll_ev * list rx_ev) :=
  if (length acc <? n)%nat then
    match poll with
    | [] => None
    | PollFail EINTR :: p => recv_all_loop p rx acc n
    | PollFail _ :: p => Some (None, p, rx)
    | PollRet _ ev :: p =>
        if negb (pollin ev || pollbad ev) then Some (None, p, rx)   (* timeout *)
        else if pollbad ev then Some (None, p, rx)
        else
          match sys_recv (n - length acc) rx with
          | None => None
          | Some (inl EINTR, rx') => recv_all_loop p rx' acc n
          | Some (inl _, rx') => Some (None, p, rx')
          | Some (inr d, rx') =>
              if (length d =? 0)%nat then Some (None, p, rx')
              else recv_all_loop p rx' (acc ++ d) n
          end
    end
  else Some (Some acc, poll, rx).

Definition recv_all (n : nat) : M (option bytes) := fun w =>
  match recv_all_loop (w_poll w) (w_rx w) [] n with
  | None => None
  | Some (r, p, rx) => Some (r, set_rx rx (set_poll p w))
  end.

(** ** Properties of the two loops *)

Lemma send_all_loop_spec (tx : list tx_ev) (b out : bytes) (r : Z) (tx' : list tx_ev) (out' : bytes) :
  send_all_loop tx b out = Some (r, tx', out') ->
  (r = 0 /\ out' = out ++ b) \/ (r = -1 /\ exists k, out' = out ++ take k b).
Proof.
  revert b out. induction tx as [|[n|e] tx IH]; intros b out; cbn [send_all_loop];
    (destruct (length b =? 0)%nat eqn:E0;
     [intros [= <- <- <-]; zbool; apply length_zero_iff_nil in E0 as ->; left; by rewrite app_nil_r|]);
    [done| |].
  - destruct (Nat.min n (length b) =? 0)%nat eqn:E1.
    { intros [= <- <- <-]. right. split; [done|]. exists 0%nat. by rewrite take_0, app_nil_r. }
    intros [[-> ->]|(-> & k & ->)]%IH.
    + left. by rewrite <- app_assoc, take_drop.
    + right. split; [done|]. exists (Nat.min n (length b) + k)%nat.
      by rewrite <- app_assoc, take_take_drop.
  - assert (H0 : exists k, out = out ++ take k b) by (exists 0%nat; by rewrite take_0, app_nil_r).
    destruct e; [apply IH|intros [= <- <- <-]; eauto..].
Qed.

(** How many bytes a script takes before it stops a [send_all]. *)
Fixpoint tx_cap (tx : list tx_ev) : nat :=
  match tx with
  | [] => 0
  | TxErr EINTR :: tx' => tx_cap tx'
  | TxErr _ :: _ => 0
  | TxSome n :: tx' => if (n =? 0)%nat then 0 else (n + tx_cap tx')%nat
  end.

(** The script lets [send_all] send messages of these lengths, one after the
    other. *)
Fixpoint tx_takes (ls : list nat) (tx : list tx_ev) : Prop :=
  match ls with
  | [] => True
  | l :: ls' => exists tx', tx_takes ls' tx' /\
      forall b out, length b = l -> send_all_loop tx b out = Some (0, tx', out ++ b)
  end.

Lemma tx_takes_cap (l : nat) (tx : list tx_ev) : (l <= tx_cap tx)%nat -> tx_takes [l] tx.
Proof.
  cut ((l <= tx_cap tx)%nat ->
    exists tx', forall b out, length b = l -> send_all_loop tx b out = Some (0, tx', out ++ b)).
  { intros Hc Hl. destruct (Hc Hl) as [tx' H]. by exists tx'. }
  revert l. induction tx as [|[n|e] tx IH]; intros l H; cbn [tx_cap] in H.
  - exists []. intros b out Hb. destruct b; [|simpl in Hb; lia]. by rewrite app_nil_r.
  - destruct l as [|l].
    { eexists. intros [|] out Hb; [|done]. rewrite app_nil_r. reflexivity. }
    destruct (n =? 0)%nat eqn:E1; [lia|]. zbool.
    destruct (IH (S l - n)%nat) as [tx' Htx']; [lia|]. exists tx'. intros b out Hb. cbn [send_all_loop].
    rewrite !(proj2 (Nat.eqb_neq _ _)) by lia.
    rewrite Htx' by (rewrite length_drop; lia). by rewrite <- app_assoc, take_drop.
  - destruct l as [|l].
    { eexists. intros [|] out Hb; [|done]. rewrite app_nil_r. reflexivity. }
    destruct e; [|lia..]. destruct (IH (S l)) as [tx' Htx']; [done|]. exists tx'. intros b out Hb.
    cbn [send_all_loop]. rewrite (proj2 (Nat.eqb_neq _ _)) by lia. by apply Htx'.
Qed.

Lemma tx_takes_cons (l n : nat) (ls : list nat) (tx : list tx_ev) :
  (0 < l <= n)%nat -> tx_takes ls tx -> tx_takes (l :: ls) (TxSome n :: tx).
Proof.
  intros Hl Hls. exists tx. split; [done|]. intros b out Hb. cbn [send_all_loop].
  rewrite (proj2 (Nat.eqb_neq _ _)) by lia. rewrite Nat.min_r by lia.
  rewrite (proj2 (Nat.eqb_neq _ _)) by lia. rewrite drop_all, firstn_all. by destruct tx as [|[] ?].
Qed.

Lemma recv_all_loop_spec (poll : list poll_ev) (rx : list rx_ev) (acc r : bytes) (n : nat)
    (p' : list poll_ev) (rx' : list rx_ev) :
  (length acc <= n)%nat -> wf_rx rx ->
  recv_all_loop poll rx acc n = Some (Some r, p', rx') ->
  exists got, r = acc ++ got /\ length r = n /\ wf_bytes got /\ wf_rx rx' /\
    rx_flow rx = (got ++ fst (rx_flow rx'), snd (rx_flow rx')).
Proof.
  revert rx acc. induction poll as [|ev poll IH]; intros rx acc Hl Hw; cbn [recv_all_loop].
  { destruct (_ <? _)%nat eqn:E; [done|]. intros [= <- <- <-]. zbool. exists [].
    rewrite app_nil_r. split_and!; auto with aegis; [lia|]. by destruct (rx_flow rx). }
  destruct (_ <? _)%nat eqn:E; zbool.
  2: { intros [= <- <- <-]. exists [].
       rewrite app_nil_r. split_and!; auto with aegis; [lia|]. by destruct (rx_flow rx). }
  destruct ev as [[]|pt ev]; [by apply IH|done|done|]. destruct (negb _); [done|].
  destruct (pollbad ev); [done|]. destruct (sys_recv _ rx) as [[[e|d] rx1]|] eqn:Er; [| |done].
  - destruct rx as [|[d|e'] rx]; simpl in Er; try done. injection Er as -> ->.
    apply Forall_cons in Hw as [_ Hw]. destruct e; [|done..]. exact (IH rx1 acc Hl Hw).
  - apply sys_recv_flow in Er as (Hw1 & Hwd & Hld & Hf); [|lia|done].
    destruct (decide (d = [])) as [->|Hd]; [done|]. destruct Hf as [Hf _].
    destruct (_ =? 0)%nat eqn:E0; [done|]. intros H.
    apply IH in H as (got & -> & Hlen & Hwg & Hw' & Hf'); [|rewrite length_app; lia|done].
    exists (d ++ got). split_and!; [by rewrite app_assoc|done|auto with aegis|done|].
    rewrite Hf, Hf'. cbn [fst snd]. by rewrite app_assoc.
Qed.

(** A socket that is always ready and delivers its bytes in any pieces. *)
Definition data_rx (rx : list rx_ev) : Prop :=
  Forall (fun e => match e with RxData d => d <> [] | RxErr _ => False end) rx.

Definition ready_polls (k : nat) (poll : list poll_ev) : Prop :=
  exists pt p, poll = replicate k (PollRet pt readable) ++ p.

Lemma recv_all_loop_ok (poll : list poll_ev) (rx : list rx_ev) (acc : bytes) (n k : nat) :
  data_rx rx -> wf_rx rx -> ready_polls k poll -> (length rx < k)%nat ->
  (length acc <= n)%nat -> (n <= length acc + length (fst (rx_flow rx)))%nat ->
  exists r p' rx' k', recv_all_loop poll rx acc n = Some (Some r, p', rx') /\
    data_rx rx' /\ ready_polls k' p' /\ (k + length rx' <= k' + length rx + 1)%nat.
Proof.
  intros Hd Hw (pt & p & ->). revert rx acc Hd Hw.
  induction k as [|k IH]; intros rx acc Hd Hw Hk Hl Hn; [lia|].
  cbn [replicate app recv_all_loop]. destruct (_ <? _)%nat eqn:E; zbool.
  2: { eexists _, _, rx, (S k). split; [reflexivity|]. split_and!; [done|by exists pt, p|lia]. }
  cbn [readable pollin pollbad orb negb].
  destruct rx as [|[d|e] rx]; [simpl in *; lia| |by apply Forall_cons in Hd as [[] _]].
  apply Forall_cons in Hd as [Hd1 Hd]. apply Forall_cons in Hw as [Hw1 Hw].
  assert (Hlt : length (take (n - length acc) d) <> 0%nat).
  { destruct d; [done|]. rewrite length_take. simpl. lia. }
  cbn [sys_recv]. rewrite (proj2 (Nat.eqb_neq _ _)) by done.
  assert (Hfl : length (fst (rx_flow (RxData d :: rx))) = (length d + length (fst (rx_flow rx)))%nat).
  { destruct d; [done|]. cbn [rx_flow]. destruct (rx_flow rx). cbn [fst]. by rewrite length_app. }
  rewrite Hfl in Hn. destruct (drop (n - length acc) d) as [|x r] eqn:Ed.
  - assert (Hld : length (drop (n - length acc) d) = 0%nat) by (by rewrite Ed).
    rewrite length_drop in Hld. rewrite take_ge in * by lia.
    destruct (IH rx (acc ++ d)) as (r & p' & rx' & k' & -> & H1 & H2 & H3);
      [done|done|simpl in Hk; lia|rewrite length_app; lia..|].
    exists r, p', rx', k'. split_and!; [done..|simpl; lia].
  - assert (Hld : length (drop (n - length acc) d) <> 0%nat) by (by rewrite Ed).
    rewrite length_drop in Hld.
    assert (Hfin : length (acc ++ take (n - length acc) d) = n) by (rewrite length_app, length_take; lia).
    exists (acc ++ take (n - length acc) d), (replicate k (PollRet pt readable) ++ p),
      (RxData (x :: r) :: rx), k.
    split_and!; [|by constructor|by exists pt, p|simpl; lia].
    destruct k; cbn [replicate app recv_all_loop].
    + destruct p; cbn [recv_all_loop]; by rewrite (proj2 (Nat.ltb_ge _ _)) by lia.
    + by rewrite (proj2 (Nat.ltb_ge _ _)) by lia.
Qed.
