(* ===== verification/Frame.v ===== *)
(** * Frame: the wire frames of src/tunnel/tunnel.c

    [frame_build] and [frame_parse] for TCP, where the nonce is a counter both
    ends keep, and [frame_build_explicit] and [frame_parse_explicit] for UDP,
    where it travels in the frame.  The out-parameters of a parse are the result
    of a successful call; no caller reads them after a failure.  Everything is
    proved against the [Aead] interface, for any backend that meets its laws. *)

From S2P Require Import Prelude Aes Aegis Aead Util.

(** ** Constants of tunnel.h and handshake.h *)

Definition FRAME_HEADER_LEN : nat := 4.
Definition FRAME_MAX_PAYLOAD : Z := 65535.
Definition FRAME_MAX_WIRE : Z := Z.of_nat FRAME_HEADER_LEN + FRAME_MAX_PAYLOAD + Z.of_nat AEGIS_TAG_LEN.
Definition FRAME_EXPLICIT_HEADER_LEN : nat := 12.
Definition FRAME_EXPLICIT_MAX_WIRE : Z :=
  Z.of_nat FRAME_EXPLICIT_HEADER_LEN + FRAME_MAX_PAYLOAD + Z.of_nat AEGIS_TAG_LEN.

Definition FRAME_HANDSHAKE : Z := 0x01.
Definition FRAME_DATA : Z := 0x02.
Definition FRAME_KEEPALIVE : Z := 0x03.
Definition FRAME_CLOSE : Z := 0x04.
Definition FRAME_KEYCONFIRM : Z := 0x05.
Definition FRAME_REKEY : Z := 0x06.
Definition FLAG_NONE : Z := 0x00.

Definition NONCE_OVERFLOW_LIMIT : Z := 0xFFFFFFFFFFFFFFF0.
Definition NONCE_REKEY_MARGIN : Z := 10000.

(** [size_t] length of a buffer. *)
Abbreviation zlen l := (Z.of_nat (length l)).

(** ** Operations *)

(** Eight times [nonce\[i\] = (uint8_t)(counter & 0xff); counter >>= 8]. *)
Definition nonce_from_counter (counter : Z) : bytes :=
  fst (foldl (fun '(nonce, counter) i =>
      (<[i := u8 (Z.land counter 0xff)]> nonce, Z.shiftr counter 8))
    (zeros AEGIS_NONCE_LEN, counter) (seq 0 8)).

(** The four bytes both header formats start with. *)
Definition frame_header (type flags len : Z) : bytes :=
  [type; flags; u8 (Z.land (Z.shiftr len 8) 0xff); u8 (Z.land len 0xff)].

(** [((uint16_t)h\[2\] << 8) | h\[3\]]. *)
Definition header_len (h : bytes) : Z := Z.lor (Z.shiftl (get h 2) 8) (get h 3).

Section Frames.
Context {A : Aead}.

Definition frame_build (type flags : Z) (d : bytes) (nonce_ctr : Z) (key : bytes) : option bytes :=
  if FRAME_MAX_PAYLOAD <? zlen d then None
  else
    let header := frame_header type flags (zlen d) in
    let nonce := nonce_from_counter nonce_ctr in
    let '(ct, tag) := aead_encrypt key nonce header d in
    Some (header ++ ct ++ tag).

Definition frame_parse (buf : bytes) (nonce_ctr : Z) (key : bytes) : option (Z * Z * bytes) :=
  let buflen := zlen buf in
  if buflen <? Z.of_nat (FRAME_HEADER_LEN + AEGIS_TAG_LEN) then None
  else
    let header := take FRAME_HEADER_LEN buf in
    let type := get header 0 in
    let flags := get header 1 in
    let payload_len := header_len header in
    if negb (buflen =? Z.of_nat FRAME_HEADER_LEN + payload_len + Z.of_nat AEGIS_TAG_LEN) then None
    else if FRAME_MAX_PAYLOAD <? payload_len then None
    else
      let n := Z.to_nat payload_len in
      let ct := take n (drop FRAME_HEADER_LEN buf) in
      let tag := take AEGIS_TAG_LEN (drop (FRAME_HEADER_LEN + n) buf) in
      let '(ret, d) := aead_decrypt key (nonce_from_counter nonce_ctr) header ct tag in
      if negb (ret =? 0) then None else Some (type, flags, d).

(** [random_bytes] on the first eight bytes of a zeroed nonce, as [u] makes it
    succeed or fail; a run in which it does not return gives no result. *)
Definition frame_build_explicit (u : urandom) (type flags : Z) (d key : bytes) :
    option (option bytes) :=
  if FRAME_MAX_PAYLOAD <? zlen d then Some None
  else
    match random_bytes u (zeros AEGIS_NONCE_LEN) 8 with
    | None => None
    | Some (ret, nonce) =>
        if negb (ret =? 0) then Some None
        else
          let header := frame_header type flags (zlen d) ++ take 8 nonce in
          let '(ct, tag) := aead_encrypt key nonce header d in
          Some (Some (header ++ ct ++ tag))
    end.

Definition frame_parse_explicit (buf : bytes) (key : bytes) : option (Z * Z * bytes) :=
  let buflen := zlen buf in
  if buflen <? Z.of_nat (FRAME_EXPLICIT_HEADER_LEN + AEGIS_TAG_LEN) then None
  else
    let header := take FRAME_EXPLICIT_HEADER_LEN buf in
    let type := get buf 0 in
    let flags := get buf 1 in
    let payload_len := header_len buf in
    if negb (buflen =? Z.of_nat FRAME_EXPLICIT_HEADER_LEN + payload_len + Z.of_nat AEGIS_TAG_LEN)
    then None
    else if FRAME_MAX_PAYLOAD <? payload_len then None
    else
      let nonce := splice (zeros AEGIS_NONCE_LEN) 0 (take 8 (drop 4 buf)) in
      let n := Z.to_nat payload_len in
      let ct := take n (drop FRAME_EXPLICIT_HEADER_LEN buf) in
      let tag := take AEGIS_TAG_LEN (drop (FRAME_EXPLICIT_HEADER_LEN + n) buf) in
      let '(ret, d) := aead_decrypt key nonce header ct tag in
      if negb (ret =? 0) then None else Some (type, flags, d).

End Frames.

(** ** Nonces *)

Lemma nonce_from_counter_bytes (ctr : Z) : nonce_from_counter ctr = le_bytes 8 ctr ++ zeros 8.
Proof.
  unfold nonce_from_counter. cbn -[u8 Z.land Z.shiftr].
  change 255 with (Z.ones 8). unfold u8. rewrite !Z.land_ones, !Z.mod_mod by done. done.
Qed.

Lemma nonce_block (ctr : Z) : wf_block (nonce_from_counter ctr).
Proof. rewrite nonce_from_counter_bytes. split; [done | auto with aegis]. Qed.
#[export] Hint Resolve nonce_block : aegis.

Lemma nonce_inj (a b : Z) : is_uint 64 a -> is_uint 64 b ->
  nonce_from_counter a = nonce_from_counter b -> a = b.
Proof.
  intros Ha Hb. rewrite !nonce_from_counter_bytes. intros H.
  apply app_inj_1 in H as [H _]; [|by rewrite !le_bytes_length].
  by apply (le_bytes_inj 8).
Qed.

(** ** Headers *)

Lemma u8_land (x : Z) : u8 (Z.land x 255) = Z.land x 255.
Proof. unfold u8. change 255 with (Z.ones 8). by rewrite Z.land_ones, Z.mod_mod. Qed.

Lemma frame_header_length (type flags len : Z) : length (frame_header type flags len) = 4%nat.
Proof. done. Qed.
#[export] Hint Rewrite frame_header_length : len.

Lemma frame_header_wf (type flags len : Z) :
  is_uint 8 type -> is_uint 8 flags -> wf_bytes (frame_header type flags len).
Proof. intros. unfold frame_header. rewrite !wf_bytes_cons. auto 7 with aegis. Qed.
#[export] Hint Resolve frame_header_wf : aegis.

Lemma header_len_header (type flags len : Z) (rest : bytes) : is_uint 16 len ->
  header_len (frame_header type flags len ++ rest) = len.
Proof.
  intros H. unfold header_len, frame_header, get. simpl nth. rewrite !u8_land.
  by apply be16_roundtrip.
Qed.

Lemma header_len_bound (h : bytes) : wf_bytes h -> is_uint 16 (header_len h).
Proof.
  intros Hh. assert (H2 := get_wf h 2 Hh). assert (H3 := get_wf h 3 Hh). unfold header_len.
  apply is_uint_lor; [done| |unfold is_uint in *; lia].
  unfold is_uint in *. rewrite Z.shiftl_mul_pow2 by done. lia.
Qed.

(** Two bytes are the header bytes of the number they encode. *)
Lemma be16_bytes (a b : Z) : is_uint 8 a -> is_uint 8 b ->
  Z.land (Z.shiftr (Z.lor (Z.shiftl a 8) b) 8) 255 = a /\
  Z.land (Z.lor (Z.shiftl a 8) b) 255 = b.
Proof.
  intros Ha%is_uint_land Hb; [|done]. change (Z.ones 8) with 255 in *.
  assert (Hb' := Hb). apply is_uint_land in Hb'; [|done]. change (Z.ones 8) with 255 in Hb'.
  rewrite Z.shiftr_lor, Z.shiftr_shiftl_l, Z.shiftl_0_r by done.
  rewrite !Z.land_lor_distr_l, Ha, Hb'. split.
  - assert (Z.shiftr b 8 = 0) as ->; [|by rewrite Z.land_0_l, Z.lor_0_r].
    rewrite Z.shiftr_div_pow2 by done. apply Z.div_small. apply Hb.
  - assert (Z.land (Z.shiftl a 8) 255 = 0) as ->; [|done].
    change 255 with (Z.ones 8). rewrite Z.land_ones, Z.shiftl_mul_pow2 by done.
    by apply Z.mod_mul.
Qed.

(** A well-formed header is rebuilt from its fields. *)
Lemma frame_header_of_bytes (buf : bytes) : wf_bytes buf -> (4 <= length buf)%nat ->
  frame_header (get buf 0) (get buf 1) (header_len buf) = take 4 buf.
Proof.
  intros Hw Hl. destruct buf as [|t [|f [|a [|b buf]]]]; simpl in Hl; try lia.
  unfold frame_header, header_len, get. simpl nth. simpl take. rewrite !u8_land.
  apply wf_bytes_cons in Hw as [_ Hw]. apply wf_bytes_cons in Hw as [_ Hw].
  apply wf_bytes_cons in Hw as [Ha Hw]. apply wf_bytes_cons in Hw as [Hb _].
  destruct (be16_bytes a b Ha Hb) as [-> ->]. by rewrite take_0.
Qed.

(** ** Frames *)

(** Header, ciphertext and tag of a wire buffer. *)
Lemma wire_split (hl n : nat) (buf : bytes) : length buf = (hl + n + 16)%nat ->
  buf = take hl buf ++ take n (drop hl buf) ++ take 16 (drop (hl + n) buf).
Proof.
  intros H. rewrite <- (take_drop hl buf) at 1. f_equal.
  rewrite <- (take_drop n (drop hl buf)) at 1. f_equal.
  rewrite drop_drop. symmetry. apply take_ge. len.
Qed.

Section FrameFacts.
Context {A : Aead} {L : AeadLaws A}.

Definition wf_frame (type flags : Z) (d : bytes) : Prop :=
  is_uint 8 type /\ is_uint 8 flags /\ wf_bytes d.

Lemma frame_build_eq (type flags : Z) (d : bytes) (ctr : Z) (key : bytes) :
  zlen d <= FRAME_MAX_PAYLOAD ->
  frame_build type flags d ctr key =
    let h := frame_header type flags (zlen d) in
    let ct := aead_encrypt key (nonce_from_counter ctr) h d in
    Some (h ++ fst ct ++ snd ct).
Proof.
  intros H. unfold frame_build. rewrite (proj2 (Z.ltb_ge _ _)) by done. cbv zeta.
  by destruct (aead_encrypt _ _ _ _).
Qed.

Lemma frame_build_len (type flags : Z) (d : bytes) (ctr : Z) (key wire : bytes) :
  wf_block key -> wf_frame type flags d ->
  frame_build type flags d ctr key = Some wire ->
  zlen d <= FRAME_MAX_PAYLOAD /\ length wire = (20 + length d)%nat /\ wf_bytes wire /\
  take 4 wire = frame_header type flags (zlen d).
Proof.
  intros Hk (Ht & Hf & Hd) H.
  assert (Hl : zlen d <= FRAME_MAX_PAYLOAD).
  { unfold frame_build in H. destruct (_ <? _) eqn:E; [done|]. by zbool. }
  rewrite frame_build_eq in H by done. cbv zeta in H. apply (inj Some) in H as <-.
  assert (Hh := frame_header_wf type flags (zlen d) Ht Hf).
  destruct (aead_lens key (nonce_from_counter ctr) _ d Hk (nonce_block _) Hh Hd) as [H1 H2].
  destruct (aead_wf key (nonce_from_counter ctr) _ d Hk (nonce_block _) Hh Hd) as [H3 H4].
  split_and!; [done| |auto with aegis|].
  - rewrite !length_app, H1, H2. simpl. lia.
  - by rewrite take_app_length' by done.
Qed.

(** Parsing accepts exactly the frames that building produces. *)
Lemma frame_parse_iff (buf : bytes) (ctr : Z) (key : bytes) (type flags : Z) (d : bytes) :
  wf_block key -> wf_bytes buf ->
  frame_parse buf ctr key = Some (type, flags, d) <->
  wf_frame type flags d /\ frame_build type flags d ctr key = Some buf.
Proof.
  intros Hk Hb. split.
  - unfold frame_parse. cbv zeta. destruct (_ <? _) eqn:E1; [done|].
    destruct (negb _) eqn:E2; [done|]. destruct (FRAME_MAX_PAYLOAD <? _) eqn:E3; [done|].
    destruct (aead_decrypt _ _ _ _ _) as [ret m] eqn:E4. destruct (negb (ret =? 0)) eqn:E5; [done|].
    intros [= <- <- <-]. zbool. subst ret. unfold FRAME_HEADER_LEN, AEGIS_TAG_LEN in *.
    set (n := header_len (take 4 buf)) in *.
    assert (Hn := header_len_bound (take 4 buf) ltac:(auto with aegis)). fold n in Hn.
    destruct Hn as [Hn _].
    apply aead_accept in E4 as [Hm E4]; [|done|apply nonce_block|auto with aegis..|].
    2: { split; [len|auto with aegis]. }
    split; [split_and!; auto with aegis|].
    assert (Hlm : zlen m = n).
    { pose proof (aead_lens key (nonce_from_counter ctr) (take 4 buf) m) as [Hl _]; auto with aegis.
      rewrite E4 in Hl. cbn [fst] in Hl. revert Hl. len. }
    rewrite frame_build_eq by lia. cbv zeta. rewrite Hlm. unfold n.
    rewrite frame_header_of_bytes, take_take by (auto with aegis || len).
    change (4 `min` 4)%nat with 4%nat. rewrite E4. cbn [fst snd]. f_equal.
    symmetry. apply wire_split. lia.
  - intros [Hwf H]. assert (Hb' := H).
    apply frame_build_len in H as (Hl & Hlen & _ & Hh); [|done..].
    destruct Hwf as (Ht & Hf & Hd). rewrite frame_build_eq in Hb' by done. cbv zeta in Hb'.
    apply (inj Some) in Hb'. unfold frame_parse. cbv zeta.
    unfold FRAME_HEADER_LEN, AEGIS_TAG_LEN, FRAME_MAX_PAYLOAD in *. rewrite Hh.
    assert (header_len (frame_header type flags (zlen d)) = zlen d) as ->.
    { rewrite <- (app_nil_r (frame_header _ _ _)). apply header_len_header. split; lia. }
    rewrite Hlen. rewrite (proj2 (Z.ltb_ge _ _)) by lia.
    rewrite (proj2 (Z.eqb_eq _ _)) by lia. cbn [negb].
    rewrite (proj2 (Z.ltb_ge _ _)) by lia. rewrite Nat2Z.id.
    set (h := frame_header _ _ _) in *.
    assert (Hwh : wf_bytes h) by (by apply frame_header_wf).
    assert (Hr := aead_roundtrip key (nonce_from_counter ctr) h d Hk (nonce_block _) Hwh Hd).
    destruct (aead_lens key (nonce_from_counter ctr) h d Hk (nonce_block _) Hwh Hd) as [H1 H2].
    destruct (aead_encrypt key (nonce_from_counter ctr) h d) as [ct tag]. cbn [fst snd] in *.
    rewrite <- Hb'. rewrite (take_drop_app_split h ct tag) by done.
    rewrite app_assoc, (drop_app_length' (h ++ ct)) by (rewrite length_app, H1; done).
    rewrite take_ge by lia. by rewrite Hr.
Qed.

(** The explicit-nonce frame with the eight nonce bytes [n8]. *)
Definition explicit_frame (type flags : Z) (n8 d key : bytes) : bytes :=
  let h := frame_header type flags (zlen d) ++ n8 in
  let ct := aead_encrypt key (n8 ++ zeros 8) h d in
  h ++ fst ct ++ snd ct.

Definition wf_explicit (type flags : Z) (n8 d : bytes) : Prop :=
  wf_frame type flags d /\ wf_bytes n8 /\ length n8 = 8%nat /\ zlen d <= FRAME_MAX_PAYLOAD.

Lemma nonce8_block (n8 : bytes) : wf_bytes n8 -> length n8 = 8%nat -> wf_block (n8 ++ zeros 8).
Proof. intros. split; [len|auto with aegis]. Qed.

Lemma explicit_header_wf (type flags : Z) (n8 d : bytes) : wf_explicit type flags n8 d ->
  wf_bytes (frame_header type flags (zlen d) ++ n8) /\
  length (frame_header type flags (zlen d) ++ n8) = 12%nat /\ wf_block (n8 ++ zeros 8).
Proof.
  intros ((? & ? & ?) & ? & ? & ?). split_and!; [auto with aegis|len|by apply nonce8_block].
Qed.

Lemma explicit_frame_len (type flags : Z) (n8 d key : bytes) :
  wf_block key -> wf_explicit type flags n8 d ->
  length (explicit_frame type flags n8 d key) = (28 + length d)%nat /\
  wf_bytes (explicit_frame type flags n8 d key).
Proof.
  intros Hk He. destruct (explicit_header_wf _ _ _ _ He) as (Hh & Hl & Hn).
  destruct He as ((_ & _ & Hd) & _). unfold explicit_frame. cbv zeta.
  destruct (aead_lens key _ _ d Hk Hn Hh Hd) as [H1 H2].
  destruct (aead_wf key _ _ d Hk Hn Hh Hd) as [H3 H4].
  split; [|auto with aegis]. rewrite length_app, Hl, length_app, H1, H2. lia.
Qed.

(** What [random_bytes] leaves in the zeroed nonce. *)
Lemma random_nonce (u : urandom) (ret : Z) (nonce : bytes) :
  Forall (fun e => match e with RxData d => wf_bytes d | _ => True end) (ur_reads u) ->
  random_bytes u (zeros 16) 8 = Some (ret, nonce) ->
  (ret = 0 \/ ret = -1) /\ nonce = take 8 nonce ++ zeros 8 /\ wf_bytes (take 8 nonce) /\
  length (take 8 nonce) = 8%nat.
Proof.
  intros Hu. unfold random_bytes. destruct (ur_open u); simpl negb.
  - intros H. apply random_loop_spec in H as (Hr & Hl & Hw & Hd); [|len|auto with aegis|done].
    split_and!; [done| |auto with aegis|len].
    rewrite <- (take_drop 8 nonce) at 1. by rewrite Hd.
  - intros [= <- <-]. split_and!; [auto|done|by apply wf_bytesb_spec|done].
Qed.

Lemma frame_build_explicit_some (u : urandom) (type flags : Z) (d key wire : bytes) :
  Forall (fun e => match e with RxData d => wf_bytes d | _ => True end) (ur_reads u) ->
  wf_frame type flags d ->
  frame_build_explicit u type flags d key = Some (Some wire) ->
  exists n8, wf_explicit type flags n8 d /\ wire = explicit_frame type flags n8 d key.
Proof.
  intros Hu Hwf. unfold frame_build_explicit. destruct (_ <? _) eqn:E1; [done|].
  destruct (random_bytes _ _ _) as [[ret nonce]|] eqn:E2; [|done].
  destruct (negb _) eqn:E3; [done|]. cbv zeta. zbool. intros H.
  apply random_nonce in E2 as (_ & Hn & Hw & Hl); [|done].
  exists (take 8 nonce). split; [by split_and!|]. unfold explicit_frame. cbv zeta. rewrite <- Hn.
  destruct (aead_encrypt _ _ _ _). by apply (inj Some), (inj Some) in H as <-.
Qed.

Lemma frame_parse_explicit_iff (buf key : bytes) (type flags : Z) (d : bytes) :
  wf_block key -> wf_bytes buf ->
  frame_parse_explicit buf key = Some (type, flags, d) <->
  exists n8, wf_explicit type flags n8 d /\ buf = explicit_frame type flags n8 d key.
Proof.
  intros Hk Hb. split.
  - unfold frame_parse_explicit. cbv zeta. destruct (_ <? _) eqn:E1; [done|].
    destruct (negb _) eqn:E2; [done|]. destruct (FRAME_MAX_PAYLOAD <? _) eqn:E3; [done|].
    destruct (aead_decrypt _ _ _ _ _) as [ret m] eqn:E4. destruct (negb (ret =? 0)) eqn:E5; [done|].
    intros [= <- <- <-]. zbool. subst ret.
    unfold FRAME_EXPLICIT_HEADER_LEN, AEGIS_TAG_LEN, AEGIS_NONCE_LEN in *.
    destruct (header_len_bound buf Hb) as [Hn _]. set (n := header_len buf) in *.
    assert (Hsp : splice (zeros 16) 0 (take 8 (drop 4 buf)) = take 8 (drop 4 buf) ++ zeros 8).
    { unfold splice. rewrite length_take_le by len. done. }
    assert (Hh : take 12 buf = frame_header (get buf 0) (get buf 1) n ++ take 8 (drop 4 buf)).
    { unfold n. rewrite frame_header_of_bytes by (done || len). by rewrite take_take_drop. }
    rewrite Hsp in E4. exists (take 8 (drop 4 buf)).
    assert (Hn8 : wf_block (take 8 (drop 4 buf) ++ zeros 8)) by (split; [len|auto with aegis]).
    apply aead_accept in E4 as [Hm E4]; [|done|done|auto with aegis..|].
    2: { split; [len|auto with aegis]. }
    assert (Hlm : zlen m = n).
    { pose proof (aead_lens key _ (take 12 buf) m Hk Hn8) as [Hl _]; auto with aegis.
      rewrite E4 in Hl. cbn [fst] in Hl. revert Hl. len. }
    split; [split_and!; [|auto with aegis|len|lia]; split_and!; auto with aegis|].
    unfold explicit_frame. cbv zeta. rewrite Hlm, <- Hh, E4. cbn [fst snd]. apply wire_split. lia.
  - intros (n8 & He & ->). assert (Hl := explicit_frame_len type flags n8 d key Hk He).
    destruct (explicit_header_wf _ _ _ _ He) as (Hh & Hhl & Hn).
    destruct He as ((Ht & Hf & Hd) & Hw8 & Hl8 & Hmax). destruct Hl as [Hlen _].
    unfold frame_parse_explicit. cbv zeta. rewrite Hlen.
    unfold FRAME_EXPLICIT_HEADER_LEN, AEGIS_TAG_LEN, FRAME_MAX_PAYLOAD, AEGIS_NONCE_LEN in *.
    unfold explicit_frame in *. cbv zeta in *. set (h := frame_header type flags (zlen d) ++ n8) in *.
    assert (Hr := aead_roundtrip key _ h d Hk Hn Hh Hd).
    destruct (aead_lens key _ h d Hk Hn Hh Hd) as [H1 H2].
    destruct (aead_encrypt key _ h d) as [ct tag]. cbn [fst snd] in *.
    assert (header_len (h ++ ct ++ tag) = zlen d) as ->.
    { unfold h. rewrite <- app_assoc. apply header_len_header. split; lia. }
    rewrite (proj2 (Z.ltb_ge _ _)) by lia.
    rewrite (proj2 (Z.eqb_eq _ _)) by lia. cbn [negb].
    rewrite (proj2 (Z.ltb_ge _ _)) by lia. rewrite Nat2Z.id.
    rewrite (take_app_length' h) by done.
    assert (take 8 (drop 4 (h ++ ct ++ tag)) = n8) as ->.
    { unfold h. rewrite <- app_assoc. by apply take_drop_app_split. }
    assert (splice (zeros 16) 0 n8 = n8 ++ zeros 8) as ->.
    { unfold splice. by rewrite Hl8. }
    rewrite (take_drop_app_split h ct tag) by done.
    rewrite app_assoc, (drop_app_length' (h ++ ct)) by (rewrite length_app, Hhl, H1; done).
    rewrite take_ge by lia. rewrite Hr. done.
Qed.

End FrameFacts.

(** ** Theorems *)

(** C12: [frame_parse] with a counter and a key accepts a buffer exactly when the
    buffer is the frame [frame_build] makes, with the same counter and key, from
    the type, flags and payload it returns: a round trip, and nothing else gets
    through. *)
Theorem frame_parse_accepts_exactly (A : Aead) (L : AeadLaws A) (buf : bytes) (ctr : Z)
    (key : bytes) (type flags : Z) (d : bytes) :
  wf_block key -> wf_bytes buf ->
  frame_parse buf ctr key = Some (type, flags, d) <->
  wf_frame type flags d /\ frame_build type flags d ctr key = Some buf.
Proof. apply frame_parse_iff. Qed.

Definition demo_frame : bytes :=
  default [] (@frame_build pure_c FRAME_DATA FLAG_NONE demo_msg 1 demo_key).

Lemma demo_frame_wf : wf_bytes demo_frame.
Proof. apply wf_bytesb_spec. vm_compute. reflexivity. Qed.

Lemma frame_parse_accepts_exactly_witness :
  @frame_parse pure_c demo_frame 1 demo_key = Some (FRAME_DATA, FLAG_NONE, demo_msg) /\
  @frame_parse pure_c demo_frame 2 demo_key = None.
Proof.
  split.
  - apply (frame_parse_accepts_exactly pure_c pure_c_laws); [apply demo_key_block|apply demo_frame_wf|].
    split; [|vm_compute; reflexivity].
    split_and!; [unfold is_uint, FRAME_DATA; lia|unfold is_uint, FLAG_NONE; lia|].
    apply wf_bytesb_spec. vm_compute. reflexivity.
  - vm_compute. reflexivity.
Defined.

(** Different 64-bit counters give different nonces, and a nonce built from
    a counter always has its last eight bytes zero. *)
Theorem nonce_from_counter_injective (a b : Z) :
  is_uint 64 a -> is_uint 64 b ->
  (nonce_from_counter a = nonce_from_counter b <-> a = b) /\
  drop 8 (nonce_from_counter a) = zeros 8.
Proof.
  intros Ha Hb. split; [split; [by apply nonce_inj|by intros ->]|].
  by rewrite nonce_from_counter_bytes, drop_app_length' by by rewrite le_bytes_length.
Qed.

Lemma nonce_from_counter_injective_witness :
  (nonce_from_counter 258 = nonce_from_counter 2 <-> 258 = 2) /\
  drop 8 (nonce_from_counter 258) = zeros 8.
Proof. apply (nonce_from_counter_injective 258 2); unfold is_uint; lia. Defined.

(** [frame_build] refuses exactly the payloads of more than 65535 bytes; what
    it makes is twenty bytes longer than the payload, fits the FRAME_MAX_WIRE
    buffers of its callers, and carries the payload length in its header. *)
Theorem frame_build_bounds (A : Aead) (L : AeadLaws A) (type flags : Z) (d : bytes)
    (ctr : Z) (key : bytes) :
  wf_block key -> wf_frame type flags d ->
  (frame_build type flags d ctr key = None <-> FRAME_MAX_PAYLOAD < zlen d) /\
  forall wire, frame_build type flags d ctr key = Some wire ->
    length wire = (FRAME_HEADER_LEN + length d + AEGIS_TAG_LEN)%nat /\
    zlen wire <= FRAME_MAX_WIRE /\ wf_bytes wire /\ header_len wire = zlen d.
Proof.
  intros Hk Hwf. split.
  - destruct (Z.le_gt_cases (zlen d) FRAME_MAX_PAYLOAD).
    + rewrite frame_build_eq by done. split; [done|lia].
    + unfold frame_build. rewrite (proj2 (Z.ltb_lt _ _)) by done. done.
  - intros wire H. apply frame_build_len in H as (Hl & Hlen & Hw & Hh); [|done..].
    unfold FRAME_MAX_WIRE, FRAME_HEADER_LEN, AEGIS_TAG_LEN, FRAME_MAX_PAYLOAD in *.
    split_and!; [lia|lia|done|].
    rewrite <- (take_drop 4 wire), Hh. apply header_len_header. split; lia.
Qed.

Lemma frame_build_bounds_witness :
  (@frame_build pure_c FRAME_DATA FLAG_NONE demo_msg 7 demo_key = None <->
     FRAME_MAX_PAYLOAD < zlen demo_msg) /\
  forall wire, @frame_build pure_c FRAME_DATA FLAG_NONE demo_msg 7 demo_key = Some wire ->
    length wire = (FRAME_HEADER_LEN + length demo_msg + AEGIS_TAG_LEN)%nat /\
    zlen wire <= FRAME_MAX_WIRE /\ wf_bytes wire /\ header_len wire = zlen demo_msg.
Proof.
  apply (frame_build_bounds pure_c pure_c_laws); [apply demo_key_block|].
  split_and!; [unfold is_uint, FRAME_DATA; lia|unfold is_uint, FLAG_NONE; lia|].
  apply wf_bytesb_spec. vm_compute. reflexivity.
Defined.

(** An explicit-nonce frame is decoded from the frame alone, whatever the
    random bytes were and however many frames were lost before it; it is 28 bytes
    longer than its payload.  Conversely a buffer is accepted only if it is such
    a frame under the same key. *)
Theorem explicit_frame_self_contained (A : Aead) (L : AeadLaws A) (u : urandom)
    (type flags : Z) (d key wire buf : bytes) :
  wf_block key -> wf_frame type flags d -> wf_bytes buf ->
  Forall (fun e => match e with RxData d => wf_bytes d | _ => True end) (ur_reads u) ->
  frame_build_explicit u type flags d key = Some (Some wire) ->
  frame_parse_explicit wire key = Some (type, flags, d) /\
  length wire = (FRAME_EXPLICIT_HEADER_LEN + length d + AEGIS_TAG_LEN)%nat /\
  zlen wire <= FRAME_EXPLICIT_MAX_WIRE /\
  forall t f m, frame_parse_explicit buf key = Some (t, f, m) ->
    exists n8, wf_explicit t f n8 m /\ buf = explicit_frame t f n8 m key.
Proof.
  intros Hk Hwf Hb Hu H. apply frame_build_explicit_some in H as (n8 & He & ->); [|done..].
  destruct (explicit_frame_len _ _ _ _ _ Hk He) as [Hl Hw]. split_and!.
  - apply frame_parse_explicit_iff; [done..|eauto].
  - unfold FRAME_EXPLICIT_HEADER_LEN, AEGIS_TAG_LEN. lia.
  - destruct He as (_ & _ & _ & Hmax). rewrite Hl.
    unfold FRAME_EXPLICIT_MAX_WIRE, FRAME_EXPLICIT_HEADER_LEN, AEGIS_TAG_LEN. lia.
  - intros t f m. by apply frame_parse_explicit_iff.
Qed.

(** Eight random bytes that arrive in two reads, the first one interrupted. *)
Definition demo_urandom : urandom :=
  mkUrandom true [RxErr EINTR; RxData [7; 1; 200]; RxData [4; 5; 6; 9; 250; 3]].

Definition demo_explicit : bytes :=
  match @frame_build_explicit pure_c demo_urandom FRAME_DATA FLAG_NONE demo_msg demo_key with
  | Some (Some w) => w
  | _ => []
  end.

Lemma explicit_frame_self_contained_witness :
  @frame_parse_explicit pure_c demo_explicit demo_key = Some (FRAME_DATA, FLAG_NONE, demo_msg) /\
  length demo_explicit = (FRAME_EXPLICIT_HEADER_LEN + length demo_msg + AEGIS_TAG_LEN)%nat /\
  zlen demo_explicit <= FRAME_EXPLICIT_MAX_WIRE /\
  forall t f m, @frame_parse_explicit pure_c demo_frame demo_key = Some (t, f, m) ->
    exists n8, wf_explicit t f n8 m /\ demo_frame = @explicit_frame pure_c t f n8 m demo_key.
Proof.
  apply (explicit_frame_self_contained pure_c pure_c_laws demo_urandom);
    [apply demo_key_block| |apply demo_frame_wf| |vm_compute; reflexivity].
  - split_and!; [unfold is_uint, FRAME_DATA; lia|unfold is_uint, FLAG_NONE; lia|].
    apply wf_bytesb_spec. vm_compute. reflexivity.
  - repeat constructor; unfold is_uint; lia.
Defined.
