(* ===== verification/FrameReader.v ===== *)
(** * FrameReader: the buffered stream reader, src/protocol/frame_reader.c

    The reader keeps a FRAME_MAX_WIRE array with a fill level and a read offset.
    It is modelled with its array, its [size_t] subtractions and its [recv]
    outcomes, and shown to refine a queue of pending bytes: which frames come out
    depends only on the bytes of the stream, not on how the network cut them. *)

From S2P Require Import Prelude Aes Aegis Aead Util Frame.

(** ** State and operations *)

Record frame_reader_t := mkReader {
  fr_fd : Z;
  fr_buf : bytes;
  fr_len : Z;
  fr_off : Z;
  fr_eof : bool;
}.

(** Return value and out-parameters of the extraction functions: -1, 0, or 1
    with the frame. *)
Inductive next_res :=
  | NextErr
  | NextNone
  | NextFrame (type flags : Z) (payload : bytes).

Definition next_code (r : next_res) : Z :=
  match r with NextErr => -1 | NextNone => 0 | NextFrame _ _ _ => 1 end.

Definition frame_reader_init (fd : Z) : frame_reader_t :=
  mkReader fd (zeros (Z.to_nat FRAME_MAX_WIRE)) 0 0 false.

Definition compact (fr : frame_reader_t) : frame_reader_t :=
  if (0 <? fr_off fr) && (fr_off fr <? fr_len fr) then
    let remaining := u64 (fr_len fr - fr_off fr) in
    let moved := take (Z.to_nat remaining) (drop (Z.to_nat (fr_off fr)) (fr_buf fr)) in
    mkReader (fr_fd fr) (splice (fr_buf fr) 0 moved) remaining 0 (fr_eof fr)
  else if fr_len fr <=? fr_off fr then mkReader (fr_fd fr) (fr_buf fr) 0 0 (fr_eof fr)
  else mkReader (fr_fd fr) (fr_buf fr) (fr_len fr) 0 (fr_eof fr).

Definition fill_buffer (fr : frame_reader_t) (rx : list rx_ev) :
    option (Z * frame_reader_t * list rx_ev) :=
  if fr_eof fr then Some (0, fr, rx)
  else
    let fr := compact fr in
    let space := u64 (FRAME_MAX_WIRE - fr_len fr) in
    if space =? 0 then Some (-1, fr, rx)
    else
      match sys_recv (Z.to_nat space) rx with
      | None => None
      | Some (inl EINTR, rx') => Some (1, fr, rx')
      | Some (inl EAGAIN, rx') => Some (0, fr, rx')
      | Some (inl EIO, rx') => Some (-1, fr, rx')
      | Some (inr d, rx') =>
          if (length d =? 0)%nat then
            Some (0, mkReader (fr_fd fr) (fr_buf fr) (fr_len fr) (fr_off fr) true, rx')
          else
            Some (1, mkReader (fr_fd fr) (splice (fr_buf fr) (Z.to_nat (fr_len fr)) d)
                       (u64 (fr_len fr + zlen d)) (fr_off fr) (fr_eof fr), rx')
      end.

Definition frame_reader_fill := fill_buffer.

Section Reader.
Context {A : Aead}.

Definition frame_reader_try_next (fr : frame_reader_t) (nonce_ctr : Z) (key : bytes) :
    next_res * frame_reader_t :=
  if u64 (fr_len fr - fr_off fr) <? Z.of_nat FRAME_HEADER_LEN then (NextNone, fr)
  else
    let hdr := drop (Z.to_nat (fr_off fr)) (fr_buf fr) in
    let p_len := header_len hdr in
    if FRAME_MAX_PAYLOAD <? p_len then (NextErr, fr)
    else
      let total_frame := Z.of_nat FRAME_HEADER_LEN + p_len + Z.of_nat AEGIS_TAG_LEN in
      if u64 (fr_len fr - fr_off fr) <? total_frame then (NextNone, fr)
      else
        let frame_start := take (Z.to_nat total_frame) hdr in
        match frame_parse frame_start nonce_ctr key with
        | None => (NextErr, fr)
        | Some (type, flags, payload) =>
            (NextFrame type flags payload,
             mkReader (fr_fd fr) (fr_buf fr) (fr_len fr) (u64 (fr_off fr + total_frame)) (fr_eof fr))
        end.

(** The [for (;;)] loop; [fuel] bounds the rounds. *)
Fixpoint next_loop (fuel : nat) (fr : frame_reader_t) (rx : list rx_ev) (nonce_ctr : Z)
    (key : bytes) : option (next_res * frame_reader_t * list rx_ev) :=
  match fuel with
  | O => None
  | S fuel' =>
      match frame_reader_try_next fr nonce_ctr key with
      | (NextNone, fr) =>
          match fill_buffer fr rx with
          | None => None
          | Some (fill, fr, rx) =>
              if fill <? 0 then Some (NextErr, fr, rx)
              else if fill =? 0 then
                if 0 <? u64 (fr_len fr - fr_off fr) then Some (NextErr, fr, rx)
                else Some (NextNone, fr, rx)
              else next_loop fuel' fr rx nonce_ctr key
          end
      | (r, fr) => Some (r, fr, rx)
      end
  end.

Definition frame_reader_next (fr : frame_reader_t) (rx : list rx_ev) (nonce_ctr : Z)
    (key : bytes) : option (next_res * frame_reader_t * list rx_ev) :=
  next_loop (S (rx_size rx)) fr rx nonce_ctr key.

(** The loop of the header's usage note: read frames, one counter value each,
    until the result is not 1. *)
Fixpoint read_frames (fuel : nat) (fr : frame_reader_t) (rx : list rx_ev) (ctr : Z)
    (key : bytes) : option (list (Z * Z * bytes) * Z) :=
  match fuel with
  | O => None
  | S fuel' =>
      match frame_reader_next fr rx ctr key with
      | None => None
      | Some (NextFrame t f d, fr, rx) =>
          match read_frames fuel' fr rx (ctr + 1) key with
          | None => None
          | Some (l, code) => Some ((t, f, d) :: l, code)
          end
      | Some (r, _, _) => Some ([], next_code r)
      end
  end.

(** ** The queue it refines *)

(** Extraction from a queue of bytes. *)
Definition stream_next (q : bytes) (nonce_ctr : Z) (key : bytes) : next_res * bytes :=
  if zlen q <? 4 then (NextNone, q)
  else
    let total := 20 + header_len q in
    if zlen q <? total then (NextNone, q)
    else
      match frame_parse (take (Z.to_nat total) q) nonce_ctr key with
      | None => (NextErr, q)
      | Some (t, f, d) => (NextFrame t f d, drop (Z.to_nat total) q)
      end.

End Reader.

(** The bytes between the read offset and the fill level. *)
Definition pending (fr : frame_reader_t) : bytes :=
  take (Z.to_nat (fr_len fr - fr_off fr)) (drop (Z.to_nat (fr_off fr)) (fr_buf fr)).

Definition reader_inv (fr : frame_reader_t) : Prop :=
  zlen (fr_buf fr) = FRAME_MAX_WIRE /\ wf_bytes (fr_buf fr) /\
  0 <= fr_off fr <= fr_len fr /\ fr_len fr <= FRAME_MAX_WIRE.

(** ** Lemmas *)

Lemma max_wire : FRAME_MAX_WIRE = 65555.
Proof. done. Qed.

Lemma u64_small (x : Z) : 0 <= x <= 2 * FRAME_MAX_WIRE -> u64 x = x.
Proof. intros H. rewrite max_wire in H. apply Z.mod_small. lia. Qed.

Lemma reader_inv_intro (fd : Z) (buf : bytes) (len off : Z) (eof : bool) :
  zlen buf = FRAME_MAX_WIRE -> wf_bytes buf -> 0 <= off <= len -> len <= FRAME_MAX_WIRE ->
  reader_inv (mkReader fd buf len off eof).
Proof. done. Qed.

Lemma init_inv (fd : Z) : reader_inv (frame_reader_init fd).
Proof.
  split_and!; cbn [fr_buf fr_off fr_len frame_reader_init]; rewrite ?max_wire; try lia.
  - unfold zeros. rewrite length_replicate. lia.
  - auto with aegis.
Qed.

Lemma init_pending (fd : Z) : pending (frame_reader_init fd) = [].
Proof. unfold pending. cbn [fr_len fr_off frame_reader_init]. rewrite Z.sub_diag. apply take_0. Qed.

Lemma pending_len (fr : frame_reader_t) : reader_inv fr -> zlen (pending fr) = fr_len fr - fr_off fr.
Proof. intros (Hl & _ & Ho & Hm). unfold pending. rewrite length_take, length_drop. lia. Qed.

Lemma pending_wf (fr : frame_reader_t) : reader_inv fr -> wf_bytes (pending fr).
Proof. intros (_ & Hw & _). unfold pending. auto with aegis. Qed.

Lemma compact_spec (fr : frame_reader_t) : reader_inv fr ->
  reader_inv (compact fr) /\ pending (compact fr) = pending fr /\ fr_off (compact fr) = 0 /\
  fr_len (compact fr) = zlen (pending fr) /\ fr_eof (compact fr) = fr_eof fr.
Proof.
  intros Hi. assert (Hp := pending_len fr Hi). assert (Hpw := pending_wf fr Hi).
  destruct Hi as (Hl & Hw & Ho & Hm). unfold compact.
  destruct (_ && _) eqn:E1; [|destruct (_ <=? _) eqn:E2].
  - zbool. rewrite u64_small by lia. fold (pending fr).
    assert (Hpl : length (pending fr) = Z.to_nat (fr_len fr - fr_off fr)) by lia.
    split; [|split_and!; [|done|symmetry; apply Hp|done]].
    + apply reader_inv_intro; [rewrite splice_length; lia|auto with aegis|lia..].
    + unfold pending at 1. cbn [fr_buf fr_len fr_off]. rewrite Z.sub_0_r. simpl drop.
      rewrite <- Hpl. apply (take_splice (fr_buf fr) 0). lia.
  - zbool. assert (fr_len fr = fr_off fr) as Heq by lia.
    assert (pending fr = []) as -> by (apply length_zero_iff_nil; lia).
    split; [|done]. apply reader_inv_intro; lia || done.
  - zbool. assert (fr_off fr = 0) as H0.
    { destruct (0 <? fr_off fr) eqn:E3; zbool; [|lia].
      rewrite (proj2 (Z.ltb_lt _ _)) in E1 by lia. done. }
    split; [|split_and!; [|done|rewrite Hp, H0; cbn [fr_len]; lia|done]].
    + apply reader_inv_intro; lia || done.
    + unfold pending. cbn [fr_buf fr_len fr_off]. by rewrite H0.
Qed.

Lemma header_len_take (n : nat) (l : bytes) : (4 <= n)%nat -> header_len (take n l) = header_len l.
Proof.
  intros Hn. unfold header_len, get.
  destruct n as [|[|[|[|n]]]]; try lia. by destruct l as [|? [|? [|? [|? l]]]].
Qed.

Lemma fill_spec (fr : frame_reader_t) (rx : list rx_ev) :
  reader_inv fr -> wf_rx rx -> fr_eof fr = false -> zlen (pending fr) < FRAME_MAX_WIRE ->
  match fill_buffer fr rx with
  | None => rx = []
  | Some (c, fr', rx') =>
      reader_inv fr' /\ wf_rx rx' /\
      ((c = 1 /\ fr_eof fr' = false /\ snd (rx_flow rx') = snd (rx_flow rx) /\
        pending fr' ++ fst (rx_flow rx') = pending fr ++ fst (rx_flow rx) /\
        (rx_size rx' < rx_size rx)%nat) \/
       (c = 0 /\ pending fr' = pending fr /\
        (rx_flow rx = ([], Some EndEof) \/ rx_flow rx = ([], Some EndAgain))) \/
       (c = -1 /\ pending fr' = pending fr /\ rx_flow rx = ([], Some EndErr)))
  end.
Proof.
  intros Hi Hw He Hp. unfold fill_buffer. rewrite He. cbv zeta.
  destruct (compact_spec fr Hi) as (Hi' & Hpe & Ho & Hl & He'). rewrite He in He'.
  rewrite <- Hpe in *. set (fc := compact fr) in *. clearbody fc. clear fr Hi He Hpe.
  assert (Hl' := Hi'). destruct Hl' as (Hbl & Hbw & Hoff & Hlen).
  rewrite u64_small by lia. rewrite (proj2 (Z.eqb_neq _ _)) by lia.
  destruct (sys_recv _ rx) as [[[e|d] rx']|] eqn:E; [| |by destruct rx as [|[] ?]].
  - destruct rx as [|[d|e'] rx]; simpl in E; try done. injection E as -> ->.
    apply Forall_cons in Hw as [_ Hw]. destruct e; split_and!; try done.
    + left. split_and!; [done..|simpl; lia].
    + right. left. auto.
    + right. right. auto.
  - apply sys_recv_flow in E as (Hw' & Hwd & Hld & Hf); [|lia|done].
    destruct (decide (d = [])) as [->|Hd].
    + simpl. split_and!; [done..|]. right. left. auto.
    + assert (Hd' : (0 < length d)%nat) by (destruct d; [done|simpl; lia]).
      destruct Hf as [Hf Hs]. rewrite (proj2 (Nat.eqb_neq _ _)) by lia.
      rewrite u64_small by lia. rewrite Ho in *. split_and!; [|done|left; split_and!].
      * apply reader_inv_intro; [rewrite splice_length; lia|auto with aegis|lia..].
      * done.
      * done.
      * by rewrite Hf.
      * rewrite Hf. cbn [fst]. rewrite app_assoc. f_equal. unfold pending.
        cbn [fr_len fr_off fr_buf]. rewrite Ho, !Z.sub_0_r. simpl drop.
        rewrite Z2Nat.inj_add, Nat2Z.id by lia. apply take_splice. rewrite drop_0. lia.
      * done.
Qed.

Section ReaderFacts.
Context {A : Aead} {L : AeadLaws A}.

Lemma try_next_spec (fr : frame_reader_t) (ctr : Z) (key : bytes) :
  reader_inv fr ->
  let '(r, fr') := frame_reader_try_next fr ctr key in
  stream_next (pending fr) ctr key = (r, pending fr') /\ reader_inv fr' /\
  fr_eof fr' = fr_eof fr /\
  (r = NextNone -> fr' = fr /\ zlen (pending fr) < FRAME_MAX_WIRE).
Proof.
  intros Hi. assert (Hp := pending_len fr Hi). assert (Hi' := Hi).
  destruct Hi' as (Hbl & Hbw & Hoff & Hlen).
  unfold frame_reader_try_next, stream_next. cbv zeta. rewrite u64_small by lia. rewrite Hp.
  change (Z.of_nat FRAME_HEADER_LEN) with 4. change (Z.of_nat AEGIS_TAG_LEN) with 16.
  destruct (_ <? 4) eqn:E1.
  { zbool. split_and!; try done. intros _. rewrite max_wire. split; [done|lia]. }
  zbool. set (hdr := drop (Z.to_nat (fr_off fr)) (fr_buf fr)).
  assert (Hq : pending fr = take (Z.to_nat (fr_len fr - fr_off fr)) hdr) by done.
  rewrite Hq, header_len_take by lia.
  assert (Hh := header_len_bound hdr ltac:(subst hdr; auto with aegis)).
  unfold FRAME_MAX_PAYLOAD. rewrite (proj2 (Z.ltb_ge 65535 _)) by (unfold is_uint in Hh; lia).
  replace (4 + header_len hdr + 16) with (20 + header_len hdr) by lia.
  unfold is_uint in Hh. destruct (_ <? 20 + _) eqn:E2.
  { zbool. rewrite <- Hq. split_and!; try done. intros _. rewrite max_wire. split; [done|lia]. }
  zbool. rewrite take_take. rewrite Nat.min_l by lia.
  destruct (frame_parse _ ctr key) as [[[t f] d]|]; [|by rewrite Hq].
  rewrite u64_small by lia. split_and!; [|apply reader_inv_intro; lia || done|done|done].
  f_equal. unfold pending. cbn [fr_len fr_off fr_buf].
  set (hl := header_len hdr) in *. clearbody hl. unfold hdr.
  rewrite skipn_firstn_comm, drop_drop. f_equal; [lia|]. f_equal. lia.
Qed.

(** More bytes behind a decided queue do not change the decision. *)
Lemma stream_next_app (q x : bytes) (ctr : Z) (key : bytes) (r : next_res) (q' : bytes) :
  wf_bytes q -> stream_next q ctr key = (r, q') -> r <> NextNone ->
  stream_next (q ++ x) ctr key = (r, q' ++ x).
Proof.
  intros Hw. unfold stream_next. cbv zeta. destruct (_ <? 4) eqn:E1; [by intros [= <- _]|].
  destruct (_ <? 20 + _) eqn:E2; [by intros [= <- _]|]. zbool. intros H _.
  assert (Hh : header_len (q ++ x) = header_len q).
  { rewrite <- (header_len_take 4 (q ++ x)), <- (header_len_take 4 q) by lia.
    by rewrite take_app_le by lia. }
  destruct (header_len_bound q Hw) as [Hh0 _].
  rewrite Hh, length_app. rewrite !(proj2 (Z.ltb_ge _ _)) by lia.
  rewrite take_app_le, drop_app_le by lia.
  destruct (frame_parse _ _ _) as [[[t f] d]|]; by injection H as <- <-.
Qed.

Lemma stream_next_none (q : bytes) (ctr : Z) (key : bytes) (q' : bytes) :
  stream_next q ctr key = (NextNone, q') -> q' = q.
Proof.
  unfold stream_next. cbv zeta. destruct (_ <? 4); [by intros [= <-]|].
  destruct (_ <? _); [by intros [= <-]|]. by destruct (frame_parse _ _ _) as [[[t f] d]|].
Qed.

(** The whole call against the queue: the pending bytes, then the stream. *)
Lemma next_loop_spec (fuel : nat) (fr : frame_reader_t) (rx : list rx_ev) (ctr : Z) (key : bytes) :
  reader_inv fr -> wf_rx rx -> fr_eof fr = false -> (rx_size rx < fuel)%nat ->
  match stream_next (pending fr ++ fst (rx_flow rx)) ctr key with
  | (NextFrame t f d, q) => exists fr' rx',
      next_loop fuel fr rx ctr key = Some (NextFrame t f d, fr', rx') /\
      reader_inv fr' /\ wf_rx rx' /\ fr_eof fr' = false /\
      pending fr' ++ fst (rx_flow rx') = q /\ snd (rx_flow rx') = snd (rx_flow rx)
  | (NextErr, _) => exists fr' rx', next_loop fuel fr rx ctr key = Some (NextErr, fr', rx')
  | (NextNone, q) =>
      match snd (rx_flow rx) with
      | None => next_loop fuel fr rx ctr key = None
      | Some EndErr => exists fr' rx', next_loop fuel fr rx ctr key = Some (NextErr, fr', rx')
      | Some _ => exists fr' rx', next_loop fuel fr rx ctr key =
          Some (if (length q =? 0)%nat then NextNone else NextErr, fr', rx')
      end
  end.
Proof.
  revert fr rx. induction fuel as [|fuel IH]; intros fr rx Hi Hw He Hf; [lia|].
  cbn [next_loop]. pose proof (try_next_spec fr ctr key Hi) as Ht.
  destruct (frame_reader_try_next fr ctr key) as [r fr1]. destruct Ht as (Hs & Hi1 & He1 & Hn).
  assert (Hdec : r <> NextNone ->
    stream_next (pending fr ++ fst (rx_flow rx)) ctr key = (r, pending fr1 ++ fst (rx_flow rx))).
  { intros Hr. by apply stream_next_app; [apply pending_wf|..]. }
  destruct r as [| |t f d].
  - rewrite Hdec by done. eauto.
  - destruct (Hn eq_refl) as [-> Hlen]. clear Hdec Hn He1 Hi1.
    pose proof (fill_spec fr rx Hi Hw He Hlen) as Hfill.
    destruct (fill_buffer fr rx) as [[[c fr2] rx2]|].
    + destruct Hfill as (Hi2 & Hw2 & [(-> & He2 & Hf2 & Hp2 & Hs2)|[(-> & Hp2 & Hend)|(-> & Hp2 & Hend)]]);
        cbn [Z.ltb Z.compare Z.eqb].
      * specialize (IH fr2 rx2 Hi2 Hw2 He2 ltac:(lia)). rewrite Hp2, Hf2 in IH. exact IH.
      * assert (Hc : u64 (fr_len fr2 - fr_off fr2) = zlen (pending fr)).
        { rewrite <- Hp2, pending_len by done. destruct Hi2 as (_ & _ & ? & ?). by rewrite u64_small by lia. }
        assert (Hq : pending fr ++ fst (rx_flow rx) = pending fr).
        { destruct Hend as [-> | ->]; apply app_nil_r. }
        rewrite Hq, Hs, Hc. assert (Hx : exists e, snd (rx_flow rx) = Some e /\ e <> EndErr).
        { destruct Hend as [-> | ->]; eauto. }
        destruct Hx as (e & -> & He'). destruct (pending fr); destruct e; simpl; eauto; done.
      * rewrite Hend. cbn [fst snd]. rewrite app_nil_r, Hs. eauto.
    + subst rx. cbn [rx_flow fst snd]. by rewrite app_nil_r, Hs.
  - rewrite Hdec by done. exists fr1, rx. split_and!; try done. by rewrite He1.
Qed.

(** A frame at the head of the queue comes out whole. *)
Lemma stream_next_wire (t f : Z) (d : bytes) (ctr : Z) (key wire x : bytes) :
  wf_block key -> wf_frame t f d -> frame_build t f d ctr key = Some wire ->
  stream_next (wire ++ x) ctr key = (NextFrame t f d, x).
Proof.
  intros Hk Hwf Hb. assert (Hb' := Hb). apply frame_build_len in Hb' as (Hl & Hlen & Hw & Hh); [|done..].
  assert (Hp : frame_parse wire ctr key = Some (t, f, d)) by (by apply frame_parse_iff).
  unfold FRAME_MAX_PAYLOAD in Hl. unfold stream_next. cbv zeta.
  assert (header_len (wire ++ x) = zlen d) as ->.
  { rewrite <- (take_drop 4 wire), <- app_assoc, Hh. apply header_len_header. split; lia. }
  rewrite length_app, Hlen, !(proj2 (Z.ltb_ge _ _)) by lia.
  rewrite take_app_length', drop_app_length' by lia. by rewrite Hp.
Qed.

(** A proper prefix of a frame decides nothing. *)
Lemma stream_next_prefix (t f : Z) (d : bytes) (ctr ctr' : Z) (key wire : bytes) (n : nat) :
  wf_block key -> wf_frame t f d -> frame_build t f d ctr key = Some wire ->
  (n < length wire)%nat -> stream_next (take n wire) ctr' key = (NextNone, take n wire).
Proof.
  intros Hk Hwf Hb Hn. apply frame_build_len in Hb as (Hl & Hlen & Hw & Hh); [|done..].
  unfold FRAME_MAX_PAYLOAD in Hl. unfold stream_next. cbv zeta. destruct (_ <? 4) eqn:E; [done|].
  zbool. rewrite length_take in *.
  assert (header_len (take n wire) = zlen d) as ->.
  { rewrite header_len_take by lia. rewrite <- (take_drop 4 wire), Hh.
    apply header_len_header. split; lia. }
  by rewrite (proj2 (Z.ltb_lt _ _)) by lia.
Qed.

(** The sender: one frame per message, consecutive counters. *)
Fixpoint build_frames (ms : list (Z * Z * bytes)) (ctr : Z) (key : bytes) : option bytes :=
  match ms with
  | [] => Some []
  | (t, f, d) :: ms' =>
      wire ← frame_build t f d ctr key; rest ← build_frames ms' (ctr + 1) key; Some (wire ++ rest)
  end.

Lemma read_frames_spec (ms : list (Z * Z * bytes)) (fr : frame_reader_t) (rx : list rx_ev)
    (ctr : Z) (key stream tail : bytes) :
  wf_block key -> Forall (fun '(t, f, d) => wf_frame t f d) ms ->
  build_frames ms ctr key = Some stream ->
  (forall c, stream_next tail c key = (NextNone, tail)) ->
  reader_inv fr -> wf_rx rx -> fr_eof fr = false ->
  pending fr ++ fst (rx_flow rx) = stream ++ tail -> snd (rx_flow rx) = Some EndEof ->
  read_frames (S (length ms)) fr rx ctr key =
    Some (ms, if (length tail =? 0)%nat then 0 else -1).
Proof.
  intros Hk. revert fr rx ctr stream.
  induction ms as [|[[t f] d] ms IH]; intros fr rx ctr stream Hms Hs Ht Hi Hw He Hq Hend.
  - injection Hs as <-. simpl in Hq. cbn [read_frames length]. unfold frame_reader_next.
    pose proof (next_loop_spec (S (rx_size rx)) fr rx ctr key Hi Hw He ltac:(lia)) as H.
    rewrite Hq, Ht, Hend in H. destruct H as (fr' & rx' & ->).
    by destruct (_ =? 0)%nat.
  - apply Forall_cons in Hms as [Hm Hms]. simpl in Hs.
    apply bind_Some in Hs as (wire & Hwire & Hs). apply bind_Some in Hs as (rest & Hrest & [= <-]).
    change (length ((t, f, d) :: ms)) with (S (length ms)).
    remember (S (length ms)) as n. cbn [read_frames]. unfold frame_reader_next.
    pose proof (next_loop_spec (S (rx_size rx)) fr rx ctr key Hi Hw He ltac:(lia)) as H.
    rewrite Hq, <- app_assoc, (stream_next_wire t f d) in H by done.
    destruct H as (fr' & rx' & -> & Hi' & Hw' & He' & Hq' & Hend').
    subst n. rewrite (IH fr' rx' (ctr + 1) rest) by (done || congruence). done.
Qed.

End ReaderFacts.

(** ** Theorems *)

(** C2: whatever way the network cuts the stream into pieces, interrupts the
    calls and coalesces frames, the reader delivers exactly the frames the sender
    built, in order and intact, and then reports a clean end of file (0); if the
    stream stops inside a frame it reports an error (-1) after the complete
    ones. *)
Theorem frame_reader_delivers (A : Aead) (L : AeadLaws A) (ms : list (Z * Z * bytes)) (fd : Z)
    (rx : list rx_ev) (ctr : Z) (key stream : bytes) (t f : Z) (d last : bytes) (n : nat) :
  wf_block key -> Forall (fun '(t, f, d) => wf_frame t f d) ms ->
  build_frames ms ctr key = Some stream ->
  wf_frame t f d -> frame_build t f d (ctr + zlen ms) key = Some last -> (n < length last)%nat ->
  wf_rx rx -> rx_flow rx = (stream ++ take n last, Some EndEof) ->
  read_frames (S (length ms)) (frame_reader_init fd) rx ctr key =
    Some (ms, if (n =? 0)%nat then 0 else -1).
Proof.
  intros Hk Hms Hs Hd Hlast Hn Hw Hf.
  assert (Hp := init_pending fd).
  assert (Hi := init_inv fd). assert (He : fr_eof (frame_reader_init fd) = false) by reflexivity.
  revert Hi He Hp. generalize (frame_reader_init fd). intros fr Hi He Hp.
  rewrite (read_frames_spec ms fr rx ctr key stream (take n last)); [|try done..].
  - by rewrite length_take, Nat.min_l by lia.
  - intros c. by apply (stream_next_prefix t f d (ctr + zlen ms)).
  - by rewrite Hf, Hp.
  - by rewrite Hf.
Qed.

Definition demo_ms : list (Z * Z * bytes) := [(FRAME_KEEPALIVE, 0, []); (FRAME_DATA, 0, [1; 2; 3])].

Definition demo_stream : bytes := default [] (@build_frames pure_c demo_ms 1 demo_key).

(** The stream in three pieces, then end of file. *)
Definition demo_rx : list rx_ev :=
  [RxData (take 2 demo_stream); RxErr EINTR; RxData (take 25 (drop 2 demo_stream));
   RxData (drop 27 demo_stream); RxData (take 4 demo_frame); RxData []].

Lemma frame_reader_delivers_witness :
  @read_frames pure_c 3 (frame_reader_init 0) demo_rx 1 demo_key = Some (demo_ms, -1).
Proof.
  apply (frame_reader_delivers pure_c pure_c_laws demo_ms 0 demo_rx 1 demo_key demo_stream
    FRAME_DATA 0 demo_msg (default [] (@frame_build pure_c FRAME_DATA 0 demo_msg 3 demo_key)) 4).
  - apply demo_key_block.
  - repeat constructor; unfold is_uint, FRAME_DATA, FRAME_KEEPALIVE; lia.
  - vm_compute. reflexivity.
  - split_and!; [unfold is_uint, FRAME_DATA; lia|unfold is_uint; lia|].
    apply wf_bytesb_spec. vm_compute. reflexivity.
  - vm_compute. reflexivity.
  - vm_compute. lia.
  - apply wf_rxb_spec. vm_compute. reflexivity.
  - vm_compute. reflexivity.
Defined.

(** C25: each operation of the reader keeps its offsets inside the array (so no
    [size_t] subtraction wraps and no copy leaves the buffer) and acts on the
    queue of pending bytes: compaction changes nothing, extraction is extraction
    from the queue, and a fill that follows an extraction that found nothing
    always has room and appends what [recv] gave. *)
Theorem frame_reader_refines_queue (A : Aead) (fr : frame_reader_t) (rx : list rx_ev) (ctr : Z)
    (key : bytes) :
  reader_inv fr -> wf_rx rx -> fr_eof fr = false ->
  let '(r, fr1) := frame_reader_try_next fr ctr key in
  (reader_inv (compact fr) /\ pending (compact fr) = pending fr) /\
  (reader_inv fr1 /\ stream_next (pending fr) ctr key = (r, pending fr1)) /\
  (r = NextNone -> forall c fr2 rx2, fill_buffer fr1 rx = Some (c, fr2, rx2) ->
     reader_inv fr2 /\
     ((c = 1 /\ pending fr2 ++ fst (rx_flow rx2) = pending fr ++ fst (rx_flow rx)) \/
      (c = 0 /\ pending fr2 = pending fr /\
       (rx_flow rx = ([], Some EndEof) \/ rx_flow rx = ([], Some EndAgain))) \/
      (c = -1 /\ pending fr2 = pending fr /\ rx_flow rx = ([], Some EndErr)))).
Proof.
  intros Hi Hw He. destruct (compact_spec fr Hi) as (Hc1 & Hc2 & _).
  pose proof (try_next_spec fr ctr key Hi) as Ht.
  destruct (frame_reader_try_next fr ctr key) as [r fr1]. destruct Ht as (Hs & Hi1 & _ & Hn).
  split_and!; try done. intros Hr c fr2 rx2 Hf. destruct (Hn Hr) as [-> Hlen].
  pose proof (fill_spec fr rx Hi Hw He Hlen) as H. rewrite Hf in H. tauto.
Qed.

Definition demo_reader : frame_reader_t := frame_reader_init 5.

Lemma frame_reader_refines_queue_witness :
  let '(r, fr1) := @frame_reader_try_next pure_c demo_reader 1 demo_key in
  (reader_inv (compact demo_reader) /\ pending (compact demo_reader) = pending demo_reader) /\
  (reader_inv fr1 /\ @stream_next pure_c (pending demo_reader) 1 demo_key = (r, pending fr1)) /\
  (r = NextNone -> forall c fr2 rx2, fill_buffer fr1 demo_rx = Some (c, fr2, rx2) ->
     reader_inv fr2 /\
     ((c = 1 /\ pending fr2 ++ fst (rx_flow rx2) = pending demo_reader ++ fst (rx_flow demo_rx)) \/
      (c = 0 /\ pending fr2 = pending demo_reader /\
       (rx_flow demo_rx = ([], Some EndEof) \/ rx_flow demo_rx = ([], Some EndAgain))) \/
      (c = -1 /\ pending fr2 = pending demo_reader /\ rx_flow demo_rx = ([], Some EndErr)))).
Proof.
  apply (frame_reader_refines_queue pure_c demo_reader demo_rx 1 demo_key).
  - apply init_inv.
  - apply wf_rxb_spec. vm_compute. reflexivity.
  - reflexivity.
Defined.

(** C26: [frame_reader_next] returns whenever the stream ends: with a script that
    reaches end of file, [EAGAIN] or an error after any number of pieces and
    interruptions, the fuel chosen from the size of the script is enough; and it
    returns 0 only when no byte of an unfinished frame is left. *)
Theorem frame_reader_next_terminates (A : Aead) (fr : frame_reader_t) (rx : list rx_ev) (ctr : Z)
    (key : bytes) :
  reader_inv fr -> wf_rx rx -> fr_eof fr = false -> snd (rx_flow rx) <> None ->
  exists r fr' rx', frame_reader_next fr rx ctr key = Some (r, fr', rx') /\
    (r = NextNone -> pending fr ++ fst (rx_flow rx) = [] /\ snd (rx_flow rx) <> Some EndErr).
Proof.
  intros Hi Hw He Hend. unfold frame_reader_next.
  pose proof (next_loop_spec (S (rx_size rx)) fr rx ctr key Hi Hw He ltac:(lia)) as H.
  destruct (stream_next (pending fr ++ _) ctr key) as [[| |t f d] q] eqn:E.
  - destruct H as (fr' & rx' & ->). by exists NextErr, fr', rx'.
  - apply stream_next_none in E as ->. destruct (snd (rx_flow rx)) as [[| |]|]; [..|done];
      destruct H as (fr' & rx' & ->); (eexists _, fr', rx'; split; [reflexivity|]).
    + destruct (_ =? 0)%nat eqn:E0; [|done]. zbool. by apply length_zero_iff_nil in E0.
    + destruct (_ =? 0)%nat eqn:E0; [|done]. zbool. by apply length_zero_iff_nil in E0.
    + done.
  - destruct H as (fr' & rx' & -> & _). by exists (NextFrame t f d), fr', rx'.
Qed.

Lemma frame_reader_next_terminates_witness :
  exists r fr' rx', @frame_reader_next pure_c demo_reader demo_rx 1 demo_key = Some (r, fr', rx') /\
    (r = NextNone ->
     pending demo_reader ++ fst (rx_flow demo_rx) = [] /\ snd (rx_flow demo_rx) <> Some EndErr).
Proof.
  apply (frame_reader_next_terminates pure_c demo_reader demo_rx 1 demo_key).
  - apply init_inv.
  - apply wf_rxb_spec. vm_compute. reflexivity.
  - reflexivity.
  - vm_compute. discriminate.
Defined.
