(* ===== verification/Handshake.v ===== *)
(** * Handshake: src/protocol/handshake.c and src/protocol/ecdh.c

    The handshake messages, their key schedule, the timestamp and replay checks,
    key confirmation and re-keying, over the [world] of Io.v.  OpenSSL's X25519
    and SHA-256 are parameters ([Crypto]) with the laws the protocol relies on
    ([CryptoLaws]); the initial contents of C locals that the code may read
    before writing are a parameter too ([Locals]).  [secure_memzero] of a dead
    local has no effect on results and is left out of the functions. *)

From S2P Require Import Prelude Aes Aegis Aead Util Io Frame.

(** ** The libraries *)

(** [EVP_PKEY_derive] on X25519 (it fails when the shared point is all zero),
    the public key of a private key, and SHA-256. *)
Class Crypto := {
  x25519 : bytes -> bytes -> option bytes;
  x25519_pub : bytes -> bytes;
  sha256 : bytes -> bytes;
}.

Definition wf_key32 (k : bytes) : Prop := length k = 32%nat /\ wf_bytes k.

(** RFC 7748: both sides compute the same secret from honest keys, and public
    keys are 32 bytes; FIPS 180-4: a digest is 32 bytes. *)
Class CryptoLaws (C : Crypto) : Prop := {
  x25519_comm : forall a b, x25519 a (x25519_pub b) = x25519 b (x25519_pub a);
  x25519_honest : forall a b, wf_key32 a -> wf_key32 b -> x25519 a (x25519_pub b) <> None;
  x25519_pub_wf : forall a, wf_key32 a -> wf_key32 (x25519_pub a);
  sha256_wf : forall m, wf_key32 (sha256 m);
}.

(** What an uninitialised local holds, by its name, and what is found in the
    place of a local after its scope has ended, given the text it held last. *)
Class Locals := { uninit : string -> bytes; dead : string -> bytes -> bytes }.

(** ** Data *)

Record session_keys_t := mkKeys { enc_key : bytes; dec_key : bytes }.

Definition TIMESTAMP_WINDOW_SEC : Z := 60.
Definition REPLAY_SLOTS : nat := 128.
Definition ALEN : nat := 36.
Definition WLEN : nat := 60.

(** The ASCII labels of the key schedule. *)
Definition label_init : bytes := [105; 110; 105; 116].
Definition label_shared : bytes := [115; 104; 97; 114; 101; 100].
Definition label_resp : bytes := [114; 101; 115; 112].
Definition label_session : bytes := [115; 101; 115; 115; 105; 111; 110].

Definition hs_header : bytes := [FRAME_HANDSHAKE; FLAG_NONE; 0; 8].

(** ** Replay cache and timestamps *)

(** The scan of the cache and the insertion of a new entry. *)
Definition is_replay (ts : Z) (eph_pub : bytes) : M Z := fun w =>
  let prefix := le_value (take 8 eph_pub) in
  if existsb (fun e => (rp_ts e =? ts) && (rp_eph_prefix e =? prefix)) (w_replay w)
  then Some (1, w)
  else Some (0, set_replay (<[w_replay_idx w := mkReplay ts prefix]> (w_replay w))
                  ((w_replay_idx w + 1) mod REPLAY_SLOTS) w).

(** [int64_t] subtraction as two's complement. *)
Definition check_ts (ts : Z) (eph_pub : bytes) : M Z :=
  n ← do_timestamp;
  if n <? 0 then mret (-1)
  else
    let d := if ts <? n then s64 (n - ts) else s64 (ts - n) in
    if TIMESTAMP_WINDOW_SEC <? d then mret (-1)
    else
      r ← is_replay ts eph_pub;
      if negb (r =? 0) then mret (-1) else mret 0.

(** [tsb\[7-i\] = (uint8_t)(tb >> (i*8))] and the inverse loop. *)
Definition ts_encode (ts : Z) : bytes :=
  let tb := u64 ts in
  foldl (fun tsb i => <[(7 - i)%nat := u8 (Z.shiftr tb (Z.of_nat i * 8))]> tsb) (zeros 8) (seq 0 8).

Definition ts_decode (tsb : bytes) : Z :=
  s64 (foldl (fun tb b => Z.lor (u64 (Z.shiftl tb 8)) b) 0 tsb).

Section Handshake.
Context {A : Aead} {C : Crypto} {U : Locals}.

(** ** ecdh.c *)

(** The next private key of the generator, with its public key. *)
Definition ecdh_keygen : M (option (bytes * bytes)) := fun w =>
  match w_keygen w with
  | [] => None
  | None :: l => Some (None, set_keygen l w)
  | Some priv :: l => Some (Some (x25519_pub priv, priv), set_keygen l w)
  end.

(** Return code and the out-parameter, which keeps its old contents on failure. *)
Definition ecdh_derive (shared_secret our_privkey peer_pubkey : bytes) : Z * bytes :=
  match x25519 our_privkey peer_pubkey with
  | None => (-1, shared_secret)
  | Some raw_shared => (0, sha256 raw_shared)
  end.

(** A call whose return value the caller ignores, on the local [v]. *)
Definition derive_into (v : string) (priv pub : bytes) : bytes :=
  snd (ecdh_derive (uninit v) priv pub).

(** ** Messages and key schedule *)

Definition sha256_h (m : bytes) : bytes := sha256 m.

Definition asym_send (epk : bytes) (ts : Z) (key : bytes) : M Z :=
  let ad := hs_header ++ epk in
  let '(ct, tag) := aead_encrypt key (zeros 16) ad (ts_encode ts) in
  send_all (hs_header ++ epk ++ ct ++ tag).

Definition asym_hdr : M (option bytes) :=
  r ← recv_all ALEN;
  match r with
  | None => mret None
  | Some w => mret (Some (take 32 (drop 4 w)))
  end.

Definition asym_ts (epk key : bytes) : M (option Z) :=
  r ← recv_all 24;
  match r with
  | None => mret None
  | Some ct =>
      let ad := hs_header ++ epk in
      let '(ret, tsb) := aead_decrypt key (zeros 16) ad (take 8 ct) (drop 8 ct) in
      if negb (ret =? 0) then mret None else mret (Some (ts_decode tsb))
  end.

Definition asym_init_key (ek sk pk : bytes) : bytes :=
  let ee := derive_into "ee" ek pk in
  let es := derive_into "es" sk pk in
  take 16 (sha256_h (ee ++ es ++ label_init)).

Definition asym_shared (ee es se : bytes) : bytes := sha256_h (ee ++ es ++ se ++ label_shared).

Definition asym_resp (sh : bytes) : bytes := take 16 (sha256_h (sh ++ label_resp)).

Definition asym_sess (sh ei er : bytes) : session_keys_t :=
  let h := sha256_h (sh ++ ei ++ er ++ label_session) in
  mkKeys (take 16 h) (take 16 (drop 16 h)).

(** [keys] is the caller's object; the code writes it before it sends. *)
Definition handshake_server (our_priv peer_pub : bytes) (keys : session_keys_t) :
    M (Z * session_keys_t) :=
  r ← asym_hdr;
  match r with
  | None => mret (-1, keys)
  | Some iepk =>
      let ik := (let ee := derive_into "ee" our_priv iepk in
                 let es := derive_into "es" our_priv peer_pub in
                 take 16 (sha256_h (ee ++ es ++ label_init))) in
      t ← asym_ts iepk ik;
      match t with
      | None => mret (-1, keys)
      | Some its =>
          c ← check_ts its iepk;
          if negb (c =? 0) then mret (-1, keys)
          else
            g ← ecdh_keygen;
            match g with
            | None => mret (-1, keys)
            | Some (epk, ek) =>
                let ee := derive_into "ee" our_priv iepk in
                let es := derive_into "es" our_priv peer_pub in
                let se := derive_into "se" ek peer_pub in
                let sh := asym_shared ee es se in
                let k := asym_sess sh iepk epk in
                let keys := mkKeys (dec_key k) (enc_key k) in
                let rk := asym_resp sh in
                ts ← do_timestamp;
                ok ← asym_send epk ts rk;
                if negb (ok =? 0) || (ts <? 0) then mret (-1, keys) else mret (0, keys)
            end
      end
  end.

Definition handshake_client (our_priv peer_pub : bytes) (keys : session_keys_t) :
    M (Z * session_keys_t) :=
  g ← ecdh_keygen;
  match g with
  | None => mret (-1, keys)
  | Some (epk, ek) =>
      let ik := asym_init_key ek our_priv peer_pub in
      ts ← do_timestamp;
      ok ← asym_send epk ts ik;
      if negb (ok =? 0) then mret (-1, keys)
      else
        r ← asym_hdr;
        match r with
        | None => mret (-1, keys)
        | Some repk =>
            let ee := derive_into "ee" ek peer_pub in
            let es := derive_into "es" our_priv peer_pub in
            let se := derive_into "se" our_priv repk in
            let sh := asym_shared ee es se in
            let rk := asym_resp sh in
            t ← asym_ts repk rk;
            match t with
            | None => mret (-1, keys)
            | Some rts =>
                c ← check_ts rts repk;
                if negb (c =? 0) then mret (-1, keys)
                else mret (0, asym_sess sh epk repk)
            end
        end
  end.

(** ** Key confirmation *)

Definition handshake_key_confirm_server (k : session_keys_t) : M Z :=
  match frame_build FRAME_KEYCONFIRM FLAG_NONE [] 0 (enc_key k) with
  | None => mret (-1)
  | Some wb => send_all wb
  end.

Definition handshake_key_confirm_client (k : session_keys_t) : M Z :=
  r ← recv_all (FRAME_HEADER_LEN + AEGIS_TAG_LEN);
  match r with
  | None => mret (-1)
  | Some wb =>
      match frame_parse wb 0 (dec_key k) with
      | None => mret (-1)
      | Some (ty, fl, _) => if ty =? FRAME_KEYCONFIRM then mret 0 else mret (-1)
      end
  end.

(** ** Re-keying *)

(** The frame exchange of either role: the peer's public key and the counter
    after it.  On failure the counter may have moved. *)
Definition rekey_exchange (opub : bytes) (keys : session_keys_t) (nc : Z) (init : bool) :
    M (option bytes * Z) :=
  if init then
    match frame_build FRAME_REKEY FLAG_NONE opub nc (enc_key keys) with
    | None => mret (None, nc)
    | Some wb =>
        let nc := u64 (nc + 1) in
        s ← send_all wb;
        if negb (s =? 0) then mret (None, nc)
        else
          r ← recv_all (FRAME_HEADER_LEN + 32 + AEGIS_TAG_LEN);
          match r with
          | None => mret (None, nc)
          | Some rb =>
              match frame_parse rb nc (dec_key keys) with
              | None => mret (None, nc)
              | Some (_, _, ppub) => mret (Some ppub, u64 (nc + 1))
              end
          end
    end
  else
    r ← recv_all (FRAME_HEADER_LEN + 32 + AEGIS_TAG_LEN);
    match r with
    | None => mret (None, nc)
    | Some rb =>
        match frame_parse rb nc (dec_key keys) with
        | None => mret (None, nc)
        | Some (_, _, ppub) =>
            let nc := u64 (nc + 1) in
            match frame_build FRAME_REKEY FLAG_NONE opub nc (enc_key keys) with
            | None => mret (None, nc)
            | Some wb =>
                let nc := u64 (nc + 1) in
                s ← send_all wb;
                if negb (s =? 0) then mret (None, nc) else mret (Some ppub, nc)
            end
        end
    end.

(** Return code, [*keys], [*nc].  [psk] is NULL or a buffer of [plen] bytes. *)
Definition handshake_rekey (psk : option bytes) (plen : nat) (keys : session_keys_t) (nc : Z)
    (init : bool) : M (Z * session_keys_t * Z) :=
  g ← ecdh_keygen;
  match g with
  | None => mret (-1, keys, nc)
  | Some (opub, opriv) =>
      x ← rekey_exchange opub keys nc init;
      let '(p, nc) := x in
      match p with
      | None => mret (-1, keys, nc)
      | Some ppub =>
          let '(ret, sh) := ecdh_derive (uninit "sh") opriv ppub in
          if negb (ret =? 0) then mret (-1, keys, nc)
          else
            r1 ← do_random (uninit "nc2") 16;
            r2 ← do_random (uninit "ns") 16;
            let nc2 := snd r1 in
            let ns := snd r2 in
            m ← do_malloc;
            if negb m then mret (-1, keys, nc)
            else
            let b := match psk with
                     | Some k => k ++ sh ++ nc2 ++ ns
                     | None => sh ++ nc2 ++ ns ++ take plen (uninit "b")
                     end in
            let h := sha256_h b in
            let ek := take 16 h in
            let dk := take 16 (drop 16 h) in
            mret (0, (if init then mkKeys ek dk else mkKeys dk ek), 0)
      end
  end.

End Handshake.

(** ** Replay cache *)

(** The cache read from its oldest entry to its newest. *)
Definition replay_window (w : world) : list replay_entry_t :=
  drop (w_replay_idx w) (w_replay w) ++ take (w_replay_idx w) (w_replay w).

Definition replay_inv (w : world) : Prop :=
  length (w_replay w) = REPLAY_SLOTS /\ (w_replay_idx w < REPLAY_SLOTS)%nat.

(** The entry a handshake leaves. *)
Definition replay_entry (ts : Z) (eph_pub : bytes) : replay_entry_t :=
  mkReplay ts (le_value (take 8 eph_pub)).

Lemma replay_hit (l : list replay_entry_t) (ts p : Z) :
  existsb (fun e => (rp_ts e =? ts) && (rp_eph_prefix e =? p)) l = true <-> mkReplay ts p ∈ l.
Proof.
  rewrite existsb_exists. split.
  - intros ([t q] & Hin & H). zbool. cbn [rp_ts rp_eph_prefix] in *. subst. by apply list_elem_of_In.
  - intros Hin. exists (mkReplay ts p). split; [by apply list_elem_of_In|].
    cbn [rp_ts rp_eph_prefix]. by rewrite !Z.eqb_refl.
Qed.

(** Writing the slot of the oldest entry and moving the index on. *)
Lemma ring_insert (c : list replay_entry_t) (i : nat) (e : replay_entry_t) :
  length c = REPLAY_SLOTS -> (i < REPLAY_SLOTS)%nat ->
  let c' := <[i := e]> c in let i' := ((i + 1) mod REPLAY_SLOTS)%nat in
  drop i' c' ++ take i' c' = tail (drop i c ++ take i c) ++ [e].
Proof.
  intros Hc Hi. cbv zeta. destruct (lookup_lt_is_Some_2 c i) as [x Hx]; [lia|].
  assert (Ht : tail (drop i c ++ take i c) = drop (S i) c ++ take i c).
  { by rewrite (drop_S c x i Hx). }
  rewrite Ht. unfold REPLAY_SLOTS in *. destruct (decide (i = 127)%nat) as [->|Hne].
  - change ((127 + 1) mod 128)%nat with 0%nat.
    rewrite drop_0, take_0, app_nil_r, (drop_ge c) by lia. simpl app.
    rewrite insert_take_drop by lia. rewrite (drop_ge c) by lia. done.
  - rewrite Nat.mod_small by lia. rewrite Nat.add_1_r.
    rewrite drop_insert_lt by lia.
    rewrite (take_S_r _ i e) by (apply list_lookup_insert_eq; lia).
    rewrite take_insert_ge by lia. by rewrite app_assoc.
Qed.

Lemma is_replay_spec (w : world) (ts : Z) (eph : bytes) : replay_inv w ->
  exists r w', is_replay ts eph w = Some (r, w') /\ replay_inv w' /\
    ((r = 1 /\ w' = w /\ replay_entry ts eph ∈ replay_window w) \/
     (r = 0 /\ ~ (replay_entry ts eph ∈ replay_window w) /\
      replay_window w' = tail (replay_window w) ++ [replay_entry ts eph])).
Proof.
  intros [Hl Hi]. unfold is_replay, replay_window, replay_entry.
  set (p := le_value (take 8 eph)).
  assert (Hin : forall e, e ∈ drop (w_replay_idx w) (w_replay w) ++ take (w_replay_idx w) (w_replay w)
    <-> e ∈ w_replay w).
  { intros e. rewrite <- (take_drop (w_replay_idx w) (w_replay w)) at 3. rewrite !elem_of_app. tauto. }
  destruct (existsb _ _) eqn:E.
  - exists 1, w. split_and!; [done..|]. left. rewrite Hin. by rewrite replay_hit in E.
  - eexists 0, _. split; [reflexivity|]. split; [split; cbn|right; split_and!; [done|..]].
    + by rewrite length_insert.
    + by apply Nat.mod_upper_bound.
    + rewrite Hin, <- replay_hit, E. done.
    + by apply ring_insert.
Qed.

(** A sequence of handshakes through the cache: the answers, and the world. *)
Fixpoint replay_run (l : list (Z * bytes)) (w : world) : option (list Z * world) :=
  match l with
  | [] => Some ([], w)
  | (ts, eph) :: l' =>
      match is_replay ts eph w with
      | None => None
      | Some (r, w1) =>
          match replay_run l' w1 with
          | None => None
          | Some (rs, w2) => Some (r :: rs, w2)
          end
      end
  end.

(** An entry [k] places before the newest is still there after [n] calls. *)
Lemma replay_run_keeps (l : list (Z * bytes)) (w : world) (e : replay_entry_t) (i : nat) :
  replay_inv w -> replay_window w !! i = Some e -> (length l <= i)%nat ->
  exists rs w', replay_run l w = Some (rs, w') /\ replay_inv w' /\ length rs = length l /\
    e ∈ replay_window w'.
Proof.
  revert w i. induction l as [|[ts eph] l IH]; intros w i Hi He Hl.
  { exists [], w. split_and!; try done. by eapply list_elem_of_lookup_2. }
  cbn [replay_run length] in *. destruct i as [|i]; [lia|].
  destruct (is_replay_spec w ts eph Hi) as (r & w1 & -> & Hi1 & [(-> & -> & _)|(-> & _ & Hw)]).
  - destruct (IH w (S i) Hi He ltac:(lia)) as (rs & w' & -> & ? & <- & ?).
    by exists (1 :: rs), w'.
  - destruct (IH w1 i Hi1) as (rs & w' & -> & ? & <- & ?); [|lia|by exists (0 :: rs), w'].
    rewrite Hw, lookup_app_l.
    + rewrite <- He. by destruct (replay_window w).
    + apply lookup_lt_Some in He. destruct (replay_window w); simpl in *; lia.
Qed.

Lemma replay_window_length (w : world) : replay_inv w -> length (replay_window w) = REPLAY_SLOTS.
Proof. intros [Hl Hi]. unfold replay_window. rewrite length_app, length_drop, length_take. lia. Qed.

(** C27: a handshake message the cache has let through is recognised when it comes
    again, whatever up to 127 other messages came in between, and recognising it
    changes nothing. *)
Theorem replay_rejected (w w1 : world) (ts : Z) (eph : bytes) (others : list (Z * bytes)) :
  replay_inv w -> is_replay ts eph w = Some (0, w1) -> (length others < REPLAY_SLOTS)%nat ->
  exists rs w2, replay_run others w1 = Some (rs, w2) /\ is_replay ts eph w2 = Some (1, w2).
Proof.
  intros Hi H Hl. destruct (is_replay_spec w ts eph Hi) as (r & w1' & H' & Hi1 & Hc).
  rewrite H in H'. injection H' as <- <-. destruct Hc as [(? & _)|(_ & _ & Hw)]; [done|].
  assert (Hlen := replay_window_length w Hi). unfold REPLAY_SLOTS in *.
  destruct (replay_run_keeps others w1 (replay_entry ts eph) 127) as (rs & w2 & Hr & Hi2 & _ & He);
    [done| |lia|].
  { rewrite Hw. destruct (replay_window w) as [|x l]; [done|]. simpl tail. simpl in Hlen.
    rewrite lookup_app_r by lia. by replace (127 - length l)%nat with 0%nat by lia. }
  exists rs, w2. split; [done|].
  destruct (is_replay_spec w2 ts eph Hi2) as (r & w3 & -> & _ & [(-> & -> & _)|(_ & Hn & _)]); done.
Qed.

(** A fresh process: the cache is zeroed static storage. *)
Definition world0 : world :=
  mkWorld [] [] [] [] [] [] [] [] [] [] [] (replicate REPLAY_SLOTS (mkReplay 0 0)) 0.

Lemma replay_rejected_witness :
  exists rs w2, replay_run [(7, zeros 32); (8, [1; 2])]
      (set_replay (<[0%nat := replay_entry 5 [9]]> (w_replay world0)) 1 world0) = Some (rs, w2) /\
    is_replay 5 [9] w2 = Some (1, w2).
Proof.
  apply (replay_rejected world0 _ 5 [9] [(7, zeros 32); (8, [1; 2])]).
  - split; [reflexivity|cbn; unfold REPLAY_SLOTS; lia].
  - reflexivity.
  - unfold REPLAY_SLOTS. simpl. lia.
Defined.

(** ** Timestamps *)

Definition is_int64 (x : Z) : Prop := - 2 ^ 63 <= x < 2 ^ 63.

Lemma s64_u64 (x : Z) : is_int64 x -> s64 (u64 x) = x.
Proof.
  intros H. unfold is_int64 in H. unfold s64, u64. cbv zeta. rewrite Z.mod_mod by done.
  destruct (Z.le_gt_cases 0 x).
  - rewrite Z.mod_small by lia. rewrite (proj2 (Z.ltb_lt _ _)) by lia. done.
  - replace (x mod 2 ^ 64) with (x + 2 ^ 64).
    + rewrite (proj2 (Z.ltb_ge _ _)) by lia. lia.
    + rewrite <- (Z.mod_small (x + 2 ^ 64) (2 ^ 64)) by lia.
      by rewrite <- Z.add_mod_idemp_r, Z.mod_same, Z.add_0_r by done.
Qed.

Lemma s64_small (x : Z) : 0 <= x < 2 ^ 63 -> s64 x = x.
Proof.
  intros H. unfold s64, u64. cbv zeta. rewrite Z.mod_small by lia.
  by rewrite (proj2 (Z.ltb_lt _ _)) by lia.
Qed.

Lemma ts_encode_be (ts : Z) : ts_encode ts = be_bytes 8 (u64 ts).
Proof.
  unfold ts_encode. generalize (u64 ts). intros x. cbn -[u8 Z.land Z.shiftr].
  unfold be_bytes. cbn -[Z.land Z.shiftr u8]. unfold u8.
  change 255 with (Z.ones 8). rewrite !Z.land_ones by done. rewrite Z.shiftr_0_r.
  by rewrite !Z.shiftr_shiftr by done.
Qed.

Lemma be_value_snoc (l : bytes) (b : Z) : be_value (l ++ [b]) = Z.lor b (Z.shiftl (be_value l) 8).
Proof. unfold be_value. by rewrite rev_app_distr. Qed.

Lemma be_value_bound (l : bytes) : wf_bytes l -> 0 <= be_value l < 2 ^ (8 * zlen l).
Proof.
  induction l as [|b l IH] using rev_ind; intros Hw; [done|].
  apply wf_bytes_app in Hw as [Hl Hb]. apply wf_bytes_cons in Hb as [Hb _].
  specialize (IH Hl). rewrite be_value_snoc, length_app. simpl length.
  replace (8 * Z.of_nat (length l + 1)) with (8 * zlen l + 8) by lia.
  apply (is_uint_lor (8 * zlen l + 8)); [lia|..].
  - unfold is_uint in *. assert (2 ^ 8 <= 2 ^ (8 * zlen l + 8)) by (apply Z.pow_le_mono_r; lia). lia.
  - unfold is_uint. rewrite Z.shiftl_mul_pow2, Z.pow_add_r by lia. nia.
Qed.

Lemma ts_decode_loop (l : bytes) : wf_bytes l -> (length l <= 8)%nat ->
  foldl (fun tb b => Z.lor (u64 (Z.shiftl tb 8)) b) 0 l = be_value l.
Proof.
  induction l as [|b l IH] using rev_ind; intros Hw Hl; [done|].
  apply wf_bytes_app in Hw as [Hwl _]. rewrite length_app in Hl. simpl in Hl.
  rewrite foldl_snoc, IH, be_value_snoc, Z.lor_comm by (done || lia). f_equal.
  apply Z.mod_small. rewrite Z.shiftl_mul_pow2 by done.
  assert (H := be_value_bound l Hwl).
  assert (2 ^ (8 * zlen l) <= 2 ^ 56) by (apply Z.pow_le_mono_r; lia). lia.
Qed.

Lemma ts_encode_wf (ts : Z) : length (ts_encode ts) = 8%nat /\ wf_bytes (ts_encode ts).
Proof. rewrite ts_encode_be. split; [apply be_bytes_length | auto with aegis]. Qed.

Lemma ts_roundtrip (ts : Z) : is_int64 ts -> ts_decode (ts_encode ts) = ts.
Proof.
  intros H. unfold ts_decode. destruct (ts_encode_wf ts) as [Hl Hw].
  rewrite ts_decode_loop by (done || lia). rewrite ts_encode_be, be_value_be_bytes.
  change (8 * Z.of_nat 8) with 64. unfold u64. rewrite Z.mod_mod by done. by apply s64_u64.
Qed.

(** ** The freshness check *)

Lemma check_ts_run (w : world) (n : option Z) (cl : list (option Z)) (ts : Z) (eph : bytes) :
  replay_inv w -> w_clock w = n :: cl -> is_int64 (timestamp_now n - ts) ->
  is_int64 (ts - timestamp_now n) ->
  exists r w', check_ts ts eph w = Some (r, w') /\ replay_inv w' /\
    (r = 0 <-> 0 <= timestamp_now n /\ Z.abs (timestamp_now n - ts) <= TIMESTAMP_WINDOW_SEC /\
              ~ (replay_entry ts eph ∈ replay_window w)) /\ (r = 0 \/ r = -1) /\
    (w' = set_clock cl w \/
     exists c i, w' = set_replay c i (set_clock cl w)).
Proof.
  intros Hi Hc H1 H2. unfold check_ts.
  rewrite (M_bind_eq do_timestamp _ w (timestamp_now n) (set_clock cl w)) by (unfold do_timestamp; by rewrite Hc).
  generalize dependent (timestamp_now n). intros t H1 H2.
  destruct (t <? 0) eqn:E0; zbool.
  { exists (-1), (set_clock cl w). split_and!; try done; auto. lia. }
  assert (Hd : (if ts <? t then s64 (t - ts) else s64 (ts - t)) = Z.abs (t - ts)).
  { unfold is_int64 in *. destruct (ts <? t) eqn:E; zbool; rewrite s64_small by lia; lia. }
  cbv zeta. rewrite Hd. destruct (TIMESTAMP_WINDOW_SEC <? _) eqn:E1; zbool.
  { exists (-1), (set_clock cl w). split_and!; try done; auto. lia. }
  destruct (is_replay_spec (set_clock cl w) ts eph Hi) as (r & w' & Hr & Hi' & Hcase).
  rewrite (M_bind_eq _ _ _ _ _ Hr).
  change (replay_window (set_clock cl w)) with (replay_window w) in Hcase.
  destruct Hcase as [(-> & -> & Hin)|(-> & Hn & _)].
  - exists (-1), (set_clock cl w). split_and!; try done; auto. split; [lia|]. intros (_ & _ & ?). done.
  - exists 0, w'. split_and!; try done; auto. right. unfold is_replay in Hr.
    destruct (existsb _ _); [done|]. injection Hr as <-. eauto.
Qed.

(** ** Runs *)

(** The socket is ready for [calls] calls of [recv_all]: it delivers [d], in any
    pieces, and every [poll] finds it readable. *)
Definition net_gives (calls : nat) (d : bytes) (w : world) : Prop :=
  data_rx (w_rx w) /\ wf_rx (w_rx w) /\ fst (rx_flow (w_rx w)) = d /\
  exists k, ready_polls k (w_poll w) /\ (length (w_rx w) + calls <= k)%nat.

Lemma recv_all_run (calls n : nat) (d : bytes) (w : world) :
  net_gives (S calls) d w -> (n <= length d)%nat ->
  exists rx p, recv_all n w = Some (Some (take n d), set_rx rx (set_poll p w)) /\
    net_gives calls (drop n d) (set_rx rx (set_poll p w)).
Proof.
  intros (Hd & Hw & Hf & k & Hp & Hk) Hn.
  destruct (recv_all_loop_ok (w_poll w) (w_rx w) [] n k) as (r & p & rx & k' & Hr & Hd' & Hp' & Hk');
    [done..|lia|simpl; lia|rewrite Hf; simpl; lia|].
  exists rx, p. unfold recv_all. rewrite Hr.
  apply recv_all_loop_spec in Hr as (got & Hg & Hl & _ & Hw' & Hflow); [|simpl; lia|done].
  simpl in Hg. subst got. rewrite Hflow in Hf. cbn [fst] in Hf. subst d.
  rewrite take_app_length', drop_app_length' by done. split; [done|].
  unfold net_gives. cbn [w_rx w_poll set_rx set_poll]. split_and!; try done.
  exists k'. split; [done|lia].
Qed.

(** What a successful [recv_all] has read, whatever the network did. *)
Lemma recv_all_some (n : nat) (w w' : world) (b : bytes) :
  wf_rx (w_rx w) -> recv_all n w = Some (Some b, w') ->
  length b = n /\ wf_bytes b /\ exists rx p, w' = set_rx rx (set_poll p w) /\ wf_rx rx /\
    rx_flow (w_rx w) = (b ++ fst (rx_flow rx), snd (rx_flow rx)).
Proof.
  intros Hw. unfold recv_all.
  destruct (recv_all_loop _ _ _ _) as [[[r p] rx]|] eqn:E; [|done]. intros [= -> <-].
  apply recv_all_loop_spec in E as (got & -> & Hl & Hg & Hw' & Hf); [|simpl; lia|done].
  split_and!; [done..|]. by exists rx, p.
Qed.

Section Runs.
Context {A : Aead} {L : AeadLaws A} {C : Crypto} {CL : CryptoLaws C} {U : Locals}.

Definition hello (epk : bytes) (ts : Z) (key : bytes) : bytes :=
  let ct := aead_encrypt key (zeros 16) (hs_header ++ epk) (ts_encode ts) in
  hs_header ++ epk ++ fst ct ++ snd ct.

Lemma hs_ad_wf (epk : bytes) : wf_key32 epk -> wf_bytes (hs_header ++ epk).
Proof. intros [_ H]. apply wf_bytes_app_2; [by apply wf_bytesb_spec|done]. Qed.

Lemma zero_nonce_block : wf_block (zeros 16).
Proof. split; [done|auto with aegis]. Qed.

Lemma hello_parts (epk key : bytes) (ts : Z) : wf_key32 epk -> wf_block key ->
  let ct := aead_encrypt key (zeros 16) (hs_header ++ epk) (ts_encode ts) in
  length (fst ct) = 8%nat /\ wf_block (snd ct) /\ wf_bytes (fst ct).
Proof.
  intros He Hk. cbv zeta. destruct (ts_encode_wf ts) as [Hl Hw].
  destruct (aead_lens key _ _ (ts_encode ts) Hk zero_nonce_block (hs_ad_wf _ He) Hw) as [-> ?].
  destruct (aead_wf key _ _ (ts_encode ts) Hk zero_nonce_block (hs_ad_wf _ He) Hw).
  by rewrite Hl.
Qed.

Lemma hello_length (epk key : bytes) (ts : Z) : wf_key32 epk -> wf_block key ->
  length (hello epk ts key) = WLEN.
Proof.
  intros He Hk. destruct (hello_parts epk key ts He Hk) as (H1 & [H2 _] & _).
  unfold hello. cbv zeta. rewrite !length_app, H1, H2. destruct He as [-> _]. done.
Qed.

Lemma asym_send_run (epk key : bytes) (ts : Z) (ls : list nat) (w : world) :
  wf_key32 epk -> wf_block key -> tx_takes (WLEN :: ls) (w_tx w) ->
  exists tx, asym_send epk ts key w = Some (0, set_tx tx (w_out w ++ hello epk ts key) w) /\
    tx_takes ls tx.
Proof.
  intros He Hk (tx & Htx & Ht). assert (Hl := hello_length epk key ts He Hk). unfold asym_send.
  unfold hello in *. cbv zeta in *. destruct (aead_encrypt _ _ _ _) as [ct tag]. cbn [fst snd] in *.
  exists tx. split; [|done]. unfold send_all. by rewrite Ht.
Qed.

(** Reading a hello message under the key it was sealed with. *)
Lemma asym_hdr_run (epk key : bytes) (ts : Z) (calls : nat) (rest : bytes) (w : world) :
  wf_key32 epk -> wf_block key -> net_gives (S calls) (hello epk ts key ++ rest) w ->
  exists rx p, asym_hdr w = Some (Some epk, set_rx rx (set_poll p w)) /\
    net_gives calls (drop ALEN (hello epk ts key) ++ rest) (set_rx rx (set_poll p w)).
Proof.
  intros He Hk Hn. assert (Hl := hello_length epk key ts He Hk). unfold WLEN in Hl.
  destruct (recv_all_run calls ALEN _ w Hn) as (rx & p & Hr & Hn').
  { rewrite length_app. unfold ALEN. lia. }
  rewrite take_app_le in Hr by (unfold ALEN; lia). rewrite drop_app_le in Hn' by (unfold ALEN; lia).
  exists rx, p. split; [|done]. unfold asym_hdr. rewrite (M_bind_eq _ _ _ _ _ Hr).
  unfold mret, M_ret. do 3 f_equal. unfold hello. cbv zeta. destruct He as [He _].
  rewrite (app_assoc hs_header), take_app_length' by (rewrite length_app, He; done).
  rewrite drop_app_length' by done. rewrite <- He. apply take_ge. lia.
Qed.

Lemma asym_ts_run (epk key : bytes) (ts : Z) (calls : nat) (rest : bytes) (w : world) :
  wf_key32 epk -> wf_block key -> is_int64 ts ->
  net_gives (S calls) (drop ALEN (hello epk ts key) ++ rest) w ->
  exists rx p, asym_ts epk key w = Some (Some ts, set_rx rx (set_poll p w)) /\
    net_gives calls rest (set_rx rx (set_poll p w)).
Proof.
  intros He Hk Hts Hn. assert (Hl := hello_length epk key ts He Hk).
  destruct (hello_parts epk key ts He Hk) as (H1 & [H2 _] & _).
  assert (Hl24 : length (drop ALEN (hello epk ts key)) = 24%nat) by (rewrite length_drop, Hl; done).
  destruct (recv_all_run calls 24 _ w Hn) as (rx & p & Hr & Hn').
  { rewrite length_app. lia. }
  rewrite take_app_length' in Hr by done. rewrite drop_app_length' in Hn' by done.
  exists rx, p. split; [|done]. unfold asym_ts. rewrite (M_bind_eq _ _ _ _ _ Hr).
  destruct (ts_encode_wf ts) as [Htl Htw].
  assert (Hrt := aead_roundtrip key _ _ _ Hk zero_nonce_block (hs_ad_wf _ He) Htw).
  unfold hello in *. cbv zeta in *.
  destruct (aead_encrypt key (zeros 16) (hs_header ++ epk) (ts_encode ts)) as [ct tag].
  cbn [fst snd] in *. destruct He as [He _].
  rewrite (app_assoc hs_header), (drop_app_length' (hs_header ++ epk)) by (rewrite length_app, He; done).
  rewrite take_app_length', drop_app_length', Hrt by done. cbn [Z.eqb negb].
  unfold mret, M_ret. by rewrite ts_roundtrip.
Qed.

(** ** Agreement *)

Lemma derive_comm (v v' : string) (a b : bytes) : wf_key32 a -> wf_key32 b ->
  derive_into v a (x25519_pub b) = derive_into v' b (x25519_pub a).
Proof.
  intros Ha Hb. unfold derive_into, ecdh_derive. rewrite (x25519_comm b a).
  assert (H := x25519_honest a b Ha Hb). by destruct (x25519 a (x25519_pub b)).
Qed.

Lemma key_of_digest (m : bytes) : wf_block (take 16 (sha256_h m)) /\ wf_block (take 16 (drop 16 (sha256_h m))).
Proof.
  destruct (sha256_wf m) as [Hl Hw]. unfold sha256_h.
  split; (split; [rewrite length_take, ?length_drop, Hl; done | auto with aegis]).
Qed.

(** The key schedule both sides should reach, from the client's side: static
    keys [a] (client) and [b] (server), ephemeral keys [ea] and [eb]. *)
Definition shared_secret (a ea b eb : bytes) : bytes :=
  asym_shared (derive_into "ee" ea (x25519_pub b)) (derive_into "es" a (x25519_pub b))
    (derive_into "se" a (x25519_pub eb)).

Definition client_hello (a ea b : bytes) (t : Z) : bytes :=
  hello (x25519_pub ea) t (asym_init_key ea a (x25519_pub b)).

Definition server_hello (a ea b eb : bytes) (t : Z) : bytes :=
  hello (x25519_pub eb) t (asym_resp (shared_secret a ea b eb)).

(** The message of the other side passes the freshness check at time [now]. *)
Definition fresh (w : world) (now ts : Z) (eph : bytes) : Prop :=
  0 <= now < 2 ^ 62 /\ 0 <= ts < 2 ^ 62 /\ Z.abs (now - ts) <= TIMESTAMP_WINDOW_SEC /\
  ~ (replay_entry ts eph ∈ replay_window w).

Lemma check_ts_fresh (w : world) (now ts : Z) (cl : list (option Z)) (eph : bytes) :
  replay_inv w -> w_clock w = Some now :: cl -> fresh w now ts eph ->
  exists c i, check_ts ts eph w = Some (0, set_replay c i (set_clock cl w)).
Proof.
  intros Hi Hc (Hn & Ht & Hd & Hf).
  destruct (check_ts_run w (Some now) cl ts eph) as (r & w' & -> & _ & [_ Hr] & _ & Hw);
    [done..|unfold is_int64; simpl; lia|unfold is_int64; simpl; lia|].
  rewrite Hr by (by split_and!; [simpl; lia|..]).
  destruct Hw as [->|(c & i & ->)]; [|eauto]. by exists (w_replay w), (w_replay_idx w).
Qed.

Lemma ecdh_keygen_run (w : world) (e : bytes) (kg : list (option bytes)) :
  w_keygen w = Some e :: kg -> ecdh_keygen w = Some (Some (x25519_pub e, e), set_keygen kg w).
Proof. intros H. unfold ecdh_keygen. by rewrite H. Qed.

Lemma do_timestamp_run (w : world) (t : Z) (cl : list (option Z)) :
  w_clock w = Some t :: cl -> do_timestamp w = Some (t, set_clock cl w).
Proof. intros H. unfold do_timestamp. by rewrite H. Qed.

Lemma handshake_client_run (a ea b eb : bytes) (t1 t2 ts : Z) (kg : list (option bytes))
    (cl : list (option Z)) (k0 : session_keys_t) (calls : nat) (rest : bytes) (ls : list nat) (w : world) :
  wf_key32 a -> wf_key32 ea -> wf_key32 b -> wf_key32 eb ->
  w_keygen w = Some ea :: kg -> w_clock w = Some t1 :: Some t2 :: cl ->
  tx_takes (WLEN :: ls) (w_tx w) -> replay_inv w -> fresh w t2 ts (x25519_pub eb) ->
  net_gives (S (S calls)) (server_hello a ea b eb ts ++ rest) w ->
  exists w', handshake_client a (x25519_pub b) k0 w =
      Some ((0, asym_sess (shared_secret a ea b eb) (x25519_pub ea) (x25519_pub eb)), w') /\
    w_out w' = w_out w ++ client_hello a ea b t1 /\ net_gives calls rest w' /\ tx_takes ls (w_tx w') /\
    w_clock w' = cl.
Proof.
  intros Ha Hea Hb Heb Hkg Hcl Htx Hi Hf Hn. unfold handshake_client.
  rewrite (M_bind_eq _ _ _ _ _ (ecdh_keygen_run w ea kg Hkg)). cbv beta iota zeta.
  rewrite (M_bind_eq _ _ _ _ _ (do_timestamp_run (set_keygen kg w) t1 (Some t2 :: cl) Hcl)).
  set (w1 := set_clock _ _).
  destruct (asym_send_run (x25519_pub ea) (asym_init_key ea a (x25519_pub b)) t1 ls w1) as (tx & Hs & Hls);
    [by apply x25519_pub_wf|apply key_of_digest|done|].
  rewrite (M_bind_eq _ _ _ _ _ Hs). cbn [Z.eqb negb]. set (w2 := set_tx _ _ _).
  destruct (asym_hdr_run (x25519_pub eb) (asym_resp (shared_secret a ea b eb)) ts (S calls) rest w2)
    as (rx & p & Hh & Hn1); [by apply x25519_pub_wf|apply key_of_digest|exact Hn|].
  rewrite (M_bind_eq _ _ _ _ _ Hh). cbv beta iota zeta. set (w3 := set_rx rx _) in *.
  fold (shared_secret a ea b eb).
  destruct (asym_ts_run (x25519_pub eb) (asym_resp (shared_secret a ea b eb)) ts calls rest w3)
    as (rx' & p' & Ht & Hn2);
    [by apply x25519_pub_wf|apply key_of_digest| |exact Hn1|].
  { destruct Hf as (_ & ? & _). unfold is_int64. lia. }
  rewrite (M_bind_eq _ _ _ _ _ Ht). cbv beta iota. set (w4 := set_rx rx' _).
  destruct (check_ts_fresh w4 t2 ts cl (x25519_pub eb)) as (c & i & Hc); [exact Hi|done|exact Hf|].
  rewrite (M_bind_eq _ _ _ _ _ Hc). cbn [Z.eqb negb]. eexists. by split_and!.
Qed.

Lemma handshake_server_run (a ea b eb : bytes) (t1 t2 ts : Z) (kg : list (option bytes))
    (cl : list (option Z)) (k0 : session_keys_t) (calls : nat) (rest : bytes) (ls : list nat) (w : world) :
  wf_key32 a -> wf_key32 ea -> wf_key32 b -> wf_key32 eb ->
  w_keygen w = Some eb :: kg -> w_clock w = Some t1 :: Some t2 :: cl -> 0 <= t2 ->
  tx_takes (WLEN :: ls) (w_tx w) -> replay_inv w -> fresh w t1 ts (x25519_pub ea) ->
  net_gives (S (S calls)) (client_hello a ea b ts ++ rest) w ->
  let k := asym_sess (shared_secret a ea b eb) (x25519_pub ea) (x25519_pub eb) in
  exists w', handshake_server b (x25519_pub a) k0 w =
      Some ((0, mkKeys (dec_key k) (enc_key k)), w') /\
    w_out w' = w_out w ++ server_hello a ea b eb t2 /\ net_gives calls rest w' /\ tx_takes ls (w_tx w') /\
    w_clock w' = cl.
Proof.
  intros Ha Hea Hb Heb Hkg Hcl Ht2 Htx Hi Hf Hn. cbv zeta. unfold handshake_server.
  assert (Hik : wf_block (asym_init_key ea a (x25519_pub b))) by apply key_of_digest.
  destruct (asym_hdr_run (x25519_pub ea) (asym_init_key ea a (x25519_pub b)) ts (S calls) rest w)
    as (rx & p & Hh & Hn1); [by apply x25519_pub_wf|done|exact Hn|].
  rewrite (M_bind_eq _ _ _ _ _ Hh). cbv beta iota zeta. set (w1 := set_rx rx _) in *.
  rewrite (derive_comm "ee" "ee" b ea), (derive_comm "es" "es" b a) by done.
  fold (asym_init_key ea a (x25519_pub b)).
  destruct (asym_ts_run (x25519_pub ea) (asym_init_key ea a (x25519_pub b)) ts calls rest w1)
    as (rx' & p' & Ht & Hn2); [by apply x25519_pub_wf|done| |exact Hn1|].
  { destruct Hf as (_ & ? & _). unfold is_int64. lia. }
  rewrite (M_bind_eq _ _ _ _ _ Ht). cbv beta iota. set (w2 := set_rx rx' _).
  destruct (check_ts_fresh w2 t1 ts (Some t2 :: cl) (x25519_pub ea)) as (c & i & Hc);
    [exact Hi|done|exact Hf|].
  rewrite (M_bind_eq _ _ _ _ _ Hc). cbn [Z.eqb negb]. set (w3 := set_replay _ _ _).
  rewrite (M_bind_eq _ _ _ _ _ (ecdh_keygen_run w3 eb kg Hkg)). cbv beta iota zeta.
  rewrite (derive_comm "se" "se" eb a) by done. fold (shared_secret a ea b eb).
  rewrite (M_bind_eq _ _ _ _ _ (do_timestamp_run (set_keygen kg w3) t2 cl eq_refl)).
  set (w4 := set_clock _ _).
  destruct (asym_send_run (x25519_pub eb) (asym_resp (shared_secret a ea b eb)) t2 ls w4) as (tx & Hs & Hls);
    [by apply x25519_pub_wf|apply key_of_digest|done|].
  rewrite (M_bind_eq _ _ _ _ _ Hs). cbn [Z.eqb negb orb].
  rewrite (proj2 (Z.ltb_ge _ _)) by done. eexists. by split_and!.
Qed.

(** ** Authentication *)

Lemma asym_hdr_some (w w' : world) (epk : bytes) :
  wf_rx (w_rx w) -> asym_hdr w = Some (Some epk, w') ->
  wf_key32 epk /\ exists h4 rx p, length h4 = 4%nat /\ w' = set_rx rx (set_poll p w) /\ wf_rx rx /\
    rx_flow (w_rx w) = (h4 ++ epk ++ fst (rx_flow rx), snd (rx_flow rx)).
Proof.
  intros Hw H. unfold asym_hdr in H. run_step. destruct a as [b|]; [|by run_step].
  run_step. apply recv_all_some in E as (Hl & Hb & rx & p & -> & Hrx & Hf); [|done]. unfold ALEN in Hl.
  split; [split; [rewrite length_take, length_drop; lia|auto with aegis]|].
  exists (take 4 b), rx, p. split_and!; [rewrite length_take; lia|done..|]. rewrite Hf.
  rewrite app_assoc. do 2 f_equal. rewrite <- (take_drop 4 b) at 1. f_equal.
  symmetry. apply take_ge. rewrite length_drop. lia.
Qed.

Lemma asym_ts_some (w w' : world) (epk key : bytes) (ts : Z) :
  wf_rx (w_rx w) -> wf_key32 epk -> wf_block key -> asym_ts epk key w = Some (Some ts, w') ->
  exists tsb rx p, ts = ts_decode tsb /\ w' = set_rx rx (set_poll p w) /\ wf_rx rx /\
    let ct := aead_encrypt key (zeros 16) (hs_header ++ epk) tsb in
    rx_flow (w_rx w) = (fst ct ++ snd ct ++ fst (rx_flow rx), snd (rx_flow rx)).
Proof.
  intros Hw He Hk H. unfold asym_ts in H. run_step. destruct a as [b|]; [|by run_step].
  apply recv_all_some in E as (Hl & Hb & rx & p & -> & Hrx & Hf); [|done].
  destruct (aead_decrypt _ _ _ _ _) as [ret tsb] eqn:Ed.
  destruct (negb _) eqn:Er; [by run_step|]. run_step. zbool. subst ret.
  apply aead_accept in Ed as [_ Ed];
    [|done|apply zero_nonce_block|by apply hs_ad_wf|auto with aegis|split; [len|auto with aegis]].
  exists tsb, rx, p. split_and!; try done. cbv zeta. rewrite Ed. cbn [fst snd].
  by rewrite Hf, app_assoc, take_drop.
Qed.

Lemma check_ts_zero (w w' : world) (ts : Z) (eph : bytes) :
  replay_inv w -> check_ts ts eph w = Some (0, w') ->
  (exists c i cl, w' = set_replay c i (set_clock cl w)) /\ replay_inv w' /\ ~ (replay_entry ts eph ∈ replay_window w) /\
  replay_window w' = tail (replay_window w) ++ [replay_entry ts eph].
Proof.
  intros Hi H. unfold check_ts in H. run_step. destruct (a <? 0); [by run_step|].
  cbv zeta in H. destruct (TIMESTAMP_WINDOW_SEC <? _); [by run_step|]. run_step.
  unfold do_timestamp in E. destruct (w_clock w) as [|c l]; [done|]. injection E as <- <-.
  destruct (is_replay_spec (set_clock l w) ts eph Hi) as (r & w1' & Hr & Hi' & Hc).
  rewrite Hr in E0. injection E0 as <- <-.
  destruct Hc as [(-> & -> & _)|(-> & Hn & Hwin)]; [done|]. injection H as <-. split; [|done].
  unfold is_replay in Hr. destruct (existsb _ _); [done|]. injection Hr as <-. eauto.
Qed.

Lemma do_timestamp_some (w w' : world) (t : Z) :
  do_timestamp w = Some (t, w') -> exists cl, w' = set_clock cl w.
Proof. unfold do_timestamp. destruct (w_clock w); [done|]. intros [= _ <-]. eauto. Qed.

Lemma send_all_some (b : bytes) (w w' : world) (r : Z) :
  send_all b w = Some (r, w') ->
  exists tx out, w' = set_tx tx out w /\
    ((r = 0 /\ out = w_out w ++ b) \/ (r = -1 /\ exists k, out = w_out w ++ take k b)).
Proof.
  unfold send_all. destruct (send_all_loop _ _ _) as [[[r' tx] out]|] eqn:E; [|done].
  intros [= -> <-]. apply send_all_loop_spec in E. eauto.
Qed.

Lemma asym_send_some (epk key : bytes) (ts r : Z) (w w' : world) :
  asym_send epk ts key w = Some (r, w') -> exists tx out, w' = set_tx tx out w.
Proof.
  unfold asym_send. destruct (aead_encrypt _ _ _ _). intros (tx & out & -> & _)%send_all_some. eauto.
Qed.
End Runs.

(** ** Theorems *)

(** C3: an honest client and an honest server that exchange their messages over
    ready sockets, in whatever pieces, both return 0 and end with mirrored session
    keys: what one encrypts with, the other decrypts with. *)
Theorem handshake_agrees (A : Aead) (L : AeadLaws A) (C : Crypto) (CL : CryptoLaws C) (U : Locals)
    (a ea b eb : bytes) (tc tc' ts ts' : Z) (kgc kgs : list (option bytes))
    (clc cls : list (option Z)) (k0 k1 : session_keys_t) (wc ws : world) :
  wf_key32 a -> wf_key32 ea -> wf_key32 b -> wf_key32 eb ->
  w_keygen wc = Some ea :: kgc -> w_keygen ws = Some eb :: kgs ->
  w_clock wc = Some tc :: Some tc' :: clc -> w_clock ws = Some ts :: Some ts' :: cls ->
  (WLEN <= tx_cap (w_tx wc))%nat -> (WLEN <= tx_cap (w_tx ws))%nat ->
  replay_inv wc -> replay_inv ws ->
  fresh wc tc' ts' (x25519_pub eb) -> fresh ws ts tc (x25519_pub ea) ->
  net_gives 2 (client_hello a ea b tc) ws -> net_gives 2 (server_hello a ea b eb ts') wc ->
  exists kc ks wc' ws',
    handshake_client a (x25519_pub b) k0 wc = Some ((0, kc), wc') /\
    handshake_server b (x25519_pub a) k1 ws = Some ((0, ks), ws') /\
    w_out wc' = w_out wc ++ client_hello a ea b tc /\
    w_out ws' = w_out ws ++ server_hello a ea b eb ts' /\
    enc_key kc = dec_key ks /\ dec_key kc = enc_key ks /\
    wf_block (enc_key kc) /\ wf_block (dec_key kc).
Proof.
  intros Ha Hea Hb Heb Hkc Hks Hcc Hcs Htc Hts Hic His Hfc Hfs Hns Hnc.
  apply tx_takes_cap in Htc, Hts.
  rewrite <- (app_nil_r (client_hello _ _ _ _)) in Hns. rewrite <- (app_nil_r (server_hello _ _ _ _ _)) in Hnc.
  destruct (handshake_client_run a ea b eb tc tc' ts' kgc clc k0 0 [] [] wc) as (wc' & Hc & Hoc & _); [done..|].
  assert (Hts' : 0 <= ts') by (destruct Hfc as (_ & ? & _); lia).
  destruct (handshake_server_run a ea b eb ts ts' tc kgs cls k1 0 [] [] ws) as (ws' & Hs & Hos & _); [done..|].
  exists (asym_sess (shared_secret a ea b eb) (x25519_pub ea) (x25519_pub eb)).
  eexists _, wc', ws'. split_and!; [done..| | | | |]; try done; apply key_of_digest.
Qed.

(** A commutative key exchange and a digest for concrete runs. *)
Definition toy_digest (m : bytes) : bytes :=
  map (fun i => u8 (Z.of_nat i + 31 * get m i + foldl Z.add 0 m)) (seq 0 32).

Definition toy_crypto : Crypto := {|
  x25519 := fun a b => Some (a ⊻ b);
  x25519_pub := fun a => a;
  sha256 := toy_digest;
|}.

Lemma toy_crypto_laws : CryptoLaws toy_crypto.
Proof.
  split; cbn [x25519 x25519_pub sha256 toy_crypto].
  - intros a b. by rewrite xor_bytes_comm.
  - done.
  - done.
  - intros m. split; [done|]. apply Forall_map, Forall_true. intros x. apply is_uint_u8.
Qed.

Definition no_locals : Locals := {| uninit := fun _ => zeros 32; dead := fun _ text => text |}.

Definition key_a : bytes := replicate 32 17.
Definition key_ea : bytes := replicate 32 99.
Definition key_b : bytes := replicate 32 200.
Definition key_eb : bytes := replicate 32 5.

Definition demo_ch : bytes := @client_hello pure_c toy_crypto no_locals key_a key_ea key_b 1000.
Definition demo_sh : bytes := @server_hello pure_c toy_crypto no_locals key_a key_ea key_b key_eb 1010.

(** The client gets the answer in two pieces; the server can send ten bytes,
    then the rest. *)
Definition demo_client : world :=
  mkWorld (replicate 4 (PollRet no_event readable))
    [RxData (take 7 demo_sh); RxData (drop 7 demo_sh)] [TxSome 60] []
    [] [] [] [Some 1000; Some 1011] [Some key_ea] [] [] (replicate REPLAY_SLOTS (mkReplay 0 0)) 0.

Definition demo_server : world :=
  mkWorld (replicate 3 (PollRet no_event readable))
    [RxData demo_ch] [TxSome 10; TxErr EINTR; TxSome 100] []
    [] [] [] [Some 1005; Some 1010] [Some key_eb] [] [] (replicate REPLAY_SLOTS (mkReplay 0 0)) 0.

Lemma wf_key32_rep (x : Z) : is_uint 8 x -> wf_key32 (replicate 32 x).
Proof. intros H. split; [done|]. by apply Forall_replicate. Qed.

Lemma not_in_zero_cache (w : world) (ts : Z) (eph : bytes) :
  w_replay w = replicate REPLAY_SLOTS (mkReplay 0 0) -> ts <> 0 ->
  ~ (replay_entry ts eph ∈ replay_window w).
Proof.
  intros Hw Hts Hin. unfold replay_window in Hin. rewrite Hw in Hin.
  apply elem_of_app in Hin as [Hin|Hin];
    [rewrite drop_replicate in Hin | rewrite take_replicate in Hin];
    apply elem_of_replicate in Hin as [Hin _]; by injection Hin.
Qed.

Lemma handshake_agrees_witness :
  exists kc ks wc' ws',
    @handshake_client pure_c toy_crypto no_locals key_a (@x25519_pub toy_crypto key_b)
      (mkKeys [] []) demo_client = Some ((0, kc), wc') /\
    @handshake_server pure_c toy_crypto no_locals key_b (@x25519_pub toy_crypto key_a)
      (mkKeys [] []) demo_server = Some ((0, ks), ws') /\
    w_out wc' = w_out demo_client ++ @client_hello pure_c toy_crypto no_locals key_a key_ea key_b 1000 /\
    w_out ws' = w_out demo_server ++
      @server_hello pure_c toy_crypto no_locals key_a key_ea key_b key_eb 1010 /\
    enc_key kc = dec_key ks /\ dec_key kc = enc_key ks /\
    wf_block (enc_key kc) /\ wf_block (dec_key kc).
Proof.
  apply (handshake_agrees pure_c pure_c_laws toy_crypto toy_crypto_laws no_locals
    key_a key_ea key_b key_eb 1000 1011 1005 1010 [] [] [] [] _ _ demo_client demo_server).
  1-4: apply wf_key32_rep; unfold is_uint; lia.
  1-4: reflexivity.
  1-2: unfold WLEN; simpl; lia.
  1-2: split; [reflexivity|unfold REPLAY_SLOTS; simpl; lia].
  1-2: split_and!; [lia..|unfold TIMESTAMP_WINDOW_SEC; lia|apply not_in_zero_cache; [reflexivity|lia]].
  - split_and!.
    + repeat constructor. vm_compute. discriminate.
    + apply wf_rxb_spec. vm_compute. reflexivity.
    + vm_compute. reflexivity.
    + exists 3%nat. split; [by exists no_event, []|simpl; lia].
  - split_and!.
    + repeat constructor; vm_compute; discriminate.
    + apply wf_rxb_spec. vm_compute. reflexivity.
    + vm_compute. reflexivity.
    + exists 4%nat. split; [by exists no_event, []|simpl; lia].
Defined.

(** C4: a server that returns 0 has read, as the first sixty bytes of the stream, a
    message whose timestamp is sealed under a key derived from its own static key,
    the sender's ephemeral key and the configured peer's static key; the message
    was not in the replay cache and is there now; and the session keys come from
    the three Diffie-Hellman values. *)
Theorem handshake_server_authenticates (A : Aead) (L : AeadLaws A) (C : Crypto)
    (CL : CryptoLaws C) (U : Locals) (our_priv peer_pub : bytes) (k0 k : session_keys_t)
    (w w' : world) :
  wf_rx (w_rx w) -> replay_inv w ->
  handshake_server our_priv peer_pub k0 w = Some ((0, k), w') ->
  exists h4 iepk tsb rest ek,
    let ee := derive_into "ee" our_priv iepk in
    let es := derive_into "es" our_priv peer_pub in
    let ik := take 16 (sha256 (ee ++ es ++ label_init)) in
    let ct := aead_encrypt ik (zeros 16) (hs_header ++ iepk) tsb in
    let s := asym_sess (asym_shared ee es (derive_into "se" ek peer_pub)) iepk (x25519_pub ek) in
    length h4 = 4%nat /\ wf_key32 iepk /\
    fst (rx_flow (w_rx w)) = h4 ++ iepk ++ fst ct ++ snd ct ++ rest /\
    ~ (replay_entry (ts_decode tsb) iepk ∈ replay_window w) /\
    replay_window w' = tail (replay_window w) ++ [replay_entry (ts_decode tsb) iepk] /\
    Some ek ∈ w_keygen w /\ enc_key k = dec_key s /\ dec_key k = enc_key s.
Proof.
  intros Hw Hi H. unfold handshake_server in H. run_step. destruct a as [iepk|]; [|by run_step].
  apply asym_hdr_some in E as (He & h4 & rx & p & Hl & -> & Hrx & Hf); [|done].
  cbv zeta in H. run_step. destruct a as [ts|]; [|by run_step].
  apply asym_ts_some in E as (tsb & rx2 & p2 & -> & -> & Hrx2 & Hf2); [|done..|apply key_of_digest].
  run_step. destruct (negb (a =? 0)) eqn:Ea; [by run_step|]. zbool. subst a.
  apply check_ts_zero in E as ((c & i & cl & ->) & _ & Hn & Hwin); [|exact Hi].
  run_step. unfold ecdh_keygen in E. cbn [w_keygen set_replay set_clock set_rx set_poll] in E.
  destruct (w_keygen w) as [|[ek|] kg] eqn:Ek; [done| |injection E as <- <-; by run_step].
  injection E as <- <-. cbv beta iota zeta in H. run_step. run_step.
  apply do_timestamp_some in E as [cl' ->]. apply asym_send_some in E0 as (tx & out & ->).
  destruct (_ || _); [by run_step|]. run_step.
  exists h4, iepk, tsb, (fst (rx_flow rx2)), ek. cbv zeta. cbv zeta in Hf2.
  cbn [set_rx set_poll w_rx] in Hf2. split_and!; try done.
  - rewrite Hf, Hf2. done.
  - constructor.
Qed.

Lemma handshake_server_authenticates_witness :
  exists h4 iepk tsb rest ek,
    let ee := @derive_into toy_crypto no_locals "ee" key_b iepk in
    let es := @derive_into toy_crypto no_locals "es" key_b key_a in
    let ik := take 16 (@sha256 toy_crypto (ee ++ es ++ label_init)) in
    let ct := @aead_encrypt pure_c ik (zeros 16) (hs_header ++ iepk) tsb in
    length h4 = 4%nat /\ demo_ch = h4 ++ iepk ++ fst ct ++ snd ct ++ rest /\
    Some ek ∈ w_keygen demo_server.
Proof.
  destruct (@handshake_server pure_c toy_crypto no_locals key_b key_a (mkKeys [] []) demo_server)
    as [[[r k] w']|] eqn:E; [|vm_compute in E; discriminate E].
  assert (r = 0) as ->.
  { revert E. vm_compute. intros [= <- _ _]. reflexivity. }
  destruct (handshake_server_authenticates pure_c pure_c_laws toy_crypto toy_crypto_laws no_locals
    key_b key_a (mkKeys [] []) k demo_server w') as (h4 & iepk & tsb & rest & ek & H).
  - apply wf_rxb_spec. vm_compute. reflexivity.
  - split; [reflexivity|unfold REPLAY_SLOTS; simpl; lia].
  - exact E.
  - exists h4, iepk, tsb, rest, ek. cbv zeta in *. destruct H as (H1 & _ & H3 & _ & _ & H6 & _).
    split_and!; [exact H1| |exact H6].
    transitivity (fst (rx_flow (w_rx demo_server))); [vm_compute; reflexivity|exact H3].
Defined.

(** The freshness check accepts exactly a readable clock, a timestamp at most
    60 seconds away and a handshake that is not in the replay cache, for every
    timestamp whose distance to the clock fits [int64_t]. *)
Theorem check_ts_accepts_exactly (w : world) (n : option Z) (cl : list (option Z)) (ts : Z)
    (eph : bytes) :
  replay_inv w -> w_clock w = n :: cl -> is_int64 (timestamp_now n - ts) ->
  is_int64 (ts - timestamp_now n) ->
  exists r w', check_ts ts eph w = Some (r, w') /\ replay_inv w' /\ (r = 0 \/ r = -1) /\
    (r = 0 <-> 0 <= timestamp_now n /\ Z.abs (timestamp_now n - ts) <= TIMESTAMP_WINDOW_SEC /\
              ~ (replay_entry ts eph ∈ replay_window w)).
Proof.
  intros Hi Hc H1 H2. destruct (check_ts_run w n cl ts eph Hi Hc H1 H2) as (r & w' & H & Hi' & Hr & Hv & _).
  by exists r, w'.
Qed.

Lemma check_ts_accepts_exactly_witness :
  exists r w', check_ts 1000 key_ea demo_server = Some (r, w') /\ replay_inv w' /\ (r = 0 \/ r = -1) /\
    (r = 0 <-> 0 <= 1005 /\ Z.abs (1005 - 1000) <= TIMESTAMP_WINDOW_SEC /\
              ~ (replay_entry 1000 key_ea ∈ replay_window demo_server)).
Proof.
  apply (check_ts_accepts_exactly demo_server (Some 1005) [Some 1010] 1000 key_ea).
  - split; [reflexivity|unfold REPLAY_SLOTS; simpl; lia].
  - reflexivity.
  - unfold is_int64. simpl. lia.
  - unfold is_int64. simpl. lia.
Defined.

(** Outside that range the subtraction wraps: a timestamp of -2^63 passes the
    window check at every clock value of the next hundred years. *)
Theorem check_ts_wraps (w : world) (n : Z) (cl : list (option Z)) (eph : bytes) :
  replay_inv w -> w_clock w = Some n :: cl -> 0 <= n < 2 ^ 32 ->
  ~ (replay_entry (- 2 ^ 63) eph ∈ replay_window w) ->
  exists w', check_ts (- 2 ^ 63) eph w = Some (0, w').
Proof.
  intros Hi Hc Hn Hr. unfold check_ts.
  rewrite (M_bind_eq _ _ _ _ _ (do_timestamp_run w n cl Hc)).
  rewrite (proj2 (Z.ltb_ge n 0)) by lia. cbv zeta. rewrite (proj2 (Z.ltb_lt _ n)) by lia.
  assert (Hs : s64 (n - - 2 ^ 63) = n - 2 ^ 63).
  { unfold s64, u64. cbv zeta. rewrite Z.mod_small by lia. rewrite (proj2 (Z.ltb_ge _ _)) by lia. lia. }
  rewrite Hs. rewrite (proj2 (Z.ltb_ge _ _)) by (unfold TIMESTAMP_WINDOW_SEC; lia).
  destruct (is_replay_spec (set_clock cl w) (- 2 ^ 63) eph Hi) as (r & w' & H & _ & Hcase).
  rewrite (M_bind_eq _ _ _ _ _ H). destruct Hcase as [(_ & _ & Hin)|(-> & _)]; [done|].
  by exists w'.
Qed.

Lemma check_ts_wraps_witness : exists w', check_ts (- 2 ^ 63) key_ea demo_server = Some (0, w').
Proof.
  apply (check_ts_wraps demo_server 1005 [Some 1010] key_ea).
  - split; [reflexivity|unfold REPLAY_SLOTS; simpl; lia].
  - reflexivity.
  - lia.
  - apply not_in_zero_cache; [reflexivity|lia].
Defined.

(** ** Key confirmation and re-keying *)

Section Confirm.
Context {A : Aead} {L : AeadLaws A} {C : Crypto} {U : Locals}.

Lemma wf_confirm : wf_frame FRAME_KEYCONFIRM FLAG_NONE [].
Proof.
  split_and!; [unfold is_uint, FRAME_KEYCONFIRM|unfold is_uint, FLAG_NONE|apply wf_bytes_nil]; lia.
Qed.

Lemma confirm_frame (key : bytes) : wf_block key ->
  exists m, frame_build FRAME_KEYCONFIRM FLAG_NONE [] 0 key = Some m /\ length m = 20%nat.
Proof.
  intros Hk. assert (H := frame_build_eq FRAME_KEYCONFIRM FLAG_NONE [] 0 key ltac:(done)).
  eexists. split; [exact H|]. apply frame_build_len in H as (_ & -> & _); [done..|apply wf_confirm].
Qed.

(** The initiator gives the counter back moved, the keys untouched. *)
Lemma rekey_fail_keys (psk : option bytes) (plen : nat) (keys k' : session_keys_t) (nc nc' r : Z)
    (init : bool) (w w' : world) :
  handshake_rekey psk plen keys nc init w = Some ((r, k', nc'), w') ->
  (r = 0 /\ nc' = 0) \/ (r = -1 /\ k' = keys).
Proof.
  intros H. unfold handshake_rekey in H. run_step. destruct a as [[opub opriv]|].
  - run_step. destruct a as [[ppub|] nc1].
    + destruct (ecdh_derive _ _ _) as [ret sh]. destruct (negb _); [run_step; auto|].
      run_step. run_step. cbv zeta in H. run_step. destruct (negb _); run_step; auto.
    + run_step. auto.
  - run_step. auto.
Qed.
End Confirm.

(** When the two ends hold mirrored keys, the server's confirmation frame makes
    the client return 0; and a client that returns 0 has read exactly a
    KEYCONFIRM frame sealed under its own decryption key with counter 0. *)
Theorem key_confirm_proves_keys (A : Aead) (L : AeadLaws A) (ks kc : session_keys_t)
    (ws wc wc2 wc3 : world) :
  wf_block (enc_key ks) -> dec_key kc = enc_key ks -> (20 <= tx_cap (w_tx ws))%nat ->
  (exists m ws', frame_build FRAME_KEYCONFIRM FLAG_NONE [] 0 (enc_key ks) = Some m /\
     handshake_key_confirm_server ks ws = Some (0, ws') /\ w_out ws' = w_out ws ++ m /\
     (net_gives 1 m wc -> exists wc', handshake_key_confirm_client kc wc = Some (0, wc'))) /\
  (wf_rx (w_rx wc2) -> handshake_key_confirm_client kc wc2 = Some (0, wc3) ->
     exists fl m, frame_build FRAME_KEYCONFIRM fl [] 0 (dec_key kc) = Some m /\
       take 20 (fst (rx_flow (w_rx wc2))) = m).
Proof.
  intros Hk Hkk Htx. split.
  - destruct (confirm_frame (enc_key ks) Hk) as (m & Hm & Hl). exists m.
    destruct (tx_takes_cap 20 (w_tx ws) Htx) as (tx & _ & Htx').
    exists (set_tx tx (w_out ws ++ m) ws).
    unfold handshake_key_confirm_server, send_all. rewrite Hm, Htx' by done. split_and!; try done.
    intros Hn. destruct (recv_all_run 0 20 m wc Hn) as (rx & p & Hr & _); [lia|].
    unfold handshake_key_confirm_client. change (FRAME_HEADER_LEN + AEGIS_TAG_LEN)%nat with 20%nat.
    rewrite (M_bind_eq _ _ _ _ _ Hr), take_ge by lia. rewrite Hkk.
    assert (Hp : frame_parse m 0 (enc_key ks) = Some (FRAME_KEYCONFIRM, FLAG_NONE, [])).
    { apply frame_parse_iff; [done| |split; [apply wf_confirm|done]].
      apply frame_build_len in Hm as (_ & _ & ? & _); [done..|apply wf_confirm]. }
    rewrite Hp. cbn [Z.eqb]. eexists. reflexivity.
  - intros Hw H. unfold handshake_key_confirm_client in H. run_step. destruct a as [b|]; [|by run_step].
    apply recv_all_some in E as (Hl & Hb & rx & p & _ & _ & Hf); [|done].
    destruct (frame_parse b 0 (dec_key kc)) as [[[ty fl] d]|] eqn:Ep; [|by run_step].
    destruct (ty =? FRAME_KEYCONFIRM) eqn:Et; [|by run_step]. zbool. subst ty.
    rewrite Hkk in *. apply frame_parse_iff in Ep as [Hwf Hb']; [|done..].
    exists fl, b. rewrite Hf. cbn [fst]. rewrite take_app_length' by done. split; [|done].
    assert (Hb2 := Hb'). apply frame_build_len in Hb2 as (_ & Hl' & _); [|done..].
    change (FRAME_HEADER_LEN + AEGIS_TAG_LEN)%nat with 20%nat in Hl.
    destruct d; [done|simpl in Hl'; lia].
Qed.

Definition demo_keys : session_keys_t := mkKeys demo_key demo_nonce.

Definition demo_confirm : bytes :=
  default [] (@frame_build pure_c FRAME_KEYCONFIRM FLAG_NONE [] 0 demo_key).

Definition demo_confirm_rx : world :=
  set_poll (replicate 3 (PollRet no_event readable))
    (set_rx [RxData (take 3 demo_confirm); RxData (drop 3 demo_confirm)] world0).

Lemma key_confirm_proves_keys_witness :
  (exists ws', @handshake_key_confirm_server pure_c demo_keys (set_tx [TxSome 20] [] world0) = Some (0, ws')) /\
  exists wc', @handshake_key_confirm_client pure_c (mkKeys [] demo_key) demo_confirm_rx = Some (0, wc').
Proof.
  destruct (key_confirm_proves_keys pure_c pure_c_laws demo_keys (mkKeys [] demo_key)
    (set_tx [TxSome 20] [] world0) demo_confirm_rx world0 world0) as [(m & ws' & Hm & Hs & _ & Hc) _].
  - apply demo_key_block.
  - reflexivity.
  - simpl. lia.
  - split; [exists ws'; exact Hs|]. apply Hc. clear Hc Hs.
    assert (m = demo_confirm) as ->; [unfold demo_confirm; cbn [enc_key demo_keys] in Hm; rewrite Hm; reflexivity|].
    split_and!.
    + repeat constructor; vm_compute; discriminate.
    + apply wf_rxb_spec. vm_compute. reflexivity.
    + vm_compute. reflexivity.
    + exists 3%nat. split; [by exists no_event, []|simpl; lia].
Defined.

(** A re-keying that fails returns -1 and leaves the session keys as they were;
    one that succeeds returns 0 and restarts the caller's counter at 0. *)
Theorem rekey_fails_safe (A : Aead) (C : Crypto) (U : Locals) (psk : option bytes) (plen : nat)
    (keys k' : session_keys_t) (nc nc' r : Z) (init : bool) (w w' : world) :
  handshake_rekey psk plen keys nc init w = Some ((r, k', nc'), w') ->
  (r = 0 /\ nc' = 0) \/ (r = -1 /\ k' = keys).
Proof. apply rekey_fail_keys. Qed.

(** A re-keying between two honest ends over a perfect network. *)
Definition rekey_world (kg : bytes) (rx : bytes) (r1 r2 : Z) : world :=
  mkWorld (replicate 4 (PollRet no_event readable)) [RxData rx] [TxSome 100] []
    [] [] [] [] [Some kg]
    [mkUrandom true [RxData (replicate 16 r1)]; mkUrandom true [RxData (replicate 16 r2)]]
    [true] (replicate REPLAY_SLOTS (mkReplay 0 0)) 0.

Definition rekey_msg1 : bytes := default [] (@frame_build pure_c FRAME_REKEY FLAG_NONE key_ea 5 demo_key).
Definition rekey_msg2 : bytes := default [] (@frame_build pure_c FRAME_REKEY FLAG_NONE key_eb 6 demo_nonce).
Definition rekey_init : world := rekey_world key_ea rekey_msg2 1 2.
Definition rekey_resp : world := rekey_world key_eb rekey_msg1 3 4.

Lemma rekey_fails_safe_witness : exists r k nc' w',
  @handshake_rekey pure_c toy_crypto no_locals (Some demo_ad) 3 demo_keys 5 true rekey_init =
    Some ((r, k, nc'), w') /\ ((r = 0 /\ nc' = 0) \/ (r = -1 /\ k = demo_keys)).
Proof.
  destruct (@handshake_rekey pure_c toy_crypto no_locals (Some demo_ad) 3 demo_keys 5 true rekey_init)
    as [[[[r k] nc'] w']|] eqn:E; [|vm_compute in E; discriminate E].
  exists r, k, nc', w'. split; [reflexivity|].
  exact (rekey_fails_safe pure_c toy_crypto no_locals _ _ _ _ _ _ _ _ _ _ E).
Defined.

(** The two ends of a run, with what each sent. *)
Definition rekey_result (x : option (Z * session_keys_t * Z * world)) :
    option (Z * session_keys_t * bytes) :=
  match x with Some (r, k, _, w) => Some (r, k, w_out w) | None => None end.

(** Called on both ends with the same keys, counter and PSK, each end receiving
    exactly what the other sent, [handshake_rekey] can succeed on both and leave
    them with different session keys: each end hashes random bytes of its own into
    the key that the other end never sees.  (From the event loop it does not come
    that far, see Tunnel.v.) *)
Lemma rekey_can_disagree : exists ki kr,
  rekey_result (@handshake_rekey pure_c toy_crypto no_locals (Some demo_ad) 3
    (mkKeys demo_key demo_nonce) 5 true rekey_init) = Some (0, ki, rekey_msg1) /\
  rekey_result (@handshake_rekey pure_c toy_crypto no_locals (Some demo_ad) 3
    (mkKeys demo_nonce demo_key) 5 false rekey_resp) = Some (0, kr, rekey_msg2) /\
  enc_key ki <> dec_key kr /\ dec_key ki <> enc_key kr.
Proof.
  eexists _, _. split_and!; [vm_compute; reflexivity..| |]; cbn [enc_key dec_key]; discriminate.
Qed.
