(* ===== verification/Tunnel.v ===== *)
(** * Tunnel: the tunnel context and its event loop, src/tunnel/tunnel.c

    [tunnel_run] is modelled one loop iteration at a time ([tunnel_step]): the
    poll, the drain of the plaintext side, the drain of the frame reader, the
    error conditions, the keepalive and the re-keying that the [goto do_rekey]s
    lead to.  The socket options of [tunnel_init] and the messages on stderr
    change no modelled state and are left out. *)

From S2P Require Import Prelude Aes Aegis Aead Util Io Frame FrameReader Handshake.

(** ** State *)

Record tunnel_t := mkTunnel {
  t_fd : Z * Z;
  t_enc_key : bytes;
  t_dec_key : bytes;
  t_enc_nonce : Z;
  t_dec_nonce : Z;
  t_keepalive_sec : Z;
  t_rekey_sec : Z;
  t_session_psk : bytes;
  t_psk : option bytes;
  t_psk_len : nat;
  t_running : bool;
}.

Definition set_enc_nonce (n : Z) (t : tunnel_t) : tunnel_t :=
  mkTunnel (t_fd t) (t_enc_key t) (t_dec_key t) n (t_dec_nonce t) (t_keepalive_sec t)
    (t_rekey_sec t) (t_session_psk t) (t_psk t) (t_psk_len t) (t_running t).
Definition set_dec_nonce (n : Z) (t : tunnel_t) : tunnel_t :=
  mkTunnel (t_fd t) (t_enc_key t) (t_dec_key t) (t_enc_nonce t) n (t_keepalive_sec t)
    (t_rekey_sec t) (t_session_psk t) (t_psk t) (t_psk_len t) (t_running t).
Definition set_keys (k : session_keys_t) (t : tunnel_t) : tunnel_t :=
  mkTunnel (t_fd t) (enc_key k) (dec_key k) (t_enc_nonce t) (t_dec_nonce t) (t_keepalive_sec t)
    (t_rekey_sec t) (t_session_psk t) (t_psk t) (t_psk_len t) (t_running t).

Definition tunnel_keys (t : tunnel_t) : session_keys_t := mkKeys (t_enc_key t) (t_dec_key t).

Definition tunnel_init (plaintext_fd encrypted_fd : Z) (enc dec : bytes) : tunnel_t :=
  let session_psk := map (fun i => Z.lxor (get enc i) (get dec i)) (seq 0 16) in
  mkTunnel (plaintext_fd, encrypted_fd) enc dec 1 1 0 120 session_psk (Some session_psk) 16 true.

(** ** Sending *)

(** The retry loop of [tunnel_send_data] and of [write_all]. *)
Fixpoint write_loop (tx : list tx_ev) (b out : bytes) : option (Z * list tx_ev * bytes) :=
  if (length b =? 0)%nat then Some (0, tx, out)
  else
    match tx with
    | [] => None
    | TxErr EIO :: tx' => Some (-1, tx', out)
    | TxErr _ :: tx' => write_loop tx' b out
    | TxSome n :: tx' =>
        let k := Nat.min n (length b) in write_loop tx' (drop k b) (out ++ take k b)
    end.

Definition enc_write (b : bytes) : M Z := fun w =>
  match write_loop (w_tx w) b (w_out w) with
  | None => None
  | Some (r, tx, out) => Some (r, set_tx tx out w)
  end.

Definition write_all (b : bytes) : M Z := fun w =>
  match write_loop (w_pt_tx w) b (w_pt_out w) with
  | None => None
  | Some (r, tx, out) => Some (r, set_pt_tx tx out w)
  end.

(** A single [send] whose result is ignored. *)
Definition send_once (b : bytes) : M unit := fun w =>
  match sys_send (length b) (w_tx w) with
  | None => None
  | Some (inl _, tx) => Some (tt, set_tx tx (w_out w) w)
  | Some (inr k, tx) => Some (tt, set_tx tx (w_out w ++ take k b) w)
  end.

Section Tunnel.
Context {A : Aead} {C : Crypto} {U : Locals}.

Definition tunnel_send_data (t : tunnel_t) (d : bytes) : M (Z * tunnel_t) :=
  if NONCE_OVERFLOW_LIMIT <=? t_enc_nonce t then mret (-2, t)
  else
    match frame_build FRAME_DATA FLAG_NONE d (t_enc_nonce t) (t_enc_key t) with
    | None => mret (-1, t)
    | Some wire =>
        let t := set_enc_nonce (u64 (t_enc_nonce t + 1)) t in
        r ← enc_write wire;
        if r <? 0 then mret (-1, t) else mret (zlen wire, t)
    end.

(** Build an empty control frame, count it and send it once; on a build failure
    nothing happens. *)
Definition send_control (type : Z) (t : tunnel_t) : M tunnel_t :=
  match frame_build type FLAG_NONE [] (t_enc_nonce t) (t_enc_key t) with
  | None => mret t
  | Some wb =>
      let t := set_enc_nonce (u64 (t_enc_nonce t + 1)) t in
      _ ← send_once wb; mret t
  end.

(** ** The event loop *)

(** How a part of the loop body ends: it falls through, jumps to [do_rekey], or
    returns from [tunnel_run]. *)
Inductive flow := Go | Rekey | Ret (r : Z).

(** [recv]/[read] of up to FRAME_MAX_PAYLOAD bytes of the plaintext side. *)
Definition pt_read : M (errno + bytes) := fun w =>
  match sys_recv (Z.to_nat FRAME_MAX_PAYLOAD) (w_pt_rx w) with
  | None => None
  | Some (r, rx) => Some (r, set_pt_rx rx w)
  end.

(** The plaintext drain; every round takes something from the script, whose
    size is the fuel. *)
Fixpoint drain_plaintext (fuel : nat) (drained : Z) (t : tunnel_t) : M (flow * tunnel_t) :=
  match fuel with
  | O => fun _ => None
  | S fuel' =>
      r ← pt_read;
      match r with
      | inl EINTR => drain_plaintext fuel' drained t
      | inl EAGAIN => mret (Go, t)
      | inl EIO => mret (Ret (-1), t)
      | inr d =>
          if (length d =? 0)%nat then
            if t_enc_nonce t <? NONCE_OVERFLOW_LIMIT then
              t ← send_control FRAME_CLOSE t; mret (Ret 0, t)
            else mret (Ret 0, t)
          else
            x ← tunnel_send_data t d;
            let '(sd, t) := x in
            if sd =? -2 then mret (Rekey, t)
            else if sd <? 0 then mret (Ret (-1), t)
            else
              let drained := drained + 1 in
              if 256 <? drained then mret (Go, t) else drain_plaintext fuel' drained t
      end
  end.

(** A REKEY frame from the peer. *)
Definition peer_rekey (t : tunnel_t) : M tunnel_t :=
  x ← handshake_rekey (t_psk t) (t_psk_len t) (tunnel_keys t) (t_dec_nonce t) false;
  let '(r, sk, ctr) := x in
  if r =? 0 then mret (set_dec_nonce ctr (set_keys sk t)) else mret t.

(** Extraction of all complete frames; every round takes at least one byte of
    the pending ones. *)
Fixpoint drain_frames (fuel : nat) (fr : frame_reader_t) (t : tunnel_t) :
    M (flow * frame_reader_t * tunnel_t) :=
  match fuel with
  | O => fun _ => None
  | S fuel' =>
      if NONCE_OVERFLOW_LIMIT - NONCE_REKEY_MARGIN <=? t_dec_nonce t then mret (Rekey, fr, t)
      else if NONCE_OVERFLOW_LIMIT <=? t_dec_nonce t then mret (Ret (-1), fr, t)
      else
        match frame_reader_try_next fr (t_dec_nonce t) (t_dec_key t) with
        | (NextNone, fr) => mret (Go, fr, t)
        | (NextErr, fr) => mret (Ret (-1), fr, t)
        | (NextFrame f_type _ plaintext, fr) =>
            let t := set_dec_nonce (u64 (t_dec_nonce t + 1)) t in
            if f_type =? FRAME_CLOSE then mret (Ret 0, fr, t)
            else if f_type =? FRAME_KEEPALIVE then drain_frames fuel' fr t
            else if f_type =? FRAME_KEYCONFIRM then drain_frames fuel' fr t
            else if f_type =? FRAME_REKEY then (t ← peer_rekey t; drain_frames fuel' fr t)
            else if (0 <? length plaintext)%nat then
              r ← write_all plaintext;
              if negb (r =? 0) then mret (Ret (-1), fr, t) else drain_frames fuel' fr t
            else drain_frames fuel' fr t
        end
  end.

(** Fill from the socket, then extract. *)
Definition encrypted_side (fr : frame_reader_t) (t : tunnel_t) :
    M (flow * frame_reader_t * tunnel_t) := fun w =>
  match frame_reader_fill fr (w_rx w) with
  | None => None
  | Some (fill, fr, rx) =>
      let w := set_rx rx w in
      if fill <? 0 then Some ((Ret (-1), fr, t), w)
      else if fill =? 0 then Some ((Ret 0, fr, t), w)
      else drain_frames (S (length (pending fr))) fr t w
  end.

(** The locals of [tunnel_run] that live across iterations, and the context. *)
Record run_state := mkRun {
  rs_tun : tunnel_t;
  rs_fr : frame_reader_t;
  rs_last_ka : Z;
  rs_last_rekey : Z;
}.

(** The block at [do_rekey]. *)
Definition do_rekey (s : run_state) : M run_state :=
  let t := rs_tun s in
  x ← handshake_rekey (t_psk t) (t_psk_len t) (tunnel_keys t) (t_enc_nonce t) true;
  let '(r, nk, ctr) := x in
  if r =? 0 then
    now ← do_timestamp;
    mret (mkRun (set_enc_nonce ctr (set_keys nk t)) (rs_fr s) (rs_last_ka s) now)
  else mret s.

(** The keepalive block. *)
Definition keepalive (s : run_state) : M run_state :=
  let t := rs_tun s in
  if (0 <? t_keepalive_sec t) && (t_enc_nonce t <? NONCE_OVERFLOW_LIMIT) then
    now ← do_timestamp;
    if t_keepalive_sec t <=? now - rs_last_ka s then
      t ← send_control FRAME_KEEPALIVE t; mret (mkRun t (rs_fr s) now (rs_last_rekey s))
    else mret s
  else mret s.

(** The tail of an iteration: is it time to re-key? *)
Definition rekey_due (s : run_state) : M bool :=
  let t := rs_tun s in
  if NONCE_OVERFLOW_LIMIT - NONCE_REKEY_MARGIN <=? t_enc_nonce t then mret true
  else if (0 <? t_rekey_sec t) && (t_enc_nonce t <? NONCE_OVERFLOW_LIMIT) then
    now ← do_timestamp; mret (t_rekey_sec t <=? now - rs_last_rekey s)
  else mret false.

Definition do_poll : M poll_ev := fun w =>
  match w_poll w with [] => None | p :: l => Some (p, set_poll l w) end.

(** The parts of the body after [poll]. *)
Definition step_plaintext (pt : revents) (s : run_state) : M (flow * run_state) := fun w =>
  if pollin pt then
    match drain_plaintext (S (rx_size (w_pt_rx w))) 0 (rs_tun s) w with
    | None => None
    | Some ((f, t), w') => Some ((f, mkRun t (rs_fr s) (rs_last_ka s) (rs_last_rekey s)), w')
    end
  else Some ((Go, s), w).

Definition step_encrypted (enc : revents) (s : run_state) : M (flow * run_state) :=
  if pollin enc then
    x ← encrypted_side (rs_fr s) (rs_tun s);
    let '(f, fr, t) := x in mret (f, mkRun t fr (rs_last_ka s) (rs_last_rekey s))
  else mret (Go, s).

Definition step_tail (pt enc : revents) (s : run_state) : M (option Z * run_state) :=
  if pollbad pt then mret (Some 0, s)
  else if pollbad enc then mret (Some 0, s)
  else
    s ← keepalive s;
    due ← rekey_due s;
    if (due : bool) then (s ← do_rekey s; mret (None, s)) else mret (None, s).

(** One iteration: [Some r] when [tunnel_run] returns [r]. *)
Definition tunnel_step (s : run_state) : M (option Z * run_state) :=
  p ← do_poll;
  match p with
  | PollFail EINTR => mret (None, s)
  | PollFail _ => mret (Some (-1), s)
  | PollRet pt enc =>
      x ← step_plaintext pt s;
      match fst x with
      | Ret r => mret (Some r, snd x)
      | Rekey => s ← do_rekey (snd x); mret (None, s)
      | Go =>
          y ← step_encrypted enc (snd x);
          match fst y with
          | Ret r => mret (Some r, snd y)
          | Rekey => s ← do_rekey (snd y); mret (None, s)
          | Go => step_tail pt enc (snd y)
          end
      end
  end.

(** The loop; [gs] holds what the successive tests of [g_running] read, and a
    list that ends leaves the run unfinished. *)
Fixpoint tunnel_loop (gs : list bool) (s : run_state) : M (Z * run_state) :=
  match gs with
  | [] => fun _ => None
  | g :: gs' =>
      if t_running (rs_tun s) && g then
        x ← tunnel_step s;
        match fst x with
        | Some r => mret (r, snd x)
        | None => tunnel_loop gs' (snd x)
        end
      else mret (0, s)
  end.

Definition tunnel_run (gs : list bool) (t : tunnel_t) : M (Z * run_state) :=
  last_ka ← do_timestamp;
  last_rekey ← do_timestamp;
  tunnel_loop gs (mkRun t (frame_reader_init (snd (t_fd t))) last_ka last_rekey).

End Tunnel.

(** ** Write loops *)

Lemma write_loop_spec (tx : list tx_ev) (b out : bytes) (r : Z) (tx' : list tx_ev) (out' : bytes) :
  write_loop tx b out = Some (r, tx', out') ->
  (r = 0 /\ out' = out ++ b) \/ (r = -1 /\ exists k, out' = out ++ take k b).
Proof.
  revert b out. induction tx as [|[n|e] tx IH]; intros b out; cbn [write_loop];
    (destruct (length b =? 0)%nat eqn:E0;
     [intros [= <- <- <-]; zbool; apply length_zero_iff_nil in E0 as ->; left; by rewrite app_nil_r|]);
    [done| |].
  - intros [[-> ->]|(-> & k & ->)]%IH.
    + left. by rewrite <- app_assoc, take_drop.
    + right. split; [done|]. exists (Nat.min n (length b) + k)%nat.
      by rewrite <- app_assoc, take_take_drop.
  - destruct e; [apply IH|apply IH|]. intros [= <- <- <-]. right. split; [done|].
    exists 0%nat. by rewrite take_0, app_nil_r.
Qed.

(** Room for [k] whole writes. *)
Definition tx_room (k : nat) (tx : list tx_ev) : Prop :=
  exists tx', tx = replicate k (TxSome (Z.to_nat FRAME_MAX_WIRE)) ++ tx'.

Lemma write_loop_room (k : nat) (tx : list tx_ev) (b out : bytes) :
  tx_room (S k) tx -> zlen b <= FRAME_MAX_WIRE ->
  exists tx', write_loop tx b out = Some (0, tx', out ++ b) /\ tx_room k tx'.
Proof.
  intros [tx' ->] Hb. cbn [replicate app write_loop]. destruct (length b =? 0)%nat eqn:E.
  - zbool. apply length_zero_iff_nil in E as ->. rewrite app_nil_r.
    eexists. split; [reflexivity|].
    exists (TxSome (Z.to_nat FRAME_MAX_WIRE) :: tx').
    change (TxSome ?n :: replicate k (TxSome ?n) ++ ?t) with (replicate (S k) (TxSome n) ++ t).
    by rewrite replicate_S_end, <- app_assoc.
  - rewrite Nat.min_r by lia. rewrite drop_all, firstn_all.
    exists (replicate k (TxSome (Z.to_nat FRAME_MAX_WIRE)) ++ tx'). split; [|by eexists].
    by destruct k; [destruct tx' as [|[] ?]|].
Qed.

(** ** Sending *)

Section TunnelFacts.
Context {A : Aead} {L : AeadLaws A} {C : Crypto} {U : Locals}.

(** Keys and counters of a context in use. *)
Definition tunnel_inv (t : tunnel_t) : Prop :=
  wf_block (t_enc_key t) /\ wf_block (t_dec_key t) /\
  0 <= t_enc_nonce t <= NONCE_OVERFLOW_LIMIT /\ 0 <= t_dec_nonce t <= NONCE_OVERFLOW_LIMIT.

Lemma u64_next (n : Z) : 0 <= n < NONCE_OVERFLOW_LIMIT -> u64 (n + 1) = n + 1.
Proof. unfold NONCE_OVERFLOW_LIMIT. intros. apply Z.mod_small. lia. Qed.

Lemma wf_data (d : bytes) : wf_bytes d -> wf_frame FRAME_DATA FLAG_NONE d.
Proof. intros. split_and!; [unfold is_uint, FRAME_DATA; lia|unfold is_uint, FLAG_NONE; lia|done]. Qed.

Lemma wf_close : wf_frame FRAME_CLOSE FLAG_NONE [].
Proof. split_and!; [unfold is_uint, FRAME_CLOSE; lia|unfold is_uint, FLAG_NONE; lia|constructor]. Qed.

(** Every way [tunnel_send_data] can end. *)
Lemma tunnel_send_data_spec (t t' : tunnel_t) (d : bytes) (w w' : world) (r : Z) :
  tunnel_inv t -> wf_bytes d -> tunnel_send_data t d w = Some ((r, t'), w') ->
  (r = -2 /\ t_enc_nonce t = NONCE_OVERFLOW_LIMIT /\ t' = t /\ w' = w) \/
  (r = -1 /\ FRAME_MAX_PAYLOAD < zlen d /\ t' = t /\ w' = w) \/
  exists wire tx out, frame_build FRAME_DATA FLAG_NONE d (t_enc_nonce t) (t_enc_key t) = Some wire /\
    t_enc_nonce t < NONCE_OVERFLOW_LIMIT /\
    t' = set_enc_nonce (t_enc_nonce t + 1) t /\ w' = set_tx tx out w /\
    ((r = zlen wire /\ 0 < r /\ out = w_out w ++ wire) \/
     (r = -1 /\ exists k, out = w_out w ++ take k wire)).
Proof.
  intros (Hk & _ & Hn & _) Hd H. unfold tunnel_send_data in H.
  destruct (NONCE_OVERFLOW_LIMIT <=? t_enc_nonce t) eqn:E1; zbool.
  { run_step. left. split_and!; [done|lia|done..]. }
  destruct (frame_build _ _ _ _ _) as [wire|] eqn:Eb.
  2: { run_step. right. left. split_and!; [done| |done..].
       unfold frame_build in Eb. destruct (_ <? _) eqn:E2; [by zbool|].
       cbv zeta in Eb. by destruct (aead_encrypt _ _ _ _). }
  right. right. cbv zeta in H. run_step. unfold enc_write in E.
  destruct (write_loop _ _ _) as [[[r0 tx] out]|] eqn:Ew; [|done]. injection E as -> <-.
  exists wire, tx, out. rewrite u64_next in H by lia.
  assert (Hl := Eb). apply frame_build_len in Hl as (_ & Hl & _); [|done|by apply wf_data].
  apply write_loop_spec in Ew as [[-> ->]|(-> & k & ->)]; cbn [Z.ltb Z.compare] in H; run_step;
    (split_and!; [done..|]).
  - left. split_and!; [done|lia|done].
  - right. eauto.
Qed.

(** With room in the send buffer it sends the whole frame. *)
Lemma tunnel_send_data_run (t : tunnel_t) (d : bytes) (k : nat) (w : world) :
  tunnel_inv t -> wf_bytes d -> zlen d <= FRAME_MAX_PAYLOAD ->
  t_enc_nonce t < NONCE_OVERFLOW_LIMIT -> tx_room (S k) (w_tx w) ->
  exists wire tx, frame_build FRAME_DATA FLAG_NONE d (t_enc_nonce t) (t_enc_key t) = Some wire /\
    tunnel_send_data t d w = Some ((zlen wire, set_enc_nonce (t_enc_nonce t + 1) t),
      set_tx tx (w_out w ++ wire) w) /\ tx_room k tx.
Proof.
  intros (Hk & _ & Hn & _) Hd Hl Hlt Hr.
  assert (Hb := frame_build_eq FRAME_DATA FLAG_NONE d (t_enc_nonce t) (t_enc_key t) Hl). cbv zeta in Hb.
  match type of Hb with _ = Some ?x => set (wire := x) in * end. clearbody wire.
  assert (Hwl := Hb). apply frame_build_len in Hwl as (_ & Hwl & _); [|done|by apply wf_data].
  destruct (write_loop_room k (w_tx w) wire (w_out w) Hr) as (tx & Hw & Hr').
  { rewrite max_wire. unfold FRAME_MAX_PAYLOAD in Hl. lia. }
  exists wire, tx. split_and!; [done| |done]. unfold tunnel_send_data.
  rewrite (proj2 (Z.leb_gt _ _)) by done. rewrite Hb. cbv zeta. rewrite u64_next by lia.
  rewrite (M_bind_eq _ _ w 0 (set_tx tx (w_out w ++ wire) w)) by (unfold enc_write; by rewrite Hw).
  done.
Qed.

(** ** The plaintext drain *)

Definition data_msgs (ps : list bytes) : list (Z * Z * bytes) :=
  map (fun d => (FRAME_DATA, FLAG_NONE, d)) ps.

Lemma pt_read_some (w w' : world) (d : bytes) : wf_rx (w_pt_rx w) -> pt_read w = Some (inr d, w') ->
  exists rx, w' = set_pt_rx rx w /\ wf_rx rx /\ wf_bytes d /\ zlen d <= FRAME_MAX_PAYLOAD /\
    (if decide (d = []) then rx_flow (w_pt_rx w) = ([], Some EndEof)
     else rx_flow (w_pt_rx w) = (d ++ fst (rx_flow rx), snd (rx_flow rx)) /\
          (rx_size rx < rx_size (w_pt_rx w))%nat).
Proof.
  intros Hw. unfold pt_read. destruct (sys_recv _ _) as [[r rx]|] eqn:E; [|done]. intros [= -> <-].
  apply sys_recv_flow in E as (? & ? & ? & ?); [|unfold FRAME_MAX_PAYLOAD; lia|done].
  exists rx. split_and!; try done. unfold FRAME_MAX_PAYLOAD in *. lia.
Qed.

Lemma pt_read_err (w w' : world) (e : errno) : wf_rx (w_pt_rx w) -> pt_read w = Some (inl e, w') ->
  exists rx, w_pt_rx w = RxErr e :: rx /\ w' = set_pt_rx rx w /\ wf_rx rx.
Proof.
  intros Hw. unfold pt_read. destruct (w_pt_rx w) as [|[d|e'] rx]; [done..|]. intros [= -> <-].
  apply Forall_cons in Hw as [_ Hw]. by exists rx.
Qed.

Lemma set_enc_nonce_inv (t : tunnel_t) : tunnel_inv t -> t_enc_nonce t < NONCE_OVERFLOW_LIMIT ->
  tunnel_inv (set_enc_nonce (t_enc_nonce t + 1) t).
Proof. intros (? & ? & ? & ?) ?. split_and!; cbn; try done; lia. Qed.

(** When the drain falls through, it has sent one DATA frame per read, with
    consecutive counters, for everything the plaintext side had (or for 257
    reads); nothing else of the context has changed. *)
Lemma drain_plaintext_go (fuel : nat) (n : Z) (t t' : tunnel_t) (w w' : world) :
  tunnel_inv t -> wf_rx (w_pt_rx w) ->
  drain_plaintext fuel n t w = Some ((Go, t'), w') ->
  exists ps stream rx tx, Forall wf_bytes ps /\
    build_frames (data_msgs ps) (t_enc_nonce t) (t_enc_key t) = Some stream /\
    w' = set_pt_rx rx (set_tx tx (w_out w ++ stream) w) /\ wf_rx rx /\
    t' = set_enc_nonce (t_enc_nonce t + zlen ps) t /\ tunnel_inv t' /\
    (fst (rx_flow (w_pt_rx w)) = concat ps \/
     fst (rx_flow (w_pt_rx w)) = concat ps ++ fst (rx_flow rx) /\ 256 < n + zlen ps).
Proof.
  revert n t w. induction fuel as [|fuel IH]; intros n t w Hi Hw H; [done|].
  cbn [drain_plaintext] in H. run_step. destruct a as [e|d].
  - apply pt_read_err in E as (rx & Hrx & -> & Hwr); [|done]. destruct e; [|run_step|by run_step].
    + apply IH in H as (ps & stream & rx' & tx & H1 & H2 & H3 & H4 & H5 & H6 & H7); [|done..].
      exists ps, stream, rx', tx. rewrite Hrx. split_and!; done.
    + exists [], [], rx, (w_tx w). rewrite Hrx. cbn [zlen length]. rewrite Z.add_0_r, app_nil_r.
      split_and!; first [done|by destruct w|by destruct t'|by left].
  - apply pt_read_some in E as (rx & -> & Hwr & Hwd & Hld & Hf); [|done].
    destruct (length d =? 0)%nat eqn:E0.
    { destruct (_ <? _); [run_step|]; by run_step. }
    destruct (decide (d = [])) as [->|_]; [done|]. destruct Hf as [Hf _].
    run_step. destruct a as [sd t1].
    apply tunnel_send_data_spec in E as [(-> & _)|[(-> & _)|(wire & tx & out & Hb & Hlt & -> & -> & Hc)]];
      [done|done| |done|done].
    destruct Hc as [(-> & Hpos & ->)|(-> & _)]; [|done].
    rewrite (proj2 (Z.eqb_neq _ _)), (proj2 (Z.ltb_ge _ _)) in H by lia. cbv zeta in H.
    assert (Hi1 := set_enc_nonce_inv t Hi Hlt).
    destruct (256 <? n + 1) eqn:En; zbool.
    + run_step. exists [d], wire, rx, tx. split_and!; try done.
      * by constructor.
      * simpl. rewrite Hb. simpl. by rewrite app_nil_r.
      * right. rewrite Hf. simpl. rewrite app_nil_r. split; [done|lia].
    + apply IH in H as (ps & stream & rx' & tx' & H1 & H2 & -> & H4 & -> & H6 & H7); [|done..].
      cbn [t_enc_nonce t_enc_key set_enc_nonce] in *.
      exists (d :: ps), (wire ++ stream), rx', tx'. split_and!.
      * by constructor.
      * cbn [data_msgs map build_frames]. rewrite Hb. simpl. fold (data_msgs ps). by rewrite H2.
      * cbn. by rewrite app_assoc.
      * done.
      * by replace (t_enc_nonce t + zlen (d :: ps)) with (t_enc_nonce t + 1 + zlen ps)
          by (cbn [length]; lia).
      * exact H6.
      * cbn [w_pt_rx set_tx set_pt_rx] in H7. rewrite Hf. cbn [fst concat].
        destruct H7 as [->|[-> H7]]; [by left|right].
        rewrite app_assoc. split; [done|]. cbn [length]. lia.
Qed.

(** Packets that are waiting are sealed and sent, one counter each; the drain
    goes on with what the plaintext side gives next. *)
Lemma drain_plaintext_data (ps : list bytes) (rest : list rx_ev) (fuel k : nat) (n : Z) (t : tunnel_t) (w : world) :
  tunnel_inv t -> w_pt_rx w = map RxData ps ++ rest ->
  Forall (fun p => p <> [] /\ wf_bytes p /\ zlen p <= FRAME_MAX_PAYLOAD) ps ->
  tx_room (length ps + k) (w_tx w) -> t_enc_nonce t + zlen ps <= NONCE_OVERFLOW_LIMIT -> n + zlen ps <= 256 ->
  exists stream tx, build_frames (data_msgs ps) (t_enc_nonce t) (t_enc_key t) = Some stream /\ tx_room k tx /\
    drain_plaintext (length ps + fuel) n t w =
    drain_plaintext fuel (n + zlen ps) (set_enc_nonce (t_enc_nonce t + zlen ps) t)
      (set_pt_rx rest (set_tx tx (w_out w ++ stream) w)).
Proof.
  revert n t w. induction ps as [|p ps IH]; intros n t w Hi Hrx Hps Hr Hlim Hn.
  - exists [], (w_tx w). cbn [zlen length Nat.add]. rewrite !Z.add_0_r, app_nil_r. split_and!; [done..|].
    cbn [map app] in Hrx. subst rest. by destruct t, w.
  - apply Forall_cons in Hps as [(Hne & Hwp & Hlp) Hps]. cbn [map app length Nat.add drain_plaintext] in *.
    set (w1 := set_pt_rx (map RxData ps ++ rest) w).
    rewrite (M_bind_eq pt_read _ w (inr p) w1).
    2: { unfold pt_read. rewrite Hrx. cbn [sys_recv].
         rewrite take_ge, drop_ge by (unfold FRAME_MAX_PAYLOAD in *; lia). done. }
    rewrite (proj2 (Nat.eqb_neq _ _)) by (destruct p; done).
    destruct (tunnel_send_data_run t p (length ps + k) w1) as (wire & tx & Hb & Hs & Hr'); [done..|lia|done|].
    rewrite (M_bind_eq _ _ _ _ _ Hs). cbv beta iota zeta.
    rewrite (proj2 (Z.eqb_neq _ _)), (proj2 (Z.ltb_ge _ _)), (proj2 (Z.ltb_ge _ _)) by lia.
    destruct (IH (n + 1) (set_enc_nonce (t_enc_nonce t + 1) t) (set_tx tx (w_out w1 ++ wire) w1))
      as (stream & tx' & Hst & Hr2 & Hrun); try done; [apply set_enc_nonce_inv; [done|lia]|cbn; lia|lia|].
    cbn [t_enc_nonce t_enc_key set_enc_nonce] in *. exists (wire ++ stream), tx'. split_and!; [|done|].
    + cbn [data_msgs map build_frames]. rewrite Hb. simpl. fold (data_msgs ps). by rewrite Hst.
    + rewrite Hrun. replace (n + Z.of_nat (S (length ps))) with (n + 1 + zlen ps) by lia.
      replace (t_enc_nonce t + Z.of_nat (S (length ps))) with (t_enc_nonce t + 1 + zlen ps) by lia.
      cbn. by rewrite <- app_assoc.
Qed.

(** The plaintext side gives up to 256 packets and then has nothing. *)
Lemma drain_plaintext_run (ps : list bytes) (rest : list rx_ev) (fuel : nat) (n : Z) (t : tunnel_t)
    (w : world) :
  tunnel_inv t -> w_pt_rx w = map RxData ps ++ RxErr EAGAIN :: rest ->
  Forall (fun p => p <> [] /\ wf_bytes p /\ zlen p <= FRAME_MAX_PAYLOAD) ps ->
  tx_room (length ps) (w_tx w) -> t_enc_nonce t + zlen ps <= NONCE_OVERFLOW_LIMIT ->
  (length ps < fuel)%nat -> n + zlen ps <= 256 ->
  exists stream tx, build_frames (data_msgs ps) (t_enc_nonce t) (t_enc_key t) = Some stream /\
    drain_plaintext fuel n t w = Some ((Go, set_enc_nonce (t_enc_nonce t + zlen ps) t),
      set_pt_rx rest (set_tx tx (w_out w ++ stream) w)).
Proof.
  intros Hi Hrx Hps Hr Hlim Hf Hn. rewrite <- (Nat.add_0_r (length ps)) in Hr.
  destruct (drain_plaintext_data ps (RxErr EAGAIN :: rest) (fuel - length ps) 0 n t w) as (stream & tx & Hs & _ & Hrun); [done..|].
  replace (length ps + (fuel - length ps))%nat with fuel in Hrun by lia. exists stream, tx. split; [done|]. rewrite Hrun.
  destruct (fuel - length ps)%nat as [|f] eqn:Ef; [lia|]. cbn [drain_plaintext].
  match goal with |- (_ ≫= _) ?w0 = _ => rewrite (M_bind_eq pt_read _ w0 (inl EAGAIN) (set_pt_rx rest w0)) by done end.
  by destruct t, w.
Qed.

(** ** The frame drain *)

(** A queue in which no frame is complete. *)
Definition undecided (key q : bytes) : Prop := forall c, stream_next q c key = (NextNone, q).

Lemma undecided_nil (key : bytes) : undecided key [].
Proof. done. Qed.

Lemma undecided_len (key q : bytes) : wf_bytes q -> undecided key q -> zlen q < FRAME_MAX_WIRE.
Proof.
  intros Hw Hu. specialize (Hu 0). unfold stream_next in Hu. cbv zeta in Hu. rewrite max_wire.
  destruct (_ <? 4) eqn:E1; zbool; [lia|]. destruct (_ <? 20 + _) eqn:E2; zbool.
  - destruct (header_len_bound q Hw). lia.
  - by destruct (frame_parse _ _ _) as [[[] ?]|].
Qed.

Lemma build_frames_length (ps : list bytes) (n : Z) (key stream : bytes) :
  wf_block key -> Forall wf_bytes ps -> build_frames (data_msgs ps) n key = Some stream ->
  (length ps <= length stream)%nat.
Proof.
  intros Hk. revert n stream. induction ps as [|p ps IH]; intros n stream Hp H; [simpl; lia|].
  apply Forall_cons in Hp as [Hwp Hp]. cbn [data_msgs map build_frames] in H.
  apply bind_Some in H as (wire & Hb & H). apply bind_Some in H as (rest & Hr & [= <-]).
  apply IH in Hr; [|done]. apply frame_build_len in Hb as (_ & Hl & _); [|done|by apply wf_data].
  rewrite length_app. cbn [length]. lia.
Qed.

Definition wf_msgs (ms : list (Z * Z * bytes)) : Prop := Forall (fun m => wf_frame m.1.1 m.1.2 m.2) ms.

Lemma wf_data_msgs (ps : list bytes) : Forall wf_bytes ps -> wf_msgs (data_msgs ps).
Proof. intros H. apply Forall_map. eapply Forall_impl; [exact H|]. intros p Hp. by apply wf_data. Qed.

(** A stream of frames cut anywhere: whole frames, then the start of the next. *)
Lemma frames_cut (ms : list (Z * Z * bytes)) (n : Z) (key stream q x : bytes) :
  wf_block key -> wf_msgs ms -> build_frames ms n key = Some stream -> stream = q ++ x ->
  exists ms1 ms2 s1 tail, ms = ms1 ++ ms2 /\ build_frames ms1 n key = Some s1 /\
    q = s1 ++ tail /\ undecided key tail /\ build_frames ms2 (n + zlen ms1) key = Some (tail ++ x).
Proof.
  intros Hk. revert n stream q. induction ms as [|[[ty fl] d] ms IH]; intros n stream q Hp H Hs.
  - injection H as <-. symmetry in Hs. apply app_nil in Hs as [-> ->].
    exists [], [], [], []. by split_and!.
  - apply Forall_cons in Hp as [Hwp Hp]. cbn [fst snd] in Hwp. cbn [build_frames] in H.
    apply bind_Some in H as (wire & Hb & H). apply bind_Some in H as (rest & Hr & [= <-]).
    destruct (decide (length wire <= length q)%nat) as [Hle|Hgt].
    + assert (Hq : q = wire ++ drop (length wire) q /\ rest = drop (length wire) q ++ x).
      { apply (f_equal (take (length wire))) in Hs as Ht.
        apply (f_equal (drop (length wire))) in Hs as Hd.
        rewrite take_app_length, take_app_le in Ht by lia.
        rewrite drop_app_length, drop_app_le in Hd by lia.
        split; [rewrite Ht at 1; by rewrite take_drop|done]. }
      destruct Hq as [Hq1 Hq2].
      destruct (IH (n + 1) rest (drop (length wire) q) Hp Hr Hq2)
        as (ms1 & ms2 & s1 & tail & -> & H1 & H2 & H3 & H4).
      exists ((ty, fl, d) :: ms1), ms2, (wire ++ s1), tail. split_and!; [done| |..]; try done.
      * cbn [build_frames]. rewrite Hb. simpl. by rewrite H1.
      * rewrite Hq1, H2. by rewrite app_assoc.
      * replace (n + zlen ((ty, fl, d) :: ms1)) with (n + 1 + zlen ms1) by (cbn [length]; lia). done.
    + exists [], ((ty, fl, d) :: ms), [], q. split_and!; try done.
      * intros c. assert (q = take (length q) wire) as ->.
        { apply (f_equal (take (length q))) in Hs. rewrite take_app_length in Hs.
          by rewrite take_app_le in Hs by lia. }
        apply (stream_next_prefix ty fl d n); [done..|lia].
      * cbn [build_frames zlen length]. rewrite Z.add_0_r, Hb. simpl. rewrite Hr. simpl. by rewrite Hs.
Qed.

Lemma stream_cut (ps : list bytes) (n : Z) (key stream q x : bytes) :
  wf_block key -> Forall wf_bytes ps ->
  build_frames (data_msgs ps) n key = Some stream -> stream = q ++ x ->
  exists ps1 ps2 s1 tail, ps = ps1 ++ ps2 /\ build_frames (data_msgs ps1) n key = Some s1 /\
    q = s1 ++ tail /\ undecided key tail /\
    build_frames (data_msgs ps2) (n + zlen ps1) key = Some (tail ++ x).
Proof.
  intros Hk Hp H Hs. destruct (frames_cut _ n key stream q x Hk (wf_data_msgs _ Hp) H Hs) as (ms1 & ms2 & s1 & tail & E & H1 & H2 & H3 & H4).
  apply fmap_app_inv in E as (ps1 & ps2 & -> & -> & ->). rewrite length_fmap in H4. by exists ps1, ps2, s1, tail.
Qed.

Lemma tx_room_S (k : nat) (tx : list tx_ev) : tx_room (S k) tx -> tx_room k tx.
Proof.
  intros [tx' ->]. exists (TxSome (Z.to_nat FRAME_MAX_WIRE) :: tx').
  by rewrite replicate_S_end, <- app_assoc.
Qed.

Lemma tx_room_le (j k : nat) (tx : list tx_ev) : (j <= k)%nat -> tx_room k tx -> tx_room j tx.
Proof. induction 1; [done|]. intros H'. by apply IHle, tx_room_S. Qed.

(** Data frames are opened and written, one counter each; the drain goes on
    with what is pending after them. *)
Lemma drain_frames_data (ps : list bytes) (fuel : nat) (fr : frame_reader_t) (t : tunnel_t)
    (stream tail : bytes) (k : nat) (w : world) :
  tunnel_inv t -> Forall wf_bytes ps -> reader_inv fr ->
  build_frames (data_msgs ps) (t_dec_nonce t) (t_dec_key t) = Some stream -> pending fr = stream ++ tail ->
  t_dec_nonce t + zlen ps < NONCE_OVERFLOW_LIMIT - NONCE_REKEY_MARGIN -> tx_room (length ps + k) (w_pt_tx w) ->
  exists fr' tx, drain_frames (length ps + fuel) fr t w =
      drain_frames fuel fr' (set_dec_nonce (t_dec_nonce t + zlen ps) t) (set_pt_tx tx (w_pt_out w ++ concat ps) w) /\
    reader_inv fr' /\ pending fr' = tail /\ fr_eof fr' = fr_eof fr /\ tx_room k tx.
Proof.
  revert fr t stream w. induction ps as [|p ps IH]; intros fr t stream w Hi Hp Hfr Hs Hq Hn Hr.
  { injection Hs as <-. exists fr, (w_pt_tx w). cbn [zlen length concat Nat.add]. rewrite Z.add_0_r, app_nil_r.
    split_and!; try done. by destruct t, w. }
  pose proof (try_next_spec fr (t_dec_nonce t) (t_dec_key t) Hfr) as Hnext. cbn [length Nat.add drain_frames] in *.
  unfold NONCE_REKEY_MARGIN in *.
  rewrite (proj2 (Z.leb_gt _ (t_dec_nonce t))) by lia. rewrite (proj2 (Z.leb_gt _ (t_dec_nonce t))) by lia.
  destruct (frame_reader_try_next fr _ _) as [r fr1]. destruct Hnext as (Hnx & Hi1 & He1 & Hnone).
  apply Forall_cons in Hp as [Hwp Hp]. cbn [data_msgs map build_frames] in Hs.
  apply bind_Some in Hs as (wire & Hb & Hs). apply bind_Some in Hs as (rest & Hrest & [= <-]).
  fold (data_msgs ps) in Hrest. assert (Hi' := Hi). destruct Hi' as (_ & Hdk & _ & Hdn).
  rewrite Hq, <- app_assoc, (stream_next_wire FRAME_DATA FLAG_NONE p) in Hnx by (done || by apply wf_data).
  injection Hnx as <- Hp1. rewrite u64_next by lia.
  set (t1 := set_dec_nonce (t_dec_nonce t + 1) t).
  assert (Hi1' : tunnel_inv t1).
  { destruct Hi as (? & ? & ? & ?). split_and!; cbn; try done; unfold NONCE_OVERFLOW_LIMIT in *; lia. }
  cbn [FRAME_DATA FRAME_CLOSE FRAME_KEEPALIVE FRAME_KEYCONFIRM FRAME_REKEY Z.eqb Pos.eqb].
  assert (Hgo : forall tx1, tx_room (length ps + k) tx1 ->
    exists fr' tx, drain_frames (length ps + fuel) fr1 t1 (set_pt_tx tx1 (w_pt_out w ++ p) w) =
      drain_frames fuel fr' (set_dec_nonce (t_dec_nonce t + Z.of_nat (S (length ps))) t)
        (set_pt_tx tx (w_pt_out w ++ concat (p :: ps)) w) /\
      reader_inv fr' /\ pending fr' = tail /\ fr_eof fr' = fr_eof fr /\ tx_room k tx).
  { intros tx1 Hroom.
    destruct (IH fr1 t1 rest (set_pt_tx tx1 (w_pt_out w ++ p) w)) as (fr' & tx & Hrun & H1 & H2 & H3 & H4);
      [done..|symmetry; exact Hp1|cbn; lia|done|].
    exists fr', tx. split_and!; [|done|done|congruence|done]. rewrite Hrun. cbn [concat]. rewrite app_assoc.
    cbn [t_dec_nonce t1 set_dec_nonce].
    by replace (t_dec_nonce t + 1 + zlen ps) with (t_dec_nonce t + Z.of_nat (S (length ps))) by lia. }
  destruct (0 <? length p)%nat eqn:E0.
  - destruct (write_loop_room (length ps + k) (w_pt_tx w) p (w_pt_out w)) as (tx & Hw & Hroom); [done| |].
    { apply frame_build_len in Hb as (Hl & _); [|done|by apply wf_data].
      rewrite max_wire. unfold FRAME_MAX_PAYLOAD in Hl. lia. }
    rewrite (M_bind_eq _ _ w 0 (set_pt_tx tx (w_pt_out w ++ p) w)) by (unfold write_all; by rewrite Hw).
    cbn [Z.eqb negb]. by apply Hgo.
  - zbool. destruct p; [|simpl in E0; lia]. destruct (Hgo (w_pt_tx w)) as (fr' & tx & H); [by apply tx_room_S|].
    exists fr', tx. rewrite app_nil_r in H. destruct w. exact H.
Qed.

(** Data frames and the start of another. *)
Lemma drain_frames_run (ps : list bytes) (fuel : nat) (fr : frame_reader_t) (t : tunnel_t)
    (stream tail : bytes) (k : nat) (w : world) :
  tunnel_inv t -> Forall wf_bytes ps -> reader_inv fr ->
  build_frames (data_msgs ps) (t_dec_nonce t) (t_dec_key t) = Some stream ->
  pending fr = stream ++ tail -> undecided (t_dec_key t) tail ->
  t_dec_nonce t + zlen ps < NONCE_OVERFLOW_LIMIT - NONCE_REKEY_MARGIN ->
  tx_room (length ps + k) (w_pt_tx w) -> (length ps < fuel)%nat ->
  exists fr' tx, drain_frames fuel fr t w =
      Some ((Go, fr', set_dec_nonce (t_dec_nonce t + zlen ps) t),
            set_pt_tx tx (w_pt_out w ++ concat ps) w) /\
    reader_inv fr' /\ pending fr' = tail /\ fr_eof fr' = fr_eof fr /\ tx_room k tx.
Proof.
  intros Hi Hp Hfr Hs Hq Ht Hn Hr Hf.
  destruct (drain_frames_data ps (fuel - length ps) fr t stream tail k w) as (fr' & tx & Hrun & H1 & H2 & H3 & H4); [done..|].
  exists fr', tx. split_and!; [|done..]. replace (length ps + (fuel - length ps))%nat with fuel in Hrun by lia. rewrite Hrun.
  destruct (fuel - length ps)%nat as [|f] eqn:Ef; [lia|]. cbn [drain_frames t_dec_nonce t_dec_key set_dec_nonce].
  unfold NONCE_REKEY_MARGIN in *. rewrite !(proj2 (Z.leb_gt _ _)) by lia.
  pose proof (try_next_spec fr' (t_dec_nonce t + zlen ps) (t_dec_key t) H1) as Hnext.
  destruct (frame_reader_try_next fr' _ _) as [r fr1]. destruct Hnext as (Hnx & _ & _ & Hnone).
  rewrite H2, Ht in Hnx. injection Hnx as <- _. by destruct (Hnone eq_refl) as [-> _].
Qed.

(** Data frames and a CLOSE. *)
Lemma drain_frames_close (ps : list bytes) (fuel : nat) (fr : frame_reader_t) (t : tunnel_t)
    (stream wire tail : bytes) (k : nat) (w : world) :
  tunnel_inv t -> Forall wf_bytes ps -> reader_inv fr ->
  build_frames (data_msgs ps) (t_dec_nonce t) (t_dec_key t) = Some stream ->
  frame_build FRAME_CLOSE FLAG_NONE [] (t_dec_nonce t + zlen ps) (t_dec_key t) = Some wire ->
  pending fr = stream ++ wire ++ tail ->
  t_dec_nonce t + zlen ps < NONCE_OVERFLOW_LIMIT - NONCE_REKEY_MARGIN ->
  tx_room (length ps + k) (w_pt_tx w) -> (length ps < fuel)%nat ->
  exists fr' t' tx, drain_frames fuel fr t w = Some ((Ret 0, fr', t'), set_pt_tx tx (w_pt_out w ++ concat ps) w).
Proof.
  intros Hi Hp Hfr Hs Hc Hq Hn Hr Hf.
  destruct (drain_frames_data ps (fuel - length ps) fr t stream (wire ++ tail) k w) as (fr' & tx & Hrun & H1 & H2 & H3 & H4); [done..|].
  replace (length ps + (fuel - length ps))%nat with fuel in Hrun by lia. rewrite Hrun.
  destruct (fuel - length ps)%nat as [|f] eqn:Ef; [lia|]. cbn [drain_frames t_dec_nonce t_dec_key set_dec_nonce].
  unfold NONCE_REKEY_MARGIN in *. rewrite !(proj2 (Z.leb_gt _ _)) by lia.
  pose proof (try_next_spec fr' (t_dec_nonce t + zlen ps) (t_dec_key t) H1) as Hnext.
  destruct (frame_reader_try_next fr' _ _) as [r fr1]. destruct Hnext as (Hnx & _ & _ & _).
  destruct Hi as (_ & Hdk & _ & Hdn).
  rewrite H2, (stream_next_wire FRAME_CLOSE FLAG_NONE []) in Hnx by (done || by apply wf_close).
  injection Hnx as <- _. cbn [FRAME_CLOSE Z.eqb Pos.eqb]. by eexists _, _, tx.
Qed.

(** The encrypted side run whenever the socket has something, [k] times at most. *)
Fixpoint receive (k : nat) (fr : frame_reader_t) (t : tunnel_t) : M (flow * frame_reader_t * tunnel_t) :=
  match k with
  | O => mret (Go, fr, t)
  | S k' => fun w =>
      match w_rx w with
      | [] => Some ((Go, fr, t), w)
      | _ =>
          match encrypted_side fr t w with
          | Some ((Go, fr, t), w) => receive k' fr t w
          | r => r
          end
      end
  end.

Lemma data_rx_end (rx : list rx_ev) : data_rx rx -> snd (rx_flow rx) = None.
Proof.
  induction rx as [|[d|e] rx IH]; intros H; [done| |by apply Forall_cons in H as [[] _]].
  apply Forall_cons in H as [Hd H]. destruct d; [done|]. simpl. destruct (rx_flow rx). by apply IH.
Qed.

Lemma fill_data (fr : frame_reader_t) (rx : list rx_ev) :
  reader_inv fr -> wf_rx rx -> data_rx rx -> rx <> [] -> fr_eof fr = false ->
  zlen (pending fr) < FRAME_MAX_WIRE ->
  exists fr' rx', frame_reader_fill fr rx = Some (1, fr', rx') /\ reader_inv fr' /\ wf_rx rx' /\
    data_rx rx' /\ fr_eof fr' = false /\ (rx_size rx' < rx_size rx)%nat /\
    pending fr' ++ fst (rx_flow rx') = pending fr ++ fst (rx_flow rx).
Proof.
  intros Hi Hw Hd Hne He Hl. pose proof (fill_spec fr rx Hi Hw He Hl) as H.
  assert (Hend := data_rx_end rx Hd). unfold frame_reader_fill.
  destruct (fill_buffer fr rx) as [[[c fr'] rx']|] eqn:E; [|done].
  destruct H as (Hi' & Hw' & [(-> & He' & _ & Hp & Hs)|[(_ & _ & [Hx|Hx])|(_ & _ & Hx)]]);
    [|rewrite Hx in Hend; done..].
  exists fr', rx'. split_and!; try done.
  unfold fill_buffer in E. rewrite He in E. cbv zeta in E. destruct (_ =? 0); [done|].
  destruct rx as [|[d|e] rx]; [done| |by apply Forall_cons in Hd as [[] _]].
  apply Forall_cons in Hd as [_ Hd]. cbn [sys_recv] in E. destruct (_ =? 0)%nat; [done|].
  destruct (drop _ d) as [|x r] eqn:Ed; injection E as _ <-; [done|]. by constructor.
Qed.

Lemma receive_run (k : nat) (ps : list bytes) (fr : frame_reader_t) (t : tunnel_t) (stream : bytes)
    (w : world) :
  tunnel_inv t -> Forall wf_bytes ps -> reader_inv fr -> fr_eof fr = false ->
  wf_rx (w_rx w) -> data_rx (w_rx w) -> undecided (t_dec_key t) (pending fr) ->
  build_frames (data_msgs ps) (t_dec_nonce t) (t_dec_key t) = Some stream ->
  pending fr ++ fst (rx_flow (w_rx w)) = stream ->
  t_dec_nonce t + zlen ps < NONCE_OVERFLOW_LIMIT - NONCE_REKEY_MARGIN ->
  tx_room (length ps) (w_pt_tx w) -> (rx_size (w_rx w) < k)%nat ->
  exists fr' t' w', receive k fr t w = Some ((Go, fr', t'), w') /\ w_rx w' = [] /\
    w_pt_out w' = w_pt_out w ++ concat ps /\ pending fr' = [] /\
    t_dec_nonce t' = t_dec_nonce t + zlen ps.
Proof.
  revert ps fr t stream w. induction k as [|k IH];
    intros ps fr t stream w Hi Hp Hfr He Hw Hd Hu Hs Hq Hn Hr Hk; [lia|].
  destruct (decide (w_rx w = [])) as [Erx|Hne].
  { cbn [receive]. rewrite Erx in *. cbn [rx_flow fst] in Hq. rewrite app_nil_r in Hq. subst stream.
    assert (Hnil : ps = []).
    { destruct ps as [|p ps]; [done|]. apply Forall_cons in Hp as [Hwp Hp].
      cbn [data_msgs map build_frames] in Hs. apply bind_Some in Hs as (wire & Hb & Hs).
      apply bind_Some in Hs as (rest & _ & [= Hpe]). destruct Hi as (_ & Hdk & _).
      specialize (Hu (t_dec_nonce t)). rewrite <- Hpe in Hu.
      rewrite (stream_next_wire FRAME_DATA FLAG_NONE p) in Hu by (done || by apply wf_data). done. }
    subst ps. injection Hs as Hs. exists fr, t, w.
    cbn [concat zlen length]. rewrite app_nil_r, Z.add_0_r. by split_and!. }
  assert (Hunf : receive (S k) fr t w =
    match encrypted_side fr t w with Some ((Go, fr, t), w) => receive k fr t w | r => r end).
  { cbn [receive]. by destruct (w_rx w). }
  rewrite Hunf. clear Hunf. unfold encrypted_side.
  destruct (fill_data fr (w_rx w)) as (fr1 & rx1 & Hfill & Hi1 & Hw1 & Hd1 & He1 & Hs1 & Hp1);
    [done..|by eapply undecided_len; [apply pending_wf|]|].
  rewrite Hfill. cbn [Z.ltb Z.compare Z.eqb]. assert (Hi' := Hi). destruct Hi' as (_ & Hdk & _ & Hdn).
  destruct (stream_cut ps (t_dec_nonce t) (t_dec_key t) stream (pending fr1) (fst (rx_flow rx1)))
    as (ps1 & ps2 & s1 & tail & -> & Hb1 & Hpe & Hut & Hb2); [done..|by rewrite Hp1|].
  apply Forall_app in Hp as [Hps1 Hps2]. rewrite length_app in *.
  assert (Hlen := build_frames_length _ _ _ _ Hdk Hps1 Hb1).
  destruct (drain_frames_run ps1 (S (length (pending fr1))) fr1 t s1 tail (length ps2) (set_rx rx1 w))
    as (fr2 & tx & -> & Hi2 & Hpt & He2 & Hr2); try done; [lia|rewrite Hpe, length_app; lia|].
  destruct (IH ps2 fr2 (set_dec_nonce (t_dec_nonce t + zlen ps1) t) (tail ++ fst (rx_flow rx1))
    (set_pt_tx tx (w_pt_out (set_rx rx1 w) ++ concat ps1) (set_rx rx1 w)))
    as (fr' & t' & w' & H1 & H2 & H3 & H4 & H5); try done.
  - destruct Hi as (? & ? & ? & ?). unfold NONCE_OVERFLOW_LIMIT, NONCE_REKEY_MARGIN in *.
    split_and!; cbn; unfold NONCE_OVERFLOW_LIMIT; try done; lia.
  - by rewrite He2.
  - by rewrite Hpt.
  - by rewrite Hpt.
  - cbn. lia.
  - cbn. lia.
  - exists fr', t', w'. split_and!; try done.
    + rewrite H3. cbn. by rewrite concat_app, app_assoc.
    + rewrite H5. cbn. lia.
Qed.

Lemma build_frames_snoc (ms : list (Z * Z * bytes)) (ty fl : Z) (d : bytes) (n : Z) (key stream : bytes) :
  build_frames (ms ++ [(ty, fl, d)]) n key = Some stream <->
  exists s wire, build_frames ms n key = Some s /\ frame_build ty fl d (n + zlen ms) key = Some wire /\ stream = s ++ wire.
Proof.
  revert n stream. induction ms as [|[[ty1 fl1] d1] ms IH]; intros n stream; cbn [app build_frames length].
  - rewrite Z.add_0_r. split.
    + intros (wire & Hb & [= <-])%bind_Some. exists [], wire. by rewrite app_nil_r.
    + intros (s & wire & [= <-] & Hb & ->). rewrite Hb. simpl. by rewrite app_nil_r.
  - replace (n + Z.of_nat (S (length ms))) with (n + 1 + zlen ms) by lia. split.
    + intros (w1 & Hb & (rest & Hr & [= <-])%bind_Some)%bind_Some. apply IH in Hr as (s & wire & H1 & H2 & ->).
      exists (w1 ++ s), wire. rewrite Hb, H1. simpl. split_and!; [done..|]. by rewrite app_assoc.
    + intros (s & wire & (w1 & Hb & (s1 & Hs & [= <-])%bind_Some)%bind_Some & H2 & ->). rewrite Hb. simpl.
      rewrite (proj2 (IH (n + 1) (s1 ++ wire))); [simpl; by rewrite app_assoc|]. by exists s1, wire.
Qed.

Lemma receive_close (k : nat) (ps : list bytes) (fr : frame_reader_t) (t : tunnel_t) (stream : bytes) (w : world) :
  tunnel_inv t -> Forall wf_bytes ps -> reader_inv fr -> fr_eof fr = false ->
  wf_rx (w_rx w) -> data_rx (w_rx w) -> undecided (t_dec_key t) (pending fr) ->
  build_frames (data_msgs ps ++ [(FRAME_CLOSE, FLAG_NONE, [])]) (t_dec_nonce t) (t_dec_key t) = Some stream ->
  pending fr ++ fst (rx_flow (w_rx w)) = stream ->
  t_dec_nonce t + zlen ps < NONCE_OVERFLOW_LIMIT - NONCE_REKEY_MARGIN ->
  tx_room (length ps) (w_pt_tx w) -> (rx_size (w_rx w) < k)%nat ->
  exists fr' t' w', receive k fr t w = Some ((Ret 0, fr', t'), w') /\ w_pt_out w' = w_pt_out w ++ concat ps.
Proof.
  revert ps fr t stream w. induction k as [|k IH];
    intros ps fr t stream w Hi Hp Hfr He Hw Hd Hu Hs Hq Hn Hr Hk; [lia|].
  assert (Hi' := Hi). destruct Hi' as (_ & Hdk & _ & Hdn).
  assert (wf_msgs (data_msgs ps ++ [(FRAME_CLOSE, FLAG_NONE, [])])) as Hwm.
  { apply Forall_app. split; [by apply wf_data_msgs|]. apply Forall_singleton, wf_close. }
  assert (w_rx w <> []) as Hne.
  { intros Erx. rewrite Erx in Hq. cbn [rx_flow fst] in Hq. rewrite app_nil_r in Hq. subst stream.
    destruct (data_msgs ps ++ _) as [|[[ty fl] d] ms] eqn:Em; [by destruct ps|].
    apply Forall_cons in Hwm as [Hw1 _]. cbn [build_frames] in Hs. apply bind_Some in Hs as (wire & Hb & Hs).
    apply bind_Some in Hs as (rest & _ & [= Hpe]). specialize (Hu (t_dec_nonce t)). rewrite <- Hpe in Hu.
    by rewrite (stream_next_wire ty fl d) in Hu. }
  assert (Hunf : receive (S k) fr t w =
    match encrypted_side fr t w with Some ((Go, fr, t), w) => receive k fr t w | r => r end).
  { cbn [receive]. by destruct (w_rx w). }
  rewrite Hunf. clear Hunf. unfold encrypted_side.
  destruct (fill_data fr (w_rx w)) as (fr1 & rx1 & Hfill & Hi1 & Hw1 & Hd1 & He1 & Hs1 & Hp1);
    [done..|by eapply undecided_len; [apply pending_wf|]|].
  rewrite Hfill. cbn [Z.ltb Z.compare Z.eqb].
  destruct (frames_cut _ (t_dec_nonce t) (t_dec_key t) stream (pending fr1) (fst (rx_flow rx1)) Hdk Hwm Hs)
    as (ms1 & ms2 & s1 & tail & Em & Hb1 & Hpe & Hut & Hb2); [by rewrite Hp1|].
  destruct ms2 as [|c ms2 _] using rev_ind.
  - rewrite app_nil_r in Em. subst ms1. apply build_frames_snoc in Hb1 as (s & wire & Hb1 & Hbc & ->).
    unfold data_msgs at 1 in Hbc. rewrite length_map in Hbc. rewrite <- app_assoc in Hpe.
    assert (Hlen := build_frames_length _ _ _ _ Hdk Hp Hb1).
    destruct (drain_frames_close ps (S (length (pending fr1))) fr1 t s wire tail 0 (set_rx rx1 w)) as (fr2 & t2 & tx & ->); try done;
      [by rewrite Nat.add_0_r|rewrite Hpe, length_app; lia|]. by exists fr2, t2, (set_pt_tx tx (w_pt_out (set_rx rx1 w) ++ concat ps) (set_rx rx1 w)).
  - rewrite app_assoc in Em. apply app_inj_2 in Em as [Em [= <-]]; [|done]. apply fmap_app_inv in Em as (ps1 & ps2 & -> & -> & ->).
    apply Forall_app in Hp as [Hps1 Hps2]. rewrite length_fmap in Hb2. rewrite length_app in *.
    assert (Hlen := build_frames_length _ _ _ _ Hdk Hps1 Hb1).
    destruct (drain_frames_run ps1 (S (length (pending fr1))) fr1 t s1 tail (length ps2) (set_rx rx1 w))
      as (fr2 & tx & -> & Hi2 & Hpt & He2 & Hr2); try done; [lia|rewrite Hpe, length_app; lia|].
    destruct (IH ps2 fr2 (set_dec_nonce (t_dec_nonce t + zlen ps1) t) (tail ++ fst (rx_flow rx1))
      (set_pt_tx tx (w_pt_out (set_rx rx1 w) ++ concat ps1) (set_rx rx1 w))) as (fr' & t' & w' & H1 & H2); try done.
    + destruct Hi as (? & ? & ? & ?). unfold NONCE_OVERFLOW_LIMIT, NONCE_REKEY_MARGIN in *.
      split_and!; cbn; unfold NONCE_OVERFLOW_LIMIT; try done; lia.
    + by rewrite He2.
    + by rewrite Hpt.
    + by rewrite Hpt.
    + cbn. lia.
    + cbn. lia.
    + exists fr', t', w'. split; [done|]. rewrite H2. cbn. by rewrite concat_app, app_assoc.
Qed.

(** The plaintext side gives up to 256 pieces and is then closed: a CLOSE
    follows the data, and the tunnel ends. *)
Lemma drain_plaintext_close (ps : list bytes) (rest : list rx_ev) (fuel : nat) (n : Z) (t : tunnel_t) (w : world) :
  tunnel_inv t -> w_pt_rx w = map RxData ps ++ RxData [] :: rest ->
  Forall (fun p => p <> [] /\ wf_bytes p /\ zlen p <= FRAME_MAX_PAYLOAD) ps ->
  tx_room (length ps + 1) (w_tx w) -> t_enc_nonce t + zlen ps < NONCE_OVERFLOW_LIMIT ->
  (length ps < fuel)%nat -> n + zlen ps <= 256 ->
  exists stream t' w', build_frames (data_msgs ps ++ [(FRAME_CLOSE, FLAG_NONE, [])]) (t_enc_nonce t) (t_enc_key t) = Some stream /\
    drain_plaintext fuel n t w = Some ((Ret 0, t'), w') /\ w_out w' = w_out w ++ stream.
Proof.
  intros Hi Hrx Hps Hr Hlim Hf Hn.
  destruct (drain_plaintext_data ps (RxData [] :: rest) (fuel - length ps) 1 n t w) as (stream & tx & Hs & Hr1 & Hrun); [done..|lia|done|].
  replace (length ps + (fuel - length ps))%nat with fuel in Hrun by lia. rewrite Hrun.
  destruct (fuel - length ps)%nat as [|f] eqn:Ef; [lia|]. cbn [drain_plaintext].
  match goal with |- context [(pt_read ≫= _) ?w0] => rewrite (M_bind_eq pt_read _ w0 (inr []) (set_pt_rx rest w0)) by done end.
  cbn [length Nat.eqb t_enc_nonce set_enc_nonce]. rewrite (proj2 (Z.ltb_lt _ _)) by done.
  assert (Hb := frame_build_eq FRAME_CLOSE FLAG_NONE [] (t_enc_nonce t + zlen ps) (t_enc_key t) ltac:(done)). cbv zeta in Hb.
  match type of Hb with _ = Some ?x => set (wire := x) in * end. clearbody wire.
  assert (Hwl := Hb). apply frame_build_len in Hwl as (_ & Hwl & _); [|apply Hi|apply wf_close].
  destruct Hr1 as [tx1 ->]. eexists (stream ++ wire), _, _. split_and!.
  - apply build_frames_snoc. exists stream, wire. unfold data_msgs at 2. by rewrite length_map.
  - unfold send_control. cbn [t_enc_nonce t_enc_key set_enc_nonce]. rewrite Hb. reflexivity.
  - cbn. rewrite app_assoc. f_equal. apply take_ge. rewrite max_wire. cbn [length] in Hwl. lia.
Qed.

End TunnelFacts.

(** ** Both ends *)

(** [t] and [t2] are the two ends of a connection, for data from [t] to [t2]:
    up to 256 packets waiting on the plaintext side of the first are sealed and
    sent in one pass, and arrive on the plaintext side of the second however the
    network cuts the stream. *)
Definition carries {A : Aead} {C : Crypto} {U : Locals} (t t2 : tunnel_t) : Prop :=
  forall (ps : list bytes) (rest : list rx_ev) (w w2 : world) (fr : frame_reader_t),
  w_pt_rx w = map RxData ps ++ RxErr EAGAIN :: rest ->
  Forall (fun p => p <> [] /\ wf_bytes p /\ zlen p <= FRAME_MAX_PAYLOAD) ps ->
  zlen ps <= 256 -> tx_room (length ps) (w_tx w) ->
  t_enc_nonce t + zlen ps < NONCE_OVERFLOW_LIMIT - NONCE_REKEY_MARGIN ->
  reader_inv fr -> fr_eof fr = false -> pending fr = [] ->
  wf_rx (w_rx w2) -> data_rx (w_rx w2) -> tx_room (length ps) (w_pt_tx w2) ->
  exists t' w' stream,
    drain_plaintext (S (rx_size (w_pt_rx w))) 0 t w = Some ((Go, t'), w') /\
    w_out w' = w_out w ++ stream /\
    (fst (rx_flow (w_rx w2)) = stream ->
     exists fr' t2' w2', receive (S (rx_size (w_rx w2))) fr t2 w2 = Some ((Go, fr', t2'), w2') /\
       w_pt_out w2' = w_pt_out w2 ++ concat ps /\ pending fr' = [] /\
       t_dec_nonce t2' = t_enc_nonce t').

Lemma mirrored_carries {A : Aead} {L : AeadLaws A} {C : Crypto} {U : Locals} (t t2 : tunnel_t) :
  tunnel_inv t -> tunnel_inv t2 -> t_dec_key t2 = t_enc_key t -> t_dec_nonce t2 = t_enc_nonce t -> carries t t2.
Proof.
  intros Hi Hi2 Hkey Hctr ps rest w w2 fr Hrx Hps Hn Hr Hlim Hfr He Hpe Hw2 Hd2 Hr2.
  assert (Hsz : (length ps < S (rx_size (w_pt_rx w)))%nat).
  { rewrite Hrx. clear. induction ps; simpl; lia. }
  destruct (drain_plaintext_run ps rest (S (rx_size (w_pt_rx w))) 0 t w) as (stream & tx & Hs & Hrun);
    [done..|unfold NONCE_REKEY_MARGIN in Hlim; lia|lia|lia|].
  eexists _, _, stream. split_and!; [exact Hrun|done|]. intros Hf.
  assert (Hps' : Forall wf_bytes ps) by (eapply Forall_impl; [exact Hps|by intros ? (_ & ? & _)]).
  destruct (receive_run (S (rx_size (w_rx w2))) ps fr t2 stream w2)
    as (fr' & t2' & w2' & H1 & H2 & H3 & H4 & H5); try done.
  - by rewrite Hpe.
  - by rewrite Hkey, Hctr.
  - by rewrite Hpe.
  - by rewrite Hctr.
  - lia.
  - exists fr', t2', w2'. split_and!; try done. rewrite H5, Hctr. done.
Qed.

(** The same for a plaintext side that is closed after up to 256 pieces, as a
    socket is: they arrive, and both ends return 0. *)
Definition delivers_all {A : Aead} {C : Crypto} {U : Locals} (t t2 : tunnel_t) : Prop :=
  forall (ps : list bytes) (rest : list rx_ev) (w w2 : world) (fr : frame_reader_t),
  w_pt_rx w = map RxData ps ++ RxData [] :: rest ->
  Forall (fun p => p <> [] /\ wf_bytes p /\ zlen p <= FRAME_MAX_PAYLOAD) ps ->
  zlen ps <= 256 -> tx_room (length ps + 1) (w_tx w) ->
  t_enc_nonce t + zlen ps < NONCE_OVERFLOW_LIMIT - NONCE_REKEY_MARGIN ->
  reader_inv fr -> fr_eof fr = false -> pending fr = [] ->
  wf_rx (w_rx w2) -> data_rx (w_rx w2) -> tx_room (length ps) (w_pt_tx w2) ->
  exists t' w' stream,
    drain_plaintext (S (rx_size (w_pt_rx w))) 0 t w = Some ((Ret 0, t'), w') /\
    w_out w' = w_out w ++ stream /\
    (fst (rx_flow (w_rx w2)) = stream ->
     exists fr' t2' w2', receive (S (rx_size (w_rx w2))) fr t2 w2 = Some ((Ret 0, fr', t2'), w2') /\
       w_pt_out w2' = w_pt_out w2 ++ concat ps).

Lemma mirrored_delivers_all {A : Aead} {L : AeadLaws A} {C : Crypto} {U : Locals} (t t2 : tunnel_t) :
  tunnel_inv t -> tunnel_inv t2 -> t_dec_key t2 = t_enc_key t -> t_dec_nonce t2 = t_enc_nonce t -> delivers_all t t2.
Proof.
  intros Hi Hi2 Hkey Hctr ps rest w w2 fr Hrx Hps Hn Hr Hlim Hfr He Hpe Hw2 Hd2 Hr2.
  assert (Hsz : (length ps < S (rx_size (w_pt_rx w)))%nat).
  { rewrite Hrx. clear. induction ps; simpl; lia. }
  destruct (drain_plaintext_close ps rest (S (rx_size (w_pt_rx w))) 0 t w) as (stream & t' & w' & Hs & Hrun & Ho);
    [done..|unfold NONCE_REKEY_MARGIN in Hlim; lia|lia|lia|].
  exists t', w', stream. split_and!; [done..|]. intros Hf.
  assert (Hps' : Forall wf_bytes ps) by (eapply Forall_impl; [exact Hps|by intros ? (_ & ? & _)]).
  apply (receive_close (S (rx_size (w_rx w2))) ps fr t2 stream w2); try done.
  - by rewrite Hpe.
  - by rewrite Hkey, Hctr.
  - by rewrite Hpe.
  - by rewrite Hctr.
  - lia.
Qed.

(** C1: the tunnel carries data.  Up to 256 packets waiting on the plaintext side
    are sealed and sent in one pass; whatever pieces the network delivers them in,
    a peer with the mirrored key and counter writes exactly their bytes, in order,
    to its own plaintext side, keeps nothing back, and ends with the counters in
    step. *)
Theorem tunnel_transfers (A : Aead) (L : AeadLaws A) (C : Crypto) (U : Locals) (ps : list bytes)
    (rest : list rx_ev) (t t2 : tunnel_t) (w w2 : world) (fr : frame_reader_t) :
  tunnel_inv t -> tunnel_inv t2 ->
  t_dec_key t2 = t_enc_key t -> t_dec_nonce t2 = t_enc_nonce t ->
  w_pt_rx w = map RxData ps ++ RxErr EAGAIN :: rest ->
  Forall (fun p => p <> [] /\ wf_bytes p /\ zlen p <= FRAME_MAX_PAYLOAD) ps ->
  zlen ps <= 256 -> tx_room (length ps) (w_tx w) ->
  t_enc_nonce t + zlen ps < NONCE_OVERFLOW_LIMIT - NONCE_REKEY_MARGIN ->
  reader_inv fr -> fr_eof fr = false -> pending fr = [] ->
  wf_rx (w_rx w2) -> data_rx (w_rx w2) -> tx_room (length ps) (w_pt_tx w2) ->
  exists t' w' stream,
    drain_plaintext (S (rx_size (w_pt_rx w))) 0 t w = Some ((Go, t'), w') /\
    w_out w' = w_out w ++ stream /\
    (fst (rx_flow (w_rx w2)) = stream ->
     exists fr' t2' w2', receive (S (rx_size (w_rx w2))) fr t2 w2 = Some ((Go, fr', t2'), w2') /\
       w_pt_out w2' = w_pt_out w2 ++ concat ps /\ pending fr' = [] /\
       t_dec_nonce t2' = t_enc_nonce t').
Proof.
  intros Hi Hi2 Hkey Hctr. by apply mirrored_carries.
Qed.

Definition demo_tunnel_a : tunnel_t := tunnel_init 3 4 demo_key demo_nonce.
Definition demo_tunnel_b : tunnel_t := tunnel_init 3 4 demo_nonce demo_key.
Definition demo_packets : list bytes := [[1; 2; 3]; [4; 5]].

Definition demo_tunnel_stream : bytes :=
  default [] (@build_frames pure_c (data_msgs demo_packets) 1 demo_key).

Definition demo_tx : list tx_ev := replicate 2 (TxSome (Z.to_nat FRAME_MAX_WIRE)).

Definition demo_sender : world :=
  set_pt_rx (map RxData demo_packets ++ [RxErr EAGAIN]) (set_tx demo_tx [] world0).

Definition demo_receiver : world :=
  set_rx [RxData (take 9 demo_tunnel_stream); RxData (drop 9 demo_tunnel_stream)]
    (set_pt_tx demo_tx [] world0).

Lemma demo_tunnel_inv : tunnel_inv demo_tunnel_a /\ tunnel_inv demo_tunnel_b.
Proof.
  split; (split; [|split; [|cbn; unfold NONCE_OVERFLOW_LIMIT; lia]]);
    first [apply demo_key_block | apply demo_nonce_block].
Qed.

Lemma tunnel_transfers_witness : exists t' w' stream,
  @drain_plaintext pure_c (S (rx_size (w_pt_rx demo_sender))) 0 demo_tunnel_a demo_sender =
    Some ((Go, t'), w') /\ w_out w' = w_out demo_sender ++ stream /\
  (fst (rx_flow (w_rx demo_receiver)) = stream ->
   exists fr' t2' w2',
     @receive pure_c toy_crypto no_locals (S (rx_size (w_rx demo_receiver))) (frame_reader_init 4)
       demo_tunnel_b demo_receiver = Some ((Go, fr', t2'), w2') /\
     w_pt_out w2' = w_pt_out demo_receiver ++ concat demo_packets /\ pending fr' = [] /\
     t_dec_nonce t2' = t_enc_nonce t').
Proof.
  apply (tunnel_transfers pure_c pure_c_laws toy_crypto no_locals demo_packets [] demo_tunnel_a
    demo_tunnel_b demo_sender demo_receiver (frame_reader_init 4)).
  - apply demo_tunnel_inv.
  - apply demo_tunnel_inv.
  - reflexivity.
  - reflexivity.
  - reflexivity.
  - repeat constructor; try discriminate; unfold is_uint, FRAME_MAX_PAYLOAD; simpl; lia.
  - simpl. lia.
  - exists []. reflexivity.
  - unfold NONCE_OVERFLOW_LIMIT, NONCE_REKEY_MARGIN. simpl. lia.
  - apply init_inv.
  - reflexivity.
  - apply init_pending.
  - apply wf_rxb_spec. vm_compute. reflexivity.
  - repeat constructor; vm_compute; discriminate.
  - exists []. reflexivity.
Defined.

(** Every end of [tunnel_send_data]: at the overflow limit it sends nothing and
    asks for a re-key; an oversized payload is refused without using a counter;
    otherwise exactly one counter value is used, and a success has put exactly the
    DATA frame sealed under it on the wire, a failure only a prefix of it. *)
Theorem tunnel_send_data_cases (A : Aead) (L : AeadLaws A) (t t' : tunnel_t) (d : bytes)
    (w w' : world) (r : Z) :
  tunnel_inv t -> wf_bytes d -> tunnel_send_data t d w = Some ((r, t'), w') ->
  (r = -2 /\ t_enc_nonce t = NONCE_OVERFLOW_LIMIT /\ t' = t /\ w' = w) \/
  (r = -1 /\ FRAME_MAX_PAYLOAD < zlen d /\ t' = t /\ w' = w) \/
  exists wire tx out, frame_build FRAME_DATA FLAG_NONE d (t_enc_nonce t) (t_enc_key t) = Some wire /\
    t_enc_nonce t < NONCE_OVERFLOW_LIMIT /\
    t' = set_enc_nonce (t_enc_nonce t + 1) t /\ w' = set_tx tx out w /\
    ((r = zlen wire /\ 0 < r /\ out = w_out w ++ wire) \/
     (r = -1 /\ exists k, out = w_out w ++ take k wire)).
Proof. apply tunnel_send_data_spec. Qed.

Definition demo_small : world := set_tx [TxSome 7; TxErr EAGAIN; TxSome 100] [] world0.

Lemma tunnel_send_data_cases_witness : exists r t' w',
  @tunnel_send_data pure_c demo_tunnel_a [1; 2; 3] demo_small = Some ((r, t'), w') /\
  ((r = -2 /\ t_enc_nonce demo_tunnel_a = NONCE_OVERFLOW_LIMIT /\ t' = demo_tunnel_a /\ w' = demo_small) \/
   (r = -1 /\ FRAME_MAX_PAYLOAD < zlen [1; 2; 3] /\ t' = demo_tunnel_a /\ w' = demo_small) \/
   exists wire tx out,
     @frame_build pure_c FRAME_DATA FLAG_NONE [1; 2; 3] (t_enc_nonce demo_tunnel_a) (t_enc_key demo_tunnel_a) = Some wire /\
     t_enc_nonce demo_tunnel_a < NONCE_OVERFLOW_LIMIT /\
     t' = set_enc_nonce (t_enc_nonce demo_tunnel_a + 1) demo_tunnel_a /\ w' = set_tx tx out demo_small /\
     ((r = zlen wire /\ 0 < r /\ out = w_out demo_small ++ wire) \/
      (r = -1 /\ exists k, out = w_out demo_small ++ take k wire))).
Proof.
  destruct (@tunnel_send_data pure_c demo_tunnel_a [1; 2; 3] demo_small) as [[[r t'] w']|] eqn:E;
    [|vm_compute in E; discriminate E].
  exists r, t', w'. split; [reflexivity|].
  apply (tunnel_send_data_cases pure_c pure_c_laws).
  - apply demo_tunnel_inv.
  - apply wf_bytesb_spec. reflexivity.
  - exact E.
Defined.

(** ** The context across iterations *)

Section Invariant.
Context {A : Aead} {C : Crypto} {CL : CryptoLaws C} {U : Locals}.

Lemma rekey_ok_keys (psk : option bytes) (plen : nat) (keys k' : session_keys_t) (nc nc' : Z)
    (init : bool) (w w' : world) :
  handshake_rekey psk plen keys nc init w = Some ((0, k', nc'), w') ->
  nc' = 0 /\ wf_block (enc_key k') /\ wf_block (dec_key k').
Proof.
  intros H. unfold handshake_rekey in H. run_step. destruct a as [[opub opriv]|]; [|by run_step].
  run_step. destruct a as [[ppub|] nc1]; [|by run_step].
  destruct (ecdh_derive _ _ _) as [ret sh]. destruct (negb _); [by run_step|].
  run_step. run_step. cbv zeta in H. run_step. destruct (negb _); [by run_step|]. run_step.
  split; [done|]. destruct init; cbn; split; apply key_of_digest.
Qed.

Lemma enc_nonce_next_inv (t : tunnel_t) : tunnel_inv t -> t_enc_nonce t < NONCE_OVERFLOW_LIMIT ->
  tunnel_inv (set_enc_nonce (u64 (t_enc_nonce t + 1)) t).
Proof.
  intros Hi Hlt. assert (H := Hi). destruct H as (_ & _ & ? & _). rewrite u64_next by lia.
  by apply set_enc_nonce_inv.
Qed.

Lemma dec_nonce_next_inv (t : tunnel_t) :
  tunnel_inv t -> t_dec_nonce t < NONCE_OVERFLOW_LIMIT - NONCE_REKEY_MARGIN ->
  tunnel_inv (set_dec_nonce (u64 (t_dec_nonce t + 1)) t).
Proof.
  intros (? & ? & ? & ?) Hlt. unfold NONCE_REKEY_MARGIN in Hlt. rewrite u64_next by lia.
  split_and!; cbn; try done; lia.
Qed.

Lemma send_data_inv (t t' : tunnel_t) (d : bytes) (r : Z) (w w' : world) :
  tunnel_inv t -> tunnel_send_data t d w = Some ((r, t'), w') -> tunnel_inv t'.
Proof.
  intros Hi H. unfold tunnel_send_data in H. destruct (_ <=? _) eqn:E1; zbool; [by run_step|].
  destruct (frame_build _ _ _ _ _); [|by run_step]. cbv zeta in H. run_step.
  destruct (_ <? 0); run_step; by apply enc_nonce_next_inv.
Qed.

Lemma send_control_inv (t t' : tunnel_t) (ty : Z) (w w' : world) :
  tunnel_inv t -> t_enc_nonce t < NONCE_OVERFLOW_LIMIT ->
  send_control ty t w = Some (t', w') -> tunnel_inv t'.
Proof.
  intros Hi Hlt H. unfold send_control in H. destruct (frame_build _ _ _ _ _); [|by run_step].
  cbv zeta in H. run_step. run_step. by apply enc_nonce_next_inv.
Qed.

Lemma drain_plaintext_inv (fuel : nat) (n : Z) (t t' : tunnel_t) (f : flow) (w w' : world) :
  tunnel_inv t -> drain_plaintext fuel n t w = Some ((f, t'), w') -> tunnel_inv t'.
Proof.
  revert n t w. induction fuel as [|fuel IH]; intros n t w Hi H; [done|].
  cbn [drain_plaintext] in H. run_step. destruct a as [[]|d].
  - by apply IH in H.
  - by run_step.
  - by run_step.
  - destruct (_ =? 0)%nat.
    + destruct (_ <? _) eqn:E1; zbool; run_step; [run_step|done]. by eapply send_control_inv.
    + run_step. destruct a as [sd t1]. assert (Hi1 := send_data_inv _ _ _ _ _ _ Hi E0).
      destruct (sd =? -2); [by run_step|]. destruct (sd <? 0); [by run_step|].
      cbv zeta in H. destruct (256 <? _); [by run_step|]. exact (IH _ _ _ Hi1 H).
Qed.

Lemma peer_rekey_inv (t t' : tunnel_t) (w w' : world) :
  tunnel_inv t -> peer_rekey t w = Some (t', w') -> tunnel_inv t'.
Proof.
  intros Hi H. unfold peer_rekey in H. run_step. destruct a as [[r sk] ctr].
  destruct (r =? 0) eqn:E0; run_step; [|done]. zbool. subst r.
  apply rekey_ok_keys in E as (-> & ? & ?). destruct Hi as (_ & _ & ? & _).
  split_and!; cbn; unfold NONCE_OVERFLOW_LIMIT in *; try done; lia.
Qed.

Lemma drain_frames_inv (fuel : nat) (fr fr' : frame_reader_t) (t t' : tunnel_t) (f : flow)
    (w w' : world) :
  tunnel_inv t -> drain_frames fuel fr t w = Some ((f, fr', t'), w') -> tunnel_inv t'.
Proof.
  revert fr t w. induction fuel as [|fuel IH]; intros fr t w Hi H; [done|].
  cbn [drain_frames] in H. destruct (_ - _ <=? _) eqn:E1; zbool; [by run_step|].
  destruct (_ <=? t_dec_nonce t); [by run_step|].
  assert (Hi1 := dec_nonce_next_inv t Hi E1).
  destruct (frame_reader_try_next _ _ _) as [[| |ty fl d] fr1]; [by run_step..|]. cbv zeta in H.
  destruct (ty =? FRAME_CLOSE); [by run_step|].
  destruct (ty =? FRAME_KEEPALIVE); [exact (IH _ _ _ Hi1 H)|].
  destruct (ty =? FRAME_KEYCONFIRM); [exact (IH _ _ _ Hi1 H)|].
  destruct (ty =? FRAME_REKEY).
  { run_step. apply peer_rekey_inv in E; [|done]. exact (IH _ _ _ E H). }
  destruct (_ <? _)%nat; [|exact (IH _ _ _ Hi1 H)].
  run_step. destruct (negb _); [by run_step|]. exact (IH _ _ _ Hi1 H).
Qed.

Lemma encrypted_side_inv (fr fr' : frame_reader_t) (t t' : tunnel_t) (f : flow) (w w' : world) :
  tunnel_inv t -> encrypted_side fr t w = Some ((f, fr', t'), w') -> tunnel_inv t'.
Proof.
  intros Hi H. unfold encrypted_side in H. destruct (frame_reader_fill _ _) as [[[c fr1] rx]|]; [|done].
  cbv zeta in H. destruct (c <? 0); [by injection H as _ _ <-|].
  destruct (c =? 0); [by injection H as _ _ <-|]. by eapply drain_frames_inv.
Qed.

Lemma do_rekey_inv (s s' : run_state) (w w' : world) :
  tunnel_inv (rs_tun s) -> do_rekey s w = Some (s', w') -> tunnel_inv (rs_tun s').
Proof.
  intros Hi H. unfold do_rekey in H. cbv zeta in H. run_step. destruct a as [[r nk] ctr].
  destruct (r =? 0) eqn:E0; [|by run_step]. zbool. subst r. run_step. run_step.
  apply rekey_ok_keys in E as (-> & ? & ?). destruct Hi as (_ & _ & _ & ?).
  split_and!; cbn; unfold NONCE_OVERFLOW_LIMIT in *; try done; lia.
Qed.

Lemma keepalive_inv (s s' : run_state) (w w' : world) :
  tunnel_inv (rs_tun s) -> keepalive s w = Some (s', w') -> tunnel_inv (rs_tun s').
Proof.
  intros Hi H. unfold keepalive in H. cbv zeta in H. destruct (_ && _) eqn:E; [|by run_step].
  zbool. run_step. destruct (_ <=? _); [|by run_step]. run_step. run_step.
  by eapply send_control_inv.
Qed.

Lemma tunnel_step_keeps_inv (s s' : run_state) (r : option Z) (w w' : world) :
  tunnel_inv (rs_tun s) -> tunnel_step s w = Some ((r, s'), w') -> tunnel_inv (rs_tun s').
Proof.
  intros Hi H. unfold tunnel_step in H. run_step. destruct a as [[]|pt enc]; [by run_step..|].
  run_step. destruct a as [f s1]. assert (Hi1 : tunnel_inv (rs_tun s1)).
  { unfold step_plaintext in E0. destruct (pollin pt); [|by injection E0 as _ <-].
    destruct (drain_plaintext _ _ _ _) as [[[f1 t1] w2]|] eqn:Ed; [|done].
    injection E0 as _ <- _. by eapply drain_plaintext_inv. }
  cbn [fst snd] in H. destruct f; [|run_step; run_step; by eapply do_rekey_inv|by run_step].
  run_step. destruct a as [f s2]. assert (Hi2 : tunnel_inv (rs_tun s2)).
  { unfold step_encrypted in E1. destruct (pollin enc); [|by run_step].
    run_step. destruct a as [[f1 fr1] t1]. run_step. by eapply encrypted_side_inv. }
  cbn [fst snd] in H. destruct f; [|run_step; run_step; by eapply do_rekey_inv|by run_step].
  unfold step_tail in H. destruct (pollbad pt); [by run_step|]. destruct (pollbad enc); [by run_step|].
  run_step. apply keepalive_inv in E2; [|done]. run_step. destruct a0; [|by run_step].
  run_step. run_step. by apply (do_rekey_inv a _ _ _ E2) in E4.
Qed.

Lemma tunnel_loop_keeps_inv (gs : list bool) (s s' : run_state) (r : Z) (w w' : world) :
  tunnel_inv (rs_tun s) -> tunnel_loop gs s w = Some ((r, s'), w') -> tunnel_inv (rs_tun s').
Proof.
  revert s w. induction gs as [|g gs IH]; intros s w Hi H; [done|].
  cbn [tunnel_loop] in H. destruct (_ && _); [|by run_step]. run_step. destruct a as [[r0|] s1].
  - cbn [fst snd] in H. run_step. by eapply tunnel_step_keeps_inv.
  - cbn [fst snd] in H. eapply IH; [|done]. by eapply tunnel_step_keeps_inv.
Qed.
End Invariant.

(** C13: from [tunnel_init] on 16-byte keys, through every iteration of the loop and
    whatever the network, the peer and the clock do, the keys stay 16-byte keys and
    both counters stay at or below the overflow limit, so they never wrap. *)
Theorem tunnel_counters_never_wrap (A : Aead) (C : Crypto) (CL : CryptoLaws C) (U : Locals)
    (pfd efd : Z) (enc dec : bytes) (gs : list bool) (s s' s2 : run_state) (r : option Z) (ret : Z)
    (w w' w1 w2 : world) :
  wf_block enc -> wf_block dec ->
  tunnel_inv (tunnel_init pfd efd enc dec) /\
  (tunnel_inv (rs_tun s) -> tunnel_step s w = Some ((r, s'), w') -> tunnel_inv (rs_tun s')) /\
  (tunnel_run gs (tunnel_init pfd efd enc dec) w1 = Some ((ret, s2), w2) -> tunnel_inv (rs_tun s2)).
Proof.
  intros He Hd. assert (Hi : tunnel_inv (tunnel_init pfd efd enc dec)).
  { split_and!; cbn; try done; unfold NONCE_OVERFLOW_LIMIT; lia. }
  split_and!; [done|apply tunnel_step_keeps_inv|]. unfold tunnel_run. intros H.
  run_step. run_step. refine (tunnel_loop_keeps_inv _ _ _ _ _ _ _ H). exact Hi.
Qed.

Definition demo_run : run_state := mkRun demo_tunnel_a (frame_reader_init 4) 0 0.

(** Two packets are sent and two received; then the plaintext side closes. *)
Definition demo_busy : world :=
  set_clock [Some 10] (set_poll [PollRet readable readable] (set_pt_rx (map RxData demo_packets ++ [RxErr EAGAIN])
    (set_rx [RxData (default [] (@build_frames pure_c (data_msgs demo_packets) 1 demo_nonce))]
      (set_pt_tx demo_tx [] (set_tx demo_tx [] world0))))).

Definition demo_closing : world :=
  set_clock [Some 0; Some 0; Some 10] (set_poll [PollRet readable readable; PollRet readable no_event]
    (set_pt_rx (map RxData demo_packets ++ [RxErr EAGAIN; RxData []]) (set_tx (demo_tx ++ demo_tx) [] demo_busy))).

Lemma tunnel_counters_never_wrap_witness : exists s' w' s2 w2,
  @tunnel_step pure_c toy_crypto no_locals demo_run demo_busy = Some ((None, s'), w') /\
  tunnel_inv (rs_tun s') /\ t_enc_nonce (rs_tun s') = 3 /\ t_dec_nonce (rs_tun s') = 3 /\
  @tunnel_run pure_c toy_crypto no_locals [true; true] (tunnel_init 3 4 demo_key demo_nonce) demo_closing = Some ((0, s2), w2) /\
  tunnel_inv (rs_tun s2) /\ t_enc_nonce (rs_tun s2) = 4.
Proof.
  assert (match @tunnel_step pure_c toy_crypto no_locals demo_run demo_busy with
          | Some ((None, s'), _) => (t_enc_nonce (rs_tun s') =? 3) && (t_dec_nonce (rs_tun s') =? 3) | _ => false end = true) as C1
    by (vm_compute; reflexivity).
  assert (match @tunnel_run pure_c toy_crypto no_locals [true; true] (tunnel_init 3 4 demo_key demo_nonce) demo_closing with
          | Some ((ret, s2), _) => (ret =? 0) && (t_enc_nonce (rs_tun s2) =? 4) | None => false end = true) as C2
    by (vm_compute; reflexivity).
  destruct (@tunnel_step pure_c toy_crypto no_locals demo_run demo_busy) as [[[[r|] s'] w']|] eqn:E1; [discriminate C1| |discriminate C1].
  destruct (@tunnel_run pure_c toy_crypto no_locals [true; true] (tunnel_init 3 4 demo_key demo_nonce) demo_closing)
    as [[[ret s2] w2]|] eqn:E2; [|discriminate C2]. zbool. subst ret.
  destruct (tunnel_counters_never_wrap pure_c toy_crypto toy_crypto_laws no_locals 3 4 demo_key demo_nonce
    [true; true] demo_run s' s2 None 0 demo_busy w' demo_closing w2 demo_key_block demo_nonce_block) as (_ & Hstep & Hrun).
  exists s', w', s2, w2. split_and!; try assumption; try reflexivity; [exact (Hstep (proj1 demo_tunnel_inv) E1)|exact (Hrun E2)].
Defined.

(** ** Re-keying from the loop *)

Lemma send_all_room (k : nat) (tx : list tx_ev) (b out : bytes) :
  tx_room (S k) tx -> (0 < length b)%nat -> zlen b <= FRAME_MAX_WIRE ->
  exists tx', send_all_loop tx b out = Some (0, tx', out ++ b) /\ tx_room k tx'.
Proof.
  intros [tx' ->] H0 Hb. cbn [replicate app send_all_loop]. rewrite max_wire in *.
  rewrite (proj2 (Nat.eqb_neq _ _)) by lia. rewrite Nat.min_r by lia.
  rewrite (proj2 (Nat.eqb_neq _ _)) by lia. rewrite drop_all, firstn_all.
  exists (replicate k (TxSome (Z.to_nat 65555)) ++ tx').
  split; [|exists tx'; by rewrite max_wire]. by destruct k; [destruct tx' as [|[] ?]|].
Qed.

Lemma wf_rekey (p : bytes) : wf_key32 p -> wf_frame FRAME_REKEY FLAG_NONE p.
Proof. intros [_ Hp]. split_and!; [unfold is_uint, FRAME_REKEY|unfold is_uint, FLAG_NONE|done]; lia. Qed.

(** The initiator of a re-keying that gets no answer in time: a REKEY frame is
    out, the context is as it was. *)
Lemma unanswered_rekey_run {A : Aead} {L : AeadLaws A} {C : Crypto} {CL : CryptoLaws C} {U : Locals} (s : run_state)
    (w : world) (e : bytes) (kg : list (option bytes)) (pl : list poll_ev) (k : nat) :
  tunnel_inv (rs_tun s) -> wf_key32 e -> w_keygen w = Some e :: kg -> w_poll w = PollRet no_event no_event :: pl ->
  tx_room (S k) (w_tx w) ->
  exists f1 tx, let w1 := set_rx (w_rx w) (set_poll pl (set_tx tx (w_out w ++ f1) (set_keygen kg w))) in
    frame_build FRAME_REKEY FLAG_NONE (x25519_pub e) (t_enc_nonce (rs_tun s)) (t_enc_key (rs_tun s)) = Some f1 /\
    tx_room k tx /\ do_rekey s w = Some (s, w1).
Proof.
  intros Hi He Hkg Hpoll Htx. destruct Hi as (Hk & _). assert (Hpe := x25519_pub_wf e He).
  assert (Hb := frame_build_eq FRAME_REKEY FLAG_NONE (x25519_pub e) (t_enc_nonce (rs_tun s)) (t_enc_key (rs_tun s))).
  destruct Hpe as [Hpl Hpw]. rewrite Hpl in Hb. specialize (Hb ltac:(done)). cbv zeta in Hb.
  match type of Hb with _ = Some ?x => set (f1 := x) in * end. clearbody f1.
  assert (Hl := Hb). apply frame_build_len in Hl as (_ & Hl & _); [|done|by apply wf_rekey].
  destruct (send_all_room k (w_tx w) f1 (w_out w) Htx) as (tx & Hs & Hr); [lia|rewrite max_wire; lia|].
  exists f1, tx. cbv zeta. split_and!; [done|done|].
  set (w1 := set_rx (w_rx w) (set_poll pl (set_tx tx (w_out w ++ f1) (set_keygen kg w)))).
  unfold do_rekey, handshake_rekey. cbv zeta.
  assert (Hx : rekey_exchange (x25519_pub e) (tunnel_keys (rs_tun s)) (t_enc_nonce (rs_tun s)) true
    (set_keygen kg w) = Some ((None, u64 (t_enc_nonce (rs_tun s) + 1)), w1)).
  { unfold rekey_exchange. cbn [tunnel_keys enc_key]. rewrite Hb. cbv zeta.
    rewrite (M_bind_eq (send_all f1) _ (set_keygen kg w) 0 (set_tx tx (w_out w ++ f1) (set_keygen kg w)))
      by (unfold send_all; cbn [w_tx w_out set_keygen]; by rewrite Hs).
    cbn [Z.eqb negb].
    rewrite (M_bind_eq (recv_all _) _ _ None w1) by (unfold recv_all; cbn [w_poll set_tx set_keygen]; by rewrite Hpoll).
    done. }
  unfold mbind, M_bind. by rewrite (ecdh_keygen_run w e kg Hkg), Hx.
Qed.

(** C37: a re-keying the peer does not answer leaves the context as it was, although
    a REKEY frame has gone out under the current counter: the next DATA frame is
    sealed under the same key and the same nonce. *)
Theorem unanswered_rekey_reuses_nonce (A : Aead) (L : AeadLaws A) (C : Crypto) (CL : CryptoLaws C)
    (U : Locals) (s : run_state) (w : world) (e d : bytes) (kg : list (option bytes))
    (pl : list poll_ev) :
  tunnel_inv (rs_tun s) -> t_enc_nonce (rs_tun s) < NONCE_OVERFLOW_LIMIT ->
  wf_key32 e -> w_keygen w = Some e :: kg -> w_poll w = PollRet no_event no_event :: pl ->
  tx_room 2 (w_tx w) -> wf_bytes d -> zlen d <= FRAME_MAX_PAYLOAD ->
  let n := t_enc_nonce (rs_tun s) in
  let key := t_enc_key (rs_tun s) in
  exists s' w1 w2 t2 f1 f2 r,
    do_rekey s w = Some (s', w1) /\ s' = s /\
    frame_build FRAME_REKEY FLAG_NONE (x25519_pub e) n key = Some f1 /\
    tunnel_send_data (rs_tun s') d w1 = Some ((r, t2), w2) /\
    frame_build FRAME_DATA FLAG_NONE d n key = Some f2 /\
    w_out w2 = w_out w ++ f1 ++ f2.
Proof.
  intros Hi Hlt He Hkg Hpoll Htx Hd Hld. cbv zeta.
  destruct (unanswered_rekey_run s w e kg pl 1) as (f1 & tx & Hb & Hr & Hdo); [done..|]. cbv zeta in Hdo.
  match type of Hdo with _ = Some (_, ?x) => set (w1 := x) in * end.
  destruct (tunnel_send_data_run (rs_tun s) d 0 w1) as (f2 & tx2 & Hb2 & Hs2 & _); [done..|].
  eexists s, w1, _, _, f1, f2, _. split_and!; [done|done|done|exact Hs2|done|].
  cbn. by rewrite app_assoc.
Qed.

Definition demo_stalled : world :=
  set_poll [PollRet no_event no_event] (set_keygen [Some key_ea] (set_tx demo_tx [] world0)).

Lemma unanswered_rekey_reuses_nonce_witness :
  exists s' w1 w2 t2 f1 f2 r,
    @do_rekey pure_c toy_crypto no_locals demo_run demo_stalled = Some (s', w1) /\ s' = demo_run /\
    @frame_build pure_c FRAME_REKEY FLAG_NONE (@x25519_pub toy_crypto key_ea)
      (t_enc_nonce (rs_tun demo_run)) (t_enc_key (rs_tun demo_run)) = Some f1 /\
    @tunnel_send_data pure_c (rs_tun s') [9; 9] w1 = Some ((r, t2), w2) /\
    @frame_build pure_c FRAME_DATA FLAG_NONE [9; 9]
      (t_enc_nonce (rs_tun demo_run)) (t_enc_key (rs_tun demo_run)) = Some f2 /\
    w_out w2 = w_out demo_stalled ++ f1 ++ f2.
Proof.
  apply (unanswered_rekey_reuses_nonce pure_c pure_c_laws toy_crypto toy_crypto_laws no_locals demo_run
    demo_stalled key_ea [9; 9] [] []).
  - apply demo_tunnel_inv.
  - cbn. unfold NONCE_OVERFLOW_LIMIT. lia.
  - apply wf_key32_rep. unfold is_uint. lia.
  - reflexivity.
  - reflexivity.
  - exists []. reflexivity.
  - apply wf_bytesb_spec. reflexivity.
  - unfold FRAME_MAX_PAYLOAD. simpl. lia.
Defined.

(** *** The other end

    The REKEY frame reaches the peer through the frame reader, which takes it off
    the socket; the peer's [handshake_rekey] then waits for a second one. *)

Section Responder.
Context {A : Aead} {L : AeadLaws A} {C : Crypto} {U : Locals}.

(** One chunk into an empty reader. *)
Lemma fill_one (fr : frame_reader_t) (d : bytes) (rx : list rx_ev) :
  reader_inv fr -> fr_eof fr = false -> pending fr = [] -> wf_bytes d -> d <> [] -> zlen d <= FRAME_MAX_WIRE ->
  exists fr', frame_reader_fill fr (RxData d :: rx) = Some (1, fr', rx) /\
    reader_inv fr' /\ fr_eof fr' = false /\ pending fr' = d.
Proof.
  intros Hi He Hp Hw Hd Hl. pose proof (fill_spec fr [RxData d] Hi) as H.
  specialize (H ltac:(by repeat constructor) He ltac:(rewrite Hp, max_wire; simpl; lia)).
  destruct (compact_spec fr Hi) as (_ & _ & _ & Hlen & _).
  unfold frame_reader_fill. unfold fill_buffer in *. rewrite He in *. cbv zeta in *. rewrite Hlen, Hp in *.
  cbn [length Z.of_nat] in *. rewrite Z.sub_0_r, (u64_small FRAME_MAX_WIRE) in * by (rewrite max_wire; lia).
  rewrite (proj2 (Z.eqb_neq FRAME_MAX_WIRE 0)) in * by (rewrite max_wire; lia).
  cbn [sys_recv] in *. rewrite take_ge, drop_ge in * by lia.
  rewrite (proj2 (Nat.eqb_neq _ _)) in * by (destruct d; done).
  destruct H as (H1 & _ & [(_ & H2 & _ & H3 & _)|[(Hc & _)|(Hc & _)]]); [|discriminate Hc..].
  eexists. split_and!; [reflexivity|exact H1|exact H2|].
  cbn [rx_flow fst app] in H3. rewrite app_nil_r in H3. rewrite H3. by destruct d; [|cbn; rewrite app_nil_r].
Qed.

(** The peer's part of a re-keying with nothing more to read: no answer, no new keys. *)
Lemma peer_rekey_alone (t : tunnel_t) (w : world) (o : option bytes) (kg : list (option bytes)) (pl : list poll_ev) :
  w_keygen w = o :: kg -> w_poll w = PollRet no_event no_event :: pl ->
  exists w', peer_rekey t w = Some (t, w') /\ w_out w' = w_out w /\ w_rx w' = w_rx w /\ w_pt_out w' = w_pt_out w.
Proof.
  intros Hk Hp. unfold peer_rekey, handshake_rekey, ecdh_keygen, mbind, M_bind. rewrite Hk.
  destruct o as [e|]; [|by eexists].
  cbn [rekey_exchange]. unfold rekey_exchange, recv_all, mbind, M_bind. cbn [w_poll set_keygen]. rewrite Hp.
  cbn. by eexists.
Qed.

Lemma drain_frames_rekey (fuel : nat) (fr : frame_reader_t) (t : tunnel_t) (w : world) (p f1 : bytes)
    (o : option bytes) (kg : list (option bytes)) (pl : list poll_ev) :
  tunnel_inv t -> reader_inv fr -> wf_key32 p -> t_dec_nonce t + 1 < NONCE_OVERFLOW_LIMIT - NONCE_REKEY_MARGIN ->
  frame_build FRAME_REKEY FLAG_NONE p (t_dec_nonce t) (t_dec_key t) = Some f1 -> pending fr = f1 ->
  w_keygen w = o :: kg -> w_poll w = PollRet no_event no_event :: pl ->
  exists fr' w', drain_frames (S (S fuel)) fr t w = Some ((Go, fr', set_dec_nonce (t_dec_nonce t + 1) t), w') /\
    reader_inv fr' /\ fr_eof fr' = fr_eof fr /\ pending fr' = [] /\
    w_out w' = w_out w /\ w_rx w' = w_rx w /\ w_pt_out w' = w_pt_out w.
Proof.
  intros Hi Hfr Hpk Hn Hb Hp Hk Hpl. destruct Hi as (_ & Hdk & _ & Hdn). unfold NONCE_REKEY_MARGIN in Hn.
  cbn [drain_frames]. unfold NONCE_REKEY_MARGIN. rewrite !(proj2 (Z.leb_gt _ (t_dec_nonce t))) by lia.
  pose proof (try_next_spec fr (t_dec_nonce t) (t_dec_key t) Hfr) as Hnext.
  destruct (frame_reader_try_next fr _ _) as [r fr1]. destruct Hnext as (Hnx & Hi1 & He1 & _).
  rewrite Hp, <- (app_nil_r f1), (stream_next_wire FRAME_REKEY FLAG_NONE p) in Hnx by (done || by apply wf_rekey).
  injection Hnx as <- Hp1. rewrite u64_next by lia.
  cbn [FRAME_CLOSE FRAME_KEEPALIVE FRAME_KEYCONFIRM FRAME_REKEY Z.eqb Pos.eqb].
  destruct (peer_rekey_alone (set_dec_nonce (t_dec_nonce t + 1) t) w o kg pl Hk Hpl) as (w' & Hrun & H1 & H2 & H3).
  rewrite (M_bind_eq _ _ _ _ _ Hrun). cbn [t_dec_nonce t_dec_key set_dec_nonce].
  rewrite !(proj2 (Z.leb_gt _ (t_dec_nonce t + 1))) by lia.
  pose proof (try_next_spec fr1 (t_dec_nonce t + 1) (t_dec_key t) Hi1) as Hnext.
  destruct (frame_reader_try_next fr1 _ _) as [r fr2]. destruct Hnext as (Hnx & _ & _ & Hnone).
  rewrite <- Hp1 in Hnx. injection Hnx as <- _. destruct (Hnone eq_refl) as [-> _].
  exists fr1, w'. split_and!; try done.
Qed.
End Responder.

(** C38: the periodic re-keying ends the session.  The initiator's REKEY frame is
    taken off the socket by the peer's frame reader, which counts it; the peer's
    [handshake_rekey] waits for a second one, nothing comes, it answers nothing and
    keeps its keys.  The initiator gets no answer, keeps its keys and its counter.
    The two counters are now out of step, and the next DATA frame makes the peer
    leave the tunnel with an error, unless that frame also verifies under the next
    counter. *)
Theorem rekey_ends_session (A : Aead) (L : AeadLaws A) (C : Crypto) (CL : CryptoLaws C) (U : Locals)
    (s : run_state) (t2 : tunnel_t) (fr : frame_reader_t) (w w2 : world) (e d : bytes) (o : option bytes)
    (kg kg2 : list (option bytes)) (pl pl2 : list poll_ev) (rx : list rx_ev) :
  let n := t_enc_nonce (rs_tun s) in
  let key := t_enc_key (rs_tun s) in
  tunnel_inv (rs_tun s) -> tunnel_inv t2 -> t_dec_key t2 = key -> t_dec_nonce t2 = n ->
  n + 1 < NONCE_OVERFLOW_LIMIT - NONCE_REKEY_MARGIN ->
  wf_key32 e -> w_keygen w = Some e :: kg -> w_poll w = PollRet no_event no_event :: pl -> tx_room 2 (w_tx w) ->
  wf_bytes d -> zlen d <= FRAME_MAX_PAYLOAD ->
  reader_inv fr -> fr_eof fr = false -> pending fr = [] ->
  w_keygen w2 = o :: kg2 -> w_poll w2 = PollRet no_event no_event :: pl2 ->
  exists f1 f2 w1 t' w' r,
    frame_build FRAME_REKEY FLAG_NONE (x25519_pub e) n key = Some f1 /\ frame_build FRAME_DATA FLAG_NONE d n key = Some f2 /\
    do_rekey s w = Some (s, w1) /\ tunnel_send_data (rs_tun s) d w1 = Some ((r, t'), w') /\
    w_out w' = w_out w ++ f1 ++ f2 /\
    (w_rx w2 = RxData f1 :: RxData f2 :: rx ->
     exists fr' w2', let t2' := set_dec_nonce (n + 1) t2 in
       encrypted_side fr t2 w2 = Some ((Go, fr', t2'), w2') /\ w_out w2' = w_out w2 /\
       (frame_parse f2 (n + 1) key = None ->
        exists fr'' w2'', encrypted_side fr' t2' w2' = Some ((Ret (-1), fr'', t2'), w2'') /\ w_pt_out w2'' = w_pt_out w2)).
Proof.
  cbv zeta. intros Hi Hi2 Hkey Hctr Hn He Hkg Hpoll Htx Hd Hld Hfr Heof Hpe Hkg2 Hpoll2.
  assert (t_enc_nonce (rs_tun s) < NONCE_OVERFLOW_LIMIT) as Hlt by (unfold NONCE_REKEY_MARGIN in Hn; lia).
  destruct (unanswered_rekey_run s w e kg pl 1) as (f1 & tx & Hb & Hr & Hdo); [done..|]. cbv zeta in Hdo.
  match type of Hdo with _ = Some (_, ?x) => set (w1 := x) in * end.
  destruct (tunnel_send_data_run (rs_tun s) d 0 w1) as (f2 & tx2 & Hb2 & Hs2 & _); [done..|].
  eexists f1, f2, w1, _, _, _. split_and!; [exact Hb|exact Hb2|exact Hdo|exact Hs2|cbn; by rewrite app_assoc|]. intros Hrx.
  assert (Hk := proj1 Hi). assert (Hpk := x25519_pub_wf e He). assert (Hl1 := Hb). assert (Hl2 := Hb2).
  apply frame_build_len in Hl1 as (_ & Hl1 & Hw1 & _); [|done|by apply wf_rekey].
  apply frame_build_len in Hl2 as (Hld2 & Hl2 & Hw2 & _); [|done|by apply wf_data].
  destruct Hpk as [Hpl Hpw]. rewrite Hpl in Hl1. unfold FRAME_MAX_PAYLOAD in Hld2.
  destruct (fill_one fr f1 (RxData f2 :: rx)) as (fr1 & Hf1 & Hi1 & He1 & Hp1);
    [done..|intros ->; discriminate Hl1|rewrite max_wire; lia|].
  rewrite <- Hctr, <- Hkey in Hb.
  destruct (drain_frames_rekey (length f1 - 1) fr1 t2 (set_rx (RxData f2 :: rx) w2) (x25519_pub e) f1 o kg2 pl2)
    as (fr' & w2' & Hrun & Hi' & He' & Hp' & Ho' & Hrx' & Hpo'); try done; [rewrite Hctr; lia|].
  exists fr', w2'. rewrite <- Hctr. split_and!; [|done|].
  { unfold encrypted_side. rewrite Hrx, Hf1. cbn [Z.ltb Z.eqb Z.compare]. rewrite Hp1.
    replace (S (length f1)) with (S (S (length f1 - 1))) by lia. exact Hrun. }
  destruct (fill_one fr' f2 rx) as (fr2 & Hf2 & Hi2' & He2 & Hp2); try done; [congruence|intros ->; simpl in Hl2; lia|rewrite max_wire; lia|].
  set (t2' := set_dec_nonce (t_dec_nonce t2 + 1) t2).
  rewrite <- Hkey. intros Ep. pose proof (try_next_spec fr2 (t_dec_nonce t2 + 1) (t_dec_key t2) Hi2') as Hnext.
  assert (stream_next f2 (t_dec_nonce t2 + 1) (t_dec_key t2) = (NextErr, f2)) as Hsn.
  { apply frame_build_len in Hb2 as (_ & _ & _ & Hh); [|done|by apply wf_data].
    unfold stream_next. cbv zeta. assert (header_len f2 = zlen d) as ->.
    { rewrite <- (take_drop 4 f2), Hh. apply header_len_header. split; lia. }
    rewrite Hl2, !(proj2 (Z.ltb_ge _ _)) by lia. rewrite take_ge by lia. by rewrite Ep. }
  destruct (frame_reader_try_next fr2 _ _) as [r2 fr3] eqn:Enx. destruct Hnext as (Hnx & _).
  rewrite Hp2, Hsn in Hnx. injection Hnx as <- _.
  exists fr3, (set_rx rx w2'). split; [|exact Hpo'].
  unfold encrypted_side. rewrite Hrx'. cbn [w_rx set_rx]. rewrite Hf2. cbn [Z.ltb Z.eqb Z.compare].
  cbn [drain_frames t_dec_nonce t_dec_key t2' set_dec_nonce]. unfold NONCE_REKEY_MARGIN in *.
  rewrite !(proj2 (Z.leb_gt _ (t_dec_nonce t2 + 1))) by lia. rewrite Enx. done.
Qed.

Definition demo_rekey_frame : bytes :=
  default [] (@frame_build pure_c FRAME_REKEY FLAG_NONE (@x25519_pub toy_crypto key_ea) 1 demo_key).
Definition demo_next_frame : bytes := default [] (@frame_build pure_c FRAME_DATA FLAG_NONE [9; 9] 1 demo_key).

Definition demo_asked : world :=
  set_poll [PollRet no_event no_event] (set_keygen [Some key_eb]
    (set_rx [RxData demo_rekey_frame; RxData demo_next_frame] (set_tx demo_tx [] world0))).

(** With the portable cipher: the peer leaves with an error. *)
Lemma rekey_ends_session_witness : exists w1 fr' w2' fr'' w2'',
  @do_rekey pure_c toy_crypto no_locals demo_run demo_stalled = Some (demo_run, w1) /\
  @encrypted_side pure_c toy_crypto no_locals (frame_reader_init 4) demo_tunnel_b demo_asked =
    Some ((Go, fr', set_dec_nonce 2 demo_tunnel_b), w2') /\
  @encrypted_side pure_c toy_crypto no_locals fr' (set_dec_nonce 2 demo_tunnel_b) w2' =
    Some ((Ret (-1), fr'', set_dec_nonce 2 demo_tunnel_b), w2'').
Proof.
  destruct (rekey_ends_session pure_c pure_c_laws toy_crypto toy_crypto_laws no_locals demo_run demo_tunnel_b
    (frame_reader_init 4) demo_stalled demo_asked key_ea [9; 9] (Some key_eb) [] [] [] [] [])
    as (f1 & f2 & w1 & t' & w' & r & Hb1 & Hb2 & Hdo & _ & _ & H).
  - apply demo_tunnel_inv.
  - apply demo_tunnel_inv.
  - reflexivity.
  - reflexivity.
  - reflexivity.
  - apply wf_key32_rep. unfold is_uint. lia.
  - reflexivity.
  - reflexivity.
  - exists []. reflexivity.
  - apply wf_bytesb_spec. reflexivity.
  - unfold FRAME_MAX_PAYLOAD. simpl. lia.
  - apply init_inv.
  - reflexivity.
  - apply init_pending.
  - reflexivity.
  - reflexivity.
  - destruct H as (fr' & w2' & Hrun & _ & H).
    { replace f1 with demo_rekey_frame by (unfold demo_rekey_frame; change (t_enc_nonce (rs_tun demo_run)) with 1 in Hb1;
        change (t_enc_key (rs_tun demo_run)) with demo_key in Hb1; rewrite Hb1; reflexivity).
      replace f2 with demo_next_frame by (unfold demo_next_frame; change (t_enc_nonce (rs_tun demo_run)) with 1 in Hb2;
        change (t_enc_key (rs_tun demo_run)) with demo_key in Hb2; rewrite Hb2; reflexivity). reflexivity. }
    destruct H as (fr'' & w2'' & Hrun' & _).
    + assert (@frame_parse pure_c demo_next_frame 2 demo_key = None) as Hp by (vm_compute; reflexivity).
      unfold demo_next_frame in Hp. change (t_enc_nonce (rs_tun demo_run)) with 1 in Hb2 |- *.
      change (t_enc_key (rs_tun demo_run)) with demo_key in Hb2 |- *. rewrite Hb2 in Hp. exact Hp.
    + exists w1, fr', w2', fr'', w2''. split_and!; [exact Hdo|exact Hrun|exact Hrun'].
Defined.

(** Once the receive counter is within the margin of the limit, no iteration
    ever reads a frame again: extraction jumps to the re-keying at once, and the
    re-keying of the loop, successful or not, does not touch the receive counter. *)
Theorem receive_counter_pressure_sticks (A : Aead) (C : Crypto) (U : Locals) (fuel : nat)
    (fr : frame_reader_t) (s s' : run_state) (w w' : world) :
  NONCE_OVERFLOW_LIMIT - NONCE_REKEY_MARGIN <= t_dec_nonce (rs_tun s) ->
  drain_frames (S fuel) fr (rs_tun s) w = Some ((Rekey, fr, rs_tun s), w) /\
  (do_rekey s w = Some (s', w') -> t_dec_nonce (rs_tun s') = t_dec_nonce (rs_tun s)).
Proof.
  intros H. split.
  - cbn [drain_frames]. by rewrite (proj2 (Z.leb_le _ _)).
  - intros Hr. unfold do_rekey in Hr. cbv zeta in Hr. run_step. destruct a as [[r nk] ctr].
    destruct (r =? 0); [run_step|]; by run_step.
Qed.

Definition demo_pressed : run_state :=
  mkRun (set_dec_nonce (NONCE_OVERFLOW_LIMIT - NONCE_REKEY_MARGIN) demo_tunnel_a) (frame_reader_init 4) 0 0.

Lemma receive_counter_pressure_sticks_witness :
  @drain_frames pure_c toy_crypto no_locals 1 (rs_fr demo_pressed) (rs_tun demo_pressed) demo_stalled =
    Some ((Rekey, rs_fr demo_pressed, rs_tun demo_pressed), demo_stalled) /\
  (@do_rekey pure_c toy_crypto no_locals demo_pressed demo_stalled = Some (demo_pressed, demo_small) ->
   t_dec_nonce (rs_tun demo_pressed) = t_dec_nonce (rs_tun demo_pressed)).
Proof.
  apply (receive_counter_pressure_sticks pure_c toy_crypto no_locals 0 (rs_fr demo_pressed) demo_pressed
    demo_pressed demo_stalled demo_small). cbn. lia.
Defined.

(** ** Plaintext sides that block

    The TUN device is non-blocking: a read without data is [EAGAIN], and the
    drain ends.  The sockets of the forwarding and SOCKS5 modes are not; a read
    without data does not return, which is a script that has ended. *)

(** What an iteration makes of the end of the drain. *)
Definition after_drain (s : run_state) (x : option (flow * tunnel_t * world)) : option (flow * run_state * world) :=
  match x with
  | None => None
  | Some ((f, t), w) => Some ((f, mkRun t (rs_fr s) (rs_last_ka s) (rs_last_rekey s)), w)
  end.

(** C36: on a blocking socket the tunnel stalls.  The local program has sent a
    request of up to 256 pieces and waits for the answer: the iteration seals and
    sends the pieces and is then in [read] again, with the encrypted side unread and
    nothing written to the program, whatever has arrived.  While the program sends
    nothing the iteration does not go on; if it closes, [tunnel_run] returns 0 with
    the answer unread and undelivered.  (If it sends again, the same holds of the
    longer request.) *)
Theorem blocking_socket_stalls (A : Aead) (L : AeadLaws A) (C : Crypto) (U : Locals) (s : run_state) (ps : list bytes)
    (later : list rx_ev) (enc : revents) (polls : list poll_ev) (w : world) :
  tunnel_inv (rs_tun s) -> w_poll w = PollRet readable enc :: polls -> w_pt_rx w = map RxData ps ++ later ->
  Forall (fun p => p <> [] /\ wf_bytes p /\ zlen p <= FRAME_MAX_PAYLOAD) ps -> zlen ps <= 256 ->
  tx_room (length ps + 1) (w_tx w) -> t_enc_nonce (rs_tun s) + zlen ps < NONCE_OVERFLOW_LIMIT ->
  exists stream t1 w1 fuel,
    build_frames (data_msgs ps) (t_enc_nonce (rs_tun s)) (t_enc_key (rs_tun s)) = Some stream /\
    w_out w1 = w_out w ++ stream /\ w_pt_rx w1 = later /\ w_rx w1 = w_rx w /\ w_pt_out w1 = w_pt_out w /\
    step_plaintext readable s (set_poll polls w) = after_drain s (drain_plaintext (S fuel) (zlen ps) t1 w1) /\
    (later = [] -> pt_read w1 = None /\ tunnel_step s w = None) /\
    (forall l, later = RxData [] :: l ->
      exists s' w', tunnel_step s w = Some ((Some 0, s'), w') /\ w_rx w' = w_rx w /\ w_pt_out w' = w_pt_out w).
Proof.
  intros Hi Hp Hrx Hps Hn Hr Hlim.
  set (fuel := (rx_size (w_pt_rx w) - length ps)%nat).
  assert (S (rx_size (w_pt_rx w)) = (length ps + S fuel)%nat) as E.
  { assert (length ps <= rx_size (w_pt_rx w))%nat; [|lia]. rewrite Hrx. clear. induction ps; simpl in *; lia. }
  destruct (drain_plaintext_data ps later (S fuel) 1 0 (rs_tun s) (set_poll polls w)) as (stream & tx & Hs & Hr1 & Hrun); [done..|lia|done|].
  cbn [w_out set_poll] in Hrun. set (w1 := set_pt_rx later _) in Hrun. set (t1 := set_enc_nonce _ _) in Hrun.
  assert (step_plaintext readable s (set_poll polls w) = after_drain s (drain_plaintext (S fuel) (0 + zlen ps) t1 w1)) as Hstep.
  { unfold step_plaintext. cbn [pollin readable w_pt_rx set_poll]. rewrite E, Hrun. done. }
  rewrite Z.add_0_l in Hstep.
  assert (tunnel_step s w = match after_drain s (drain_plaintext (S fuel) (zlen ps) t1 w1) with
     | Some ((Ret r, s'), w') => Some ((Some r, s'), w') | None => None | Some _ => tunnel_step s w end) as Hts.
  { unfold tunnel_step.
    rewrite (M_bind_eq do_poll _ w (PollRet readable enc) (set_poll polls w)) by (unfold do_poll; by rewrite Hp).
    unfold mbind, M_bind. rewrite Hstep. by destruct (after_drain _ _) as [[[[| |r] s'] w']|]. }
  exists stream, t1, w1, fuel. split_and!; [exact Hs|done|done|done|done|exact Hstep| |].
  - intros ->. assert (pt_read w1 = None) as Hb by done. split; [done|]. rewrite Hts.
    cbn [drain_plaintext]. unfold mbind, M_bind. by rewrite Hb.
  - intros l ->. rewrite Hts. cbn [drain_plaintext].
    rewrite (M_bind_eq pt_read _ w1 (inr []) (set_pt_rx l w1)) by done. cbn [length Nat.eqb t_enc_nonce set_enc_nonce t1].
    rewrite (proj2 (Z.ltb_lt _ _)) by done.
    unfold send_control. destruct (frame_build _ _ _ _ _); [|by eexists _, _].
    destruct Hr1 as [tx1 ->]. by eexists _, _.
Qed.

(** A request has been sent; the answer is there. *)
Definition demo_waiting (later : list rx_ev) : world :=
  set_poll [PollRet readable readable] (set_rx [RxData demo_tunnel_stream]
    (set_pt_rx (map RxData demo_packets ++ later) (set_tx (replicate 3 (TxSome (Z.to_nat FRAME_MAX_WIRE))) [] world0))).

Lemma blocking_socket_stalls_witness :
  @tunnel_step pure_c toy_crypto no_locals demo_run (demo_waiting []) = None /\
  exists s' w', @tunnel_step pure_c toy_crypto no_locals demo_run (demo_waiting [RxData []]) = Some ((Some 0, s'), w') /\
    w_rx w' = [RxData demo_tunnel_stream] /\ w_pt_out w' = [].
Proof.
  assert (Forall (fun p => p <> [] /\ wf_bytes p /\ zlen p <= FRAME_MAX_PAYLOAD) demo_packets) as Hps
    by (repeat constructor; try discriminate; unfold is_uint, FRAME_MAX_PAYLOAD; simpl; lia).
  split.
  - destruct (blocking_socket_stalls pure_c pure_c_laws toy_crypto no_locals demo_run demo_packets [] readable [] (demo_waiting []))
      as (stream & t1 & w1 & fuel & _ & _ & _ & _ & _ & _ & H & _);
      [apply demo_tunnel_inv|reflexivity|reflexivity|exact Hps|simpl; lia|exists []; reflexivity|reflexivity|].
    exact (proj2 (H eq_refl)).
  - destruct (blocking_socket_stalls pure_c pure_c_laws toy_crypto no_locals demo_run demo_packets [RxData []] readable [] (demo_waiting [RxData []]))
      as (stream & t1 & w1 & fuel & _ & _ & _ & _ & _ & _ & _ & H);
      [apply demo_tunnel_inv|reflexivity|reflexivity|exact Hps|simpl; lia|exists []; reflexivity|reflexivity|].
    exact (H [] eq_refl).
Defined.
