(* ===== verification/ModeCommon.v ===== *)
(** * ModeCommon: src/mode_common.c

    The per-address limit on handshake attempts, with its table of 32 slots, and
    the handshake that tries the configured peers one after the other. *)

From S2P Require Import Prelude Aes Aegis Aead Util Io Frame Handshake.

(** ** Rate limiter *)

Definition RATE_MAX_IPS : nat := 32.
Definition RATE_MAX_ATTEMPTS : Z := 5.
Definition RATE_WINDOW_SEC : Z := 60.
Definition INET_ADDRSTRLEN : nat := 16.

(** [ip] is the C string in the array, without its terminator. *)
Record rate_entry_t := mkRate { re_ip : bytes; re_count : Z; re_window_start : Z }.

(** The two statics of the file. *)
Record rate_state := mkRateState { rate_table : list rate_entry_t; rate_next_slot : nat }.

Definition rate_init : rate_state :=
  mkRateState (replicate RATE_MAX_IPS (mkRate [] 0 0)) 0.

(** [rate_table\[i\].ip\[0\] && !strcmp(rate_table\[i\].ip, ip)]. *)
Definition rate_match (ip : bytes) (e : rate_entry_t) : bool :=
  match re_ip e with [] => false | _ => bool_decide (re_ip e = ip) end.

(** The first matching slot. *)
Fixpoint rate_find (ip : bytes) (l : list rate_entry_t) : option nat :=
  match l with
  | [] => None
  | e :: l' => if rate_match ip e then Some 0%nat else S <$> rate_find ip l'
  end.

Definition handshake_rate_check (ip : bytes) (now : Z) (s : rate_state) : Z * rate_state :=
  match rate_find ip (rate_table s) with
  | Some i =>
      let e := nth i (rate_table s) (mkRate [] 0 0) in
      if RATE_WINDOW_SEC <? now - re_window_start e then
        (0, mkRateState (<[i := mkRate (re_ip e) 1 now]> (rate_table s)) (rate_next_slot s))
      else
        let c := s32 (re_count e + 1) in
        ((if RATE_MAX_ATTEMPTS <? c then -1 else 0),
         mkRateState (<[i := mkRate (re_ip e) c (re_window_start e)]> (rate_table s)) (rate_next_slot s))
  | None =>
      let slot := rate_next_slot s in
      (0, mkRateState (<[slot := mkRate (take (INET_ADDRSTRLEN - 1) ip) 1 now]> (rate_table s))
            ((slot + 1) mod RATE_MAX_IPS))
  end.

(** ** Handshake with any of the peers *)

Section TryPeers.
Context {A : Aead} {C : Crypto} {U : Locals}.

(** The loop over [g_asym_peers], from index [i]. *)
Fixpoint try_peers (i : Z) (priv : bytes) (peers : list bytes) (keys : session_keys_t) :
    M (Z * session_keys_t) :=
  match peers with
  | [] => mret (-1, keys)
  | p :: peers' =>
      x ← handshake_server priv p keys;
      let '(r, keys) := x in
      if r =? 0 then mret (i, keys) else try_peers (i + 1) priv peers' keys
  end.

Definition try_handshake_server (priv : bytes) (peers : list bytes) (keys : session_keys_t) :
    M (Z * session_keys_t) :=
  try_peers 0 priv peers keys.
End TryPeers.

(** ** The limiter limits

    The table of 32 slots implements one independent limiter per address, as long
    as no more than 32 addresses show up: then no slot is taken over. *)

(** An address as [inet_ntop] writes it: not empty, fits the array. *)
Definition wf_ip (ip : bytes) : Prop := ip <> [] /\ (length ip < INET_ADDRSTRLEN)%nat.

(** Attempts of any addresses, one after the other, with the verdicts. *)
Fixpoint rate_run (evs : list (bytes * Z)) (s : rate_state) : list Z * rate_state :=
  match evs with
  | [] => ([], s)
  | (ip, now) :: evs' =>
      let '(r, s) := handshake_rate_check ip now s in
      let '(rs, s) := rate_run evs' s in (r :: rs, s)
  end.

(** *** The limiter of one address

    Attempts since the window began and its beginning. *)
Definition alone_step (st : option (Z * Z)) (now : Z) : Z * option (Z * Z) :=
  match st with
  | None => (0, Some (1, now))
  | Some (c, t0) =>
      if RATE_WINDOW_SEC <? now - t0 then (0, Some (1, now))
      else ((if c <? RATE_MAX_ATTEMPTS then 0 else -1), Some (c + 1, t0))
  end.

Definition alone (ts : list Z) : option (Z * Z) := foldl (fun st t => snd (alone_step st t)) None ts.

(** The times at which [ip] tried. *)
Definition times (ip : bytes) (evs : list (bytes * Z)) : list Z :=
  omap (fun e => if bool_decide (e.1 = ip) then Some e.2 else None) evs.

(** All within sixty seconds of the first. *)
Definition one_window (ts : list Z) : Prop :=
  match ts with [] => True | t0 :: ts' => Forall (fun t => t - t0 <= RATE_WINDOW_SEC) ts' end.

Lemma alone_window (ts : list Z) (t0 c : Z) :
  Forall (fun t => t - t0 <= RATE_WINDOW_SEC) ts ->
  foldl (fun st t => snd (alone_step st t)) (Some (c, t0)) ts = Some (c + zlen ts, t0).
Proof.
  revert c. induction ts as [|t ts IH]; intros c H; [by rewrite Z.add_0_r|].
  apply Forall_cons in H as [Ht H]. cbn [foldl]. unfold alone_step at 2. rewrite (proj2 (Z.ltb_ge _ _)) by done.
  cbn [snd]. rewrite IH by done. do 2 f_equal. cbn [length]. lia.
Qed.

(** Within one window exactly the first five attempts pass. *)
Lemma alone_five (ts : list Z) (now : Z) : one_window (ts ++ [now]) ->
  fst (alone_step (alone ts) now) = if zlen ts <? 5 then 0 else -1.
Proof.
  destruct ts as [|t0 ts]; [done|]. intros H. cbn [app one_window] in H.
  apply Forall_app in H as [H1 [H2 _]%Forall_cons].
  unfold alone. cbn [foldl]. change (snd (alone_step None t0)) with (Some (1, t0)).
  rewrite alone_window by done. cbn [alone_step].
  rewrite (proj2 (Z.ltb_ge RATE_WINDOW_SEC (now - t0)) H2). cbn [fst length].
  unfold RATE_MAX_ATTEMPTS. by replace (1 + zlen ts) with (Z.of_nat (S (length ts))) by lia.
Qed.

Lemma alone_count (ts : list Z) (c t0 : Z) : alone ts = Some (c, t0) -> 1 <= c <= zlen ts.
Proof.
  unfold alone. revert c t0. induction ts as [|t ts IH] using rev_ind; intros c t0; [done|].
  rewrite foldl_app, length_app. cbn [foldl length].
  destruct (foldl _ None ts) as [[c1 t1]|] eqn:E; cbn [alone_step]; [|intros [= <- <-]; lia].
  specialize (IH c1 t1 eq_refl). destruct (_ <? _); cbn; intros [= <- <-]; lia.
Qed.

(** *** The table *)

(** The slots in use hold different addresses, the others are empty. *)
Definition slots (al : list rate_entry_t) (s : rate_state) : Prop :=
  rate_table s = al ++ replicate (RATE_MAX_IPS - length al) (mkRate [] 0 0) /\
  (length al <= RATE_MAX_IPS)%nat /\ rate_next_slot s = (length al mod RATE_MAX_IPS)%nat /\
  NoDup (map re_ip al).

Lemma rate_match_spec (ip : bytes) (e : rate_entry_t) : wf_ip ip -> rate_match ip e = bool_decide (re_ip e = ip).
Proof.
  intros [Hne _]. unfold rate_match. destruct (re_ip e) eqn:E; [|done].
  symmetry. apply bool_decide_eq_false. by intros <-.
Qed.

(** The slot of an address and what it holds. *)
Lemma rate_find_spec (ip : bytes) (al : list rate_entry_t) (k : nat) : wf_ip ip ->
  match rate_find ip (al ++ replicate k (mkRate [] 0 0)) with
  | Some i => exists e, al !! i = Some e /\ re_ip e = ip
  | None => ip ∉ map re_ip al
  end.
Proof.
  intros Hip. induction al as [|e al IH].
  - cbn [app map]. assert (rate_find ip (replicate k (mkRate [] 0 0)) = None) as ->; [|by intros ?%elem_of_nil].
    induction k as [|k IHk]; [done|]. cbn [replicate rate_find]. cbn [rate_match re_ip]. by rewrite IHk.
  - cbn [app rate_find]. rewrite rate_match_spec by done. case_bool_decide as He; [by exists e|].
    destruct (rate_find ip _) as [i|]; [exact IH|]. cbn [map fmap option_fmap option_map].
    rewrite not_elem_of_cons. by split; [intros ->|].
Qed.

Lemma slots_unique (al : list rate_entry_t) (i j : nat) (e e' : rate_entry_t) :
  NoDup (map re_ip al) -> al !! i = Some e -> al !! j = Some e' -> re_ip e = re_ip e' -> i = j.
Proof.
  intros Hn Hi Hj He. eapply NoDup_lookup; [exact Hn| |].
  - change (map re_ip al) with (re_ip <$> al). by rewrite list_lookup_fmap, Hi.
  - change (map re_ip al) with (re_ip <$> al). rewrite list_lookup_fmap, Hj. cbn. by rewrite He.
Qed.

(** The table after a prefix [p] of the attempts. *)
Definition holds_history (al : list rate_entry_t) (p : list (bytes * Z)) : Prop :=
  (forall e, e ∈ al -> wf_ip (re_ip e) /\ alone (times (re_ip e) p) = Some (re_count e, re_window_start e)) /\
  (forall ip, ip ∈ p.*1 -> ip ∈ map re_ip al) /\ (forall ip, ip ∈ map re_ip al -> ip ∈ p.*1).

Lemma times_snoc (ip ip' : bytes) (now : Z) (p : list (bytes * Z)) :
  times ip (p ++ [(ip', now)]) = if bool_decide (ip' = ip) then times ip p ++ [now] else times ip p.
Proof. unfold times. rewrite omap_app. cbn. case_bool_decide; [done|by rewrite app_nil_r]. Qed.

Lemma times_none (ip : bytes) (p : list (bytes * Z)) : ip ∉ p.*1 -> times ip p = [].
Proof.
  induction p as [|[a t] p IH]; [done|]. cbn. rewrite not_elem_of_cons. intros [H1 H2].
  rewrite bool_decide_eq_false_2 by (intros ->; done). by apply IH.
Qed.

Lemma alone_snoc (ts : list Z) (now : Z) : alone (ts ++ [now]) = snd (alone_step (alone ts) now).
Proof. unfold alone. by rewrite foldl_app. Qed.

Lemma s32_small (x : Z) : 0 <= x < 2 ^ 31 -> s32 x = x.
Proof. intros H. unfold s32, u32. rewrite Z.mod_small by lia. by rewrite (proj2 (Z.ltb_lt _ _)) by lia. Qed.

(** An address that has a slot. *)
Lemma check_known (al : list rate_entry_t) (p : list (bytes * Z)) (s : rate_state) (ip : bytes) (now : Z) (i : nat) (e : rate_entry_t) :
  slots al s -> holds_history al p -> wf_ip ip -> zlen p < 2 ^ 31 - 1 ->
  rate_find ip (rate_table s) = Some i -> al !! i = Some e -> re_ip e = ip ->
  exists al' s', handshake_rate_check ip now s = (fst (alone_step (alone (times ip p)) now), s') /\
    slots al' s' /\ holds_history al' (p ++ [(ip, now)]).
Proof.
  intros (Ht & Hlen & Hs & Hnd) (Hh & Hin & Hin') Hip Hp Hf Hi He.
  destruct (Hh e) as [_ Ha]; [by eapply list_elem_of_lookup_2|]. rewrite He in Ha.
  assert (length (times ip p) <= length p)%nat as Htl.
  { clear. unfold times. induction p as [|a p IH]; [done|]. cbn. case_bool_decide; cbn in *; lia. }
  pose proof (alone_count _ _ _ Ha) as Hc. unfold handshake_rate_check. rewrite Hf, Ha, Ht.
  assert ((al ++ replicate (RATE_MAX_IPS - length al) (mkRate [] 0 0)) !! i = Some e) as Hi' by (by apply lookup_app_l_Some).
  rewrite (nth_lookup_Some _ _ _ _ Hi'). rewrite s32_small by lia. cbv zeta.
  assert (forall c t0, snd (alone_step (alone (times ip p)) now) = Some (c, t0) ->
    slots (<[i := mkRate ip c t0]> al) (mkRateState (<[i := mkRate ip c t0]> (al ++ replicate (RATE_MAX_IPS - length al) (mkRate [] 0 0))) (rate_next_slot s)) /\
    holds_history (<[i := mkRate ip c t0]> al) (p ++ [(ip, now)])) as Hnew.
  { intros c t0 Hst. assert (map re_ip (<[i := mkRate ip c t0]> al) = map re_ip al) as Hm.
    { change (map re_ip ?l) with (re_ip <$> l). rewrite list_fmap_insert. apply list_insert_id. rewrite list_lookup_fmap, Hi. cbn. by rewrite He. }
    split.
    - split_and!; cbn; rewrite ?length_insert; try done; [|by rewrite Hm].
      rewrite insert_app_l by (by eapply lookup_lt_Some). done.
    - split_and!.
      + intros e' (j & Hj)%list_elem_of_lookup_1. destruct (decide (j = i)) as [->|Hne].
        * rewrite list_lookup_insert_eq in Hj by (by eapply lookup_lt_Some). injection Hj as <-. cbn. split; [done|].
          rewrite times_snoc, bool_decide_eq_true_2, alone_snoc by done. exact Hst.
        * rewrite list_lookup_insert_ne in Hj by done. destruct (Hh e') as [Hw' Ha']; [by eapply list_elem_of_lookup_2|].
          split; [done|]. rewrite times_snoc, bool_decide_eq_false_2; [done|].
          intros Heq. apply Hne. symmetry. eapply (slots_unique al i j e e' Hnd Hi Hj). congruence.
      + intros ip'. rewrite Hm, fmap_app, elem_of_app. intros [H|H]; [by apply Hin|].
        apply list_elem_of_singleton in H as ->. cbn. rewrite <- He. apply list_elem_of_fmap. exists e. split; [done|]. by eapply list_elem_of_lookup_2.
      + intros ip'. rewrite Hm, fmap_app, elem_of_app. intros H. left. by apply Hin'. }
  rewrite Ha in Hnew. cbn [alone_step] in *. rewrite He. destruct (_ <? _) eqn:E; cbn [fst snd] in *.
  - destruct (Hnew 1 now eq_refl) as [H1 H2]. by eexists _, _.
  - destruct (Hnew (re_count e + 1) (re_window_start e) eq_refl) as [H1 H2]. eexists _, _. split_and!; [|exact H1|exact H2].
    f_equal. unfold RATE_MAX_ATTEMPTS. destruct (Z.ltb_spec 5 (re_count e + 1)), (Z.ltb_spec (re_count e) 5); lia.
Qed.

(** A new address, with a slot left. *)
Lemma check_new (al : list rate_entry_t) (p : list (bytes * Z)) (s : rate_state) (ip : bytes) (now : Z) :
  slots al s -> holds_history al p -> wf_ip ip -> (length al < RATE_MAX_IPS)%nat ->
  rate_find ip (rate_table s) = None -> ip ∉ map re_ip al ->
  exists al' s', handshake_rate_check ip now s = (fst (alone_step (alone (times ip p)) now), s') /\
    slots al' s' /\ holds_history al' (p ++ [(ip, now)]).
Proof.
  intros (Ht & Hlen & Hs & Hnd) (Hh & Hin & Hin') Hip Hlt Hf Hni. unfold handshake_rate_check. rewrite Hf, Hs, Ht.
  assert (ip ∉ p.*1) as Hnp by (intros H; by apply Hni, Hin). rewrite times_none by done. cbn [alone foldl alone_step fst].
  rewrite take_ge by (destruct Hip as [_ ?]; unfold INET_ADDRSTRLEN in *; lia).
  rewrite Nat.mod_small by done. eexists (al ++ [mkRate ip 1 now]), _. split_and!; [reflexivity|..].
  - split_and!; cbn [rate_table rate_next_slot].
    + rewrite <- (Nat.add_0_r (length al)) at 1. rewrite insert_app_r, length_app, <- app_assoc. f_equal. cbn [length].
      replace (RATE_MAX_IPS - length al)%nat with (S (RATE_MAX_IPS - (length al + 1)))%nat by lia. done.
    + rewrite length_app. cbn [length]. lia.
    + by rewrite length_app.
    + rewrite map_app. apply NoDup_app. split_and!; [done| |by apply NoDup_singleton].
      intros x Hx Hy. apply list_elem_of_singleton in Hy as ->. by apply Hni.
  - split_and!.
    + intros e He. apply elem_of_app in He as [He|He]; [|apply list_elem_of_singleton in He as ->].
      * destruct (Hh e He) as [Hw Ha]. split; [done|]. rewrite times_snoc, bool_decide_eq_false_2; [done|].
        intros ->. apply Hni. apply list_elem_of_fmap. by exists e.
      * cbn. split; [done|]. by rewrite times_snoc, bool_decide_eq_true_2, alone_snoc, times_none.
    + intros ip'. rewrite map_app, fmap_app, !elem_of_app. intros [H|H]; [left; by apply Hin|right; done].
    + intros ip'. rewrite map_app, fmap_app, !elem_of_app. intros [H|H]; [left; by apply Hin'|right; done].
Qed.

Lemma al_bound (al : list rate_entry_t) (p evs : list (bytes * Z)) :
  NoDup (map re_ip al) -> (forall ip, ip ∈ map re_ip al -> ip ∈ p.*1) -> p `prefix_of` evs ->
  (length al <= length (remove_dups evs.*1))%nat.
Proof.
  intros Hnd Hin [q ->]. rewrite <- (length_map re_ip al). apply submseteq_length, NoDup_submseteq; [done|].
  intros ip Hip. rewrite elem_of_remove_dups, fmap_app, elem_of_app. left. by apply Hin.
Qed.

(** One more attempt. *)
Lemma check_step (al : list rate_entry_t) (p evs : list (bytes * Z)) (s : rate_state) (ip : bytes) (now : Z) :
  slots al s -> holds_history al p -> wf_ip ip -> zlen p < 2 ^ 31 - 1 ->
  p ++ [(ip, now)] `prefix_of` evs -> (length (remove_dups evs.*1) <= RATE_MAX_IPS)%nat ->
  exists al' s', handshake_rate_check ip now s = (fst (alone_step (alone (times ip p)) now), s') /\
    slots al' s' /\ holds_history al' (p ++ [(ip, now)]).
Proof.
  intros Hs Hh Hip Hp Hpre Hd. pose proof (rate_find_spec ip al (RATE_MAX_IPS - length al) Hip) as Hf.
  rewrite <- (proj1 Hs) in Hf. destruct (rate_find ip (rate_table s)) as [i|] eqn:E.
  - destruct Hf as (e & He & Hie). by apply (check_known al p s ip now i e).
  - apply (check_new al p s ip now); try done.
    destruct Hs as (_ & _ & _ & Hnd), Hh as (_ & _ & Hin).
    enough (length (mkRate ip 0 0 :: al) <= length (remove_dups evs.*1))%nat by (simpl in *; lia).
    apply (al_bound _ (p ++ [(ip, now)])); [by constructor| |done].
    intros ip'. cbn [map re_ip]. rewrite fmap_app, elem_of_app, elem_of_cons. intros [->|H]; [right; by left|left; by apply Hin].
Qed.

Lemma rate_run_alone (evs q p : list (bytes * Z)) (al : list rate_entry_t) (s : rate_state) (i : nat) (ip : bytes) (now : Z) :
  evs = p ++ q -> slots al s -> holds_history al p -> Forall (fun e => wf_ip e.1) q -> zlen evs < 2 ^ 31 ->
  (length (remove_dups evs.*1) <= RATE_MAX_IPS)%nat -> q !! i = Some (ip, now) ->
  fst (rate_run q s) !! i = Some (fst (alone_step (alone (times ip (p ++ take i q))) now)).
Proof.
  revert p al s i. induction q as [|[ip1 t1] q IH]; intros p al s i Hevs Hs Hh Hw Hlen Hd Hi; [done|].
  apply Forall_cons in Hw as [Hw1 Hw]. cbn [rate_run].
  destruct (check_step al p evs s ip1 t1) as (al' & s' & -> & Hs' & Hh'); try done.
  { rewrite Hevs, length_app in Hlen. cbn [length] in Hlen. lia. }
  { exists q. by rewrite Hevs, <- app_assoc. }
  specialize (IH (p ++ [(ip1, t1)]) al' s'). destruct (rate_run q s') as [rs s'']. cbn [fst] in *.
  destruct i as [|i].
  - injection Hi as <- <-. cbn [take]. by rewrite app_nil_r.
  - cbn [take]. transitivity (rs !! i); [done|]. rewrite (IH i); try done; by rewrite <- app_assoc.
Qed.

(** C35: every address has a limiter of its own.  In any sequence of attempts by at
    most 32 addresses, however they alternate, the verdict on an attempt depends on
    the earlier attempts of the same address only, and is what a limiter of that
    address alone says; while its attempts fall within sixty seconds of the first
    of them, exactly the first five pass and every other one is refused. *)
Theorem rate_limit_is_five (evs : list (bytes * Z)) (i : nat) (ip : bytes) (now : Z) :
  Forall (fun e => wf_ip e.1) evs -> (length (remove_dups evs.*1) <= RATE_MAX_IPS)%nat -> zlen evs < 2 ^ 31 ->
  evs !! i = Some (ip, now) ->
  let own := times ip (take i evs) in
  fst (rate_run evs rate_init) !! i = Some (fst (alone_step (alone own) now)) /\
  (one_window (own ++ [now]) -> fst (rate_run evs rate_init) !! i = Some (if zlen own <? 5 then 0 else -1)).
Proof.
  intros Hw Hd Hlen Hi. cbv zeta.
  assert (fst (rate_run evs rate_init) !! i = Some (fst (alone_step (alone (times ip (take i evs))) now))) as H.
  { apply (rate_run_alone evs evs [] [] rate_init i ip now); try done; [|by split_and!; [intros e ?%elem_of_nil|..]].
    split_and!; [done|simpl; lia|done|constructor]. }
  split; [done|]. intros Hwin. by rewrite H, alone_five.
Qed.

Definition demo_ip : bytes := [49; 48; 46; 48; 46; 48; 46; 49].

(** Two addresses alternate: the second is not refused because of the first. *)
Definition demo_attempts : list (bytes * Z) :=
  map (fun t => (demo_ip, t)) [100; 110; 120; 130; 140] ++ [([49], 141); (demo_ip, 150); ([49], 151)].

Lemma rate_limit_is_five_witness :
  fst (rate_run demo_attempts rate_init) !! 6%nat = Some (-1) /\
  fst (rate_run demo_attempts rate_init) !! 7%nat = Some 0.
Proof.
  assert (Forall (fun e => wf_ip e.1) demo_attempts) as Hw
    by (repeat constructor; try discriminate; unfold INET_ADDRSTRLEN; simpl; lia).
  assert (length (remove_dups demo_attempts.*1) <= RATE_MAX_IPS)%nat as Hd by (vm_compute; lia).
  split.
  - apply (rate_limit_is_five demo_attempts 6 demo_ip 150 Hw Hd eq_refl eq_refl).
    vm_compute. repeat constructor; discriminate.
  - apply (rate_limit_is_five demo_attempts 7 [49] 151 Hw Hd eq_refl eq_refl).
    vm_compute. repeat constructor; discriminate.
Defined.

(** With 32 other addresses in between the slot is taken over and the count
    starts again. *)
Definition many_attempts : list (bytes * Z) :=
  map (fun t => (demo_ip, t)) [1; 1; 1; 1; 1; 1] ++ map (fun k => ([Z.of_nat k], 2)) (seq 60 32) ++ [(demo_ip, 3)].

Lemma rate_limit_evicted :
  fst (rate_run many_attempts rate_init) !! 5%nat = Some (-1) /\ fst (rate_run many_attempts rate_init) !! 38%nat = Some 0.
Proof. split; vm_compute; reflexivity. Qed.

(** ** Only one peer gets to see the message *)

(** A stretch of code that reads at least [n] bytes of the stream. *)
Definition reads (n : nat) (w w' : world) : Prop :=
  data_rx (w_rx w) -> wf_rx (w_rx w) ->
  data_rx (w_rx w') /\ wf_rx (w_rx w') /\
  exists got, fst (rx_flow (w_rx w)) = got ++ fst (rx_flow (w_rx w')) /\ (n <= length got)%nat.

Lemma reads_same (w w' : world) : w_rx w' = w_rx w -> reads 0 w w'.
Proof. intros H Hd Hw. rewrite H. split_and!; try done. by exists []. Qed.

Lemma reads_trans (n m : nat) (w w1 w2 : world) : reads n w w1 -> reads m w1 w2 -> reads (n + m) w w2.
Proof.
  intros H1 H2 Hd Hw. destruct (H1 Hd Hw) as (Hd1 & Hw1 & g1 & Hg1 & Hl1).
  destruct (H2 Hd1 Hw1) as (Hd2 & Hw2 & g2 & Hg2 & Hl2). split_and!; try done.
  exists (g1 ++ g2). rewrite Hg1, Hg2, app_assoc, length_app. split; [done|lia].
Qed.

Lemma reads_le (n m : nat) (w w' : world) : (m <= n)%nat -> reads n w w' -> reads m w w'.
Proof.
  intros Hle H Hd Hw. destruct (H Hd Hw) as (? & ? & g & ? & ?). split_and!; try done.
  exists g. split; [done|lia].
Qed.

Lemma recv_all_loop_data (poll : list poll_ev) (rx rx' : list rx_ev) (acc : bytes) (n : nat)
    (r : option bytes) (p' : list poll_ev) :
  (length acc <= n)%nat -> data_rx rx -> wf_rx rx -> recv_all_loop poll rx acc n = Some (r, p', rx') ->
  data_rx rx' /\ wf_rx rx' /\ exists got, fst (rx_flow rx) = got ++ fst (rx_flow rx') /\
    (r <> None -> length acc + length got = n)%nat.
Proof.
  revert rx acc. induction poll as [|ev poll IH]; intros rx acc Hl Hd Hw; cbn [recv_all_loop].
  { destruct (_ <? _)%nat eqn:E; [done|]. intros [= <- <- <-]. zbool.
    split_and!; try done. exists []. split; [done|]. simpl. lia. }
  destruct (_ <? _)%nat eqn:E; zbool.
  2: { intros [= <- <- <-]. split_and!; try done. exists []. split; [done|]. simpl. lia. }
  assert (Hnone : data_rx rx /\ wf_rx rx /\ exists got, fst (rx_flow rx) = got ++ fst (rx_flow rx) /\
    (@None bytes <> None -> length acc + length got = n)%nat) by (split_and!; try done; by exists []).
  destruct ev as [[]|pt ev]; [by apply IH|by intros [= <- <- <-]|by intros [= <- <- <-]|].
  destruct (negb _); [by intros [= <- <- <-]|]. destruct (pollbad ev); [by intros [= <- <- <-]|].
  destruct rx as [|[d|e] rx]; [done| |by apply Forall_cons in Hd as [[] _]].
  destruct (sys_recv _ _) as [[[e|got] rx1]|] eqn:Er; [done| |done].
  assert (Hd1 : data_rx rx1).
  { simpl in Er. apply Forall_cons in Hd as [_ Hd]. destruct (drop _ d) eqn:Ed; injection Er as _ <-; [done|].
    by constructor. }
  apply sys_recv_flow in Er as (Hw1 & _ & Hlg & Hf); [|lia|done].
  destruct (decide (got = [])) as [->|Hne].
  { exfalso. apply Forall_cons in Hd as [Hd _]. destruct d; [done|]. simpl in Hf. by destruct (rx_flow rx). }
  destruct Hf as [Hf _]. destruct (_ =? 0)%nat eqn:E0; [zbool; by apply length_zero_iff_nil in E0|].
  intros H. apply IH in H as (H1 & H2 & g & Hg & Hlen); [|rewrite length_app; lia|done|done].
  split_and!; try done. exists (got ++ g). rewrite Hf. cbn [fst]. rewrite Hg, app_assoc, length_app.
  split; [done|]. intros Hr. rewrite length_app in Hlen. specialize (Hlen Hr). lia.
Qed.

Lemma recv_all_reads (n : nat) (w w' : world) (r : option bytes) : recv_all n w = Some (r, w') ->
  reads (if r is Some _ then n else 0) w w'.
Proof.
  unfold recv_all. destruct (recv_all_loop _ _ _ _) as [[[r0 p] rx]|] eqn:E; [|done].
  intros [= -> <-] Hd Hw. apply recv_all_loop_data in E as (H1 & H2 & g & Hg & Hl); [|simpl; lia|done|done].
  split_and!; try done. exists g. split; [done|]. destruct r; [|lia]. specialize (Hl ltac:(done)).
  simpl in Hl. lia.
Qed.

Section OnePeer.
Context {A : Aead} {C : Crypto} {U : Locals}.

Lemma asym_hdr_reads (w w' : world) (r : option bytes) : asym_hdr w = Some (r, w') ->
  reads (if r is Some _ then 36 else 0) w w'.
Proof.
  intros H. unfold asym_hdr in H. run_step. apply recv_all_reads in E. destruct a; by run_step.
Qed.

Lemma asym_ts_reads (epk key : bytes) (w w' : world) (r : option Z) : asym_ts epk key w = Some (r, w') ->
  reads (if r is Some _ then 24 else 0) w w'.
Proof.
  intros H. unfold asym_ts in H. run_step. apply recv_all_reads in E. destruct a; [|by run_step].
  destruct (aead_decrypt _ _ _ _ _) as [ret tsb]. destruct (negb _); run_step; [|done].
  by eapply reads_le; [|exact E]; lia.
Qed.

Lemma check_ts_rx (ts : Z) (eph : bytes) (w w' : world) (r : Z) :
  check_ts ts eph w = Some (r, w') -> w_rx w' = w_rx w.
Proof.
  intros H. unfold check_ts in H. run_step. apply do_timestamp_some in E as [cl ->].
  destruct (a <? 0); [by run_step|]. cbv zeta in H. destruct (TIMESTAMP_WINDOW_SEC <? _); [by run_step|].
  run_step. assert (w_rx w0 = w_rx w) as <-.
  { unfold is_replay in E. by destruct (existsb _ _); injection E as <- <-. }
  destruct (negb _); by run_step.
Qed.

(** One attempt reads a header before anything else, and sixty bytes if it
    succeeds. *)
Lemma handshake_server_reads (priv pub : bytes) (k k' : session_keys_t) (w w' : world) (r : Z) :
  handshake_server priv pub k w = Some ((r, k'), w') ->
  exists h w1, asym_hdr w = Some (h, w1) /\ reads (if h is Some _ then 36 else 0) w w' /\
    (r = 0 -> reads 60 w w').
Proof.
  intros H. unfold handshake_server in H. run_step. exists a, w0. split; [done|].
  apply asym_hdr_reads in E. destruct a as [iepk|]; [|by run_step]. cbv zeta in H.
  run_step. apply asym_ts_reads in E0. destruct a as [its|].
  2: { run_step. split; [|done]. by apply (reads_trans 36 0 w w0). }
  assert (E60 := reads_trans _ _ _ _ _ E E0). change (36 + 24)%nat with 60%nat in E60.
  assert (Hend : reads 0 w1 w' -> reads 36 w w' /\ (r = 0 -> reads 60 w w')).
  { intros Hr. assert (H60 := reads_trans _ _ _ _ _ E60 Hr). split; [|done].
    eapply reads_le; [|exact H60]. lia. }
  apply Hend. apply reads_same. run_step. apply check_ts_rx in E1.
  destruct (negb (a =? 0)); [by run_step|]. run_step.
  unfold ecdh_keygen in E2. destruct (w_keygen w2) as [|[ek|] kg]; [done| |].
  - injection E2 as <- <-. cbv beta iota zeta in H. run_step. run_step.
    apply do_timestamp_some in E2 as [cl ->]. apply asym_send_some in E3 as (tx & out & ->).
    destruct (_ || _); by run_step.
  - injection E2 as <- <-. by run_step.
Qed.

Lemma try_peers_starved (peers : list bytes) (i : Z) (priv : bytes) (k k' : session_keys_t)
    (w w' : world) (r : Z) :
  data_rx (w_rx w) -> wf_rx (w_rx w) -> (length (fst (rx_flow (w_rx w))) < 60)%nat ->
  try_peers i priv peers k w = Some ((r, k'), w') -> r = -1.
Proof.
  revert i k w. induction peers as [|p peers IH]; intros i k w Hd Hw Hl H; cbn [try_peers] in H;
    [by run_step|].
  run_step. destruct a as [r0 k0]. apply handshake_server_reads in E as (h & w1 & _ & Hr & H60).
  destruct (r0 =? 0) eqn:E0; zbool.
  - exfalso. subst r0. destruct (H60 eq_refl Hd Hw) as (_ & _ & g & Hg & Hlg).
    rewrite Hg, length_app in Hl. lia.
  - destruct (Hr Hd Hw) as (Hd1 & Hw1 & g & Hg & _). apply (IH (i + 1) k0 w0); try done.
    rewrite Hg, length_app in Hl. lia.
Qed.
End OnePeer.

(** C39: on a connection that delivers a header and fewer than 96 bytes in all (a
    client sends sixty and waits), only the first configured peer can be
    authenticated: the attempt for it consumes the message the others would need. *)
Theorem only_first_peer_authenticates (A : Aead) (C : Crypto) (U : Locals) (priv : bytes)
    (peers : list bytes) (k k' : session_keys_t) (w w1 w' : world) (epk : bytes) (r : Z) :
  data_rx (w_rx w) -> wf_rx (w_rx w) -> (length (fst (rx_flow (w_rx w))) < 96)%nat ->
  asym_hdr w = Some (Some epk, w1) ->
  try_handshake_server priv peers k w = Some ((r, k'), w') ->
  r = 0 \/ r = -1.
Proof.
  intros Hd Hw Hl Hh H. unfold try_handshake_server in H.
  destruct peers as [|p peers]; cbn [try_peers] in H; [run_step; auto|].
  run_step. destruct a as [r0 k0]. apply handshake_server_reads in E as (h & w2 & Hh' & Hr & _).
  rewrite Hh in Hh'. injection Hh' as <- <-. destruct (r0 =? 0); [run_step; auto|].
  destruct (Hr Hd Hw) as (Hd1 & Hw1 & g & Hg & Hlg). right.
  apply (try_peers_starved peers (0 + 1) priv k0 k' w0 w'); try done.
  rewrite Hg, length_app in Hl. lia.
Qed.

(** A server that knows the client as its second peer. *)
Definition demo_second : world :=
  mkWorld (replicate 2 (PollRet no_event readable) ++ [PollRet no_event no_event]) [RxData demo_ch] [TxSome 100] []
    [] [] [] [Some 1005; Some 1010] [Some key_eb] [] [] (replicate REPLAY_SLOTS (mkReplay 0 0)) 0.

Lemma only_first_peer_authenticates_witness :
  exists r k' w', @try_handshake_server pure_c toy_crypto no_locals key_b [key_ea; key_a] (mkKeys [] [])
      demo_second = Some ((r, k'), w') /\ (r = 0 \/ r = -1).
Proof.
  destruct (@try_handshake_server pure_c toy_crypto no_locals key_b [key_ea; key_a] (mkKeys [] [])
    demo_second)
    as [[[r k'] w']|] eqn:E; [|vm_compute in E; discriminate E].
  exists r, k', w'. split; [reflexivity|].
  destruct (asym_hdr demo_second) as [[[epk|] w1]|] eqn:Eh; [|vm_compute in Eh; discriminate Eh ..].
  apply (only_first_peer_authenticates pure_c toy_crypto no_locals key_b [key_ea; key_a] (mkKeys [] []) k'
    demo_second w1 w' epk r).
  - repeat constructor. vm_compute. discriminate.
  - apply wf_rxb_spec. vm_compute. reflexivity.
  - vm_compute. lia.
  - exact Eh.
  - exact E.
Defined.
