(* ===== verification/Socks5.v ===== *)
(** * Socks5: src/proxy/socks5.c and src/mode_socks5.c

    The SOCKS5 negotiation with a local client, the connect request that follows
    the handshake inside the tunnel, and the set-up of a proxied connection on
    both sides up to the start of the tunnel loop.  The local client is the
    plaintext descriptor of the [world].  The accept and
    reconnect loops around these sequences are in [Modes]. *)

From S2P Require Import Prelude Aes Aegis Aead Util Io Frame FrameReader Handshake Tunnel ModeCommon.

(** ** socks5.c *)

(** [read_n]: any error or end of file fails, [EINTR] too.  Every [recv] takes
    something, so the size of the script is enough fuel. *)
Fixpoint read_n_loop (fuel : nat) (rx : list rx_ev) (acc : bytes) (n : nat) :
    option (option bytes * list rx_ev) :=
  match fuel with
  | O => None
  | S fuel' =>
      if (length acc <? n)%nat then
        match sys_recv (n - length acc) rx with
        | None => None
        | Some (inl _, rx') => Some (None, rx')
        | Some (inr d, rx') =>
            if (length d =? 0)%nat then Some (None, rx') else read_n_loop fuel' rx' (acc ++ d) n
        end
      else Some (Some acc, rx)
  end.

Definition read_n (n : nat) : M (option bytes) := fun w =>
  match read_n_loop (S (rx_size (w_pt_rx w))) (w_pt_rx w) [] n with
  | None => None
  | Some (r, rx) => Some (r, set_pt_rx rx w)
  end.

(** [send(fd, b, len, MSG_NOSIGNAL) == len]. *)
Definition send_whole (b : bytes) : M bool := fun w =>
  match sys_send (length b) (w_pt_tx w) with
  | None => None
  | Some (inl _, tx) => Some (false, set_pt_tx tx (w_pt_out w) w)
  | Some (inr k, tx) => Some ((k =? length b)%nat, set_pt_tx tx (w_pt_out w ++ take k b) w)
  end.

Definition reply_bytes (rep : Z) : bytes := [0x05; rep; 0x00; 0x01; 0; 0; 0; 0; 0; 0].

Definition send_reply (rep : Z) : M Z :=
  ok ← send_whole (reply_bytes rep); mret (if (ok : bool) then 0 else -1).

(** [inet_ntop(AF_INET, ...)]: dotted decimal. *)
Definition dec_u8 (x : Z) : bytes :=
  if x <? 10 then [48 + x]
  else if x <? 100 then [48 + x / 10; 48 + x mod 10]
  else [48 + x / 100; 48 + x / 10 mod 10; 48 + x mod 10].

Definition inet_ntop4 (a : bytes) : bytes :=
  dec_u8 (get a 0) ++ [46] ++ dec_u8 (get a 1) ++ [46] ++ dec_u8 (get a 2) ++ [46] ++ dec_u8 (get a 3).

(** The address part of the request: the host, or the reply to an address type
    that is not supported. *)
Definition read_address (atyp : Z) : M (option bytes) :=
  if atyp =? 0x01 then
    r ← read_n 4;
    match r with None => mret None | Some buf => mret (Some (inet_ntop4 buf)) end
  else if atyp =? 0x03 then
    r ← read_n 1;
    match r with
    | None => mret None
    | Some buf =>
        let dlen := get buf 0 in
        if dlen =? 0 then mret None else read_n (Z.to_nat dlen)
    end
  else (_ ← send_reply 0x08; mret None).

(** 0 with host and port, or [None] for -1. *)
Definition socks5_accept : M (option (bytes * Z)) :=
  g ← read_n 2;
  match g with
  | None => mret None
  | Some buf =>
      if negb (get buf 0 =? 0x05) then mret None
      else
        let nmethods := get buf 1 in
        if nmethods =? 0 then mret None
        else
          m ← read_n (Z.to_nat nmethods);
          match m with
          | None => mret None
          | Some _ =>
              ok ← send_whole [0x05; 0x00];
              if negb ok then mret None
              else
                q ← read_n 4;
                match q with
                | None => mret None
                | Some buf =>
                    if negb (get buf 0 =? 0x05) then mret None
                    else if negb (get buf 1 =? 0x01) then (_ ← send_reply 0x07; mret None)
                    else
                      h ← read_address (get buf 3);
                      match h with
                      | None => mret None
                      | Some host =>
                          p ← read_n 2;
                          match p with
                          | None => mret None
                          | Some buf =>
                              let port := u16 (Z.lor (Z.shiftl (get buf 0) 8) (get buf 1)) in
                              s ← send_reply 0x00;
                              if negb (s =? 0) then mret None else mret (Some (host, port))
                          end
                      end
                end
          end
  end.

(** ** The connect request of mode_socks5.c *)

Definition build_connect_req (host : bytes) (port : Z) : bytes :=
  [u8 (Z.shiftr port 8); u8 port; u8 (Z.shiftr (zlen host) 8); u8 (zlen host)] ++ host.

Definition parse_connect_req (p : bytes) : option (bytes * Z) :=
  if zlen p <? 4 then None
  else
    let port := u16 (Z.lor (Z.shiftl (get p 0) 8) (get p 1)) in
    let host_len := Z.lor (Z.shiftl (get p 2) 8) (get p 3) in
    if zlen p <? 4 + host_len then None
    else if 255 <? host_len then None
    else Some (take (Z.to_nat host_len) (drop 4 p), port).

Section Connect.
Context {A : Aead} {C : Crypto} {U : Locals}.

Definition send_connect_req (host : bytes) (port : Z) (key : bytes) : M Z :=
  match frame_build FRAME_DATA FLAG_NONE (build_connect_req host port) 1 key with
  | None => mret (-1)
  | Some wb => send_all wb
  end.

Definition recv_connect_req (key : bytes) : M (option (bytes * Z)) :=
  h ← recv_all FRAME_HEADER_LEN;
  match h with
  | None => mret None
  | Some hdr =>
      let p_len := header_len hdr in
      if (p_len <? 4) || (260 <? p_len) then mret None
      else
        b ← recv_all (Z.to_nat p_len + AEGIS_TAG_LEN);
        match b with
        | None => mret None
        | Some body =>
            match frame_parse (hdr ++ body) 1 key with
            | None => mret None
            | Some (_, _, req) => mret (parse_connect_req req)
            end
        end
  end.

(** ** The two ends of a proxied connection *)

(** Both ends start the tunnel at counter 2. *)
Definition proxy_tunnel (pt_fd enc_fd : Z) (keys : session_keys_t) (keepalive : Z) : tunnel_t :=
  let t := tunnel_init pt_fd enc_fd (enc_key keys) (dec_key keys) in
  mkTunnel (t_fd t) (t_enc_key t) (t_dec_key t) 2 2 keepalive (t_rekey_sec t) (t_session_psk t)
    (t_psk t) (t_psk_len t) (t_running t).

(** The child of mode_socks5_server, up to the call of [tunnel_run]: the target it
    has connected to and its context, or [None] where it exits with 1.
    [connect_to_host] is the parameter [conn]. *)
Definition socks5_server_setup (conn : bytes -> Z -> option Z) (priv : bytes) (peers : list bytes)
    (k0 : session_keys_t) (client_fd keepalive : Z) : M (option (bytes * Z * tunnel_t)) :=
  x ← try_handshake_server priv peers k0;
  let '(peer_idx, keys) := x in
  if peer_idx <? 0 then mret None
  else
    c ← handshake_key_confirm_server keys;
    if negb (c =? 0) then mret None
    else
      q ← recv_connect_req (dec_key keys);
      match q with
      | None => mret None
      | Some (host, port) =>
          match conn host port with
          | None => mret None
          | Some target_fd => mret (Some (host, port, proxy_tunnel target_fd client_fd keys keepalive))
          end
      end.

(** One attempt of the reconnect loop of mode_socks5_client once connected, up
    to [tunnel_run]; [None] is the jump to [retry_sleep]. *)
Definition socks5_client_setup (host : bytes) (port : Z) (priv peer0 : bytes) (k0 : session_keys_t)
    (local_fd tunnel_fd keepalive : Z) : M (option tunnel_t) :=
  x ← handshake_client priv peer0 k0;
  let '(r, keys) := x in
  if negb (r =? 0) then mret None
  else
    c ← handshake_key_confirm_client keys;
    if negb (c =? 0) then mret None
    else
      s ← send_connect_req host port (enc_key keys);
      if negb (s =? 0) then mret None
      else mret (Some (proxy_tunnel local_fd tunnel_fd keys keepalive)).

End Connect.

(** ** The negotiation *)

(** The local client delivers [d], in any pieces. *)
Definition pt_gives (d : bytes) (w : world) : Prop :=
  data_rx (w_pt_rx w) /\ wf_rx (w_pt_rx w) /\ fst (rx_flow (w_pt_rx w)) = d.

Lemma read_n_loop_run (fuel : nat) (rx : list rx_ev) (acc d : bytes) (n : nat) :
  data_rx rx -> wf_rx rx -> fst (rx_flow rx) = d -> (rx_size rx < fuel)%nat ->
  (length acc <= n)%nat -> (n <= length acc + length d)%nat ->
  exists rx', read_n_loop fuel rx acc n = Some (Some (acc ++ take (n - length acc) d), rx') /\
    data_rx rx' /\ wf_rx rx' /\ fst (rx_flow rx') = drop (n - length acc) d.
Proof.
  revert rx acc d. induction fuel as [|fuel IH]; intros rx acc d Hd Hw Hf Hs Hl Hn; [lia|].
  cbn [read_n_loop]. destruct (_ <? _)%nat eqn:E; zbool.
  2: { exists rx. replace (n - length acc)%nat with 0%nat by lia. by rewrite take_0, app_nil_r, drop_0. }
  destruct rx as [|[e|e] rx]; [subst d; simpl in Hn; lia| |by apply Forall_cons in Hd as [[] _]].
  destruct (sys_recv _ _) as [[[x|got] rx1]|] eqn:Er; [done| |done].
  assert (Hd1 : data_rx rx1).
  { simpl in Er. apply Forall_cons in Hd as [_ Hd]. destruct (drop _ e); injection Er as _ <-; [done|].
    by constructor. }
  apply sys_recv_flow in Er as (Hw1 & _ & Hlg & Hfl); [|lia|done].
  destruct (decide (got = [])) as [->|Hne].
  { exfalso. apply Forall_cons in Hd as [Hd _]. destruct e; [done|]. simpl in Hfl. by destruct (rx_flow rx). }
  destruct Hfl as [Hfl Hs1]. rewrite Hfl in Hf. cbn [fst] in Hf. subst d.
  destruct (_ =? 0)%nat eqn:E0; [zbool; by apply length_zero_iff_nil in E0|].
  rewrite length_app in Hn.
  destruct (IH rx1 (acc ++ got) (fst (rx_flow rx1))) as (rx' & -> & H1 & H2 & H3);
    [done..|lia|rewrite length_app; lia|rewrite length_app; lia|].
  exists rx'. rewrite length_app in *. rewrite take_app_ge, drop_app_ge by lia.
  replace (n - length acc - length got)%nat with (n - (length acc + length got))%nat by lia.
  by rewrite <- app_assoc.
Qed.

Lemma read_n_run (n : nat) (d : bytes) (w : world) : pt_gives d w -> (n <= length d)%nat ->
  exists rx, read_n n w = Some (Some (take n d), set_pt_rx rx w) /\ pt_gives (drop n d) (set_pt_rx rx w).
Proof.
  intros (Hd & Hw & Hf) Hn. unfold read_n.
  destruct (read_n_loop_run (S (rx_size (w_pt_rx w))) (w_pt_rx w) [] d n) as (rx & -> & H1 & H2 & H3);
    [done..|lia|simpl; lia|simpl; lia|].
  exists rx. simpl in *. rewrite Nat.sub_0_r in *. done.
Qed.

(** The same for a known prefix. *)
Lemma read_n_prefix (a d : bytes) (n : nat) (w : world) : pt_gives (a ++ d) w -> length a = n ->
  exists rx, read_n n w = Some (Some a, set_pt_rx rx w) /\ pt_gives d (set_pt_rx rx w).
Proof.
  intros Hg <-. destruct (read_n_run (length a) (a ++ d) w Hg) as (rx & Hr & Hg').
  { rewrite length_app. lia. }
  rewrite take_app_length in Hr. rewrite drop_app_length in Hg'. eauto.
Qed.

Lemma send_whole_run (b : bytes) (k : nat) (w : world) :
  tx_room (S k) (w_pt_tx w) -> zlen b <= FRAME_MAX_WIRE ->
  exists tx, send_whole b w = Some (true, set_pt_tx tx (w_pt_out w ++ b) w) /\ tx_room k tx.
Proof.
  intros [tx' Htx] Hb. exists (replicate k (TxSome (Z.to_nat FRAME_MAX_WIRE)) ++ tx').
  split; [|by eexists]. unfold send_whole. rewrite Htx. cbn [replicate app sys_send].
  rewrite Nat.min_r by lia. by rewrite Nat.eqb_refl, firstn_all.
Qed.

(** Destination addresses of RFC 1928 that the code accepts, their encoding and
    the host they stand for. *)
Inductive dst_addr := DstIPv4 (a : bytes) | DstDomain (h : bytes).

Definition wf_dst (d : dst_addr) : Prop :=
  match d with
  | DstIPv4 a => length a = 4%nat /\ wf_bytes a
  | DstDomain h => (0 < length h < 256)%nat /\ wf_bytes h
  end.

Definition dst_type (d : dst_addr) : Z := match d with DstIPv4 _ => 1 | DstDomain _ => 3 end.
Definition dst_bytes (d : dst_addr) : bytes :=
  match d with DstIPv4 a => a | DstDomain h => zlen h :: h end.
Definition dst_host (d : dst_addr) : bytes :=
  match d with DstIPv4 a => inet_ntop4 a | DstDomain h => h end.

Definition socks_request (methods : bytes) (d : dst_addr) (port : Z) : bytes :=
  ([5; zlen methods] ++ methods) ++ ([5; 1; 0; dst_type d] ++ dst_bytes d) ++
  [Z.shiftr port 8; Z.land port 255].

Lemma read_address_run (d : dst_addr) (rest : bytes) (w : world) :
  wf_dst d -> pt_gives (dst_bytes d ++ rest) w ->
  exists rx, read_address (dst_type d) w = Some (Some (dst_host d), set_pt_rx rx w) /\
    pt_gives rest (set_pt_rx rx w).
Proof.
  intros Hd Hg. destruct d as [a|h]; cbn [dst_type dst_bytes dst_host] in *; unfold read_address; cbn [Z.eqb Pos.eqb].
  - destruct (read_n_prefix a rest 4 w Hg) as (rx & Hr & Hg'); [apply Hd|].
    exists rx. by rewrite (M_bind_eq _ _ _ _ _ Hr).
  - destruct Hd as [Hl Hh]. destruct (read_n_prefix [zlen h] (h ++ rest) 1 w Hg) as (rx & Hr & Hg'); [done|].
    rewrite (M_bind_eq _ _ _ _ _ Hr). cbv zeta. change (get [zlen h] 0) with (zlen h).
    rewrite (proj2 (Z.eqb_neq _ _)) by lia. rewrite Nat2Z.id.
    destruct (read_n_prefix h rest (length h) _ Hg') as (rx' & Hr' & Hg''); [done|]. by exists rx'.
Qed.

Lemma port_bytes (port : Z) : is_uint 16 port ->
  u16 (Z.lor (Z.shiftl (Z.shiftr port 8) 8) (Z.land port 255)) = port.
Proof.
  intros H. assert (Hs : Z.land (Z.shiftr port 8) 255 = Z.shiftr port 8).
  { change 255 with (Z.ones 8). rewrite Z.land_ones by done. apply Z.mod_small.
    rewrite Z.shiftr_div_pow2 by done. unfold is_uint in H. split; [apply Z.div_pos; lia|].
    apply Z.div_lt_upper_bound; lia. }
  rewrite <- Hs at 1. rewrite be16_roundtrip by done. apply Z.mod_small. apply H.
Qed.

(** C33: a SOCKS5 client that offers any methods and asks to CONNECT to an IPv4
    address or a domain name, in whatever pieces its bytes arrive, gets the two
    replies of RFC 1928 and exactly its host and port are returned; bytes after
    the request stay for the tunnel. *)
Theorem socks5_accepts_connect (methods : bytes) (d : dst_addr) (port : Z) (rest : bytes) (w : world) :
  (0 < length methods < 256)%nat -> wf_dst d -> is_uint 16 port ->
  pt_gives (socks_request methods d port ++ rest) w -> tx_room 2 (w_pt_tx w) ->
  exists w', socks5_accept w = Some (Some (dst_host d, port), w') /\
    w_pt_out w' = w_pt_out w ++ [5; 0] ++ reply_bytes 0 /\ pt_gives rest w'.
Proof.
  intros Hm Hd Hp Hg Hr. unfold socks_request in Hg. rewrite <- !app_assoc in Hg. unfold socks5_accept.
  destruct (read_n_prefix [5; zlen methods] _ 2 w Hg) as (rx1 & H1 & Hg1); [done|].
  rewrite (M_bind_eq _ _ _ _ _ H1). cbv beta iota zeta.
  change (get [5; zlen methods] 0) with 5. change (get [5; zlen methods] 1) with (zlen methods).
  cbn [Z.eqb Pos.eqb negb]. rewrite (proj2 (Z.eqb_neq _ _)) by lia. rewrite Nat2Z.id.
  destruct (read_n_prefix methods _ (length methods) _ Hg1) as (rx2 & H2 & Hg2); [done|].
  rewrite (M_bind_eq _ _ _ _ _ H2). cbv beta iota.
  destruct (send_whole_run [0x05; 0x00] 1 (set_pt_rx rx2 (set_pt_rx rx1 w)) Hr) as (tx & H3 & Hr3); [done|].
  rewrite (M_bind_eq _ _ _ _ _ H3). cbn [negb].
  destruct (read_n_prefix [5; 1; 0; dst_type d] (dst_bytes d ++ [Z.shiftr port 8; Z.land port 255] ++ rest) 4
    (set_pt_tx tx (w_pt_out w ++ [5; 0]) (set_pt_rx rx2 (set_pt_rx rx1 w)))) as (rx4 & H4 & Hg4); [exact Hg2|done|].
  rewrite (M_bind_eq _ _ _ _ _ H4). cbv beta iota. change (get [5; 1; 0; dst_type d] 0) with 5.
  change (get [5; 1; 0; dst_type d] 1) with 1. change (get [5; 1; 0; dst_type d] 3) with (dst_type d).
  cbn [Z.eqb Pos.eqb negb].
  destruct (read_address_run d _ _ Hd Hg4) as (rx5 & H5 & Hg5).
  rewrite (M_bind_eq _ _ _ _ _ H5). cbv beta iota.
  destruct (read_n_prefix [Z.shiftr port 8; Z.land port 255] rest 2 _ Hg5) as (rx6 & H6 & Hg6); [done|].
  rewrite (M_bind_eq _ _ _ _ _ H6). cbv beta iota zeta. unfold send_reply. set (w6 := set_pt_rx rx6 _) in *.
  destruct (send_whole_run (reply_bytes 0) 0 w6 Hr3) as (tx7 & H7 & _); [done|].
  unfold get. cbn [nth]. rewrite port_bytes by done.
  eexists. unfold mbind, M_bind. rewrite H7. cbn. split_and!; [reflexivity|by rewrite <- app_assoc|exact Hg6].
Qed.

Definition demo_local : world :=
  set_pt_tx demo_tx []
    (set_pt_rx [RxData [5; 1]; RxData [0; 5; 1; 0; 3; 2]; RxData [104; 105; 1; 187; 22]] world0).

Lemma socks5_accepts_connect_witness :
  exists w', socks5_accept demo_local = Some (Some (dst_host (DstDomain [104; 105]), 443), w') /\
    w_pt_out w' = w_pt_out demo_local ++ [5; 0] ++ reply_bytes 0 /\ pt_gives [22] w'.
Proof.
  apply (socks5_accepts_connect [0] (DstDomain [104; 105]) 443 [22] demo_local).
  - simpl. lia.
  - split; [simpl; lia|apply wf_bytesb_spec; reflexivity].
  - unfold is_uint. lia.
  - split_and!; [repeat constructor; discriminate|apply wf_rxb_spec; reflexivity|reflexivity].
  - exists []. reflexivity.
Defined.

(** ** Setting up a proxied connection *)

Lemma be16_u8 (x : Z) : is_uint 16 x -> Z.lor (Z.shiftl (u8 (Z.shiftr x 8)) 8) (u8 x) = x.
Proof.
  intros H. assert (Hu : forall y, u8 y = Z.land y 255).
  { intros y. unfold u8. change 255 with (Z.ones 8). by rewrite Z.land_ones. }
  rewrite !Hu. by apply be16_roundtrip.
Qed.

Lemma connect_req_parses (host : bytes) (port : Z) :
  (length host <= 255)%nat -> is_uint 16 port ->
  parse_connect_req (build_connect_req host port) = Some (host, port).
Proof.
  intros Hl Hp. unfold parse_connect_req, build_connect_req.
  set (p := _ ++ host).
  assert (Hp4 : zlen p = 4 + zlen host) by (unfold p; rewrite length_app; simpl; lia).
  rewrite Hp4. rewrite (proj2 (Z.ltb_ge _ _)) by lia. cbv zeta.
  change (get p 0) with (u8 (Z.shiftr port 8)). change (get p 1) with (u8 port).
  change (get p 2) with (u8 (Z.shiftr (zlen host) 8)). change (get p 3) with (u8 (zlen host)).
  rewrite !be16_u8 by (done || unfold is_uint; lia).
  rewrite !(proj2 (Z.ltb_ge _ _)) by lia. rewrite Nat2Z.id. unfold p. cbn [drop app].
  rewrite firstn_all. unfold u16. rewrite Z.mod_small by apply Hp. done.
Qed.

Lemma connect_req_wf (host : bytes) (port : Z) : wf_bytes host -> wf_bytes (build_connect_req host port).
Proof. intros H. unfold build_connect_req. apply wf_bytes_app_2; [|done]. repeat constructor; apply is_uint_u8. Qed.

Section SetUp.
Context {A : Aead} {L : AeadLaws A} {C : Crypto} {CL : CryptoLaws C} {U : Locals}.

Lemma send_all_run (b : bytes) (ls : list nat) (w : world) : tx_takes (length b :: ls) (w_tx w) ->
  exists tx, send_all b w = Some (0, set_tx tx (w_out w ++ b) w) /\ tx_takes ls tx.
Proof. intros (tx & Hls & Ht). exists tx. unfold send_all. by rewrite Ht. Qed.

Lemma confirm_client_run (k : session_keys_t) (m rest : bytes) (calls : nat) (w : world) :
  wf_block (dec_key k) -> frame_build FRAME_KEYCONFIRM FLAG_NONE [] 0 (dec_key k) = Some m ->
  net_gives (S calls) (m ++ rest) w ->
  exists rx p, handshake_key_confirm_client k w = Some (0, set_rx rx (set_poll p w)) /\
    net_gives calls rest (set_rx rx (set_poll p w)).
Proof.
  intros Hk Hm Hn. assert (Hl := Hm). apply frame_build_len in Hl as (_ & Hl & Hw & _); [|done|apply wf_confirm].
  simpl in Hl. destruct (recv_all_run calls 20 (m ++ rest) w Hn) as (rx & p & Hr & Hn').
  { rewrite length_app. lia. }
  rewrite take_app_length' in Hr by done. rewrite drop_app_length' in Hn' by done.
  exists rx, p. split; [|done]. unfold handshake_key_confirm_client.
  change (FRAME_HEADER_LEN + AEGIS_TAG_LEN)%nat with 20%nat. rewrite (M_bind_eq _ _ _ _ _ Hr).
  rewrite (proj2 (frame_parse_iff m 0 (dec_key k) _ _ _ Hk Hw) (conj wf_confirm Hm)). done.
Qed.

Lemma recv_connect_req_run (host : bytes) (port : Z) (key m rest : bytes) (calls : nat) (w : world) :
  wf_block key -> (length host <= 255)%nat -> wf_bytes host -> is_uint 16 port ->
  frame_build FRAME_DATA FLAG_NONE (build_connect_req host port) 1 key = Some m ->
  net_gives (S (S calls)) (m ++ rest) w ->
  exists w', recv_connect_req key w = Some (Some (host, port), w') /\ net_gives calls rest w'.
Proof.
  intros Hk Hl Hh Hp Hm Hn. assert (Hwf := wf_data _ (connect_req_wf host port Hh)).
  assert (Hlen := Hm). apply frame_build_len in Hlen as (_ & Hlen & Hw & Hhd); [|done..].
  assert (Hq : length (build_connect_req host port) = (4 + length host)%nat) by done. rewrite Hq in *.
  destruct (recv_all_run (S calls) 4 (m ++ rest) w Hn) as (rx & p & Hr & Hn1); [rewrite length_app; lia|].
  rewrite take_app_le in Hr by lia. rewrite drop_app_le in Hn1 by lia.
  unfold recv_connect_req. change FRAME_HEADER_LEN with 4%nat. rewrite (M_bind_eq _ _ _ _ _ Hr). cbv zeta.
  assert (header_len (take 4 m) = Z.of_nat (4 + length host)) as ->.
  { rewrite Hhd, <- (app_nil_r (frame_header _ _ _)). apply header_len_header. unfold is_uint. lia. }
  rewrite !(proj2 (Z.ltb_ge _ _)) by lia. cbn [orb]. rewrite Nat2Z.id.
  change AEGIS_TAG_LEN with 16%nat.
  destruct (recv_all_run calls (4 + length host + 16) _ _ Hn1) as (rx2 & p2 & Hr2 & Hn2).
  { rewrite length_app, length_drop. lia. }
  rewrite take_app_length' in Hr2 by (rewrite length_drop; lia).
  rewrite drop_app_length' in Hn2 by (rewrite length_drop; lia).
  rewrite (M_bind_eq _ _ _ _ _ Hr2). rewrite take_drop.
  rewrite (proj2 (frame_parse_iff m 1 key _ _ _ Hk Hw) (conj Hwf Hm)).
  rewrite connect_req_parses by done. eexists. split; [reflexivity|done].
Qed.

Lemma recv_connect_req_out key w r w' : recv_connect_req key w = Some (r, w') -> w_out w' = w_out w.
Proof.
  intros H. unfold recv_connect_req in H. run_step. unfold recv_all in E.
  destruct (recv_all_loop _ _ _ _) as [[[x q] rx']|]; [|done]. injection E as <- <-.
  destruct x as [hdr|]; [|by run_step]. cbv zeta in H. destruct (_ || _); [by run_step|]. run_step.
  unfold recv_all in E. destruct (recv_all_loop _ _ _ _) as [[[x q2] rx2]|]; [|done]. injection E as <- <-.
  destruct x as [body|]; [|by run_step]. destruct (frame_parse _ _ _) as [[[? ?] ?]|]; by run_step.
Qed.

Lemma proxy_tunnel_inv pt_fd enc_fd k ka : wf_block (enc_key k) -> wf_block (dec_key k) -> tunnel_inv (proxy_tunnel pt_fd enc_fd k ka).
Proof. intros H1 H2. split; [done|]. split; [done|]. cbn. unfold NONCE_OVERFLOW_LIMIT. lia. Qed.
End SetUp.

(** C18: a proxied connection between an honest server and the client whose key is
    the first of its configured peers (with any other one the server fails: it reads
    a new message for each peer it tries) is set up completely: the server connects to exactly the host and port the SOCKS
    client asked for, and the two tunnel contexts start with mirrored keys and all
    four counters at 2, after the confirmation (0) and the request (1); what
    one side sends until it closes is then delivered to the other, in both
    directions. *)
Theorem proxy_setup_agrees (A : Aead) (L : AeadLaws A) (C : Crypto) (CL : CryptoLaws C) (U : Locals)
    (conn : bytes -> Z -> option Z) (a ea b eb host cf qf : bytes) (peers : list bytes) (port tfd : Z)
    (tc tc' ts ts' ka : Z) (kgc kgs : list (option bytes)) (clc cls : list (option Z))
    (k0 k1 : session_keys_t) (lfd efd sfd : Z) (wc ws : world) :
  let k := asym_sess (shared_secret a ea b eb) (x25519_pub ea) (x25519_pub eb) in
  wf_key32 a -> wf_key32 ea -> wf_key32 b -> wf_key32 eb ->
  w_keygen wc = Some ea :: kgc -> w_keygen ws = Some eb :: kgs ->
  w_clock wc = Some tc :: Some tc' :: clc -> w_clock ws = Some ts :: Some ts' :: cls ->
  replay_inv wc -> replay_inv ws ->
  fresh wc tc' ts' (x25519_pub eb) -> fresh ws ts tc (x25519_pub ea) ->
  (length host <= 255)%nat -> wf_bytes host -> is_uint 16 port -> conn host port = Some tfd ->
  frame_build FRAME_KEYCONFIRM FLAG_NONE [] 0 (dec_key k) = Some cf ->
  frame_build FRAME_DATA FLAG_NONE (build_connect_req host port) 1 (enc_key k) = Some qf ->
  tx_takes [WLEN; length qf] (w_tx wc) -> tx_takes [WLEN; length cf] (w_tx ws) ->
  net_gives 3 (server_hello a ea b eb ts' ++ cf) wc ->
  net_gives 4 (client_hello a ea b tc ++ qf) ws ->
  exists t1 t2 wc' ws',
    socks5_client_setup host port a (x25519_pub b) k0 lfd efd ka wc = Some (Some t1, wc') /\
    socks5_server_setup conn b (x25519_pub a :: peers) k1 sfd ka ws = Some (Some (host, port, t2), ws') /\
    w_out wc' = w_out wc ++ client_hello a ea b tc ++ qf /\
    w_out ws' = w_out ws ++ server_hello a ea b eb ts' ++ cf /\
    t_enc_key t1 = t_dec_key t2 /\ t_dec_key t1 = t_enc_key t2 /\
    t_enc_nonce t1 = t_dec_nonce t2 /\ t_dec_nonce t1 = t_enc_nonce t2 /\
    tunnel_inv t1 /\ tunnel_inv t2 /\ delivers_all t1 t2 /\ delivers_all t2 t1.
Proof.
  intros k Ha Hea Hb Heb Hkc Hks Hcc Hcs Hic His Hfc Hfs Hhl Hhw Hport Hconn Hcf Hqf Htc Hts Hnc Hns.
  assert (Hke : wf_block (enc_key k)) by apply key_of_digest.
  assert (Hkd : wf_block (dec_key k)) by apply key_of_digest.
  assert (Hts' : 0 <= ts') by (destruct Hfc as (_ & ? & _); lia).
  destruct (handshake_client_run a ea b eb tc tc' ts' kgc clc k0 1 cf [length qf] wc)
    as (wc1 & Hc & Hoc & Hnc1 & Htc1 & _); [done..|].
  destruct (handshake_server_run a ea b eb ts ts' tc kgs cls k1 2 qf [length cf] ws)
    as (ws1 & Hs & Hos & Hns1 & Hts1 & _); [done..|]. fold k in Hc, Hs.
  rewrite <- (app_nil_r cf) in Hnc1.
  destruct (confirm_client_run k cf [] 0 wc1 Hkd Hcf Hnc1) as (rx & p & Hcc1 & _).
  set (wc2 := set_rx rx (set_poll p wc1)) in *.
  destruct (send_all_run qf [] wc2 Htc1) as (tx & Hsq & _).
  destruct (send_all_run cf [] ws1 Hts1) as (tx2 & Hsc & _). set (ws2 := set_tx tx2 _ ws1) in *.
  rewrite <- (app_nil_r qf) in Hns1.
  destruct (recv_connect_req_run host port (enc_key k) qf [] 0 ws2) as (ws3 & Hrq & Hn3); [done..|].
  assert (Hout3 : w_out ws3 = w_out ws2) by by eapply recv_connect_req_out.
  eexists (proxy_tunnel lfd efd k ka), (proxy_tunnel tfd sfd (mkKeys (dec_key k) (enc_key k)) ka), _, ws3.
  split_and!.
  - unfold socks5_client_setup, send_connect_req. rewrite (M_bind_eq _ _ _ _ _ Hc). cbn [Z.eqb negb].
    rewrite (M_bind_eq _ _ _ _ _ Hcc1). cbn [Z.eqb negb]. rewrite Hqf, (M_bind_eq _ _ _ _ _ Hsq). reflexivity.
  - unfold socks5_server_setup, try_handshake_server. cbn [try_peers].
    unfold mbind at 1, M_bind at 1. unfold mbind at 1, M_bind at 1. rewrite Hs. cbn [Z.eqb].
    unfold mret at 1, M_ret at 1. cbn [Z.ltb Z.compare].
    unfold handshake_key_confirm_server. cbn [enc_key dec_key]. rewrite Hcf, (M_bind_eq _ _ _ _ _ Hsc).
    cbn [Z.eqb negb]. rewrite (M_bind_eq _ _ _ _ _ Hrq). by rewrite Hconn.
  - change (w_out wc1 ++ qf = w_out wc ++ client_hello a ea b tc ++ qf). by rewrite Hoc, <- app_assoc.
  - rewrite Hout3. change (w_out ws1 ++ cf = w_out ws ++ server_hello a ea b eb ts' ++ cf).
    by rewrite Hos, <- app_assoc.
  - done.
  - done.
  - done.
  - done.
  - by apply proxy_tunnel_inv.
  - by apply proxy_tunnel_inv.
  - by apply mirrored_delivers_all; try apply proxy_tunnel_inv.
  - by apply mirrored_delivers_all; try apply proxy_tunnel_inv.
Qed.

Definition demo_session : session_keys_t :=
  @asym_sess toy_crypto (@shared_secret toy_crypto no_locals key_a key_ea key_b key_eb) key_ea key_eb.

Definition demo_cf : bytes :=
  default [] (@frame_build pure_c FRAME_KEYCONFIRM FLAG_NONE [] 0 (dec_key demo_session)).
Definition demo_qf : bytes :=
  default [] (@frame_build pure_c FRAME_DATA FLAG_NONE (build_connect_req [104; 105] 443) 1
    (enc_key demo_session)).

Definition proxy_client : world :=
  mkWorld (replicate 5 (PollRet no_event readable)) [RxData (take 50 demo_sh); RxData (drop 50 demo_sh ++ demo_cf)]
    [TxSome 60; TxSome 100] [] [] [] [] [Some 1000; Some 1011] [Some key_ea] [] []
    (replicate REPLAY_SLOTS (mkReplay 0 0)) 0.

Definition proxy_server : world :=
  mkWorld (replicate 5 (PollRet no_event readable)) [RxData (demo_ch ++ demo_qf)]
    [TxSome 60; TxSome 20] [] [] [] [] [Some 1005; Some 1010] [Some key_eb] [] []
    (replicate REPLAY_SLOTS (mkReplay 0 0)) 0.

Lemma proxy_setup_agrees_witness : exists t1 t2 wc' ws',
  @socks5_client_setup pure_c toy_crypto no_locals [104; 105] 443 key_a (@x25519_pub toy_crypto key_b)
    (mkKeys [] []) 5 6 0 proxy_client = Some (Some t1, wc') /\
  @socks5_server_setup pure_c toy_crypto no_locals (fun _ _ => Some 9) key_b
    (@x25519_pub toy_crypto key_a :: []) (mkKeys [] []) 7 0 proxy_server =
    Some (Some ([104; 105], 443, t2), ws') /\
  t_enc_key t1 = t_dec_key t2 /\ t_enc_nonce t1 = t_dec_nonce t2.
Proof.
  destruct (proxy_setup_agrees pure_c pure_c_laws toy_crypto toy_crypto_laws no_locals (fun _ _ => Some 9)
    key_a key_ea key_b key_eb [104; 105] demo_cf demo_qf [] 443 9 1000 1011 1005 1010 0 [] [] [] []
    (mkKeys [] []) (mkKeys [] []) 5 6 7 proxy_client proxy_server)
    as (t1 & t2 & wc' & ws' & H1 & H2 & _ & _ & H3 & _ & H4 & _).
  1-4: apply wf_key32_rep; unfold is_uint; lia.
  1-4: reflexivity.
  1-2: split; [reflexivity|unfold REPLAY_SLOTS; simpl; lia].
  1-2: split_and!; [lia..|unfold TIMESTAMP_WINDOW_SEC; lia|apply not_in_zero_cache; [reflexivity|lia]].
  - simpl. lia.
  - apply wf_bytesb_spec. reflexivity.
  - unfold is_uint. lia.
  - reflexivity.
  - vm_compute. reflexivity.
  - vm_compute. reflexivity.
  - apply tx_takes_cons; [unfold WLEN; lia|]. apply tx_takes_cons; [vm_compute; lia|exact I].
  - apply tx_takes_cons; [unfold WLEN; lia|]. apply tx_takes_cons; [vm_compute; lia|exact I].
  - split_and!.
    + repeat constructor; vm_compute; discriminate.
    + apply wf_rxb_spec. vm_compute. reflexivity.
    + vm_compute. reflexivity.
    + exists 5%nat. split; [by exists no_event, []|simpl; lia].
  - split_and!.
    + repeat constructor; vm_compute; discriminate.
    + apply wf_rxb_spec. vm_compute. reflexivity.
    + vm_compute. reflexivity.
    + exists 5%nat. split; [by exists no_event, []|simpl; lia].
  - exists t1, t2, wc', ws'. split_and!; [exact H1|exact H2|exact H3|exact H4].
Defined.
