(* ===== verification/ThreadPool.v ===== *)
(** * The thread pool (tunnel/threadpool.c)

    A pool of [num_threads] workers takes jobs from a linked list that is
    guarded by one mutex and one condition variable; other threads call
    [threadpool_submit], [threadpool_pending] and [threadpool_shutdown].

    The pool is a state machine.  The state [pool] holds the fields of
    [threadpool_t], the heap cells of the work items, the owner of the mutex
    and, for every thread, the program point it is at ([pc]).  [step] runs
    one thread from its program point to the next; two program points are
    separated wherever another thread can observe the difference: at every
    mutex operation, at the condition variable and around [w->fn].  The
    interleaving is the sequence of [event]s, which also carries what the
    environment decides: the address [malloc] returns (or [NULL]), which
    sleeper [pthread_cond_signal] wakes, and spurious wake-ups.  Access to a
    cell that is not allocated, or to the pool after it has been freed, is
    [Fault].

    [pending], an [int] in the code, is a [Z]: it counts the queued items, which
    are 24 bytes each on the heap, so that it could leave the range of [int] only
    with more than 2^31 items (51 GB) queued.

    The lists [submitted], [taken] and [executed] are history: they record
    the jobs in the order in which they were linked, unlinked and run. *)

From stdpp Require Import gmap.
From S2P Require Import Prelude.

Module Pool.

Abbreviation ptr := Z.
Definition NULL : ptr := 0.

(** [fn] and [arg] of a job: opaque addresses. *)
Abbreviation job := (Z * Z)%type.

Record threadpool_work_t := mkWork { w_fn : Z; w_arg : Z; w_next : ptr }.

Definition w_job (w : threadpool_work_t) : job := (w_fn w, w_arg w).

Inductive pc :=
  (* worker_loop *)
  | W_lock | W_while | W_wait | W_woken | W_dequeue
  | W_unlock (w : ptr) | W_exec (w : ptr) | W_free (w : ptr) | W_exit | W_done
  (* a slot of [threads] whose [pthread_create] failed *)
  | W_none
  (* threadpool_submit *)
  | S_malloc (fn arg : Z) | S_lock (w : ptr) | S_link (w : ptr) | S_signal | S_unlock | S_ret (r : Z)
  (* threadpool_pending *)
  | P_lock | P_read | P_unlock (n : Z) | P_ret (n : Z)
  (* threadpool_shutdown *)
  | D_lock | D_set | D_broadcast | D_unlock | D_join (i : nat) | D_free | D_ret.

#[global] Instance pc_eq_dec : EqDecision pc.
Proof. solve_decision. Defined.

Record pool := mkPool {
  num_threads : nat;
  shutdown : bool;
  head : ptr;
  tail : ptr;
  pending : Z;
  mutex : option nat;
  heap : gmap ptr threadpool_work_t;
  freed : bool;
  threads : list pc;
  submitted : list job;
  taken : list job;
  executed : list job;
  late : bool  (* a job was linked after [shutdown] was set *)
}.

Definition set_pc (t : nat) (p : pc) (s : pool) : pool :=
  mkPool (num_threads s) (shutdown s) (head s) (tail s) (pending s) (mutex s) (heap s) (freed s)
    (<[t := p]> (threads s)) (submitted s) (taken s) (executed s) (late s).

Definition set_mutex (o : option nat) (s : pool) : pool :=
  mkPool (num_threads s) (shutdown s) (head s) (tail s) (pending s) o (heap s) (freed s)
    (threads s) (submitted s) (taken s) (executed s) (late s).

Definition set_heap (h : gmap ptr threadpool_work_t) (s : pool) : pool :=
  mkPool (num_threads s) (shutdown s) (head s) (tail s) (pending s) (mutex s) h (freed s)
    (threads s) (submitted s) (taken s) (executed s) (late s).

Inductive outcome := Next (s : pool) | Blocked | Fault.

Inductive event :=
  | Run (t : nat)                            (* an ordinary step of thread [t] *)
  | Malloc (t : nat) (p : ptr)               (* [malloc] of thread [t] returns [p] *)
  | Signal (t : nat) (sleeper : option nat)  (* [pthread_cond_signal] by [t] *)
  | Spurious (t : nat).                      (* [t] wakes without a signal *)

(** [pthread_mutex_lock] and [pthread_mutex_unlock]. *)
Definition lock (t : nat) (p : pc) (s : pool) : outcome :=
  match mutex s with
  | None => Next (set_pc t p (set_mutex (Some t) s))
  | Some _ => Blocked
  end.

Definition unlock (t : nat) (p : pc) (s : pool) : outcome := Next (set_pc t p (set_mutex None s)).

(** The rest of the critical section of [worker_loop]: leave if there is
    nothing left after a shutdown, else unlink the first item and decrement
    [pending].  ([heap s !! w] is read for the history only: the code reads
    [w->next] when there is a second item, and [w->fn] after the unlock.) *)
Definition dequeue (t : nat) (s : pool) : outcome :=
  if shutdown s && (head s =? NULL) then Next (set_pc t W_exit s)
  else
    let w := head s in
    match heap s !! w with
    | None => Fault
    | Some n =>
        let '(h', t') := if w =? tail s then (NULL, NULL) else (w_next n, tail s) in
        Next (set_pc t (W_unlock w)
          (mkPool (num_threads s) (shutdown s) h' t' (pending s - 1) (mutex s) (heap s) (freed s)
             (threads s) (submitted s) (taken s ++ [w_job n]) (executed s) (late s)))
    end.

(** The critical section of [threadpool_submit] up to the signal: append the
    item and increment [pending]. *)
Definition link (t : nat) (w : ptr) (s : pool) : outcome :=
  match heap s !! w with
  | None => Fault
  | Some n =>
      let finish hd hp :=
        Next (set_pc t S_signal
          (mkPool (num_threads s) (shutdown s) hd w (pending s + 1) (mutex s) hp (freed s)
             (threads s) (submitted s ++ [w_job n]) (taken s) (executed s) (late s || shutdown s))) in
      if tail s =? NULL then finish w (heap s)
      else match heap s !! tail s with
           | None => Fault
           | Some l => finish (head s) (<[tail s := mkWork (w_fn l) (w_arg l) w]> (heap s))
           end
  end.

(** One step of [worker_loop]. *)
Definition worker_loop (t : nat) (p : pc) (s : pool) : outcome :=
  match p with
  | W_lock | W_woken => lock t W_while s
  | W_while =>
      if negb (shutdown s) && (head s =? NULL) then unlock t W_wait s
      else Next (set_pc t W_dequeue s)
  | W_dequeue => dequeue t s
  | W_unlock w => unlock t (W_exec w) s
  | W_exec w =>
      match heap s !! w with
      | None => Fault
      | Some n =>
          Next (set_pc t (W_free w)
            (mkPool (num_threads s) (shutdown s) (head s) (tail s) (pending s) (mutex s) (heap s)
               (freed s) (threads s) (submitted s) (taken s) (executed s ++ [w_job n]) (late s)))
      end
  | W_free w =>
      match heap s !! w with
      | None => Fault
      | Some _ => Next (set_pc t W_lock (set_heap (delete w (heap s)) s))
      end
  | W_exit => unlock t W_done s
  | _ => Blocked
  end.

(** One step of [threadpool_submit] after [malloc]; the signal is a step of
    its own (below). *)
Definition threadpool_submit (t : nat) (p : pc) (s : pool) : outcome :=
  match p with
  | S_lock w => lock t (S_link w) s
  | S_link w => link t w s
  | S_unlock => unlock t (S_ret 0) s
  | _ => Blocked
  end.

(** [malloc] of [threadpool_submit], which may fail; the item is filled in
    before it is shared. *)
Definition submit_malloc (t : nat) (a : ptr) (p : pc) (s : pool) : outcome :=
  match p with
  | S_malloc fn arg =>
      if a =? NULL then Next (set_pc t (S_ret (-1)) s)
      else match heap s !! a with
           | Some _ => Blocked  (* malloc returns no live address *)
           | None => Next (set_pc t (S_lock a) (set_heap (<[a := mkWork fn arg NULL]> (heap s)) s))
           end
  | _ => Blocked
  end.

(** [pthread_cond_signal]: wakes one sleeper if there is one. *)
Definition cond_signal (t : nat) (o : option nat) (p : pc) (s : pool) : outcome :=
  match p, o with
  | S_signal, Some k =>
      if decide (threads s !! k = Some W_wait) then Next (set_pc t S_unlock (set_pc k W_woken s))
      else Blocked
  | S_signal, None => if decide (W_wait ∈ threads s) then Blocked else Next (set_pc t S_unlock s)
  | _, _ => Blocked
  end.

Definition threadpool_pending (t : nat) (p : pc) (s : pool) : outcome :=
  match p with
  | P_lock => lock t P_read s
  | P_read => Next (set_pc t (P_unlock (pending s)) s)
  | P_unlock n => unlock t (P_ret n) s
  | _ => Blocked
  end.

(** What [pthread_cond_broadcast] does to one thread. *)
Definition wake (p : pc) : pc := match p with W_wait => W_woken | _ => p end.

(** [pthread_join] of a slot that holds no thread is undefined: [Fault]. *)
Definition threadpool_shutdown (t : nat) (p : pc) (s : pool) : outcome :=
  match p with
  | D_lock => lock t D_set s
  | D_set =>
      Next (set_pc t D_broadcast
        (mkPool (num_threads s) true (head s) (tail s) (pending s) (mutex s) (heap s) (freed s)
           (threads s) (submitted s) (taken s) (executed s) (late s)))
  | D_broadcast =>
      Next (set_pc t D_unlock
        (mkPool (num_threads s) (shutdown s) (head s) (tail s) (pending s) (mutex s) (heap s) (freed s)
           (map wake (threads s)) (submitted s) (taken s) (executed s) (late s)))
  | D_unlock => unlock t (D_join 0) s
  | D_join i =>
      if (i <? num_threads s)%nat
      then if decide (threads s !! i = Some W_none) then Fault
           else if decide (threads s !! i = Some W_done) then Next (set_pc t (D_join (S i)) s) else Blocked
      else Next (set_pc t D_free s)
  | D_free =>
      Next (set_pc t D_ret
        (mkPool (num_threads s) (shutdown s) (head s) (tail s) (pending s) (mutex s) (heap s) true
           (threads s) (submitted s) (taken s) (executed s) (late s)))
  | _ => Blocked
  end.

Definition is_worker (p : pc) : bool :=
  match p with
  | W_lock | W_while | W_wait | W_woken | W_dequeue | W_unlock _ | W_exec _ | W_free _
  | W_exit | W_done => true
  | _ => false
  end.

(** The program points whose next step reads or writes [*tp]. *)
Definition touches_pool (p : pc) : bool :=
  match p with
  | W_exec _ | W_free _ | W_done | W_none | S_malloc _ _ | S_ret _ | P_ret _ | D_ret => false
  | _ => true
  end.

Definition thread_of (e : event) : nat :=
  match e with Run t | Malloc t _ | Signal t _ | Spurious t => t end.

Definition run (t : nat) (p : pc) (s : pool) : outcome :=
  match p with
  | S_lock _ | S_link _ | S_unlock => threadpool_submit t p s
  | P_lock | P_read | P_unlock _ => threadpool_pending t p s
  | D_lock | D_set | D_broadcast | D_unlock | D_join _ | D_free => threadpool_shutdown t p s
  | _ => worker_loop t p s
  end.

Definition step (e : event) (s : pool) : outcome :=
  match threads s !! thread_of e with
  | None => Blocked
  | Some p =>
      if freed s && touches_pool p then Fault
      else match e with
           | Run t => run t p s
           | Malloc t a => submit_malloc t a p s
           | Signal t o => cond_signal t o p s
           | Spurious t => match p with W_wait => Next (set_pc t W_woken s) | _ => Blocked end
           end
  end.

(** A thread about to call one of the three operations. *)
Definition is_call (p : pc) : bool :=
  match p with S_malloc _ _ | P_lock | D_lock => true | _ => false end.

(** The pool after [threadpool_create], together with the other threads of
    the program.  [created] tells which calls of [pthread_create] succeed; their
    results are not looked at. *)
Definition new_pool (created : list bool) (calls : list pc) : pool :=
  mkPool (length created) false NULL NULL 0 None ∅ false
    (map (fun ok : bool => if ok then W_lock else W_none) created ++ calls) [] [] [] false.

(** [tp_ok] and [threads_ok]: whether the two [calloc]s succeed. *)
Definition threadpool_create (tp_ok threads_ok : bool) (created : list bool) (calls : list pc) : option pool :=
  if negb tp_ok then None
  else if negb threads_ok then None
  else Some (new_pool created calls).

Fixpoint steps (es : list event) (s : pool) : option pool :=
  match es with
  | [] => Some s
  | e :: es' => match step e s with Next s' => steps es' s' | _ => None end
  end.

(** The states an interleaving can reach when all [n] workers were created (if not,
    shutdown runs into a slot without a thread: [shutdown_joins_nothing]). *)
Inductive reachable (n : nat) (calls : list pc) : pool -> Prop :=
  | reach_init s : threadpool_create true true (replicate n true) calls = Some s -> reachable n calls s
  | reach_step s e s' : reachable n calls s -> step e s = Next s' -> reachable n calls s'.

(** The jobs in the linked list, by following [next] from [head] to [tail]. *)
Fixpoint walk (fuel : nat) (h : gmap ptr threadpool_work_t) (p last : ptr) : list ptr :=
  match fuel with
  | O => []
  | S f => if p =? NULL then [] else
           p :: (if p =? last then []
                 else match h !! p with Some n => walk f h (w_next n) last | None => [] end)
  end.

Definition queue (s : pool) : list ptr := walk (size (heap s)) (heap s) (head s) (tail s).

Definition jobs_of (h : gmap ptr threadpool_work_t) (q : list ptr) : list job :=
  omap (fun p => w_job <$> h !! p) q.
#[global] Arguments jobs_of : simpl never.


(** ** Invariants

    The invariants are stated on the fields they constrain, so that each is
    proved against the effect of a step rather than against its code. *)

(** Program points between [pthread_mutex_lock] and [pthread_mutex_unlock]. *)
Definition holds (p : pc) : bool :=
  match p with
  | W_while | W_dequeue | W_unlock _ | W_exit | S_link _ | S_signal | S_unlock
  | P_read | P_unlock _ | D_set | D_broadcast | D_unlock => true
  | _ => false
  end.

Definition mutex_ok (m : option nat) (ths : list pc) : Prop :=
  forall t p, ths !! t = Some p -> (holds p = true <-> m = Some t).

(** The item a thread is the only one to use, and the jobs taken from the
    list but not yet run. *)
Definition owned (p : pc) : list ptr :=
  match p with
  | S_lock w | S_link w | W_unlock w | W_exec w | W_free w => [w]
  | _ => []
  end.
Definition in_flight (p : pc) : list ptr :=
  match p with W_unlock w | W_exec w => [w] | _ => [] end.

Definition list_ok (s : pool) (q : list ptr) : Prop :=
  head s = default NULL (hd_error q) /\ tail s = default NULL (last q) /\
  forall i x y n, q !! i = Some x -> q !! S i = Some y -> heap s !! x = Some n -> w_next n = y.

Definition cells_ok (h : gmap ptr threadpool_work_t) (own : list ptr) : Prop :=
  NoDup own /\ (NULL ∉ own) /\ forall p, is_Some (h !! p) <-> p ∈ own.

Record memory_inv (s : pool) (q : list ptr) : Prop := {
  mi_list : list_ok s q;
  mi_cells : cells_ok (heap s) (q ++ (threads s ≫= owned));
  mi_pending : pending s = Z.of_nat (length q);
  mi_fifo : submitted s = taken s ++ jobs_of (heap s) q;
  mi_exec : taken s ≡ₚ (executed s) ++ jobs_of (heap s) (threads s ≫= in_flight)
}.

Section lists.
Context {A : Type}.

Lemma bind_insert_perm (f : pc -> list A) ths t p p' :
  ths !! t = Some p -> f p ++ (<[t := p']> ths ≫= f) ≡ₚ f p' ++ (ths ≫= f).
Proof.
  intros Ht. assert (t < length ths)%nat by by eapply lookup_lt_Some.
  rewrite insert_take_drop by done. rewrite <- (take_drop_middle ths t p Ht) at 3.
  rewrite !bind_app. simpl. solve_Permutation.
Qed.

Lemma bind_insert_same (f : pc -> list A) ths t p p' :
  ths !! t = Some p -> f p = f p' -> <[t := p']> ths ≫= f = ths ≫= f.
Proof.
  intros Ht Hf. assert (t < length ths)%nat by by eapply lookup_lt_Some.
  rewrite insert_take_drop by done. rewrite <- (take_drop_middle ths t p Ht) at 3.
  rewrite !bind_app. simpl. by rewrite Hf.
Qed.
End lists.

Lemma jobs_of_ext h h' q :
  (forall p, p ∈ q -> w_job <$> h !! p = w_job <$> h' !! p) -> jobs_of h q = jobs_of h' q.
Proof.
  unfold jobs_of. induction q as [|p q IH]; intros Hq; [done|]. simpl.
  rewrite (Hq p) by set_solver. destruct (h' !! p); simpl; [f_equal|]; apply IH; set_solver.
Qed.

Lemma jobs_of_app h q q' : jobs_of h (q ++ q') = jobs_of h q ++ jobs_of h q'.
Proof. unfold jobs_of. by rewrite omap_app. Qed.

Lemma jobs_of_perm h q q' : q ≡ₚ q' -> jobs_of h q ≡ₚ jobs_of h q'.
Proof. unfold jobs_of. by intros ->. Qed.

Lemma jobs_of_one h p n : h !! p = Some n -> jobs_of h [p] = [w_job n].
Proof. unfold jobs_of. simpl. by intros ->. Qed.


(** *** Mutual exclusion *)

Ltac mutex_case :=
  let u := fresh "u" in let r := fresh "r" in let Hr := fresh "Hr" in
  intros u r Hr; simpl in *;
  apply list_lookup_insert_Some in Hr as [(-> & <- & _)|[? Hr]];
  [simpl in *|].

Lemma mutex_ok_keep m ths t p p' :
  ths !! t = Some p -> holds p' = holds p -> mutex_ok m ths -> mutex_ok m (<[t := p']> ths).
Proof. intros Ht Hp Hm. mutex_case; [rewrite Hp; by apply Hm|by apply Hm]. Qed.

Lemma mutex_ok_lock ths t p' :
  holds p' = true -> mutex_ok None ths -> mutex_ok (Some t) (<[t := p']> ths).
Proof.
  intros Hp Hm. mutex_case; [done|]. specialize (Hm _ _ Hr). split; [by intros ?%Hm|].
  intros [= ?]. congruence.
Qed.

Lemma mutex_ok_unlock m ths t p p' :
  ths !! t = Some p -> holds p = true -> holds p' = false ->
  mutex_ok m ths -> mutex_ok None (<[t := p']> ths).
Proof.
  intros Ht Hp Hp' Hm. pose proof (proj1 (Hm _ _ Ht) Hp) as Hmt. mutex_case; [by rewrite Hp'|].
  specialize (Hm _ _ Hr). split; [|done]. intros ?%Hm. congruence.
Qed.

Lemma mutex_ok_wake m ths : mutex_ok m ths -> mutex_ok m (map wake ths).
Proof.
  intros Hm t p Ht. apply list_lookup_fmap_Some in Ht as (r & -> & Hr).
  rewrite <- (Hm _ _ Hr). by destruct r.
Qed.

(** Every program point of a step, by cases: the code of the step is unfolded
    until it names the next state. *)
Ltac step_cases H :=
  let p := fresh "p" in let t := fresh "t" in let Hp := fresh "Hp" in
  unfold step in H;
  match type of H with
  | context [threads ?s !! thread_of ?e] => destruct (threads s !! thread_of e) as [p|] eqn:Hp; [|done]
  end;
  destruct (freed _ && touches_pool p) eqn:Htouch; [done|];
  match type of H with context [match ?e with Run _ => _ | _ => _ end] => destruct e as [t|t a|t o|t] end;
  simpl in Hp; destruct p;
  unfold run, worker_loop, threadpool_submit, submit_malloc, cond_signal, threadpool_pending,
    threadpool_shutdown, dequeue, link, lock, unlock in H; simpl in H; try done;
  repeat (case_match; try done); simplify_eq.

Lemma step_mutex e s s' : mutex_ok (mutex s) (threads s) -> step e s = Next s' ->
  mutex_ok (mutex s') (threads s').
Proof.
  intros Hm H. step_cases H; simpl in *;
    first [ by eapply mutex_ok_keep | by eapply mutex_ok_unlock | by eapply mutex_ok_lock | idtac ].
  - eapply (mutex_ok_keep _ _ _ D_broadcast); [by rewrite list_lookup_fmap, Hp|done|].
    by apply mutex_ok_wake.
  - assert (t <> n) by congruence.
    eapply (mutex_ok_keep _ _ _ S_signal); [by rewrite list_lookup_insert_ne|done|].
    by eapply mutex_ok_keep.
Qed.

(** The mutex is held by an existing thread. *)
Definition owner_ok (s : pool) : Prop := forall t, mutex s = Some t -> (t < length (threads s))%nat.

Lemma step_owner e s s' : owner_ok s -> step e s = Next s' -> owner_ok s'.
Proof.
  intros Ho H. step_cases H; intros u Hu; simpl in *; rewrite ?length_insert, ?length_map; simplify_eq;
    first [ by eapply lookup_lt_Some | by apply Ho ].
Qed.

(** *** The linked list *)

Lemma cells_ok_perm h own own' : own ≡ₚ own' -> cells_ok h own -> cells_ok h own'.
Proof. unfold cells_ok. intros Ho (? & ? & Hd). rewrite <- Ho. split_and!; [done..|]. intros. by rewrite <- Ho. Qed.

Lemma cells_ok_alloc h own a n :
  cells_ok h own -> h !! a = None -> a <> NULL -> cells_ok (<[a := n]> h) (a :: own).
Proof.
  intros (Hnd & Hnull & Hd) Ha Hn. split_and!.
  - constructor; [|done]. intros Hin%Hd. destruct Hin. congruence.
  - set_solver.
  - intros p. rewrite lookup_insert_is_Some, elem_of_cons, <- Hd. destruct (decide (p = a)); naive_solver.
Qed.

Lemma cells_ok_free h own a : cells_ok h (a :: own) -> cells_ok (delete a h) own.
Proof.
  intros (Hnd & Hnull & Hd). apply NoDup_cons in Hnd as [Ha Hnd]. split_and!; [done|set_solver|].
  intros p. rewrite lookup_delete_is_Some, Hd, elem_of_cons. split; [naive_solver|].
  intros Hp. split; [by intros ->|by right].
Qed.

Lemma cells_ok_update h own a l n : cells_ok h own -> h !! a = Some l -> cells_ok (<[a := n]> h) own.
Proof.
  intros (? & ? & Hd) Ha. split_and!; [done..|]. intros p. rewrite <- Hd, lookup_insert_is_Some.
  destruct (decide (a = p)) as [<-|]; rewrite ?Ha; naive_solver.
Qed.

Lemma cells_ok_live h own a : cells_ok h own -> a ∈ own -> exists n, h !! a = Some n.
Proof. intros (_ & _ & Hd) Ha%Hd. by destruct Ha; eauto. Qed.

Lemma bind_wake {A} (f : pc -> list A) ths :
  (forall p, f (wake p) = f p) -> map wake ths ≫= f = ths ≫= f.
Proof. intros Hf. induction ths as [|p ths IH]; [done|]. csimpl. by rewrite Hf, IH. Qed.

(** Steps that move no item. *)
Lemma memory_keep s s' q :
  memory_inv s q ->
  threads s' ≫= owned = threads s ≫= owned -> threads s' ≫= in_flight = threads s ≫= in_flight ->
  head s' = head s -> tail s' = tail s -> heap s' = heap s -> pending s' = pending s ->
  submitted s' = submitted s -> taken s' = taken s -> executed s' = executed s -> memory_inv s' q.
Proof.
  intros [Hl Hc Hpd Hf He] Ho Hi Eh Et Ehp Epd Es Eta Ee.
  constructor; unfold list_ok; by rewrite ?Eh, ?Et, ?Ehp, ?Epd, ?Es, ?Eta, ?Ee, ?Ho, ?Hi.
Qed.

(** The item of a thread is the head of the owned cells. *)
Lemma owned_perm ths t p p' q :
  ths !! t = Some p ->
  owned p ++ q ++ (<[t := p']> ths ≫= owned) ≡ₚ owned p' ++ q ++ (ths ≫= owned).
Proof. intros Ht. pose proof (bind_insert_perm owned ths t p p' Ht) as Hp. 
  rewrite !(Permutation_app_swap_app _ q), Hp. done. Qed.

Lemma elem_of_owned ths t p w : ths !! t = Some p -> w ∈ owned p -> w ∈ ths ≫= owned.
Proof. intros Ht Hw. apply list_elem_of_bind. exists p. split; [done|]. by eapply list_elem_of_lookup_2. Qed.

Lemma in_flight_owned ths w : w ∈ ths ≫= in_flight -> w ∈ ths ≫= owned.
Proof.
  rewrite !list_elem_of_bind. intros (p & Hw & Hp). exists p. split; [|done]. destruct p; simpl in *; set_solver.
Qed.

(** [w->fn(w->arg)]. *)
Lemma memory_exec s q t w n :
  memory_inv s q -> threads s !! t = Some (W_exec w) -> heap s !! w = Some n ->
  memory_inv (set_pc t (W_free w)
    (mkPool (num_threads s) (shutdown s) (head s) (tail s) (pending s) (mutex s) (heap s)
       (freed s) (threads s) (submitted s) (taken s) (executed s ++ [w_job n]) (late s))) q.
Proof.
  intros [Hl Hc Hpd Hf He] Ht Hw. constructor; simpl; [done| |done..|].
  - by rewrite (bind_insert_same _ _ _ (W_exec w)).
  - rewrite He, <- (app_assoc (executed s)). f_equiv. rewrite <- (jobs_of_one _ _ _ Hw), <- jobs_of_app.
    apply jobs_of_perm. symmetry. exact (bind_insert_perm in_flight _ _ _ (W_free w) Ht).
Qed.

(** [free(w)]. *)
Lemma memory_free s q t w :
  memory_inv s q -> threads s !! t = Some (W_free w) ->
  memory_inv (set_pc t W_lock (set_heap (delete w (heap s)) s)) q.
Proof.
  intros [[Hh [Htl Hnx]] Hc Hpd Hf He] Ht. pose proof (owned_perm _ _ _ W_lock q Ht) as Hperm. simpl in Hperm.
  assert (cells_ok (heap s) (w :: q ++ (<[t:=W_lock]> (threads s) ≫= owned))) as Hc'
    by (eapply cells_ok_perm; [symmetry; exact Hperm|done]).
  destruct (Hc') as (Hnd & _ & _). apply NoDup_cons in Hnd as [Hw _].
  assert (forall l, (forall p, p ∈ l -> p ∈ q ++ (<[t:=W_lock]> (threads s) ≫= owned)) ->
    jobs_of (delete w (heap s)) l = jobs_of (heap s) l) as Hj.
  { intros l Hsub. apply jobs_of_ext. intros p Hp. rewrite lookup_delete_ne; [done|].
    intros <-. by apply Hw, Hsub. }
  constructor; simpl.
  - split_and!; [done..|]. intros i x y n Hx Hy Hn. simpl in Hn. apply lookup_delete_Some in Hn as [_ Hn]. exact (Hnx _ _ _ _ Hx Hy Hn).
  - by apply cells_ok_free.
  - done.
  - rewrite Hj; [done|]. intros p Hp. set_solver.
  - rewrite Hj; [|intros p ?%in_flight_owned; set_solver].
    by rewrite (bind_insert_same _ _ _ (W_free w)).
Qed.

(** [malloc] and the initialisation of the item. *)
Lemma memory_malloc s q t fn arg a :
  memory_inv s q -> threads s !! t = Some (S_malloc fn arg) -> a <> NULL -> heap s !! a = None ->
  memory_inv (set_pc t (S_lock a) (set_heap (<[a := mkWork fn arg NULL]> (heap s)) s)) q.
Proof.
  intros [[Hh [Htl Hnx]] Hc Hpd Hf He] Ht Hn Ha. pose proof (owned_perm _ _ _ (S_lock a) q Ht) as Hperm. simpl in Hperm.
  assert (forall p, p ∈ q ++ (threads s ≫= owned) -> p <> a) as Hfr.
  { intros p Hp ->. destruct (cells_ok_live _ _ _ Hc Hp). congruence. }
  assert (forall l, (forall p, p ∈ l -> p ∈ q ++ (threads s ≫= owned)) ->
    jobs_of (<[a:=mkWork fn arg NULL]> (heap s)) l = jobs_of (heap s) l) as Hj.
  { intros l Hsub. apply jobs_of_ext. intros p Hp. rewrite lookup_insert_ne; [done|].
    intros <-. by eapply Hfr; [apply Hsub|]. }
  constructor; simpl.
  - split_and!; [done..|]. intros i x y n Hx Hy Hl. simpl in Hl. rewrite lookup_insert_ne in Hl; [exact (Hnx _ _ _ _ Hx Hy Hl)|].
    intros <-. apply (Hfr a); [|done]. apply elem_of_app. left. by eapply list_elem_of_lookup_2.
  - eapply cells_ok_perm; [symmetry; exact Hperm|]. by apply cells_ok_alloc.
  - done.
  - rewrite Hj; [done|]. set_solver.
  - rewrite (bind_insert_same _ _ _ (S_malloc fn arg)) by done.
    rewrite Hj; [done|]. intros p ?%in_flight_owned. set_solver.
Qed.


(** The head of the list is [NULL] exactly when the list is empty. *)
Lemma list_ok_head s q own : list_ok s q -> cells_ok (heap s) (q ++ own) -> head s = NULL <-> q = [].
Proof.
  intros (Hh & _ & _) (_ & Hn & _). rewrite Hh. destruct q as [|x q]; simpl; [done|].
  split; [|done]. intros ->. set_solver.
Qed.

Lemma list_ok_tail s q own : list_ok s q -> cells_ok (heap s) (q ++ own) -> tail s = NULL <-> q = [].
Proof.
  intros (_ & Htl & _) (_ & Hn & _). rewrite Htl. destruct (last q) as [x|] eqn:Hl; simpl.
  - split; [|by intros ->]. intros ->. apply last_Some in Hl as [q' ->]. set_solver.
  - apply last_None in Hl. by rewrite Hl.
Qed.

(** The unlinking of [worker_loop]. *)
Lemma memory_dequeue s q t n :
  memory_inv s q -> threads s !! t = Some W_dequeue -> head s <> NULL -> heap s !! head s = Some n ->
  exists q', q = head s :: q' /\
  memory_inv (set_pc t (W_unlock (head s))
    (mkPool (num_threads s) (shutdown s) (if head s =? tail s then NULL else w_next n)
       (if head s =? tail s then NULL else tail s) (pending s - 1) (mutex s) (heap s) (freed s)
       (threads s) (submitted s) (taken s ++ [w_job n]) (executed s) (late s))) q'.
Proof.
  intros [(Hh & Htl & Hnx) Hc Hpd Hf He] Ht Hnull Hn.
  destruct q as [|w q]; [done|]. simpl in Hh. rewrite Hh in *. exists q. split; [done|].
  pose proof (owned_perm _ _ _ (W_unlock w) q Ht) as Hperm. simpl in Hperm.
  pose proof (proj1 Hc) as Hnd. constructor; simpl.
  - unfold list_ok; simpl. destruct q as [|x q].
    + simpl in Htl. by rewrite Htl, Z.eqb_refl.
    + rewrite last_cons_cons in Htl. rewrite Htl.
      destruct (w =? _) eqn:E; zbool.
      { exfalso. apply NoDup_app in Hnd as (Hnd & _ & _). apply NoDup_cons in Hnd as [Hw _]. apply Hw.
        rewrite E. destruct (last (x :: q)) as [z|] eqn:Hz; [|by apply last_None in Hz].
        apply last_Some in Hz as [l ->]. simpl. set_solver. }
      split_and!; [by apply (Hnx 0%nat w x n)|done|]. intros i a b m Ha Hb. by apply (Hnx (S i)).
  - eapply cells_ok_perm; [symmetry; exact Hperm|done].
  - rewrite Hpd. simpl length. lia.
  - rewrite Hf. change (w :: q) with ([w] ++ q). by rewrite jobs_of_app, (jobs_of_one _ _ _ Hn), app_assoc.
  - rewrite He, <- (app_assoc (executed s)). f_equiv.
    rewrite Permutation_app_comm, <- (jobs_of_one _ _ _ Hn), <- jobs_of_app. apply jobs_of_perm.
    symmetry. exact (bind_insert_perm in_flight _ _ _ (W_unlock w) Ht).
Qed.

(** What [link] does to the cells: it changes no job. *)
Lemma jobs_of_relink h a l x q :
  h !! a = Some l -> jobs_of (<[a := mkWork (w_fn l) (w_arg l) x]> h) q = jobs_of h q.
Proof.
  intros Ha. apply jobs_of_ext. intros p _. destruct (decide (a = p)) as [<-|].
  - by rewrite lookup_insert_eq, Ha.
  - by rewrite lookup_insert_ne.
Qed.

Lemma last_lookup_length (q : list ptr) i x :
  q !! i = Some x -> last q = Some x -> NoDup q -> i = pred (length q).
Proof. intros Hi Hl Hnd. rewrite last_lookup in Hl. by eapply NoDup_lookup. Qed.

(** The chain stays linked when its last cell is made to point to a new one. *)
Lemma chain_snoc (h : gmap ptr threadpool_work_t) q z l w :
  NoDup q -> last q = Some z ->
  (forall i x y n, q !! i = Some x -> q !! S i = Some y -> h !! x = Some n -> w_next n = y) ->
  forall i x y n, (q ++ [w]) !! i = Some x -> (q ++ [w]) !! S i = Some y ->
  <[z := mkWork (w_fn l) (w_arg l) w]> h !! x = Some n -> w_next n = y.
Proof.
  intros Hnd Hz Hnx i x y n Hx Hy Hn.
  assert (S i < length (q ++ [w]))%nat as Hlt by by eapply lookup_lt_Some.
  rewrite length_app in Hlt. simpl in Hlt. rewrite lookup_app_l in Hx by lia.
  destruct (decide (S i = length q)) as [Hi|Hi].
  - rewrite lookup_app_r, Hi, Nat.sub_diag in Hy by lia. simpl in Hy. simplify_eq.
    rewrite last_lookup, <- Hi in Hz. simpl in Hz. simplify_eq. rewrite lookup_insert_eq in Hn. by simplify_eq.
  - rewrite lookup_app_l in Hy by lia. rewrite lookup_insert_ne in Hn; [exact (Hnx _ _ _ _ Hx Hy Hn)|].
    intros ->. pose proof (last_lookup_length _ _ _ Hx Hz Hnd). lia.
Qed.

(** The linking of [threadpool_submit]. *)
Lemma memory_link s s' q t w n :
  memory_inv s q -> threads s !! t = Some (S_link w) -> heap s !! w = Some n ->
  link t w s = Next s' -> memory_inv s' (q ++ [w]).
Proof.
  intros [Hlist Hc Hpd Hf He] Ht Hn H. pose proof (list_ok_tail _ _ _ Hlist Hc) as Htn.
  destruct Hlist as (Hh & Htl & Hnx). pose proof (owned_perm _ _ _ S_signal q Ht) as Hperm. simpl in Hperm.
  assert ((q ++ [w]) ++ (<[t:=S_signal]> (threads s) ≫= owned) ≡ₚ q ++ (threads s ≫= owned)) as Hperm'.
  { rewrite <- Hperm. solve_Permutation. }
  assert (NoDup q) as Hnd by by destruct Hc as [(? & _ & _)%NoDup_app _].
  unfold link in H. rewrite Hn in H. destruct (tail s =? NULL) eqn:E; zbool.
  - assert (q = []) as -> by by apply Htn. simplify_eq.
    constructor; simpl; rewrite ?(bind_insert_same in_flight _ _ (S_link w)) by done.
    + split_and!; [done..|]. intros [|i] x y m; simpl; [done|]. by rewrite lookup_nil.
    + by eapply cells_ok_perm.
    + rewrite Hpd. done.
    + rewrite Hf. simpl. by rewrite (jobs_of_one _ _ _ Hn), app_nil_r.
    + done.
  - destruct (heap s !! tail s) as [l|] eqn:Hl; [|done]. simplify_eq.
    assert (last q = Some (tail s)) as Hlast.
    { destruct (last q); [by rewrite Htl|]. by rewrite Htl in E. }
    constructor; simpl; rewrite ?(bind_insert_same in_flight _ _ (S_link w)) by done.
    + split_and!.
      * simpl. rewrite Hh. destruct q; done.
      * simpl. by rewrite last_snoc.
      * exact (chain_snoc _ _ _ l w Hnd Hlast Hnx).
    + eapply cells_ok_update; [|done]. by eapply cells_ok_perm.
    + rewrite Hpd, length_app. simpl. lia.
    + by rewrite jobs_of_relink, Hf, jobs_of_app, (jobs_of_one _ _ _ Hn), app_assoc.
    + by rewrite jobs_of_relink.
Qed.

Lemma memory_live_not_null s q a n : memory_inv s q -> heap s !! a = Some n -> a <> NULL.
Proof. intros [_ (_ & Hn & Hd) _ _ _] Ha ->. apply Hn, Hd. by eexists. Qed.

(** Every step keeps the memory invariant. *)
Lemma step_memory e s s' q :
  memory_inv s q -> step e s = Next s' -> exists q', memory_inv s' q'.
Proof.
  intros Hm H. step_cases H;
    try (exists q; eapply memory_keep; [exact Hm|simpl; by rewrite (bind_insert_same _ _ _ _ _ Hp)
      | simpl; by rewrite (bind_insert_same _ _ _ _ _ Hp)|done..]).
  1-2: destruct (memory_dequeue s q t _ Hm Hp (memory_live_not_null _ _ _ _ Hm H1) H1) as (q' & _ & Hq);
    rewrite H3 in Hq; by exists q'.
  - exists q. by apply memory_exec.
  - exists q. by apply memory_free.
  - exists (q ++ [w]). eapply memory_link; [done..|]. unfold link. by rewrite H0, H1.
  - exists (q ++ [w]). eapply memory_link; [done..|]. unfold link. by rewrite H0, H1, H2.
  - exists q. eapply memory_keep; [exact Hm|..]; try done; simpl;
      (rewrite (bind_insert_same _ _ _ D_broadcast); [|by rewrite list_lookup_fmap, Hp|done]);
      apply bind_wake; by intros [].
  - exists q. zbool. by apply memory_malloc.
  - exists q. assert (t <> n) by congruence. eapply memory_keep; [exact Hm|..]; try done; simpl;
      (rewrite (bind_insert_same _ _ _ S_signal); [|by rewrite list_lookup_insert_ne|done]);
      by rewrite (bind_insert_same _ _ _ W_wait).
Qed.

(** *** Wake-ups, shutdown and join *)

(** Workers are the first [n] threads; joined workers have returned. *)
Definition roles_ok (n : nat) (s : pool) : Prop :=
  num_threads s = n /\ (n <= length (threads s))%nat /\
  forall i p, threads s !! i = Some p -> is_worker p = true <-> (i < n)%nat.

(** A worker leaves only after a shutdown, and only from an empty list. *)
Definition exit_ok (s : pool) : Prop :=
  forall i p, threads s !! i = Some p -> p = W_exit \/ p = W_done ->
  shutdown s = true /\ (late s = false -> head s = NULL).

(** [W_dequeue] is reached only with something to do. *)
Definition dequeue_ok (s : pool) : Prop :=
  forall i, threads s !! i = Some W_dequeue -> shutdown s = true \/ head s <> NULL.

(** Nobody sleeps through a shutdown. *)
Definition shutdown_ok (s : pool) : Prop :=
  (forall i, threads s !! i = Some D_broadcast \/ threads s !! i = Some D_unlock -> shutdown s = true) /\
  (forall i, shutdown s = true -> threads s !! i = Some W_wait -> exists j, threads s !! j = Some D_broadcast).

(** Somebody will look at the list: the moving thread itself, or whoever was
    there before. *)
Definition awake (n : nat) (ths : list pc) : Prop :=
  exists j p, ths !! j = Some p /\ (p = S_signal \/ (j < n)%nat /\ p <> W_wait).

(** Not everybody sleeps while there is work, unless the signal is on its way. *)
Definition wake_ok (n : nat) (s : pool) : Prop :=
  forall i, threads s !! i = Some W_wait -> head s <> NULL -> shutdown s = false -> awake n (threads s).

Definition join_ok (n : nat) (s : pool) : Prop :=
  (forall t i j, threads s !! t = Some (D_join i) -> (j < i)%nat -> threads s !! j = Some W_done) /\
  (forall t j, threads s !! t = Some D_free \/ freed s = true -> (j < n)%nat -> threads s !! j = Some W_done).

(** Case analysis on lookups in an updated list of threads. *)
Ltac thread_cases :=
  simpl in *;
  repeat match goal with
  | H : <[_ := _]> _ !! _ = Some _ |- _ =>
      apply list_lookup_insert_Some in H as [(? & ? & ?)|[? H]]; subst
  | H : map wake _ !! _ = Some _ |- _ =>
      apply list_lookup_fmap_Some in H as (? & ? & ?)
  end.

Lemma wake_worker p : is_worker (wake p) = is_worker p.
Proof. by destruct p. Qed.

Lemma step_roles n e s s' : roles_ok n s -> step e s = Next s' -> roles_ok n s'.
Proof.
  intros (Hn & Hl & Hr) H. 
  step_cases H; (split_and!; simpl; [done|by rewrite ?length_insert, ?length_map|]; intros k r Hi;
    thread_cases; subst; rewrite ?wake_worker;
    match goal with Hx : threads _ !! ?j = Some _ |- _ <-> (?j < _)%nat => exact (Hr _ _ Hx) end).
Qed.

Lemma step_exit e s s' q :
  memory_inv s q -> exit_ok s -> step e s = Next s' -> exit_ok s'.
Proof.
  intros Hm He H. 
  step_cases H; intros k r Hi Hpc; thread_cases; subst; try (by destruct Hpc); try (by eapply He; eauto).
  - by zbool.
  - split; [by eapply He|done].
  - destruct (He _ _ Hi Hpc) as [Hs Hl]. split; [done|]. intros Hlate.
    destruct (memory_live_not_null _ _ _ _ Hm H1). by apply Hl.
  - destruct (He _ _ Hi Hpc) as [Hs Hl]. by rewrite Hs, orb_true_r.
  - destruct (He _ _ Hi Hpc) as [Hs Hl]. by rewrite Hs, orb_true_r.
  - split; [done|]. by eapply He.
  - eapply He; [done|]. destruct x; naive_solver.
Qed.

(** Only the owner of the mutex is inside the critical section. *)
Lemma mutex_ok_unique m ths t t' p p' :
  mutex_ok m ths -> ths !! t = Some p -> ths !! t' = Some p' -> holds p = true -> holds p' = true -> t = t'.
Proof. intros Hm Ht Ht' Hp Hp'. apply (Hm _ _ Ht) in Hp. apply (Hm _ _ Ht') in Hp'. congruence. Qed.

Lemma memory_head s q : memory_inv s q -> head s = NULL <-> q = [].
Proof. intros [Hl Hc _ _ _]. by eapply list_ok_head. Qed.

Lemma memory_tail s q : memory_inv s q -> tail s = NULL <-> q = [].
Proof. intros [Hl Hc _ _ _]. by eapply list_ok_tail. Qed.

Ltac wake_cases :=
  match goal with H : _ = wake ?x |- _ => destruct x; simpl in H; try discriminate H; simplify_eq end.

Lemma step_dequeue e s s' q :
  mutex_ok (mutex s) (threads s) -> memory_inv s q -> dequeue_ok s -> step e s = Next s' -> dequeue_ok s'.
Proof.
  intros Hx Hm Hd H.
  step_cases H; intros k Hi; thread_cases; subst; try done; try (by eapply Hd; eauto);
    try (pose proof (mutex_ok_unique _ _ _ _ _ _ Hx Hp Hi eq_refl eq_refl); by subst).
  - apply andb_false_iff in H0 as [?|?]; zbool; by auto.
  - wake_cases. by eapply Hd.
Qed.

(** An existing thread stays where it was when another one moves. *)
Lemma lookup_moved (ths : list pc) t p p' j r :
  ths !! t = Some p -> ths !! j = Some r -> r <> p -> <[t := p']> ths !! j = Some r.
Proof. intros Ht Hj Hr. rewrite list_lookup_insert_ne; [done|]. intros ->. congruence. Qed.

Lemma step_shutdown e s s' :
  mutex_ok (mutex s) (threads s) -> shutdown_ok s -> step e s = Next s' -> shutdown_ok s'.
Proof.
  intros Hx [Hs Hb] H.
  step_cases H; (split; [intros k [Hi|Hi]; thread_cases; subst; try done; try (by eapply Hs; eauto)|]);
    try (intros k Hsd Hi; thread_cases; subst; try done; try (by zbool; congruence);
      destruct (Hb _ Hsd Hi) as [j Hj]; exists j; by eapply lookup_moved; eauto).
  - intros k _ _. exists t. simpl. rewrite list_lookup_insert_eq; [done|]. by eapply lookup_lt_Some.
  - intros k _ Hi. thread_cases; [done|]. wake_cases.
  - intros k Hsd Hi. thread_cases; try done. destruct (Hb _ Hsd Hi) as [j Hj]. exists j.
    apply (lookup_moved _ _ S_signal); [|by eapply lookup_moved|done].
    by eapply lookup_moved.
Qed.

Lemma awake_self n ths t p p' :
  ths !! t = Some p -> p' = S_signal \/ (t < n)%nat /\ p' <> W_wait -> awake n (<[t := p']> ths).
Proof.
  intros Ht%lookup_lt_Some Hp. exists t, p'. split; [|done]. by rewrite list_lookup_insert_eq.
Qed.

Lemma awake_other n ths t p p' :
  ths !! t = Some p -> ~ (t < n)%nat -> p <> S_signal -> awake n ths -> awake n (<[t := p']> ths).
Proof.
  intros Ht Hn Hp (j & r & Hj & Hr). exists j, r. split; [|done].
  rewrite list_lookup_insert_ne; [done|]. intros ->. destruct Hr as [->|[? _]]; [congruence|done].
Qed.

Lemma role_worker n s t p : roles_ok n s -> threads s !! t = Some p -> is_worker p = true -> (t < n)%nat.
Proof. intros (_ & _ & Hr) Ht. by apply Hr. Qed.

Lemma role_client n s t p : roles_ok n s -> threads s !! t = Some p -> is_worker p = false -> ~ (t < n)%nat.
Proof. intros (_ & _ & Hr) Ht Hp Hn. apply (Hr _ _ Ht) in Hn. congruence. Qed.

Lemma step_wake n e s s' q :
  roles_ok n s -> memory_inv s q -> wake_ok n s -> step e s = Next s' -> wake_ok n s'.
Proof.
  intros Hr Hm Hw H.
  step_cases H; intros k Hi Hh Hsd; thread_cases; subst; try done; fold (awake n);
    first
    [ by eapply awake_self; [done|left]
    | by eapply awake_self; [done|right; split; [by eapply role_worker|]]
    | by eapply awake_other; [done|by eapply role_client|done|eapply Hw]
    | by zbool | idtac ].
  - wake_cases.
  - assert (t <> n0) by congruence. exists n0, W_woken. split.
    + rewrite list_lookup_insert_ne, list_lookup_insert_eq by (done || by eapply lookup_lt_Some). done.
    + right. split; [by eapply role_worker|done].
  - destruct n0. by eapply list_elem_of_lookup_2.
Qed.

(** A worker that has returned stays so. *)
Lemma done_stable e s s' j :
  step e s = Next s' -> threads s !! j = Some W_done -> threads s' !! j = Some W_done.
Proof.
  intros H Hj. step_cases H; simpl; try (by eapply lookup_moved).
  - eapply lookup_moved; [by rewrite list_lookup_fmap, Hp|by rewrite list_lookup_fmap, Hj|done].
  - apply (lookup_moved _ _ S_signal); [|by eapply lookup_moved|done]. by eapply lookup_moved.
Qed.

Lemma step_join n e s s' : roles_ok n s -> join_ok n s -> step e s = Next s' -> join_ok n s'.
Proof.
  intros (Hn & _ & _) [Hj Hf] H. pose proof (fun j => done_stable _ _ _ j H) as Hst.
  step_cases H; (split; [intros u v w' Hu Hv|intros u v [Hu|Hu] Hv]); apply Hst; clear Hst; thread_cases;
    simplify_eq/=; try (by lia);
    first [ exact (Hj _ _ _ Hu Hv) | exact (Hf _ _ (or_introl Hu) Hv) | exact (Hf t _ (or_intror Hu) Hv)
          | exact (Hf _ _ (or_introl Hp) Hv) | idtac ].
  - wake_cases. exact (Hj _ _ _ H1 Hv).
  - wake_cases. exact (Hf _ _ (or_introl H1) Hv).
  - destruct (decide (w' = i)) as [->|]; [done|]. apply (Hj _ _ _ Hp). lia.
  - zbool. apply (Hj _ _ _ Hp). lia.
Qed.

(** *** Every reachable state *)

Record pool_inv (n : nat) (s : pool) (q : list ptr) : Prop := {
  pi_mutex : mutex_ok (mutex s) (threads s);
  pi_owner : owner_ok s;
  pi_memory : memory_inv s q;
  pi_roles : roles_ok n s;
  pi_exit : exit_ok s;
  pi_dequeue : dequeue_ok s;
  pi_shutdown : shutdown_ok s;
  pi_wake : wake_ok n s;
  pi_join : join_ok n s
}.

Lemma pool_inv_step n e s s' q :
  pool_inv n s q -> step e s = Next s' -> exists q', pool_inv n s' q'.
Proof.
  intros [Hx Ho Hm Hr He Hd Hs Hw Hj] H. destruct (step_memory _ _ _ _ Hm H) as [q' Hm']. exists q'.
  constructor; [exact (step_mutex _ _ _ Hx H)|exact (step_owner _ _ _ Ho H)|done|exact (step_roles _ _ _ _ Hr H)
    |exact (step_exit _ _ _ _ Hm He H)|exact (step_dequeue _ _ _ _ Hx Hm Hd H)
    |exact (step_shutdown _ _ _ Hx Hs H)|exact (step_wake _ _ _ _ _ Hr Hm Hw H)|exact (step_join _ _ _ _ Hr Hj H)].
Qed.

Lemma create_threads n calls i p :
  forallb is_call calls = true -> threads (new_pool (replicate n true) calls) !! i = Some p ->
  (i < n)%nat /\ p = W_lock \/ (n <= i)%nat /\ is_call p = true.
Proof.
  intros Hc. cbn [threads new_pool].
  change (map ?f ?l) with (f <$> l). rewrite fmap_replicate. destruct (decide (i < n)%nat) as [Hi|Hi].
  - rewrite lookup_app_l by by rewrite length_replicate. rewrite lookup_replicate_2 by done. naive_solver.
  - rewrite lookup_app_r by (rewrite length_replicate; lia). intros Hp%list_elem_of_lookup_2.
    right. split; [lia|]. rewrite List.forallb_forall in Hc. by apply Hc, list_elem_of_In.
Qed.

Lemma bind_nil {A} (f : pc -> list A) ths : (forall i p, ths !! i = Some p -> f p = []) -> ths ≫= f = [].
Proof.
  intros Hf. induction ths as [|p ths IH]; [done|]. csimpl. rewrite (Hf 0%nat p), IH; [done| |done].
  intros i r Hi. by apply (Hf (S i)).
Qed.

Lemma pool_inv_create n calls :
  forallb is_call calls = true -> pool_inv n (new_pool (replicate n true) calls) [].
Proof.
  intros Hc. pose proof (fun i p => create_threads n calls i p Hc) as Ht.
  assert (forall i p, threads (new_pool (replicate n true) calls) !! i = Some p -> p = W_lock \/ is_call p = true) as Ht'
    by naive_solver.
  constructor.
  - intros i p Hp. destruct (Ht' _ _ Hp) as [->|Hcall]; [done|]. by destruct p.
  - done.
  - constructor; [done| |done..|].
    + rewrite bind_nil; [|intros i p Hp; destruct (Ht' _ _ Hp) as [->|Hcall]; [done|by destruct p]].
      split_and!; [by constructor|set_solver|]. intros p. simpl. rewrite lookup_empty. 
      split; [by intros [? ?]|set_solver].
    + rewrite bind_nil; [done|]. intros i p Hp; destruct (Ht' _ _ Hp) as [->|Hcall]; [done|by destruct p].
  - split_and!; [by apply length_replicate|simpl; rewrite length_app, length_map, length_replicate; lia|]. intros i p Hp.
    destruct (Ht _ _ Hp) as [[? ->]|[? Hcall]]; [done|]. destruct p; simpl in *; naive_solver lia.
  - intros i p Hp. destruct (Ht' _ _ Hp) as [->|Hcall]; [naive_solver|]. by destruct p; naive_solver.
  - intros i Hp. by destruct (Ht' _ _ Hp).
  - split; [|done]. intros i [Hp|Hp]; by destruct (Ht' _ _ Hp).
  - intros i _ Hh. by destruct Hh.
  - split; [intros t i j Hp; by destruct (Ht' _ _ Hp)|]. intros t j [Hp|Hp]; [by destruct (Ht' _ _ Hp)|done].
Qed.

(** *** The list read from the heap *)

Lemma walk_chain h q : forall f p,
  (length q <= f)%nat -> NULL ∉ q -> (forall x, x ∈ q -> is_Some (h !! x)) -> NoDup q ->
  (forall i x y n, q !! i = Some x -> q !! S i = Some y -> h !! x = Some n -> w_next n = y) ->
  p = default NULL (hd_error q) -> walk f h p (default NULL (last q)) = q.
Proof.
  induction q as [|x q IH]; intros f p Hf Hn Hh Hnd Hx ->.
  - by destruct f.
  - destruct f as [|f]; [simpl in Hf; lia|]. destruct q as [|y q].
    + simpl. rewrite Z.eqb_refl. destruct (x =? NULL) eqn:E; zbool; [set_solver|done].
    + rewrite last_cons_cons. simpl walk. destruct (x =? NULL) eqn:E; zbool; [set_solver|].
      apply NoDup_cons in Hnd as [Hxq Hnd].
      destruct (x =? default NULL (last (y :: q))) eqn:E'; zbool.
      { destruct (last (y :: q)) as [z|] eqn:Hz; [|by apply last_None in Hz].
        apply last_Some in Hz as [l Hl]. simpl in E'. subst. rewrite Hl in Hxq. set_solver. }
      destruct (Hh x) as [n Hnx]; [set_solver|]. rewrite Hnx. f_equal. apply IH.
      * simpl in *. lia.
      * set_solver.
      * set_solver.
      * done.
      * intros i. apply (Hx (S i)).
      * simpl. by apply (Hx 0%nat x y n).
Qed.

Lemma queue_spec s q : memory_inv s q -> queue s = q.
Proof.
  intros [(Hh & Ht & Hx) (Hnd & Hn & Hd) _ _ _]. unfold queue. rewrite Ht.
  apply NoDup_app in Hnd as (Hnd & _ & _).
  assert (forall x, x ∈ q -> is_Some (heap s !! x)) as Hq by (intros x Hx'; apply Hd; set_solver).
  apply walk_chain; try done; [|set_solver].
  rewrite <- (size_list_to_set (C := gset ptr) q) by done. rewrite <- (size_dom (D := gset ptr)).
  apply subseteq_size. intros x. rewrite elem_of_list_to_set, elem_of_dom. apply Hq.
Qed.

Lemma reachable_inv n calls s :
  forallb is_call calls = true -> reachable n calls s -> pool_inv n s (queue s).
Proof.
  intros Hc. induction 1 as [s [= <-]|s e s' _ IH Hs].
  - pose proof (pool_inv_create n calls Hc) as Hi. by rewrite (queue_spec _ _ (pi_memory _ _ _ Hi)).
  - destruct (pool_inv_step _ _ _ _ _ IH Hs) as [q Hq]. by rewrite (queue_spec _ _ (pi_memory _ _ _ Hq)).
Qed.

(** ** The properties *)

(** *** Specification: a first-in first-out queue of jobs *)

Inductive fifo_label := Enqueue (j : job) | Dequeue (j : job) | Silent.

Inductive fifo_step : list job -> fifo_label -> list job -> Prop :=
  | fifo_enqueue l j : fifo_step l (Enqueue j) (l ++ [j])
  | fifo_dequeue l j : fifo_step (j :: l) (Dequeue j) l
  | fifo_silent l : fifo_step l Silent l.

(** The abstraction: the jobs in the linked list, and what a step of the code
    is for the queue. *)
Definition abs (s : pool) : list job := jobs_of (heap s) (queue s).

Definition job_at (h : gmap ptr threadpool_work_t) (p : ptr) : job := from_option w_job (0, 0) (h !! p).

Definition label (e : event) (s : pool) : fifo_label :=
  match e, threads s !! thread_of e with
  | Run _, Some (S_link w) => Enqueue (job_at (heap s) w)
  | Run _, Some W_dequeue =>
      if shutdown s && (head s =? NULL) then Silent else Dequeue (job_at (heap s) (head s))
  | _, _ => Silent
  end.

(** What a step adds to the history. *)
Definition enqueued (l : fifo_label) : list job := match l with Enqueue j => [j] | _ => [] end.
Definition dequeued (l : fifo_label) : list job := match l with Dequeue j => [j] | _ => [] end.

Lemma step_history e s s' : step e s = Next s' ->
  submitted s' = submitted s ++ enqueued (label e s) /\ taken s' = taken s ++ dequeued (label e s).
Proof.
  intros H. step_cases H; unfold label, job_at; simpl; rewrite ?Hp; simpl;
    repeat match goal with E : ?x = _ |- context [?x] => rewrite E end; simpl; by rewrite ?app_nil_r.
Qed.

Lemma jobs_of_length h q : (forall p, p ∈ q -> is_Some (h !! p)) -> length (jobs_of h q) = length q.
Proof.
  unfold jobs_of. induction q as [|p q IH]; intros Hq; [done|]. simpl.
  destruct (Hq p) as [n ->]; [set_solver|]. simpl. f_equal. apply IH. set_solver.
Qed.

Lemma abs_pending s q : memory_inv s q -> pending s = Z.of_nat (length (abs s)).
Proof.
  intros Hm. unfold abs. rewrite (queue_spec _ _ Hm). destruct Hm as [_ (_ & _ & Hd) Hp _ _].
  rewrite jobs_of_length; [done|]. intros p ?. apply Hd. set_solver.
Qed.

Lemma abs_history s q : memory_inv s q -> submitted s = taken s ++ abs s.
Proof. intros Hm. unfold abs. rewrite (queue_spec _ _ Hm). by destruct Hm. Qed.

(** C14: the linked list with its mutex is a queue: in every interleaving, each
    step of each thread is, for the jobs in the list, an append at the end
    (submit), a removal of the first one (worker) or nothing, and [pending]
    counts them.  A job is therefore taken once and in the order of
    submission. *)
Theorem pool_refines_fifo n calls s e s' :
  forallb is_call calls = true -> reachable n calls s -> step e s = Next s' ->
  fifo_step (abs s) (label e s) (abs s') /\ pending s' = Z.of_nat (length (abs s')).
Proof.
  intros Hc Hr H. pose proof (pi_memory _ _ _ (reachable_inv _ _ _ Hc Hr)) as Hm.
  destruct (step_memory _ _ _ _ Hm H) as [q' Hm']. split; [|by eapply abs_pending].
  pose proof (abs_history _ _ Hm) as Hs. pose proof (abs_history _ _ Hm') as Hs'.
  destruct (step_history _ _ _ H) as [Es Et]. rewrite Es, Et, Hs in Hs'.
  destruct (label e s); simpl in Hs'; rewrite ?app_nil_r, <- ?app_assoc in Hs'; apply (inj (app (taken s))) in Hs'.
  - rewrite <- Hs'. constructor.
  - rewrite Hs'. constructor.
  - rewrite Hs'. constructor.
Qed.

(** The items the code dereferences are allocated. *)
Lemma owned_live s q t p w :
  memory_inv s q -> threads s !! t = Some p -> w ∈ owned p -> heap s !! w <> None.
Proof.
  intros [_ Hc _ _ _] Ht Hw Hn. destruct (cells_ok_live _ _ w Hc) as [n Hl]; [|congruence].
  apply elem_of_app. right. by eapply elem_of_owned.
Qed.

Lemma head_live s q : memory_inv s q -> head s <> NULL -> heap s !! head s <> None.
Proof.
  intros [(Hh & _ & _) Hc _ _ _] Hn Hl. destruct q as [|x q]; [done|]. simpl in Hh. 
  destruct (cells_ok_live _ _ x Hc) as [n Hx]; [set_solver|]. congruence.
Qed.

Lemma tail_live s q : memory_inv s q -> tail s <> NULL -> heap s !! tail s <> None.
Proof.
  intros [(_ & Ht & _) Hc _ _ _] Hn Hl. destruct (last q) as [x|] eqn:Hq; [|done]. simpl in Ht.
  apply last_Some in Hq as [q' ->].
  destruct (cells_ok_live _ _ x Hc) as [n Hx]; [set_solver|]. congruence.
Qed.

Lemma run_no_fault n s q t p :
  roles_ok n s -> memory_inv s q -> dequeue_ok s -> threads s !! t = Some p -> run t p s <> Fault.
Proof.
  intros Hro Hm Hd Hp H.
  destruct p; unfold run, worker_loop, threadpool_submit, threadpool_pending, threadpool_shutdown,
    dequeue, link, lock, unlock in H; simpl in H; try done; repeat (case_match; try done); simplify_eq;
    try (exact (owned_live _ _ _ _ w Hm Hp (list_elem_of_here w []) ltac:(done))).
  - eapply head_live; [done| |done]. intros Hn. destruct (Hd _ Hp) as [Hs|Hs]; [|done].
    by rewrite Hs, Hn in *.
  - eapply tail_live; [done| |done]. by zbool.
  - zbool. rewrite (proj1 Hro) in *. by eapply (role_client n s i W_none).
Qed.

(** C17: no interleaving makes a worker touch freed memory: a step that faults
    is one of a caller that used the pool after [threadpool_shutdown] had
    joined every worker and freed it. *)
Theorem pool_memory_safe n calls s e :
  forallb is_call calls = true -> reachable n calls s -> step e s = Fault ->
  freed s = true /\ (exists p, threads s !! thread_of e = Some p /\ is_worker p = false) /\
  forall j, (j < n)%nat -> threads s !! j = Some W_done.
Proof.
  intros Hc Hr H. destruct (reachable_inv _ _ _ Hc Hr) as [Hx Ho Hm Hrole He Hd Hs Hw [_ Hj]].
  unfold step in H. destruct (threads s !! thread_of e) as [p|] eqn:Hp; [|done].
  destruct (freed s && touches_pool p) eqn:Hf.
  - zbool. split_and!; [done| |intros j; by apply (Hj 0%nat); right]. exists p. split; [done|].
    apply not_true_is_false. intros Hwk. pose proof (role_worker _ _ _ _ Hrole Hp Hwk) as Hlt.
    pose proof (Hj 0%nat _ (or_intror H0) Hlt). by simplify_eq.
  - exfalso. destruct e as [t|t a|t o|t]; [by eapply run_no_fault|..];
      unfold submit_malloc, cond_signal in H; destruct p; repeat (case_match; try done); done.
Qed.

(** C16: when [threadpool_shutdown] has freed a pool of at least one worker
    and nobody submitted after the flag was set, every submitted job has been
    run exactly once, the list is empty, and every item has been freed save
    those that belong to a call of [threadpool_submit] still on its way. *)
Theorem pool_shutdown_completes n calls s :
  forallb is_call calls = true -> (0 < n)%nat -> reachable n calls s ->
  freed s = true -> late s = false ->
  executed s ≡ₚ submitted s /\ abs s = [] /\
  forall w, is_Some (heap s !! w) -> exists t p, threads s !! t = Some p /\ is_worker p = false /\ w ∈ owned p.
Proof.
  intros Hc Hn Hr Hf Hl. destruct (reachable_inv _ _ _ Hc Hr) as [Hx Ho Hm Hrole He Hd Hs Hw [_ Hj]].
  pose proof (fun j => Hj 0%nat j (or_intror Hf)) as Hdone.
  assert (queue s = []) as Hq.
  { apply (memory_head _ _ Hm). destruct (He _ _ (Hdone 0%nat Hn)) as [_ Hnull]; [by right|]. by apply Hnull. }
  assert (forall t p, threads s !! t = Some p -> is_worker p = true -> p = W_done) as Hwd.
  { intros t p Hp Hwk. pose proof (Hdone _ (role_worker _ _ _ _ Hrole Hp Hwk)). congruence. }
  destruct (Hm) as [_ (_ & _ & Hcell) _ Hfifo Hex]. rewrite Hq in Hfifo, Hcell. split_and!.
  - rewrite Hfifo, Hex, (bind_nil in_flight), !app_nil_r; [done|]. intros t p Hp.
    destruct p; try done; by pose proof (Hwd _ _ Hp eq_refl).
  - unfold abs. by rewrite Hq.
  - intros w [p [Hwp Hp]]%Hcell%list_elem_of_bind. apply list_elem_of_lookup in Hp as [t Hp].
    exists t, p. split_and!; [done| |done]. apply not_true_is_false. intros Hwk.
    rewrite (Hwd _ _ Hp Hwk) in Hwp. by apply elem_of_nil in Hwp.
Qed.

(** *** Progress *)

(** The program points from which a thread can always go on by itself, given
    that nobody holds the mutex. *)
Definition can_run (p : pc) : bool :=
  match p with
  | W_wait | W_done | W_none | S_malloc _ _ | S_signal | S_ret _ | P_ret _ | D_join _ | D_ret => false
  | _ => true
  end.

Lemma run_not_blocked s t p :
  can_run p = true -> holds p = true \/ mutex s = None -> run t p s <> Blocked.
Proof.
  intros Hc Hh H. destruct p; try done; unfold run, worker_loop, threadpool_submit, threadpool_pending,
    threadpool_shutdown, dequeue, link, lock, unlock in H; simpl in H; try done;
    repeat (case_match; try done); by destruct Hh.
Qed.

(** Such a step, as an event of the machine. *)
Definition moves (s : pool) (t : nat) : Prop :=
  exists e s', thread_of e = t /\ (forall t', e <> Spurious t') /\ step e s = Next s'.

Lemma run_moves n s q t p :
  roles_ok n s -> memory_inv s q -> dequeue_ok s -> freed s = false -> threads s !! t = Some p ->
  can_run p = true -> holds p = true \/ mutex s = None -> moves s t.
Proof.
  intros Hro Hm Hd Hf Hp Hc Hh. exists (Run t).
  destruct (run t p s) as [s'| |] eqn:E.
  - exists s'. split_and!; [done..|]. unfold step. simpl. by rewrite Hp, Hf.
  - by destruct (run_not_blocked s t p Hc Hh).
  - by destruct (run_no_fault _ _ _ _ _ Hro Hm Hd Hp).
Qed.

Lemma signal_moves s t : freed s = false -> threads s !! t = Some S_signal -> moves s t.
Proof.
  intros Hf Hp. destruct (decide (W_wait ∈ threads s)) as [Hw|Hw].
  - apply list_elem_of_lookup in Hw as [k Hk]. exists (Signal t (Some k)). eexists.
    split_and!; [done..|]. unfold step. simpl. rewrite Hp, Hf. simpl. by rewrite decide_True.
  - exists (Signal t None). eexists.
    split_and!; [done..|]. unfold step. simpl. rewrite Hp, Hf. simpl. by rewrite decide_False.
Qed.

Lemma worker_moves n s q j r :
  pool_inv n s q -> freed s = false -> mutex s = None -> (j < n)%nat ->
  threads s !! j = Some r -> r <> W_wait -> r <> W_done -> moves s j.
Proof.
  intros Hi Hf Hmx Hj Hr Hw Hd. eapply run_moves; [apply Hi|apply Hi|apply Hi|done|done| |by right].
  destruct (pi_roles _ _ _ Hi) as (_ & _ & Hrole). apply (Hrole _ _ Hr) in Hj. by destruct r.
Qed.

(** C15: no wake-up is lost and nothing deadlocks: as long as there is a job in
    the list, or a shutdown has been requested, and some worker has not
    returned, then a worker or the thread that holds the mutex can move, and
    not by a spurious wake-up. *)
Theorem pool_no_lost_wakeup n calls s i p :
  forallb is_call calls = true -> reachable n calls s ->
  abs s <> [] \/ shutdown s = true ->
  (i < n)%nat -> threads s !! i = Some p -> p <> W_done ->
  exists t, ((t < n)%nat \/ mutex s = Some t) /\ moves s t.
Proof.
  intros Hc Hr Hwork Hi Hp Hnd. pose proof (reachable_inv _ _ _ Hc Hr) as Hinv.
  pose proof Hinv as [Hx Ho Hm Hrole He Hd [_ Hs] Hw [_ Hj]].
  assert (freed s = false) as Hf.
  { apply not_true_is_false. intros Hf. pose proof (Hj 0%nat i (or_intror Hf) Hi). congruence. }
  destruct (mutex s) as [t|] eqn:Hmx.
  - exists t. split; [by right|]. destruct (lookup_lt_is_Some_2 _ _ (Ho _ Hmx)) as [r Hr'].
    pose proof (proj2 (Hx _ _ Hr') eq_refl) as Hh. destruct (decide (r = S_signal)) as [->|Hns].
    + by apply signal_moves.
    + eapply run_moves; [done..| |by left]. by destruct r.
  - assert (forall j r, threads s !! j = Some r -> holds r = true -> False) as Hfree
      by (intros j r Hjr Hh; by apply (Hx _ _ Hjr) in Hh).
    destruct (decide (p = W_wait)) as [->|Hpw].
    + destruct (shutdown s) eqn:Hsd.
      { destruct (Hs _ eq_refl Hp) as [j Hjb]. by destruct (Hfree _ _ Hjb). }
      destruct Hwork as [Hwork|]; [|done].
      assert (head s <> NULL) as Hnull by (intros ?%(memory_head _ _ Hm); apply Hwork; unfold abs; by rewrite H).
      destruct (Hw _ Hp Hnull Hsd) as (j & r & Hjr & [->|[Hjn Hrw]]); [by destruct (Hfree _ _ Hjr)|].
      exists j. split; [by left|]. eapply worker_moves; try done. intros ->.
      destruct (He _ _ Hjr) as [? _]; [by right|congruence].
    + exists i. split; [by left|]. by eapply worker_moves.
Qed.

(** *** A run: one worker, one job, then a shutdown; a third caller asks for
    the number of pending jobs too late. *)

Definition demo_calls : list pc := [S_malloc 7 8; D_lock; P_lock].
Definition demo_events : list event :=
  [Run 0; Run 0; Malloc 1 100; Run 1; Run 1; Signal 1 (Some 0%nat); Run 1;
   Run 0; Run 0; Run 0; Run 0; Run 0; Run 0;
   Run 2; Run 2; Run 2; Run 2; Run 0; Run 0; Run 0; Run 0; Run 2; Run 2; Run 2].
Definition demo (k : nat) : pool :=
  default (new_pool [true] demo_calls) (steps (take k demo_events) (new_pool [true] demo_calls)).

Lemma steps_reachable n calls es : forall s s',
  reachable n calls s -> steps es s = Some s' -> reachable n calls s'.
Proof.
  induction es as [|e es IH]; simpl; intros s s' Hr H; [by simplify_eq|].
  destruct (step e s) eqn:E; [|done..]. eapply IH; [|done]. by econstructor.
Qed.

Lemma demo_reachable k : reachable 1 demo_calls (demo k).
Proof.
  unfold demo. destruct (steps _ _) eqn:E; simpl; [|by constructor].
  eapply steps_reachable; [by constructor|done].
Qed.

(** When the second of two workers could not be created, nobody notices until
    [threadpool_shutdown] joins it. *)
Lemma shutdown_joins_nothing :
  exists s, steps [Run 2; Run 2; Run 2; Run 2; Run 0; Run 0; Run 0; Run 0; Run 2] (new_pool [true; false] [D_lock]) = Some s /\
    threads s !! 2%nat = Some (D_join 1) /\ step (Run 2) s = Fault.
Proof. eexists. split_and!; vm_compute; reflexivity. Qed.

Lemma pool_refines_fifo_witness :
  fifo_step (abs (demo 4)) (label (Run 1) (demo 4)) (abs (demo 5)) /\
  pending (demo 5) = Z.of_nat (length (abs (demo 5))).
Proof.
  apply (pool_refines_fifo 1 demo_calls (demo 4) (Run 1) (demo 5));
    [reflexivity|apply demo_reachable|vm_compute; reflexivity].
Defined.

Lemma pool_memory_safe_witness :
  freed (demo 24) = true /\
  (exists p, threads (demo 24) !! 3%nat = Some p /\ is_worker p = false) /\
  forall j, (j < 1)%nat -> threads (demo 24) !! j = Some W_done.
Proof.
  apply (pool_memory_safe 1 demo_calls (demo 24) (Run 3));
    [reflexivity|apply demo_reachable|vm_compute; reflexivity].
Defined.

Lemma pool_shutdown_completes_witness : executed (demo 24) ≡ₚ [(7, 8)] /\ abs (demo 24) = [].
Proof.
  destruct (pool_shutdown_completes 1 demo_calls (demo 24)) as (He & Ha & _);
    [reflexivity|lia|apply demo_reachable|vm_compute; reflexivity|vm_compute; reflexivity|].
  split; [exact He|exact Ha].
Defined.

Lemma pool_no_lost_wakeup_witness : exists t, ((t < 1)%nat \/ mutex (demo 7) = Some t) /\ moves (demo 7) t.
Proof.
  apply (pool_no_lost_wakeup 1 demo_calls (demo 7) 0 W_woken);
    [reflexivity|apply demo_reachable|left; vm_compute; discriminate|lia|vm_compute; reflexivity|discriminate].
Defined.

End Pool.
