(* ===== verification/Keyfile.v ===== *)
(** * Key files (protocol/keyfile.c)

    Generation of a key pair into two files and the two loaders.  The file
    system is a map from paths to files with a mode; what the kernel decides
    (which paths can be opened, how much a [write] takes, whether a [read]
    fails) is the environment [fs_env].  Messages to [stderr] are left out.
    The key pair itself comes from [ecdh_keygen], an argument here. *)

From stdpp Require Import gmap.
From S2P Require Import Prelude Util.

Definition KEYFILE_KEY_LEN : nat := 32.

Abbreviation path := string.

Record file := mkFile { f_mode : Z; f_data : bytes }.

Abbreviation filesystem := (gmap path file).

Record fs_env := mkFsEnv {
  umask : Z;
  can_open : path -> bool;
  write_takes : path -> option nat;  (* [None]: the call fails *)
  read_fails : path -> bool
}.

(** [open(p, O_WRONLY | O_CREAT | O_TRUNC, mode)]: the mode counts for a new
    file only; an existing one is emptied and keeps its own. *)
Definition open_trunc (env : fs_env) (p : path) (mode : Z) (fs : filesystem) : option filesystem :=
  if negb (can_open env p) then None
  else match fs !! p with
       | Some f => Some (<[p := mkFile (f_mode f) []]> fs)
       | None => Some (<[p := mkFile (Z.land mode (Z.lnot (umask env))) []]> fs)
       end.

(** [write(fd, d, length d)] on the file just opened. *)
Definition sys_write_file (env : fs_env) (p : path) (d : bytes) (fs : filesystem) : Z * filesystem :=
  match write_takes env p with
  | None => (-1, fs)
  | Some n =>
      let d' := take n d in
      (Z.of_nat (length d'), alter (fun f => mkFile (f_mode f) (f_data f ++ d')) p fs)
  end.

(** [open(p, O_RDONLY)] and one [read] of at most [n] bytes. *)
Definition open_read (env : fs_env) (p : path) (n : nat) (fs : filesystem) : option (Z * bytes) :=
  if negb (can_open env p) then None
  else match fs !! p with
       | None => None
       | Some f => if read_fails env p then Some (-1, [])
                   else Some (Z.of_nat (length (take n (f_data f))), take n (f_data f))
       end.

(** [sprintf(hex, "%02x", b)]: two lower-case digits. *)
Definition hex_digit (v : Z) : Z := if v <? 10 then 48 + v else 87 + v.
Definition hex_byte (b : Z) : bytes := [hex_digit (Z.shiftr b 4); hex_digit (Z.land b 15)].
Definition hex_text (k : bytes) : bytes := k ≫= hex_byte.

Definition keyfile_generate (env : fs_env) (keypair : option (bytes * bytes)) (priv_path pub_path : path)
    (fs : filesystem) : Z * filesystem :=
  match keypair with
  | None => (-1, fs)
  | Some (pub, priv) =>
      match open_trunc env priv_path 384 fs with  (* 0600 *)
      | None => (-1, fs)
      | Some fs1 =>
          let '(n, fs2) := sys_write_file env priv_path priv fs1 in
          if negb (n =? 32) then (-1, fs2)
          else match open_trunc env pub_path 420 fs2 with  (* 0644 *)
               | None => (-1, fs2)
               | Some fs3 =>
                   let '(m, fs4) := sys_write_file env pub_path (hex_text pub ++ [10]) fs3 in
                   if negb (m =? 65) then (-1, fs4) else (0, fs4)
               end
      end
  end.

(** The result and the caller's key buffer. *)
Definition keyfile_load (env : fs_env) (fs : filesystem) (key : bytes) (p : path) : Z * bytes :=
  match open_read env p KEYFILE_KEY_LEN fs with
  | None => (-1, key)
  | Some (n, d) => if negb (n =? 32) then (-1, splice key 0 d) else (0, splice key 0 d)
  end.

(** The warning about the permissions, the only effect of the check. *)
Definition insecure_mode (mode : Z) : bool :=
  negb (Z.land mode 511 =? 384) && negb (Z.land mode 511 =? 256).

(** Result, key buffer, and whether the warning was printed. *)
Definition keyfile_load_private (env : fs_env) (fs : filesystem) (key : bytes) (p : path) : Z * bytes * bool :=
  match fs !! p with
  | None => (-1, key, false)
  | Some f => (keyfile_load env fs key p, insecure_mode (f_mode f))
  end.

(** [c - '0'] and the like, or an invalid character. *)
Definition hex_value (c : Z) : option Z :=
  if (48 <=? c) && (c <=? 57) then Some (c - 48)
  else if (97 <=? c) && (c <=? 102) then Some (c - 97 + 10)
  else if (65 <=? c) && (c <=? 70) then Some (c - 65 + 10)
  else None.

Definition is_blank (c : Z) : bool := (c =? 32) || (c =? 10) || (c =? 13) || (c =? 9).

(** The loop over the text: [out] holds the finished bytes ([byte_idx] of
    them) and [half] the byte under construction when [nibble] is 1. *)
Fixpoint hex_loop (buf : bytes) (out : bytes) (half : option Z) : option bytes :=
  match buf with
  | [] => Some out
  | c :: buf' =>
      if (32 <=? length out)%nat then Some out
      else if is_blank c then hex_loop buf' out half
      else match hex_value c with
           | None => None
           | Some v =>
               match half with
               | None => hex_loop buf' out (Some (u8 (Z.shiftl v 4)))
               | Some h => hex_loop buf' (out ++ [Z.lor h v]) None
               end
           end
  end.

Definition keyfile_load_public (env : fs_env) (fs : filesystem) (key : bytes) (p : path) : Z * bytes :=
  match open_read env p 127 fs with
  | None => (-1, key)
  | Some (n, buf) =>
      if n <? 0 then (-1, key)
      else if n =? 32 then (0, splice key 0 (take 32 buf))
      else match hex_loop buf [] None with
           | None => (-1, key)
           | Some out => if negb (length out =? 32)%nat then (-1, key) else (0, splice key 0 out)
           end
  end.

(** ** What the hexadecimal reader accepts *)

Section hex.

(** [ds] are the digits, two to a byte, of [k]. *)
Inductive spells : bytes -> bytes -> Prop :=
  | spells_nil : spells [] []
  | spells_cons a b x y ds k :
      hex_value a = Some x -> hex_value b = Some y -> spells ds k ->
      spells (a :: b :: ds) (16 * x + y :: k).

Lemma hex_value_range c v : hex_value c = Some v -> 0 <= v < 16.
Proof. unfold hex_value. intros. repeat case_match; zbool; simplify_eq; lia. Qed.

(** The two nibbles as the code combines them. *)
Lemma nibbles x y : 0 <= x < 16 -> 0 <= y < 16 -> Z.lor (u8 (Z.shiftl x 4)) y = 16 * x + y.
Proof.
  intros Hx Hy.
  assert (forallb (fun i => forallb (fun j =>
    Z.lor (u8 (Z.shiftl (Z.of_nat i) 4)) (Z.of_nat j) =? 16 * Z.of_nat i + Z.of_nat j)
    (seq 0 16)) (seq 0 16) = true) as H by (vm_compute; reflexivity).
  rewrite List.forallb_forall in H.
  specialize (H (Z.to_nat x)). rewrite in_seq in H. specialize (H ltac:(lia)).
  rewrite List.forallb_forall in H. specialize (H (Z.to_nat y)). rewrite in_seq in H.
  specialize (H ltac:(lia)). zbool. by rewrite !Z2Nat.id in H by lia.
Qed.

(** What is still to be read when a first digit is pending. *)
Definition spells_from (half : option Z) (ds k : bytes) : Prop :=
  match half with
  | None => spells ds k
  | Some x => exists c y ds' k', ds = c :: ds' /\ hex_value c = Some y /\ k = 16 * x + y :: k' /\ spells ds' k'
  end.

Abbreviation digits_of buf := (filter (fun c => is_blank c = false) buf).

Lemma hex_value_not_blank c v : hex_value c = Some v -> is_blank c = false.
Proof. unfold hex_value, is_blank. intros. repeat case_match; zbool; simplify_eq; repeat (apply orb_false_iff; split); apply Z.eqb_neq; lia. Qed.

Lemma spells_length ds k : spells ds k -> length ds = (2 * length k)%nat.
Proof. induction 1; simpl; lia. Qed.

Lemma hex_loop_cons c buf out half :
  hex_loop (c :: buf) out half =
  if (32 <=? length out)%nat then Some out
  else if is_blank c then hex_loop buf out half
  else match hex_value c, half with
       | None, _ => None
       | Some v, None => hex_loop buf out (Some (u8 (Z.shiftl v 4)))
       | Some v, Some h => hex_loop buf (out ++ [Z.lor h v]) None
       end.
Proof. reflexivity. Qed.

Lemma hex_loop_extends buf : forall out half r, hex_loop buf out half = Some r -> exists k, r = out ++ k.
Proof.
  induction buf as [|c buf IH]; intros out half r.
  - intros [= <-]. exists []. by rewrite app_nil_r.
  - rewrite hex_loop_cons. destruct (32 <=? length out)%nat.
    { intros Hr%(inj Some). exists []. by rewrite app_nil_r. }
    destruct (is_blank c); [by apply IH|]. destruct (hex_value c); [|done].
    destruct half; [|by apply IH]. intros [k ->]%IH. eexists. by rewrite <- app_assoc.
Qed.

(** The loop reads exactly the first digits that complete 32 bytes. *)
Lemma hex_loop_spec buf : forall out half k,
  (length out + length k = 32)%nat ->
  (forall x, half = Some x -> 0 <= x < 16 /\ k <> []) ->
  hex_loop buf out ((fun x => u8 (Z.shiftl x 4)) <$> half) = Some (out ++ k) <->
  exists ds rest, digits_of buf = ds ++ rest /\ spells_from half ds k.
Proof.
  induction buf as [|c buf IH]; intros out half k Hlen Hhalf.
  - simpl. split.
    + intros Hk%(inj Some). assert (k = []) as ->.
      { apply (f_equal length) in Hk. rewrite length_app in Hk. apply nil_length_inv. lia. }
      destruct half as [x|]; [by destruct (Hhalf x eq_refl)|]. exists [], []. split; [done|constructor].
    + intros (ds & rest & Hd & Hs). destruct ds; [|done]. destruct half as [x|].
      { by destruct Hs as (? & ? & ? & ? & ? & _). }
      inversion Hs; subst. by rewrite app_nil_r.
  - rewrite hex_loop_cons. destruct (32 <=? length out)%nat eqn:Hfull; zbool.
    { assert (k = []) as -> by (destruct k; [done|simpl in Hlen; lia]). rewrite app_nil_r. split; [|done].
      intros _. destruct half as [x|]; [by destruct (Hhalf x eq_refl)|]. eexists [], _. split; [done|constructor]. }
    destruct (is_blank c) eqn:Hb.
    { rewrite filter_cons_False by congruence. by apply IH. }
    rewrite filter_cons_True by done. destruct (hex_value c) as [v|] eqn:Hv.
    + pose proof (hex_value_range _ _ Hv) as Hr. destruct half as [x|]; simpl fmap; cbv match.
      * destruct (Hhalf x eq_refl) as [Hx Hk]. destruct k as [|z k]; [done|]. simpl in Hlen.
        rewrite (nibbles x v) by done.
        destruct (decide (z = 16 * x + v)) as [->|Hz].
        -- replace (out ++ 16 * x + v :: k) with ((out ++ [16 * x + v]) ++ k) by by rewrite <- app_assoc.
           rewrite (IH _ None k) by (done || rewrite length_app; simpl; lia). simpl. split.
           ++ intros (ds & rest & Hd & Hs). exists (c :: ds), rest. rewrite Hd. split; [done|].
              by exists c, v, ds, k.
           ++ intros (ds & rest & Hd & c' & y & ds' & k' & -> & Hc & Hk' & Hs). simpl in Hd. simplify_eq.
              by exists ds', rest.
        -- split.
           ++ intros [k' Hk']%hex_loop_extends. rewrite <- app_assoc in Hk'.
              apply (inj (app out)) in Hk'. by simplify_eq/=.
           ++ intros (ds & rest & Hd & c' & y & ds' & k' & -> & Hc & Hk' & Hs). simpl in Hd. by simplify_eq.
      * assert (k <> []) as Hk by (intros ->; simpl in Hlen; lia).
        rewrite (IH out (Some v) k) by (done || by intros ? [= <-]). simpl. split.
        -- intros (ds & rest & Hd & c' & y & ds' & k' & -> & Hc & -> & Hs).
           exists (c :: c' :: ds'), rest. rewrite Hd. split; [done|]. by constructor.
        -- intros (ds & rest & Hd & Hs). inversion Hs as [|a b x y ds' k' Ha Hb' Hs' Eds Ek]; subst; [done|].
           simpl in Hd. simplify_eq. exists (b :: ds'), rest. split; [done|]. by exists b, y, ds', k'.
    + split; [done|]. intros (ds & rest & Hd & Hs). destruct half as [x|].
      * destruct Hs as (c' & y & ds' & k' & -> & Hc & _). simpl in Hd. simplify_eq. 
      * inversion Hs; subst; [simpl in Hlen; lia|]. simpl in Hd. simplify_eq.
Qed.

End hex.

(** ** Properties *)

(** The [127] bytes [keyfile_load_public] reads of a file. *)
Definition read_public (env : fs_env) (fs : filesystem) (p : path) : option bytes :=
  if can_open env p && negb (read_fails env p) then (take 127 ∘ f_data) <$> fs !! p else None.

Lemma splice_whole key d : length d = length key -> splice key 0 d = d.
Proof. intros Hl. unfold splice. rewrite take_0, drop_ge by (simpl; lia). by rewrite app_nil_r. Qed.

(** The text of a key is what its digits spell. *)
Lemma hex_text_loop buf k : length k = 32%nat ->
  hex_loop buf [] None = Some k <->
  exists ds rest, filter (fun c => is_blank c = false) buf = ds ++ rest /\ spells ds k.
Proof. intros Hk. exact (hex_loop_spec buf [] None k Hk ltac:(done)). Qed.

Lemma load_public_text env fs key p buf k :
  length key = 32%nat -> read_public env fs p = Some buf -> length buf <> 32%nat ->
  length k = 32%nat -> hex_loop buf [] None = Some k -> keyfile_load_public env fs key p = (0, k).
Proof.
  unfold read_public, keyfile_load_public, open_read. intros Hkey Hr Hb Hk Hl.
  destruct (can_open env p); [|done]. destruct (read_fails env p); [done|].
  destruct (fs !! p) as [f|]; simplify_eq/=.
  destruct (Z.of_nat _ <? 0) eqn:E; zbool; [lia|]. destruct (Z.of_nat _ =? 32) eqn:E'; zbool; [lia|].
  by rewrite Hl, Hk, Nat.eqb_refl, splice_whole by congruence.
Qed.

(** A public key file is accepted exactly in two forms: 32 raw bytes, or
    (for any other length) text whose first 64 characters that are not blanks
    are hexadecimal digits, upper or lower case; the key is what they spell.
    Everything else is refused with -1 and leaves the caller's buffer alone. *)
Theorem keyfile_load_public_accepts env fs key p k :
  length key = 32%nat ->
  (keyfile_load_public env fs key p = (0, k) <->
   exists buf, read_public env fs p = Some buf /\
     (length buf = 32%nat /\ k = buf \/
      length buf <> 32%nat /\ length k = 32%nat /\
      exists ds rest, filter (fun c => is_blank c = false) buf = ds ++ rest /\ spells ds k)) /\
  (forall r k', keyfile_load_public env fs key p = (r, k') -> r <> 0 -> r = -1 /\ k' = key).
Proof.
  intros Hkey. unfold keyfile_load_public, open_read, read_public. split.
  - destruct (can_open env p); simpl; [|naive_solver].
    destruct (fs !! p) as [f|]; simpl; [|by case_match; naive_solver].
    destruct (read_fails env p); simpl; [naive_solver|].
    set (buf := take 127 (f_data f)). destruct (Z.of_nat (length buf) <? 0) eqn:E; zbool; [lia|].
    destruct (Z.of_nat (length buf) =? 32) eqn:E'; zbool.
    + rewrite take_ge, splice_whole by lia. split; [intros [= <-]; exists buf; naive_solver lia|].
      intros (b & [= <-] & [[_ ->]|[? _]]); [done|lia].
    + split.
      * destruct (hex_loop buf [] None) as [out|] eqn:Ho; [|done].
        destruct (length out =? 32)%nat eqn:Hl; simpl; [|done]. zbool.
        rewrite splice_whole by congruence. intros [= <-]. exists buf. split; [done|]. right.
        split_and!; [lia|done|]. by apply hex_text_loop.
      * intros (b & [= <-] & [[? _]|(_ & Hk & Hs)]); [lia|]. apply (hex_text_loop buf k Hk) in Hs.
        by rewrite Hs, Hk, Nat.eqb_refl, splice_whole by congruence.
  - intros r k' H Hr. repeat (case_match; simplify_eq/=; try done).
Qed.

(** *** Generated files are read back *)

Lemma hex_digit_value v : 0 <= v < 16 -> hex_value (hex_digit v) = Some v.
Proof.
  intros Hv. unfold hex_digit. destruct (v <? 10) eqn:E; zbool; unfold hex_value.
  - replace (_ && _) with true by (symmetry; apply andb_true_iff; split; apply Z.leb_le; lia). f_equal. lia.
  - replace ((48 <=? 87 + v) && (87 + v <=? 57)) with false
      by (symmetry; apply andb_false_iff; right; apply Z.leb_gt; lia).
    replace ((97 <=? 87 + v) && (87 + v <=? 102)) with true
      by (symmetry; apply andb_true_iff; split; apply Z.leb_le; lia). f_equal. lia.
Qed.

Lemma byte_nibbles b : is_uint 8 b ->
  0 <= Z.shiftr b 4 < 16 /\ 0 <= Z.land b 15 < 16 /\ 16 * Z.shiftr b 4 + Z.land b 15 = b.
Proof.
  unfold is_uint. intros Hb. change 15 with (Z.ones 4). rewrite Z.land_ones, Z.shiftr_div_pow2 by lia.
  change (2 ^ 4) with 16. pose proof (Z.div_mod b 16). pose proof (Z.mod_pos_bound b 16). lia.
Qed.

Lemma hex_text_spells k : wf_bytes k -> spells (hex_text k) k.
Proof.
  induction 1 as [|b k Hb _ IH]; [constructor|].
  destruct (byte_nibbles b Hb) as (H1 & H2 & H3). rewrite <- H3 at 2. simpl.
  by constructor; [apply hex_digit_value..|].
Qed.

Lemma hex_text_digits k : wf_bytes k -> filter (fun c => is_blank c = false) (hex_text k ++ [10]) = hex_text k.
Proof.
  intros Hk%hex_text_spells. rewrite filter_app.
  induction Hk as [|a b x y ds k Ha Hb _ IH]; [done|]. simpl app.
  rewrite !filter_cons_True by by eapply hex_value_not_blank. simpl. by f_equal; f_equal.
Qed.

Lemma hex_text_length k : length (hex_text k) = (2 * length k)%nat.
Proof. induction k; simpl; lia. Qed.

(** A successful open for writing followed by a complete write. *)
Definition new_mode (env : fs_env) (mode : Z) (old : option file) : Z :=
  from_option f_mode (Z.land mode (Z.lnot (umask env))) old.

Lemma open_write_spec env p mode d fs fs1 fs2 n :
  open_trunc env p mode fs = Some fs1 -> sys_write_file env p d fs1 = (n, fs2) ->
  n = Z.of_nat (length d) -> d <> [] ->
  can_open env p = true /\ fs2 = <[p := mkFile (new_mode env mode (fs !! p)) d]> fs.
Proof.
  unfold open_trunc, sys_write_file. intros Ho Hw Hn Hd.
  destruct (can_open env p); [|done]. split; [done|]. simpl in Ho.
  destruct (write_takes env p) as [m|]; [|destruct d; simplify_eq/=; lia].
  assert (fs1 = <[p := mkFile (new_mode env mode (fs !! p)) []]> fs) as -> by (case_match; by simplify_eq/=).
  simplify_eq. assert (length d <= m)%nat by (rewrite length_take in *; lia). rewrite take_ge by done.
  apply map_eq. intros q. destruct (decide (q = p)) as [->|].
  - by rewrite lookup_alter_eq, !lookup_insert_eq.
  - by rewrite lookup_alter_ne, !lookup_insert_ne by done.
Qed.

(** A key pair that was generated is read back: the private key from the
    one file and the public key, through its hexadecimal text, from the other.
    The private file gets mode 0600 (less the umask) only if it is new; an
    existing file keeps the mode it had, and the loader warns unless that is
    0600 or 0400. *)
Theorem keyfile_roundtrip env fs fs' key pub priv priv_path pub_path :
  length pub = 32%nat -> wf_bytes pub -> length priv = 32%nat -> length key = 32%nat ->
  priv_path <> pub_path -> read_fails env priv_path = false -> read_fails env pub_path = false ->
  keyfile_generate env (Some (pub, priv)) priv_path pub_path fs = (0, fs') ->
  keyfile_load_private env fs' key priv_path =
    (0, priv, insecure_mode (new_mode env 384 (fs !! priv_path))) /\
  keyfile_load_public env fs' key pub_path = (0, pub).
Proof.
  intros Hpub Hwf Hpriv Hkey Hne Hr1 Hr2 H. unfold keyfile_generate in H.
  destruct (open_trunc env priv_path 384 fs) as [fs1|] eqn:Ho1; [|done].
  destruct (sys_write_file env priv_path priv fs1) as [n fs2] eqn:Hw1.
  destruct (n =? 32) eqn:Hn; [|done]. simpl in H.
  destruct (open_trunc env pub_path 420 fs2) as [fs3|] eqn:Ho2; [|done].
  destruct (sys_write_file env pub_path (hex_text pub ++ [10]) fs3) as [m fs4] eqn:Hw2.
  destruct (m =? 65) eqn:Hm; [|done]. simplify_eq/=. zbool.
  assert (length (hex_text pub ++ [10]) = 65%nat) as Hl by (rewrite length_app, hex_text_length, Hpub; done).
  destruct (open_write_spec _ _ _ _ _ _ _ _ Ho1 Hw1) as [Hc1 ->]; [lia|by destruct priv|].
  destruct (open_write_spec _ _ _ _ _ _ _ _ Ho2 Hw2) as [Hc2 ->]; [lia|by destruct (hex_text pub)|].
  split.
  - unfold keyfile_load_private, keyfile_load, open_read.
    rewrite Hc1, !lookup_insert_ne, !lookup_insert_eq, Hr1 by done. simpl negb. cbv match. simpl f_data.
    rewrite take_ge, Hpriv, splice_whole by (unfold KEYFILE_KEY_LEN; lia). done.
  - eapply (load_public_text _ _ _ _ (hex_text pub ++ [10])); [done| |lia|done|].
    + unfold read_public. rewrite Hc2, Hr2, lookup_insert_eq. simpl. by rewrite take_ge by lia.
    + apply hex_text_loop; [done|]. exists (hex_text pub), []. rewrite app_nil_r.
      split; [by apply hex_text_digits|by apply hex_text_spells].
Qed.

(** *** Examples *)

Definition demo_env : fs_env := mkFsEnv 18 (fun _ => true) (fun _ => Some 100%nat) (fun _ => false).
Definition demo_pub : bytes := seqZ 200 32.
Definition demo_priv : bytes := seqZ 10 32.
Definition demo_fs : filesystem :=
  snd (keyfile_generate demo_env (Some (demo_pub, demo_priv)) "k" "k.pub" ∅).

Lemma keyfile_roundtrip_witness :
  keyfile_load_private demo_env demo_fs (zeros 32) "k" = (0, demo_priv, false) /\
  keyfile_load_public demo_env demo_fs (zeros 32) "k.pub" = (0, demo_pub).
Proof.
  replace false with (insecure_mode (new_mode demo_env 384 ((∅ : filesystem) !! "k"))) by (vm_compute; reflexivity).
  apply (keyfile_roundtrip demo_env ∅ demo_fs (zeros 32) demo_pub demo_priv "k" "k.pub");
    first [ reflexivity | discriminate | apply wf_bytesb_spec; vm_compute; reflexivity
          | vm_compute; reflexivity ].
Defined.

Lemma keyfile_load_public_accepts_witness :
  exists buf, read_public demo_env demo_fs "k.pub" = Some buf /\
     (length buf = 32%nat /\ demo_pub = buf \/
      length buf <> 32%nat /\ length demo_pub = 32%nat /\
      exists ds rest, filter (fun c => is_blank c = false) buf = ds ++ rest /\ spells ds demo_pub).
Proof.
  apply (proj1 (keyfile_load_public_accepts demo_env demo_fs (zeros 32) "k.pub" demo_pub ltac:(reflexivity))).
  vm_compute. reflexivity.
Defined.
