(* ===== verification/IniConfig.v ===== *)
(** * The configuration file parser (util/iniconfig.c)

    [iniconf_load] reads a file line by line with [fgets] into a table of at
    most eight sections of at most 32 entries; the getters search it without
    regard to case.  Strings are lists of characters without a NUL.  A
    [strdup] that fails is part of the model: the list [oom] says, call by
    call, whether there is memory ([true] when it has run out of answers). *)

From stdpp Require Import sets.
From S2P Require Import Prelude.

Definition INI_MAX_LINE : nat := 512.
Definition INI_MAX_SECTIONS : nat := 8.
Definition INI_MAX_KEYS : nat := 32.

Record ini_entry_t := mkEntry { e_key : bytes; e_value : bytes }.

(** [s_entries] are the first [count] entries; [s_name] is [None] for NULL. *)
Record ini_section_t := mkSection { s_name : option bytes; s_entries : list ini_entry_t }.

Record iniconf_t := mkConf { sections : list ini_section_t; conf_count : nat }.

(** [memset(cfg, 0, sizeof *cfg)]. *)
Definition conf_zero : iniconf_t := mkConf (replicate INI_MAX_SECTIONS (mkSection None [])) 0.

(** ** The C library *)

Definition isspace (c : Z) : bool := (c =? 32) || ((9 <=? c) && (c <=? 13)).

(** [fgets] into a buffer of [n + 1] bytes: up to and including a newline. *)
Fixpoint fgets_loop (n : nat) (data : bytes) : bytes * bytes :=
  match n, data with
  | O, _ => ([], data)
  | S _, [] => ([], [])
  | S n', c :: d => if c =? 10 then ([c], d) else let '(l, r) := fgets_loop n' d in (c :: l, r)
  end.

(** [None] at end of file. *)
Definition fgets (size : nat) (data : bytes) : option (bytes * bytes) :=
  match data with [] => None | _ => Some (fgets_loop (size - 1) data) end.

(** The string a buffer holds: up to the first NUL. *)
Fixpoint c_str (l : bytes) : bytes :=
  match l with [] => [] | c :: l' => if c =? 0 then [] else c :: c_str l' end.

(** [strchr]: the text before and after the first occurrence. *)
Fixpoint strchr (c : Z) (l : bytes) : option (bytes * bytes) :=
  match l with
  | [] => None
  | x :: l' => if x =? c then Some ([], l')
               else match strchr c l' with Some (a, b) => Some (x :: a, b) | None => None end
  end.

(** The two trimming loops. *)
Fixpoint rtrim (l : bytes) : bytes :=
  match l with
  | [] => []
  | c :: l' => match rtrim l' with [] => if isspace c then [] else [c] | t => c :: t end
  end.

Fixpoint ltrim (l : bytes) : bytes :=
  match l with [] => [] | c :: l' => if isspace c then ltrim l' else l end.

Definition tolower (c : Z) : Z := if (65 <=? c) && (c <=? 90) then c + 32 else c.

(** [strcasecmp(a, b) == 0]. *)
Definition strcaseeq (a b : bytes) : bool := bool_decide (map tolower a = map tolower b).

Definition strdup (s : bytes) (oom : list bool) : option bytes * list bool :=
  match oom with [] => (Some s, []) | b :: o => (if b then Some s else None, o) end.

(** ** Loading *)

Record load_state := mkLoad { l_cfg : iniconf_t; l_sec : option nat; l_oom : list bool }.

Definition set_section (i : nat) (f : ini_section_t -> ini_section_t) (cfg : iniconf_t) : iniconf_t :=
  mkConf (alter f i (sections cfg)) (conf_count cfg).

(** [\[Section\]]: [rest] follows the bracket. *)
Definition section_header (rest : bytes) (st : load_state) : load_state :=
  match strchr 93 rest with
  | None => st
  | Some (nm, _) =>
      let i := conf_count (l_cfg st) in
      let '(name, o) := strdup nm (l_oom st) in
      let cfg1 := set_section i (fun s => mkSection name (s_entries s)) (l_cfg st) in
      match name with
      | None => mkLoad cfg1 (Some i) o
      | Some _ =>
          let cfg2 := set_section i (fun s => mkSection (s_name s) []) cfg1 in
          mkLoad (mkConf (sections cfg2) (S (conf_count cfg2))) (Some i) o
      end
  end.

(** [key = value]. *)
Definition key_value (p : bytes) (st : load_state) : load_state :=
  match l_sec st with
  | None => st
  | Some i =>
      match strchr 61 p with
      | None => st
      | Some (k, v) =>
          match sections (l_cfg st) !! i with
          | None => st
          | Some s =>
              if (INI_MAX_KEYS <=? length (s_entries s))%nat then st
              else
                let '(key, o1) := strdup (rtrim k) (l_oom st) in
                let '(value, o2) := strdup (ltrim v) o1 in
                match key, value with
                | Some k', Some v' =>
                    mkLoad (set_section i (fun s => mkSection (s_name s) (s_entries s ++ [mkEntry k' v'])) (l_cfg st))
                      (Some i) o2
                | _, _ => mkLoad (l_cfg st) (l_sec st) o2
                end
          end
      end
  end.

(** The body of the loop. *)
Definition ini_line (buf : bytes) (st : load_state) : load_state :=
  let line := rtrim (c_str buf) in
  match line with
  | [] => st
  | _ =>
      let p := ltrim line in
      match p with
      | [] => st
      | c :: rest =>
          if (c =? 35) || (c =? 59) then st
          else if c =? 91 then section_header rest st
          else key_value p st
      end
  end.

(** Every [fgets] consumes a character, so as many rounds as the file has
    characters are enough. *)
Fixpoint load_loop (fuel : nat) (data : bytes) (st : load_state) : load_state :=
  match fuel with
  | O => st
  | S f =>
      match fgets INI_MAX_LINE data with
      | None => st
      | Some (line, rest) =>
          if (conf_count (l_cfg st) <? INI_MAX_SECTIONS)%nat
          then load_loop f rest (ini_line line st) else st
      end
  end.

Definition load (data : bytes) (st : load_state) : load_state := load_loop (S (length data)) data st.
#[global] Arguments load : simpl never.

(** [file] is the content, or [None] when [fopen] fails. *)
Definition iniconf_load (cfg : iniconf_t) (file : option bytes) (oom : list bool) : Z * iniconf_t :=
  match file with
  | None => (-1, cfg)
  | Some data => (0, l_cfg (load data (mkLoad conf_zero None oom)))
  end.

(** ** Lookup *)

Fixpoint find_entry (es : list ini_entry_t) (key : bytes) : option bytes :=
  match es with
  | [] => None
  | e :: es' => if strcaseeq (e_key e) key then Some (e_value e) else find_entry es' key
  end.

(** A counted section always has a name ([ini_load_wf]); [false] stands for
    the comparison with NULL that never happens. *)
Definition named (section : bytes) (s : ini_section_t) : bool :=
  match s_name s with Some n => strcaseeq n section | None => false end.

Fixpoint get_loop (ss : list ini_section_t) (section key : bytes) : option bytes :=
  match ss with
  | [] => None
  | s :: ss' => if named section s then find_entry (s_entries s) key else get_loop ss' section key
  end.

Definition iniconf_get (cfg : iniconf_t) (section key : bytes) : option bytes :=
  get_loop (take (conf_count cfg) (sections cfg)) section key.

Fixpoint indexed_loop (ss : list ini_section_t) (nth : Z) (section : bytes) (index : Z) (key : bytes) : option bytes :=
  match ss with
  | [] => None
  | s :: ss' =>
      if named section s
      then if nth =? index then find_entry (s_entries s) key
           else indexed_loop ss' (nth + 1) section index key
      else indexed_loop ss' nth section index key
  end.

Definition iniconf_get_indexed (cfg : iniconf_t) (section : bytes) (index : Z) (key : bytes) : option bytes :=
  indexed_loop (take (conf_count cfg) (sections cfg)) 0 section index key.

(** [strtol(v, &end, 10)]: the value, whether a number was there
    ([end != v]), and the text after it.  The value saturates at [long]. *)
Definition is_digit (c : Z) : bool := (48 <=? c) && (c <=? 57).

Fixpoint digits (l : bytes) (acc : Z) : Z * bytes :=
  match l with
  | c :: l' => if is_digit c then digits l' (10 * acc + (c - 48)) else (acc, l)
  | [] => (acc, [])
  end.

Definition strtol (v : bytes) : Z * bool * bytes :=
  let l := ltrim v in
  let '(neg, l1) := match l with
                    | c :: l' => if c =? 45 then (true, l') else if c =? 43 then (false, l') else (false, l)
                    | [] => (false, l)
                    end in
  match l1 with
  | c :: _ =>
      if is_digit c then
        let '(n, rest) := digits l1 0 in
        ((if neg then Z.max (- 2 ^ 63) (- n) else Z.min (2 ^ 63 - 1) n), true, rest)
      else (0, false, v)
  | [] => (0, false, v)
  end.

(** Conversion of [long] to [int]. *)
Definition to_int (n : Z) : Z := let y := u32 n in if y <? 2 ^ 31 then y else y - 2 ^ 32.

Definition iniconf_get_int (cfg : iniconf_t) (section key : bytes) (def : Z) : Z :=
  match iniconf_get cfg section key with
  | None => def
  | Some v => let '(n, moved, rest) := strtol v in
              if moved && match rest with [] => true | _ => false end then to_int n else def
  end.

(** Frees every string; what remains is the zeroed table. *)
Definition iniconf_free (cfg : iniconf_t) : iniconf_t := conf_zero.

(** ** The table *)

Definition section_wf (s : ini_section_t) : Prop := (length (s_entries s) <= INI_MAX_KEYS)%nat.

Record conf_wf (cfg : iniconf_t) : Prop := {
  cw_length : length (sections cfg) = INI_MAX_SECTIONS;
  cw_count : (conf_count cfg <= INI_MAX_SECTIONS)%nat;
  cw_named : Forall (fun s => is_Some (s_name s)) (take (conf_count cfg) (sections cfg));
  cw_entries : Forall section_wf (sections cfg)
}.

(** The pointer [sec] is into the table. *)
Definition load_wf (st : load_state) : Prop :=
  conf_wf (l_cfg st) /\ forall i, l_sec st = Some i -> (i <= conf_count (l_cfg st))%nat /\ (i < INI_MAX_SECTIONS)%nat.

Lemma Forall_alter_intro {A} (P : A -> Prop) f l i :
  Forall P l -> (forall x, l !! i = Some x -> P x -> P (f x)) -> Forall P (alter f i l).
Proof.
  intros Hl Hf. apply Forall_lookup_2. intros j y Hj. rewrite Forall_lookup in Hl.
  destruct (decide (i = j)) as [<-|Hne].
  - rewrite list_lookup_alter_eq in Hj. destruct (l !! i) as [x|] eqn:Hx; simplify_eq/=. eauto.
  - rewrite list_lookup_alter_ne in Hj by done. eauto.
Qed.

Lemma take_alter_any {A} (f : A -> A) l n i : take n (alter f i l) = alter f i (take n l).
Proof.
  apply list_eq. intros j. rewrite lookup_take. destruct (decide (i = j)) as [<-|].
  - rewrite !list_lookup_alter_eq, lookup_take. by case_decide.
  - by rewrite !list_lookup_alter_ne, lookup_take by done.
Qed.

Lemma section_header_wf rest st :
  load_wf st -> (conf_count (l_cfg st) < INI_MAX_SECTIONS)%nat -> load_wf (section_header rest st).
Proof.
  intros Hw Hlt. pose proof Hw as [[Hl Hc Hn He] Hs]. unfold section_header. destruct (strchr 93 rest) as [[nm r]|]; [|done].
  destruct (strdup nm (l_oom st)) as [[name|] o]; cbv match zeta; (split; [|intros i [= <-]; simpl; lia]);
    constructor; simpl.
  - by rewrite !length_alter.
  - lia.
  - rewrite (take_S_r _ _ (mkSection (Some name) [])).
    + rewrite !take_alter_ge by lia. apply Forall_app. split; [done|]. repeat constructor. by eexists.
    + destruct (lookup_lt_is_Some_2 (sections (l_cfg st)) (conf_count (l_cfg st))) as [x Hx]; [lia|].
      by rewrite !list_lookup_alter_eq, Hx.
  - apply Forall_alter_intro; [|intros x _ _; unfold section_wf; simpl; lia].
    apply Forall_alter_intro; [done|]. by intros x _.
  - by rewrite length_alter.
  - lia.
  - by rewrite take_alter_ge by lia.
  - apply Forall_alter_intro; [done|]. by intros x _.
Qed.

Lemma key_value_wf p st : load_wf st -> load_wf (key_value p st).
Proof.
  intros Hw. pose proof Hw as [[Hl Hc Hn He] Hs]. unfold key_value. destruct (l_sec st) as [i|] eqn:Hi; [|done].
  destruct (strchr 61 p) as [[k v]|]; [|done]. destruct (sections (l_cfg st) !! i) as [s|] eqn:Hsi; [|done].
  destruct (INI_MAX_KEYS <=? length (s_entries s))%nat eqn:E; zbool; [done|].
  destruct (strdup (rtrim k) _) as [[k'|] o1]; destruct (strdup (ltrim v) o1) as [[v'|] o2];
    try (split; [done|simpl; by rewrite ?Hi in *]).
  split; [|exact Hs]. constructor; simpl.
  - by rewrite length_alter.
  - done.
  - rewrite take_alter_any. by apply Forall_alter_intro.
  - apply Forall_alter_intro; [done|]. intros x Hx _. unfold section_wf. simpl. simplify_eq.
    rewrite length_app. simpl. lia.
Qed.

Lemma ini_line_wf buf st :
  load_wf st -> (conf_count (l_cfg st) < INI_MAX_SECTIONS)%nat -> load_wf (ini_line buf st).
Proof.
  intros Hw Hlt. unfold ini_line. destruct (rtrim (c_str buf)); [done|].
  destruct (ltrim _) as [|c p]; [done|]. destruct (_ || _); [done|].
  destruct (c =? 91); [by apply section_header_wf|by apply key_value_wf].
Qed.

Lemma load_loop_wf f : forall data st, load_wf st -> load_wf (load_loop f data st).
Proof.
  induction f as [|f IH]; intros data st Hw; simpl; [done|]. destruct (fgets _ data) as [[line rest]|]; [|done].
  destruct (_ <? _)%nat eqn:E; zbool; [|done]. by apply IH, ini_line_wf.
Qed.

Lemma load_wf_init oom : load_wf (mkLoad conf_zero None oom).
Proof. split; [|done]. constructor; [done|simpl; lia|done|]. repeat constructor; unfold section_wf; simpl; lia. Qed.

(** C34: whatever the file holds and wherever memory runs out, loading keeps
    the table in bounds: at most eight sections, at most 32 entries in each,
    and every section the getters look at has a name (so that they never
    compare with NULL). *)
Theorem ini_load_wf cfg data oom cfg' :
  iniconf_load cfg (Some data) oom = (0, cfg') -> conf_wf cfg'.
Proof. intros H. apply (f_equal snd) in H. simpl in H. subst. apply load_loop_wf, load_wf_init. Qed.

(** ** Reading what was written *)

(** Text that a line can hold: no NUL and no newline. *)
Definition text (l : bytes) : Prop := Forall (fun c => c <> 0 /\ c <> 10) l.

Lemma text_app a b : text (a ++ b) <-> text a /\ text b.
Proof. apply Forall_app. Qed.

Lemma fgets_loop_line n l rest :
  text l -> (length l < n)%nat -> fgets_loop n (l ++ 10 :: rest) = (l ++ [10], rest).
Proof.
  intros Hl. revert n. induction Hl as [|c l [_ Hc] _ IH]; intros [|n] Hn; simpl in *; try lia; [done|].
  apply Z.eqb_neq in Hc. rewrite Hc, IH by lia. done.
Qed.

Lemma c_str_text l t : text l -> Forall (fun c => c <> 0) t -> c_str (l ++ t) = l ++ t.
Proof.
  intros Hl Ht. assert (Forall (fun c => c <> 0) (l ++ t)) as H.
  { apply Forall_app. split; [|done]. by eapply Forall_impl; [exact Hl|intros ? []]. }
  induction H as [|c r Hc _ IH]; simpl; [done|]. apply Z.eqb_neq in Hc. by rewrite Hc, IH.
Qed.

Lemma strchr_app c a b : c ∉ a -> strchr c (a ++ c :: b) = Some (a, b).
Proof.
  induction a as [|x a IH]; simpl; intros Hc; [by rewrite Z.eqb_refl|].
  destruct (x =? c) eqn:E; zbool; [set_solver|]. rewrite IH by set_solver. done.
Qed.

Lemma rtrim_app a b : rtrim b <> [] -> rtrim (a ++ b) = a ++ rtrim b.
Proof.
  intros Hb. induction a as [|c a IH]; simpl; [done|]. rewrite IH.
  destruct (a ++ rtrim b) as [|] eqn:E; [|done]. apply app_eq_nil in E as [_ ?]. done.
Qed.

Lemma rtrim_spaces a b : forallb isspace b = true -> rtrim (a ++ b) = rtrim a.
Proof.
  intros Hb. assert (rtrim b = []) as Hr.
  { induction b as [|c b IH]; [done|]. simpl in *. apply andb_true_iff in Hb as [Hc Hb].
    by rewrite IH, Hc. }
  induction a as [|c a IH]; simpl; [done|]. by rewrite IH.
Qed.

Lemma fgets_loop_length n : forall data l r,
  fgets_loop n data = (l, r) -> (length l + length r = length data)%nat.
Proof.
  induction n as [|n IH]; intros [|c data] l r; simpl; try (by intros [= <- <-]).
  destruct (c =? 10); [by intros [= <- <-]|]. destruct (fgets_loop n data) as [l' r'] eqn:E.
  intros [= <- <-]. simpl. by rewrite (IH _ _ _ E).
Qed.

(** [fgets] makes progress. *)
Lemma fgets_shrinks data l r : fgets INI_MAX_LINE data = Some (l, r) -> (length r < length data)%nat.
Proof.
  unfold fgets, INI_MAX_LINE. change (512 - 1)%nat with (S 510). generalize 510%nat. intros n.
  destruct data as [|c data]; [done|]. simpl. destruct (c =? 10); [intros [= _ <-]; lia|].
  destruct (fgets_loop n data) as [l' r'] eqn:E. intros H. simplify_eq/=. apply fgets_loop_length in E. lia.
Qed.

Lemma load_loop_fuel f : forall data st, (length data < f)%nat -> load_loop f data st = load data st.
Proof.
  assert (forall f g data st, (length data < f)%nat -> (length data < g)%nat ->
    load_loop f data st = load_loop g data st) as H.
  { clear. induction f as [|f IH]; intros [|g] data st Hf Hg; try lia. simpl.
    destruct (fgets INI_MAX_LINE data) as [[line rest]|] eqn:E; [|done]. apply fgets_shrinks in E.
    case_match; [|done]. apply IH; lia. }
  intros. unfold load. apply H; lia.
Qed.

(** One round of the loop on a line that fits the buffer. *)
Lemma load_line l rest st :
  text l -> (length l < 511)%nat -> (conf_count (l_cfg st) < INI_MAX_SECTIONS)%nat ->
  load (l ++ 10 :: rest) st = load rest (ini_line (l ++ [10]) st).
Proof.
  intros Hl Hn Hc. unfold load at 1. simpl. unfold fgets.
  destruct (l ++ 10 :: rest) as [|x d] eqn:E; [by destruct l|]. rewrite <- E.
  rewrite fgets_loop_line by (done || unfold INI_MAX_LINE; lia).
  apply Nat.ltb_lt in Hc. rewrite Hc. apply load_loop_fuel. rewrite length_app. simpl. lia.
Qed.

Lemma load_full data st : (INI_MAX_SECTIONS <= conf_count (l_cfg st))%nat -> load data st = st.
Proof.
  intros Hc. unfold load. simpl. destruct (fgets _ data) as [[l r]|]; [|done].
  apply Nat.ltb_ge in Hc. by rewrite Hc.
Qed.

(** A configuration as a list of sections, the table that holds it and the
    file that spells it. *)
Abbreviation config := (list (bytes * list ini_entry_t)).

Definition table (secs : config) : iniconf_t :=
  mkConf (map (fun s => mkSection (Some s.1) s.2) secs ++
          replicate (INI_MAX_SECTIONS - length secs) (mkSection None [])) (length secs).

Definition entry_text (e : ini_entry_t) : bytes := e_key e ++ [32; 61; 32] ++ e_value e.
Definition header_text (nm : bytes) : bytes := 91 :: nm ++ [93].
Definition entries_text (es : list ini_entry_t) : bytes := es ≫= fun e => entry_text e ++ [10].
Definition render (secs : config) : bytes :=
  secs ≫= fun s => header_text s.1 ++ [10] ++ entries_text s.2.

(** What can be written: no blanks at the ends, no separators inside, and
    lines that fit the buffer. *)
Definition trimmed (l : bytes) : Prop := ltrim l = l /\ rtrim l = l.

Record entry_ok (e : ini_entry_t) : Prop := {
  eo_key : text (e_key e);
  eo_value : text (e_value e);
  eo_key_trim : trimmed (e_key e);
  eo_value_trim : trimmed (e_value e);
  eo_start : exists c k, e_key e = c :: k /\ c <> 35 /\ c <> 59 /\ c <> 91;
  eo_no_eq : 61 ∉ e_key e;
  eo_fits : (length (e_key e) + length (e_value e) <= 507)%nat
}.

Record section_ok (s : bytes * list ini_entry_t) : Prop := {
  so_name : text s.1;
  so_close : 93 ∉ s.1;
  so_fits : (length s.1 <= 508)%nat;
  so_count : (length s.2 <= INI_MAX_KEYS)%nat;
  so_entries : Forall entry_ok s.2
}.

#[local] Arguments Nat.sub : simpl never.
#[local] Arguments Nat.leb : simpl never.

Lemma table_alter secs f :
  (length secs < INI_MAX_SECTIONS)%nat ->
  alter f (length secs) (sections (table secs)) =
  map (fun s => mkSection (Some s.1) s.2) secs ++ f (mkSection None []) ::
  replicate (INI_MAX_SECTIONS - S (length secs)) (mkSection None []).
Proof.
  intros Hl. simpl. rewrite <- (Nat.add_0_r (length secs)) at 1.
  rewrite <- (length_map (fun s => mkSection (Some s.1) s.2) secs) at 1.
  rewrite alter_app_r. replace (INI_MAX_SECTIONS - length secs)%nat
    with (S (INI_MAX_SECTIONS - S (length secs))) by lia. done.
Qed.

Lemma table_snoc secs s :
  table (secs ++ [s]) =
  mkConf (map (fun s => mkSection (Some s.1) s.2) secs ++ mkSection (Some s.1) s.2 ::
          replicate (INI_MAX_SECTIONS - S (length secs)) (mkSection None [])) (S (length secs)).
Proof.
  unfold table. rewrite map_app, <- app_assoc, length_app, (Nat.add_comm (length secs)). done.
Qed.

(** The first state of [section_header] on a table. *)
Lemma header_table nm secs sec :
  93 ∉ nm -> (length secs < INI_MAX_SECTIONS)%nat ->
  section_header (nm ++ [93]) (mkLoad (table secs) sec []) =
  mkLoad (table (secs ++ [(nm, [])])) (Some (length secs)) [].
Proof.
  intros Hc Hl. unfold section_header. rewrite strchr_app by done. cbn -[table].
  change (conf_count (table secs)) with (length secs).
  by rewrite list_alter_alter_eq, table_alter, table_snoc.
Qed.

Lemma header_line nm secs sec :
  text nm -> 93 ∉ nm -> (length secs < INI_MAX_SECTIONS)%nat ->
  ini_line (header_text nm ++ [10]) (mkLoad (table secs) sec []) =
  mkLoad (table (secs ++ [(nm, [])])) (Some (length secs)) [].
Proof.
  intros Ht Hc Hl. unfold ini_line, header_text.
  rewrite c_str_text; [|constructor; [done|]; apply text_app; split; [done|by repeat constructor]|by repeat constructor].
  rewrite rtrim_spaces by done. change (91 :: nm ++ [93]) with ([91] ++ nm ++ [93]).
  rewrite app_assoc, rtrim_app by done. rewrite <- app_assoc. cbn -[table section_header].
  by apply header_table.
Qed.

(** A line of an entry appends it to the last section. *)
Lemma entry_parts e : entry_ok e ->
  exists l, ltrim (rtrim (c_str (entry_text e ++ [10]))) = e_key e ++ [32; 61] ++ l /\ ltrim l = e_value e.
Proof.
  intros [Hk Hv [Hkl Hkr] [Hvl Hvr] (c & k & Hck & _) Heq Hf]. unfold entry_text.
  rewrite c_str_text; [|rewrite !text_app; split_and!; [done|by repeat constructor|done]|by repeat constructor].
  rewrite rtrim_spaces by done.
  assert (forall l, ltrim (e_key e ++ l) = e_key e ++ l) as Hlt.
  { intros l. rewrite Hck in *. simpl in *. destruct (isspace c) eqn:E; [|done].
    exfalso. apply (f_equal length) in Hkl. clear -Hkl. simpl in Hkl.
    assert (length (ltrim k) <= length k)%nat; [|lia]. clear. induction k as [|x k IH]; simpl; [lia|].
    case_match; simpl; lia. }
  destruct (e_value e) as [|x v] eqn:Ev.
  - exists []. split; [|done]. rewrite app_nil_r.
    change [32; 61; 32] with ([32; 61] ++ [32]). rewrite app_assoc, rtrim_spaces by done.
    rewrite rtrim_app by done. apply Hlt.
  - exists (32 :: x :: v). split; [|by simpl].
    rewrite app_assoc, rtrim_app by by rewrite Hvr. rewrite Hvr, <- app_assoc. apply Hlt.
Qed.

Lemma entry_line e secs nm es :
  entry_ok e -> (length es < INI_MAX_KEYS)%nat ->
  ini_line (entry_text e ++ [10]) (mkLoad (table (secs ++ [(nm, es)])) (Some (length secs)) []) =
  mkLoad (table (secs ++ [(nm, es ++ [e])])) (Some (length secs)) [].
Proof.
  intros He Hes. destruct (entry_parts e He) as (l & Hp & Hv). unfold ini_line. rewrite Hp.
  destruct He as [_ _ [_ Hkr] _ (c & k & Hck & H35 & H59 & H91) Heq _].
  destruct (rtrim (c_str _)) as [|x r]; [by rewrite Hck in Hp|].
  rewrite Hck at 1. apply Z.eqb_neq in H35, H59, H91. cbn -[table key_value]. rewrite H35, H59, H91. simpl.
  unfold key_value. cbn -[table].
  change (e_key e ++ 32 :: 61 :: l) with (e_key e ++ [32] ++ 61 :: l).
  rewrite app_assoc, strchr_app by set_solver.
  rewrite !table_snoc. cbn -[rtrim ltrim]. 
  assert (forall (A : Type) (a b : list A) z, (a ++ z :: b) !! length a = Some z) as Hmid
    by (intros; by rewrite list_lookup_middle).
  rewrite <- (length_map (fun s => mkSection (Some s.1) s.2) secs) at 1. rewrite Hmid. simpl s_entries.
  apply Nat.leb_gt in Hes. rewrite Hes, Hv, rtrim_spaces, Hkr by done. unfold set_section. simpl.
  rewrite <- (length_map (fun s => mkSection (Some s.1) s.2) secs) at 1.
  rewrite <- (Nat.add_0_r (length (map _ secs))), alter_app_r. simpl. by destruct e.
Qed.

Lemma entry_text_ok e : entry_ok e -> text (entry_text e) /\ (length (entry_text e) < 511)%nat.
Proof.
  intros [Hk Hv _ _ _ _ Hf]. unfold entry_text. split.
  - rewrite !text_app. split_and!; [done|by repeat constructor|done].
  - rewrite !length_app. simpl. lia.
Qed.

Lemma header_text_ok s : section_ok s -> text (header_text s.1) /\ (length (header_text s.1) < 511)%nat.
Proof.
  intros [Hn _ Hf _ _]. unfold header_text. split.
  - constructor; [done|]. apply text_app. split; [done|by repeat constructor].
  - simpl. rewrite length_app. simpl. lia.
Qed.

Lemma load_entries es : forall es0 rest secs nm,
  Forall entry_ok es -> (length (es0 ++ es) <= INI_MAX_KEYS)%nat -> (S (length secs) < INI_MAX_SECTIONS)%nat ->
  load (entries_text es ++ rest) (mkLoad (table (secs ++ [(nm, es0)])) (Some (length secs)) []) =
  load rest (mkLoad (table (secs ++ [(nm, es0 ++ es)])) (Some (length secs)) []).
Proof.
  induction es as [|e es IH]; intros es0 rest secs nm Hok Hl Hs; [by rewrite app_nil_r|].
  apply Forall_cons in Hok as [He Hok]. destruct (entry_text_ok e He) as [Ht Hlen].
  change (entries_text (e :: es)) with ((entry_text e ++ [10]) ++ entries_text es).
  rewrite <- !app_assoc. simpl ([10] ++ _). rewrite length_app in Hl. simpl in Hl.
  rewrite load_line; [|done..|simpl; rewrite length_app; simpl; lia].
  rewrite entry_line by (done || lia). rewrite IH; [|done|rewrite !length_app; simpl; lia|done].
  by rewrite <- app_assoc.
Qed.

(** What the table keeps of a configuration: the first seven sections, and
    of the eighth only its name. *)
Definition kept (n : nat) (secs : config) : config :=
  take n secs ++ map (fun s => (s.1, [])) (take 1 (drop n secs)).

Lemma load_render secs : forall done sec,
  Forall section_ok secs -> (length done <= 7)%nat ->
  l_cfg (load (render secs) (mkLoad (table done) sec [])) = table (done ++ kept (7 - length done) secs).
Proof.
  induction secs as [|[nm es] secs IH]; intros dn sec Hok Hd.
  - unfold kept. rewrite take_nil, drop_nil. simpl. by rewrite app_nil_r.
  - apply Forall_cons in Hok as [Hs Hok]. destruct (header_text_ok _ Hs) as [Ht Hlen].
    destruct Hs as [Hn Hc Hf Hcount Hes]. cbn [fst snd] in *.
    change (render ((nm, es) :: secs)) with ((header_text nm ++ [10] ++ entries_text es) ++ render secs).
    rewrite <- !app_assoc. simpl ([10] ++ _).
    rewrite load_line; [|done..|cbn -[INI_MAX_SECTIONS]; unfold INI_MAX_SECTIONS; lia].
    rewrite header_line by (done || unfold INI_MAX_SECTIONS; lia).
    destruct (decide (length dn = 7%nat)) as [H7|H7].
    + rewrite load_full, H7; [done|]. simpl. rewrite length_app, H7. simpl. unfold INI_MAX_SECTIONS. lia.
    + rewrite load_entries by (done || unfold INI_MAX_SECTIONS; lia). simpl ([] ++ es).
      rewrite IH; [|done|rewrite length_app; simpl; lia]. rewrite <- app_assoc, length_app. simpl length.
      replace (7 - length dn)%nat with (S (7 - (length dn + 1)))%nat by lia. done.
Qed.

(** Blank lines and comments change nothing. *)
Definition ignored (l : bytes) : Prop :=
  match ltrim l with [] => True | c :: _ => c = 35 \/ c = 59 end.

Lemma ltrim_nil l : ltrim l = [] -> forallb isspace l = true.
Proof. induction l as [|c l IH]; simpl; [done|]. by destruct (isspace c). Qed.

Lemma ltrim_rtrim_head l c r : ltrim l = c :: r -> exists r', ltrim (rtrim l) = c :: r'.
Proof.
  induction l as [|x l IH]; simpl; [done|]. destruct (isspace x) eqn:E.
  - intros H. destruct (IH H) as [r' Hr]. destruct (rtrim l) as [|y l'] eqn:El; [done|]. simpl. rewrite E. eauto.
  - intros [= -> ->]. destruct (rtrim r); simpl; rewrite E; eauto.
Qed.

Lemma load_ignored l rest st :
  text l -> (length l < 511)%nat -> ignored l -> load (l ++ 10 :: rest) st = load rest st.
Proof.
  intros Ht Hl Hi. destruct (decide (conf_count (l_cfg st) < INI_MAX_SECTIONS)%nat) as [Hc|Hc]; [|by rewrite !load_full by lia].
  rewrite load_line by done. f_equal. unfold ini_line.
  rewrite c_str_text, rtrim_spaces by (done || by repeat constructor). unfold ignored in Hi.
  destruct (ltrim l) as [|c r] eqn:E.
  - pose proof (rtrim_spaces [] l (ltrim_nil _ E)) as Hr. simpl in Hr. by rewrite Hr.
  - destruct (ltrim_rtrim_head _ _ _ E) as [r' Hr]. rewrite Hr. destruct (rtrim l); [done|].
    by destruct Hi as [-> | ->].
Qed.

(** C31: a configuration of well-formed sections and entries, written out and
    loaded, comes back section by section and entry by entry, in order, for
    the first seven sections; of an eighth section only the name is kept,
    because the loop stops as soon as the table is full, and of the rest
    nothing. *)
Theorem ini_roundtrip secs cfg :
  Forall section_ok secs ->
  iniconf_load cfg (Some (render secs)) [] = (0, table (kept 7 secs)).
Proof.
  intros Hok. unfold iniconf_load. f_equal. change conf_zero with (table []).
  rewrite load_render; [done|done|simpl; lia].
Qed.

(** *** The getters *)

(** The sections of a name, in order. *)
Definition sections_named (cfg : iniconf_t) (section : bytes) : list ini_section_t :=
  filter (fun s => named section s = true) (take (conf_count cfg) (sections cfg)).

Lemma get_loop_spec ss section key :
  get_loop ss section key =
  hd_error (filter (fun s => named section s = true) ss) ≫= fun s => find_entry (s_entries s) key.
Proof.
  induction ss as [|s ss IH]; [done|]. simpl. destruct (named section s) eqn:E.
  - by rewrite filter_cons_True.
  - by rewrite filter_cons_False by congruence.
Qed.

Lemma indexed_loop_spec ss section key : forall nth (i : nat),
  indexed_loop ss nth section (nth + Z.of_nat i) key =
  filter (fun s => named section s = true) ss !! i ≫= fun s => find_entry (s_entries s) key.
Proof.
  induction ss as [|s ss IH]; intros nth i; [done|]. simpl. destruct (named section s) eqn:E.
  - rewrite filter_cons_True by done. destruct i as [|i]; simpl.
    + by rewrite Z.add_0_r, Z.eqb_refl.
    + destruct (nth =? nth + Z.of_nat (S i)) eqn:E'; zbool; [lia|].
      rewrite <- (IH (nth + 1)). f_equal. lia.
  - rewrite filter_cons_False by congruence. apply IH.
Qed.

(** [iniconf_get_indexed] reads the n-th section of that name, in the
    order of the file, and [iniconf_get] the first one: with index 0 the two
    agree.  The first entry of the key counts, whatever the case of its
    letters; an index past the last such section finds nothing. *)
Theorem ini_get_indexed_spec cfg section key (i : nat) :
  iniconf_get_indexed cfg section (Z.of_nat i) key =
    (sections_named cfg section !! i ≫= fun s => find_entry (s_entries s) key) /\
  iniconf_get cfg section key = iniconf_get_indexed cfg section 0 key /\
  forall j e s, sections_named cfg section !! i = Some s ->
    s_entries s !! j = Some e -> strcaseeq (e_key e) key = true ->
    (forall j' e', (j' < j)%nat -> s_entries s !! j' = Some e' -> strcaseeq (e_key e') key = false) ->
    iniconf_get_indexed cfg section (Z.of_nat i) key = Some (e_value e).
Proof.
  assert (forall i : nat, iniconf_get_indexed cfg section (Z.of_nat i) key =
    (sections_named cfg section !! i ≫= fun s => find_entry (s_entries s) key)) as Hspec
    by (intros n; apply (indexed_loop_spec _ _ _ 0)).
  split_and!; [done| |].
  - unfold iniconf_get. rewrite get_loop_spec. change 0 with (Z.of_nat 0). rewrite Hspec.
    unfold sections_named. by destruct (filter _ _).
  - intros j e s Hs. rewrite Hspec, Hs. simpl. generalize (s_entries s). intros es. revert j.
    induction es as [|e' es IH]; intros j Hj Hk Hfirst; [done|]. simpl. destruct j as [|j]; simplify_eq/=.
    + by rewrite Hk.
    + rewrite (Hfirst 0%nat e') by (done || lia). apply (IH j); [done..|].
      intros j' e'' Hlt He. apply (Hfirst (S j')); [lia|done].
Qed.

(** *** Example: a file with two peers *)

Definition ascii_bytes (s : string) : bytes := map (fun a => Z.of_N (Ascii.N_of_ascii a)) (String.list_ascii_of_string s).

Definition demo_secs : config :=
  [(ascii_bytes "Interface", [mkEntry (ascii_bytes "ListenPort") (ascii_bytes "9000")]);
   (ascii_bytes "Peer", [mkEntry (ascii_bytes "PublicKey") (ascii_bytes "a1 b2")]);
   (ascii_bytes "peer", [mkEntry (ascii_bytes "PublicKey") []])].

Lemma ini_roundtrip_witness :
  iniconf_load conf_zero (Some (render demo_secs)) [] = (0, table (kept 7 demo_secs)).
Proof.
  apply (ini_roundtrip demo_secs conf_zero).
  repeat constructor; try discriminate; try (vm_compute; lia);
    try (apply (bool_decide_unpack _); vm_compute; exact I); do 2 eexists; (split; [reflexivity|]); vm_compute; split_and!; discriminate.
Defined.

Lemma ini_load_wf_witness :
  conf_wf (snd (iniconf_load conf_zero (Some (render demo_secs)) [true; true; false])).
Proof. apply (ini_load_wf conf_zero (render demo_secs) [true; true; false]). vm_compute. reflexivity. Defined.

Lemma ini_get_indexed_spec_witness :
  iniconf_get_indexed (table demo_secs) (ascii_bytes "PEER") 1 (ascii_bytes "publickey") = Some [].
Proof.
  change (Some []) with (Some (e_value (mkEntry (ascii_bytes "PublicKey") []))).
  apply (proj2 (proj2 (ini_get_indexed_spec (table demo_secs) (ascii_bytes "PEER") (ascii_bytes "publickey") 1))
    0%nat (mkEntry (ascii_bytes "PublicKey") [])
    (mkSection (Some (ascii_bytes "peer")) [mkEntry (ascii_bytes "PublicKey") []])).
  - vm_compute. reflexivity.
  - vm_compute. reflexivity.
  - vm_compute. reflexivity.
  - intros j' e' Hj. lia.
Defined.
