(* ===== verification/Udp.v ===== *)
(** * Udp: datagrams and the UDP handshake (mode_tun_udp.c, first half)

    The UDP mode has its own handshake, one message to a datagram.  [uworld]
    is what its code reads and writes outside its arguments: scripts of the
    system calls, the datagrams and packets sent so far, the random source,
    the clocks and the table of the rate limiter.  As in Io.v, a computation
    is a function on worlds, and [None] is a run whose script has ended. *)

From S2P Require Import Prelude Aes Aegis Aead Util Io Frame Handshake ModeCommon Socks5.

(** ** Worlds *)

(** [struct sockaddr_in]: the address as its four bytes. *)
Record sockaddr_in := mkAddr { sin_addr : bytes; sin_port : Z }.

#[export] Instance sockaddr_in_eq_dec : EqDecision sockaddr_in.
Proof. solve_decision. Defined.

(** What the next [recvfrom] finds. *)
Inductive dgram_ev := Dgram (src : sockaddr_in) (d : bytes) | DgramErr (e : errno).

Record uworld := mkU {
  u_running : list bool;         (* successive values of [g_running] *)
  u_poll : list poll_ev;
  u_rx : list dgram_ev;
  u_tx : list bool;              (* whether the next [send] takes the datagram *)
  u_out : list (option sockaddr_in * bytes);  (* [None]: the connected peer *)
  u_tun_rx : list rx_ev;
  u_tun_tx : list tx_ev;
  u_tun_out : list bytes;
  u_clock : list (option Z);     (* [timestamp_now] *)
  u_time : list Z;               (* [time(NULL)] *)
  u_keygen : list (option bytes);
  u_rand : list urandom;
  u_rate : rate_state
}.

Definition set_running x (w : uworld) := mkU x (u_poll w) (u_rx w) (u_tx w) (u_out w) (u_tun_rx w)
  (u_tun_tx w) (u_tun_out w) (u_clock w) (u_time w) (u_keygen w) (u_rand w) (u_rate w).
Definition set_upoll x (w : uworld) := mkU (u_running w) x (u_rx w) (u_tx w) (u_out w) (u_tun_rx w)
  (u_tun_tx w) (u_tun_out w) (u_clock w) (u_time w) (u_keygen w) (u_rand w) (u_rate w).
Definition set_urx x (w : uworld) := mkU (u_running w) (u_poll w) x (u_tx w) (u_out w) (u_tun_rx w)
  (u_tun_tx w) (u_tun_out w) (u_clock w) (u_time w) (u_keygen w) (u_rand w) (u_rate w).
Definition set_utx x o (w : uworld) := mkU (u_running w) (u_poll w) (u_rx w) x o (u_tun_rx w)
  (u_tun_tx w) (u_tun_out w) (u_clock w) (u_time w) (u_keygen w) (u_rand w) (u_rate w).
Definition set_tun_rx x (w : uworld) := mkU (u_running w) (u_poll w) (u_rx w) (u_tx w) (u_out w) x
  (u_tun_tx w) (u_tun_out w) (u_clock w) (u_time w) (u_keygen w) (u_rand w) (u_rate w).
Definition set_tun_tx x o (w : uworld) := mkU (u_running w) (u_poll w) (u_rx w) (u_tx w) (u_out w)
  (u_tun_rx w) x o (u_clock w) (u_time w) (u_keygen w) (u_rand w) (u_rate w).
Definition set_uclock x (w : uworld) := mkU (u_running w) (u_poll w) (u_rx w) (u_tx w) (u_out w)
  (u_tun_rx w) (u_tun_tx w) (u_tun_out w) x (u_time w) (u_keygen w) (u_rand w) (u_rate w).
Definition set_utime x (w : uworld) := mkU (u_running w) (u_poll w) (u_rx w) (u_tx w) (u_out w)
  (u_tun_rx w) (u_tun_tx w) (u_tun_out w) (u_clock w) x (u_keygen w) (u_rand w) (u_rate w).
Definition set_ukeygen x (w : uworld) := mkU (u_running w) (u_poll w) (u_rx w) (u_tx w) (u_out w)
  (u_tun_rx w) (u_tun_tx w) (u_tun_out w) (u_clock w) (u_time w) x (u_rand w) (u_rate w).
Definition set_urand x (w : uworld) := mkU (u_running w) (u_poll w) (u_rx w) (u_tx w) (u_out w)
  (u_tun_rx w) (u_tun_tx w) (u_tun_out w) (u_clock w) (u_time w) (u_keygen w) x (u_rate w).
Definition set_urate x (w : uworld) := mkU (u_running w) (u_poll w) (u_rx w) (u_tx w) (u_out w)
  (u_tun_rx w) (u_tun_tx w) (u_tun_out w) (u_clock w) (u_time w) (u_keygen w) (u_rand w) x.

(** ** The monad *)

Definition UM (A : Type) : Type := uworld -> option (A * uworld).

#[export] Instance UM_ret : MRet UM := fun A x w => Some (x, w).
#[export] Instance UM_bind : MBind UM := fun A B f m w =>
  match m w with None => None | Some (x, w') => f x w' end.

Lemma UM_bind_some {A B} (m : UM A) (f : A -> UM B) (w : uworld) (b : B) (w2 : uworld) :
  (m ≫= f) w = Some (b, w2) -> exists a w1, m w = Some (a, w1) /\ f a w1 = Some (b, w2).
Proof. unfold mbind, UM_bind. destruct (m w) as [[a w1]|]; [eauto|done]. Qed.

Lemma UM_bind_eq {A B} (m : UM A) (f : A -> UM B) (w : uworld) (a : A) (w1 : uworld) :
  m w = Some (a, w1) -> (m ≫= f) w = f a w1.
Proof. unfold mbind, UM_bind. by intros ->. Qed.

Ltac urun_step :=
  match goal with
  | H : (_ ≫= _) _ = Some (_, _) |- _ =>
      let a := fresh "a" in let w := fresh "w" in let E := fresh "E" in
      apply UM_bind_some in H as (a & w & E & H)
  | H : mret _ _ = Some (_, _) |- _ => injection H as ? ?; subst
  end.

(** Runs the first call of the goal by the lemma that describes it. *)
Tactic Notation "ubind" uconstr(l) := erewrite UM_bind_eq; [|eapply l; eassumption || done].

(** ** Calls that take the next entry of a script *)

Definition g_running : UM bool := fun w =>
  match u_running w with [] => None | b :: l => Some (b, set_running l w) end.

Definition u_timestamp : UM Z := fun w =>
  match u_clock w with [] => None | c :: l => Some (timestamp_now c, set_uclock l w) end.

Definition u_now : UM Z := fun w =>
  match u_time w with [] => None | t :: l => Some (t, set_utime l w) end.

Definition u_pollcall : UM poll_ev := fun w =>
  match u_poll w with [] => None | p :: l => Some (p, set_upoll l w) end.

(** [send] or [sendto]: the length, or -1. *)
Definition sys_sendto (dest : option sockaddr_in) (d : bytes) : UM Z := fun w =>
  match u_tx w with
  | [] => None
  | true :: l => Some (zlen d, set_utx l (u_out w ++ [(dest, d)]) w)
  | false :: l => Some (-1, set_utx l (u_out w) w)
  end.

(** [recvfrom] into a buffer of [n] bytes: a datagram is cut to the buffer and
    its tail is lost. *)
Definition sys_recvfrom (n : nat) : UM (errno + sockaddr_in * bytes) := fun w =>
  match u_rx w with
  | [] => None
  | Dgram src d :: l => Some (inr (src, take n d), set_urx l w)
  | DgramErr e :: l => Some (inl e, set_urx l w)
  end.

(** [frame_build_explicit] with the next entry of the random source; it draws
    none when the payload is refused. *)
Definition do_build_explicit `{Aead} (type flags : Z) (d key : bytes) : UM (option bytes) := fun w =>
  if FRAME_MAX_PAYLOAD <? zlen d then Some (None, w)
  else match u_rand w with
       | [] => None
       | u :: l => match frame_build_explicit u type flags d key with
                   | None => None
                   | Some r => Some (r, set_urand l w)
                   end
       end.

(** [read(tun_fd, pkt, 65535)]: one packet, cut to the buffer. *)
Definition sys_tun_read (n : nat) : UM (errno + bytes) := fun w =>
  match u_tun_rx w with
  | [] => None
  | RxData d :: l => Some (inr (take n d), set_tun_rx l w)
  | RxErr e :: l => Some (inl e, set_tun_rx l w)
  end.

(** [write(tun_fd, d, length d)]. *)
Definition sys_tun_write (d : bytes) : UM (errno + nat) := fun w =>
  match u_tun_tx w with
  | [] => None
  | TxErr e :: l => Some (inl e, set_tun_tx l (u_tun_out w) w)
  | TxSome n :: l =>
      let k := Nat.min n (length d) in
      Some (inr k, set_tun_tx l (u_tun_out w ++ [take k d]) w)
  end.

(** ** UDP I/O helpers *)

Definition udp_send (data : bytes) : UM Z :=
  n ← sys_sendto None data;
  mret (if n =? zlen data then 0 else -1).

Definition udp_sendto (data : bytes) (dest : sockaddr_in) : UM Z :=
  n ← sys_sendto (Some dest) data;
  mret (if n =? zlen data then 0 else -1).

(** The result and what is in the buffer. *)
Definition udp_recv (maxlen : nat) : UM (Z * bytes) :=
  r ← sys_recvfrom maxlen;
  match r with
  | inl _ => mret (-1, [])
  | inr (_, d) => mret (zlen d, d)
  end.

Definition udp_recv_peer (maxlen : nat) (peer : sockaddr_in) : UM (Z * bytes) :=
  r ← sys_recvfrom maxlen;
  match r with
  | inl _ => mret (-1, [])
  | inr (src, d) => if decide (src = peer) then mret (zlen d, d) else mret (0, d)
  end.

(** ** Handshake datagrams *)

Definition UDP_HS_DGRAM : nat := 60.
Definition UDP_MAX_DGRAM : nat := Z.to_nat 65535.

Section UdpHandshake.
Context {A : Aead} {C : Crypto} {U : Locals}.

Definition udp_hs_build (eph_pub : bytes) (ts : Z) (key : bytes) : bytes :=
  let hdr := [FRAME_HANDSHAKE; FLAG_NONE; 0; 8] in
  let ad := hdr ++ eph_pub in
  let '(ct, tag) := aead_encrypt key (zeros 16) ad (ts_encode ts) in
  hdr ++ eph_pub ++ ct ++ tag.

(** [eph_pub] and the timestamp. *)
Definition udp_hs_parse (dgram : bytes) (key : bytes) : option (bytes * Z) :=
  if negb (get dgram 0 =? FRAME_HANDSHAKE) then None
  else
    let eph_pub := take 32 (drop 4 dgram) in
    let ad := take 4 dgram ++ eph_pub in
    let '(ret, tsb) := aead_decrypt key (zeros 16) ad (take 8 (drop 36 dgram)) (take 16 (drop 44 dgram)) in
    if negb (ret =? 0) then None else Some (eph_pub, ts_decode tsb).

Definition u_ecdh_keygen : UM (option (bytes * bytes)) := fun w =>
  match u_keygen w with
  | [] => None
  | None :: l => Some (None, set_ukeygen l w)
  | Some priv :: l => Some (Some (x25519_pub priv, priv), set_ukeygen l w)
  end.

(** [now < 0 || (now > its ? now - its : its - now) > 60]. *)
Definition ts_stale (now its : Z) : bool :=
  (now <? 0) || (60 <? (if its <? now then s64 (now - its) else s64 (its - now))).

Definition init_key (ee es : bytes) : bytes := take 16 (sha256_h (ee ++ es ++ label_init)).

Definition shared_of (ee es se : bytes) : bytes := sha256_h (ee ++ es ++ se ++ label_shared).

Definition resp_key (sh : bytes) : bytes := take 16 (sha256_h (sh ++ label_resp)).

(** The two session keys, the client's direction first. *)
Definition session_halves (sh : bytes) : bytes * bytes :=
  let h := sha256_h (sh ++ label_session) in (take 16 h, take 16 (drop 16 h)).

(** The KEY_CONFIRM datagram; an empty payload is never refused. *)
Definition confirm_dgram (key : bytes) : bytes := default [] (frame_build FRAME_KEYCONFIRM 0 [] 0 key).

(** [frame_parse(...) == 0 && ty == FRAME_KEYCONFIRM] on a full buffer. *)
Definition confirms (buf key : bytes) : bool :=
  match frame_parse buf 0 key with
  | Some (ty, _, _) => ty =? FRAME_KEYCONFIRM
  | None => false
  end.

Definition CONFIRM_LEN : nat := FRAME_HEADER_LEN + AEGIS_TAG_LEN.

(** The loop of [udp_handshake_server] over the peers. *)
Fixpoint udp_server_peers (priv : bytes) (peers : list bytes) (dgram : bytes) (keys : session_keys_t) :
    UM (Z * session_keys_t) :=
  match peers with
  | [] => mret (-1, keys)
  | pk :: ps =>
      let iepk := take 32 (drop 4 dgram) in
      let ik := init_key (derive_into "ee" priv iepk) (derive_into "es_init" priv pk) in
      match udp_hs_parse dgram ik with
      | None => udp_server_peers priv ps dgram keys
      | Some (iepk, its) =>
          now ← u_timestamp;
          if ts_stale now its then udp_server_peers priv ps dgram keys
          else
            g ← u_ecdh_keygen;
            match g with
            | None => udp_server_peers priv ps dgram keys
            | Some (epk, ek) =>
                let ee := derive_into "ee" priv iepk in
                let es := derive_into "es" priv pk in
                let se := derive_into "se" ek pk in
                let sh := shared_of ee es se in
                let keys := mkKeys (snd (session_halves sh)) (fst (session_halves sh)) in
                ts ← u_timestamp;
                r ← udp_send (udp_hs_build epk ts (resp_key sh));
                if negb (r =? 0) then udp_server_peers priv ps dgram keys
                else
                  r ← udp_send (confirm_dgram (enc_key keys));
                  if negb (r =? 0) then udp_server_peers priv ps dgram keys
                  else
                    x ← udp_recv CONFIRM_LEN;
                    if (Z.of_nat CONFIRM_LEN <=? fst x) && confirms (snd x) (dec_key keys)
                    then mret (0, keys)
                    else udp_server_peers priv ps dgram keys
            end
      end
  end.

Definition udp_handshake_server (priv : bytes) (peers : list bytes) (keys : session_keys_t)
    (first_dgram : option bytes) : UM (Z * session_keys_t) :=
  match first_dgram with
  | Some d =>
      if (length d <? UDP_HS_DGRAM)%nat then mret (-1, keys)
      else udp_server_peers priv peers (take UDP_HS_DGRAM d) keys
  | None =>
      x ← udp_recv UDP_HS_DGRAM;
      if fst x <? Z.of_nat UDP_HS_DGRAM then mret (-1, keys)
      else udp_server_peers priv peers (snd x) keys
  end.

Definition udp_handshake_client (priv peer : bytes) (keys : session_keys_t) : UM (Z * session_keys_t) :=
  g ← u_ecdh_keygen;
  match g with
  | None => mret (-1, keys)
  | Some (epk, ek) =>
      let ik := init_key (derive_into "ee_init" ek peer) (derive_into "es_init" priv peer) in
      ts ← u_timestamp;
      r ← udp_send (udp_hs_build epk ts ik);
      if negb (r =? 0) then mret (-1, keys)
      else
        x ← udp_recv UDP_HS_DGRAM;
        if fst x <? Z.of_nat UDP_HS_DGRAM then mret (-1, keys)
        else
          let dgram := snd x in
          let repk := take 32 (drop 4 dgram) in
          let ee := derive_into "ee" ek peer in
          let es := derive_into "es" priv peer in
          let se := derive_into "se" priv repk in
          let sh := shared_of ee es se in
          match udp_hs_parse dgram (resp_key sh) with
          | None => mret (-1, keys)
          | Some (_, rts) =>
              now ← u_timestamp;
              if ts_stale now rts then mret (-1, keys)
              else
                let keys := mkKeys (fst (session_halves sh)) (snd (session_halves sh)) in
                y ← udp_recv CONFIRM_LEN;
                if fst y <? Z.of_nat CONFIRM_LEN then mret (-1, keys)
                else if negb (confirms (snd y) (dec_key keys)) then mret (-1, keys)
                else
                  r ← udp_send (confirm_dgram (enc_key keys));
                  if negb (r =? 0) then mret (-1, keys) else mret (0, keys)
          end
  end.

(** ** The handshake inside the server's poll loop *)

(** The wait for the client's KEY_CONFIRM: the sender of the datagram that
    ended it and its bytes, [None] for an error or a shutdown.  Each round
    reads [g_running] once, so its script bounds the rounds. *)
Fixpoint wait_confirm (fuel : nat) : UM (option (sockaddr_in * bytes)) :=
  match fuel with
  | O => fun _ => None
  | S f =>
      run ← g_running;
      if negb run then mret None
      else
        p ← u_pollcall;
        match p with
        | PollFail EINTR => wait_confirm f
        | PollFail _ => mret None
        | PollRet udp _ =>
            if negb (pollin udp || pollbad udp) then wait_confirm f
            else
              r ← sys_recvfrom CONFIRM_LEN;
              match r with
              | inl _ => mret None
              | inr x => mret (Some x)
              end
        end
  end.

Definition await_confirm : UM (option (sockaddr_in * bytes)) := fun w =>
  wait_confirm (S (length (u_running w))) w.

(** The loop over the peers: [ok], [peer_matched], [keys] and [sender], which
    the wait overwrites.  [keys] is uninitialised unless [ok]. *)
Record hs_result := mkHs { hs_ok : bool; hs_peer : Z; hs_keys : session_keys_t; hs_sender : sockaddr_in }.

Fixpoint server_peers (pi : Z) (priv : bytes) (peers : list bytes) (dgram : bytes) (st : hs_result) :
    UM hs_result :=
  match peers with
  | [] => mret st
  | pk :: ps =>
      let iepk := take 32 (drop 4 dgram) in
      let ik := init_key (derive_into "ee" priv iepk) (derive_into "es_init" priv pk) in
      match udp_hs_parse dgram ik with
      | None => server_peers (pi + 1) priv ps dgram st
      | Some (iepk, its) =>
          now ← u_timestamp;
          if ts_stale now its then server_peers (pi + 1) priv ps dgram st
          else
            let st := mkHs (hs_ok st) pi (hs_keys st) (hs_sender st) in
            g ← u_ecdh_keygen;
            match g with
            | None => server_peers (pi + 1) priv ps dgram st
            | Some (epk, ek) =>
                let ee := derive_into "ee" priv iepk in
                let es := derive_into "es" priv pk in
                let se := derive_into "se" ek pk in
                let sh := shared_of ee es se in
                let keys := mkKeys (snd (session_halves sh)) (fst (session_halves sh)) in
                ts ← u_timestamp;
                _ ← sys_sendto (Some (hs_sender st)) (udp_hs_build epk ts (resp_key sh));
                _ ← sys_sendto (Some (hs_sender st)) (confirm_dgram (enc_key keys));
                c ← await_confirm;
                match c with
                | None => mret (mkHs false pi keys (hs_sender st))
                | Some (src, ckw) =>
                    mret (mkHs ((CONFIRM_LEN <=? length ckw)%nat && confirms ckw (dec_key keys)) pi keys src)
                end
            end
      end
  end.

End UdpHandshake.

(** ** Messages *)

Section Messages.
Context {A : Aead} {L : AeadLaws A} {C : Crypto} {CL : CryptoLaws C} {U : Locals}.

(** The datagram is the message of the TCP handshake. *)
Lemma udp_hs_build_hello (epk : bytes) (ts : Z) (key : bytes) : udp_hs_build epk ts key = hello epk ts key.
Proof. unfold udp_hs_build, hello, hs_header. by destruct (aead_encrypt _ _ _ _). Qed.

Lemma udp_hs_build_length (epk : bytes) (ts : Z) (key : bytes) :
  wf_key32 epk -> wf_block key -> length (udp_hs_build epk ts key) = UDP_HS_DGRAM.
Proof. rewrite udp_hs_build_hello. apply hello_length. Qed.

Lemma udp_hs_parse_build (epk : bytes) (ts : Z) (key : bytes) :
  wf_key32 epk -> wf_block key -> is_int64 ts ->
  udp_hs_parse (udp_hs_build epk ts key) key = Some (epk, ts).
Proof.
  intros He Hk Hts. destruct (ts_encode_wf ts) as [Htl Htw].
  assert (Hrt := aead_roundtrip key _ _ _ Hk zero_nonce_block (hs_ad_wf _ He) Htw).
  destruct (hello_parts epk key ts He Hk) as (H1 & [H2 _] & _).
  unfold udp_hs_build, udp_hs_parse. fold hs_header. cbv zeta in *.
  destruct (aead_encrypt key (zeros 16) (hs_header ++ epk) (ts_encode ts)) as [ct tag].
  cbn [fst snd] in *. destruct He as [He _].
  change (get (hs_header ++ epk ++ ct ++ tag) 0) with FRAME_HANDSHAKE. rewrite Z.eqb_refl. simpl negb. cbv match.
  change (take 4 (hs_header ++ epk ++ ct ++ tag)) with hs_header.
  change (drop 4 (hs_header ++ epk ++ ct ++ tag)) with (epk ++ ct ++ tag).
  rewrite take_app_length' by done.
  change (drop 36 (hs_header ++ epk ++ ct ++ tag)) with (drop 32 (epk ++ ct ++ tag)).
  change (drop 44 (hs_header ++ epk ++ ct ++ tag)) with (drop 40 (epk ++ ct ++ tag)).
  rewrite (drop_app_length' epk (ct ++ tag) 32) by done. rewrite take_app_length' by done.
  rewrite (app_assoc epk), (drop_app_length' (epk ++ ct) tag 40) by (rewrite length_app, He, H1; done).
  rewrite take_ge by lia. rewrite Hrt. cbn [Z.eqb negb]. by rewrite ts_roundtrip.
Qed.

Lemma confirm_dgram_ok (key : bytes) : wf_block key ->
  confirms (confirm_dgram key) key = true /\ length (confirm_dgram key) = CONFIRM_LEN.
Proof.
  intros Hk. destruct (confirm_frame key Hk) as (m & Hm & Hl).
  change (confirm_dgram key) with (default [] (frame_build FRAME_KEYCONFIRM FLAG_NONE [] 0 key)).
  rewrite Hm. simpl default. split; [|done]. unfold confirms.
  assert (frame_parse m 0 key = Some (FRAME_KEYCONFIRM, FLAG_NONE, [])) as ->; [|done].
  apply frame_parse_iff; [done| |split; [apply wf_confirm|done]].
  apply frame_build_len in Hm as (_ & _ & ? & _); [done..|apply wf_confirm].
Qed.

(** A timestamp within the window. *)
Lemma ts_fresh (now ts : Z) :
  0 <= now < 2 ^ 62 -> 0 <= ts < 2 ^ 62 -> Z.abs (now - ts) <= 60 -> ts_stale now ts = false.
Proof.
  intros Hn Ht Hd. unfold ts_stale. apply orb_false_iff. split; [apply Z.ltb_ge; lia|].
  apply Z.ltb_ge. destruct (ts <? now) eqn:E; zbool; rewrite s64_small; lia.
Qed.

(** ** The key schedule of both ends

    Static keys [a] (client) and [b] (server), ephemeral keys [ea] and [eb]. *)

Definition udp_init_key (a ea b : bytes) : bytes :=
  init_key (derive_into "ee_init" ea (x25519_pub b)) (derive_into "es_init" a (x25519_pub b)).
Definition udp_shared (a ea b eb : bytes) : bytes :=
  shared_of (derive_into "ee" ea (x25519_pub b)) (derive_into "es" a (x25519_pub b))
    (derive_into "se" a (x25519_pub eb)).
Definition udp_client_keys (sh : bytes) : session_keys_t := mkKeys (fst (session_halves sh)) (snd (session_halves sh)).
Definition udp_server_keys (sh : bytes) : session_keys_t := mkKeys (snd (session_halves sh)) (fst (session_halves sh)).

Definition udp_init (a ea b : bytes) (t : Z) : bytes := udp_hs_build (x25519_pub ea) t (udp_init_key a ea b).
Definition udp_resp (a ea b eb : bytes) (t : Z) : bytes :=
  udp_hs_build (x25519_pub eb) t (resp_key (udp_shared a ea b eb)).

Lemma session_halves_wf (sh : bytes) : wf_block (fst (session_halves sh)) /\ wf_block (snd (session_halves sh)).
Proof. apply key_of_digest. Qed.

(** What the server computes from its side. *)
Lemma udp_server_init_key (a ea b : bytes) : wf_key32 a -> wf_key32 ea -> wf_key32 b ->
  init_key (derive_into "ee" b (x25519_pub ea)) (derive_into "es_init" b (x25519_pub a)) = udp_init_key a ea b.
Proof.
  intros Ha Hea Hb. unfold udp_init_key. by rewrite (derive_comm "ee" "ee_init" b ea),
    (derive_comm "es_init" "es_init" b a).
Qed.

Lemma udp_server_shared (a ea b eb : bytes) : wf_key32 a -> wf_key32 ea -> wf_key32 b -> wf_key32 eb ->
  shared_of (derive_into "ee" b (x25519_pub ea)) (derive_into "es" b (x25519_pub a))
    (derive_into "se" eb (x25519_pub a)) = udp_shared a ea b eb.
Proof.
  intros Ha Hea Hb Heb. unfold udp_shared. by rewrite (derive_comm "ee" "ee" b ea),
    (derive_comm "es" "es" b a), (derive_comm "se" "se" eb a).
Qed.

Lemma udp_init_parse (a ea b : bytes) (t : Z) :
  wf_key32 ea -> is_int64 t -> udp_hs_parse (udp_init a ea b t) (udp_init_key a ea b) = Some (x25519_pub ea, t).
Proof.
  intros Hea Ht. apply udp_hs_parse_build; [by apply x25519_pub_wf|apply key_of_digest|done].
Qed.

Lemma udp_hs_epk (epk : bytes) (ts : Z) (key : bytes) : length epk = 32%nat ->
  take 32 (drop 4 (udp_hs_build epk ts key)) = epk.
Proof.
  intros He. rewrite udp_hs_build_hello. unfold hello. cbv zeta.
  change (drop 4 (hs_header ++ ?x)) with x. by rewrite take_app_length'.
Qed.

Lemma u_timestamp_run (w : uworld) (t : Z) (cl : list (option Z)) :
  u_clock w = Some t :: cl -> u_timestamp w = Some (t, set_uclock cl w).
Proof. unfold u_timestamp. by intros ->. Qed.

Lemma u_ecdh_keygen_run (w : uworld) (e : bytes) (kg : list (option bytes)) :
  u_keygen w = Some e :: kg -> u_ecdh_keygen w = Some (Some (x25519_pub e, e), set_ukeygen kg w).
Proof. unfold u_ecdh_keygen. by intros ->. Qed.

Lemma udp_send_run (w : uworld) (d : bytes) (tx : list bool) :
  u_tx w = true :: tx -> udp_send d w = Some (0, set_utx tx (u_out w ++ [(None, d)]) w).
Proof.
  intros Htx. unfold udp_send, sys_sendto. unfold mbind, UM_bind. rewrite Htx. by rewrite Z.eqb_refl.
Qed.

Lemma udp_recv_run (w : uworld) (n : nat) (src : sockaddr_in) (d : bytes) (rx : list dgram_ev) :
  u_rx w = Dgram src d :: rx -> (length d <= n)%nat -> udp_recv n w = Some ((zlen d, d), set_urx rx w).
Proof.
  intros Hrx Hl. unfold udp_recv, sys_recvfrom. unfold mbind, UM_bind. rewrite Hrx. by rewrite take_ge.
Qed.

Lemma udp_client_run (a ea b eb : bytes) (t t' ts : Z) (kg : list (option bytes)) (cl : list (option Z))
    (tx : list bool) (src1 src2 : sockaddr_in) (rx : list dgram_ev) (k0 : session_keys_t) (w : uworld) :
  wf_key32 a -> wf_key32 ea -> wf_key32 b -> wf_key32 eb ->
  u_keygen w = Some ea :: kg -> u_clock w = Some t :: Some t' :: cl -> u_tx w = true :: true :: tx ->
  u_rx w = Dgram src1 (udp_resp a ea b eb ts) ::
           Dgram src2 (confirm_dgram (enc_key (udp_server_keys (udp_shared a ea b eb)))) :: rx ->
  0 <= t' < 2 ^ 62 -> 0 <= ts < 2 ^ 62 -> Z.abs (t' - ts) <= 60 ->
  exists w', udp_handshake_client a (x25519_pub b) k0 w =
    Some ((0, udp_client_keys (udp_shared a ea b eb)), w') /\
    u_out w' = u_out w ++ [(None, udp_init a ea b t);
                           (None, confirm_dgram (enc_key (udp_client_keys (udp_shared a ea b eb))))].
Proof.
  intros Ha Hea Hb Heb Hkg Hcl Htx Hrx Ht' Hts Hd.
  assert (length (udp_resp a ea b eb ts) = 60%nat) as Hl
    by (apply udp_hs_build_length; [by apply x25519_pub_wf|apply key_of_digest]).
  destruct (confirm_dgram_ok (enc_key (udp_server_keys (udp_shared a ea b eb)))) as [Hconf Hcl']; [apply session_halves_wf|].
  unfold udp_handshake_client. ubind u_ecdh_keygen_run. cbv match. ubind u_timestamp_run.
  ubind udp_send_run. cbn [negb Z.eqb]. erewrite UM_bind_eq; [|eapply udp_recv_run; [exact Hrx|by rewrite Hl]].
  cbn [fst snd]. replace (zlen _ <? _) with false by (by rewrite Hl). cbv match.
  assert (take 32 (drop 4 (udp_resp a ea b eb ts)) = x25519_pub eb) as Hepk
    by (apply udp_hs_epk; by apply x25519_pub_wf).
  rewrite !Hepk. fold (udp_shared a ea b eb). unfold udp_resp at 1.
  rewrite udp_hs_parse_build; [|by apply x25519_pub_wf|apply key_of_digest|unfold is_int64; lia].
  ubind u_timestamp_run. rewrite ts_fresh by done. cbv match zeta.
  erewrite UM_bind_eq; [|eapply udp_recv_run; [reflexivity|by rewrite Hcl']].
  cbn [fst snd]. replace (zlen _ <? _) with false by (by rewrite Hcl'). cbv match.
  cbn [dec_key enc_key udp_server_keys] in *. rewrite Hconf. cbn [negb].
  ubind udp_send_run. cbn [negb Z.eqb].
  eexists. split; [reflexivity|]. simpl. by rewrite <- app_assoc.
Qed.

Lemma sys_sendto_run (w : uworld) (dest : option sockaddr_in) (d : bytes) (tx : list bool) :
  u_tx w = true :: tx -> sys_sendto dest d w = Some (zlen d, set_utx tx (u_out w ++ [(dest, d)]) w).
Proof. unfold sys_sendto. by intros ->. Qed.

Lemma await_confirm_run (w : uworld) (rs : list bool) (e : revents) (ps : list poll_ev) (src : sockaddr_in)
    (d : bytes) (rx : list dgram_ev) :
  u_running w = true :: rs -> u_poll w = PollRet readable e :: ps -> u_rx w = Dgram src d :: rx ->
  (length d <= CONFIRM_LEN)%nat ->
  await_confirm w = Some (Some (src, d), set_urx rx (set_upoll ps (set_running rs w))).
Proof.
  intros Hr Hp Hx Hl. unfold await_confirm. rewrite Hr. cbn [length wait_confirm].
  unfold g_running, u_pollcall, sys_recvfrom, mbind, UM_bind. rewrite Hr. cbn [negb]. 
  cbn [u_poll set_running]. rewrite Hp. cbn [u_rx set_upoll set_running pollin readable orb negb].
  rewrite Hx. by rewrite take_ge.
Qed.

(** The server's handshake with any of the configured peers. *)
Lemma server_peers_run (a ea b eb : bytes) (pre post : list bytes) : forall (pi t now ts : Z)
    (kg : list (option bytes)) (cl : list (option Z)) (tx rs : list bool) (e : revents) (ps : list poll_ev)
    (src : sockaddr_in) (rx : list dgram_ev) (st : hs_result) (w : uworld),
  wf_key32 a -> wf_key32 ea -> wf_key32 b -> wf_key32 eb ->
  Forall (fun pk => udp_hs_parse (udp_init a ea b t)
    (init_key (derive_into "ee" b (x25519_pub ea)) (derive_into "es_init" b pk)) = None) pre ->
  u_keygen w = Some eb :: kg -> u_clock w = Some now :: Some ts :: cl -> u_tx w = true :: true :: tx ->
  u_running w = true :: rs -> u_poll w = PollRet readable e :: ps ->
  u_rx w = Dgram src (confirm_dgram (enc_key (udp_client_keys (udp_shared a ea b eb)))) :: rx ->
  0 <= now < 2 ^ 62 -> 0 <= t < 2 ^ 62 -> Z.abs (now - t) <= 60 ->
  exists w', server_peers pi b (pre ++ x25519_pub a :: post) (udp_init a ea b t) st w =
    Some (mkHs true (pi + zlen pre) (udp_server_keys (udp_shared a ea b eb)) src, w') /\
    u_out w' = u_out w ++ [(Some (hs_sender st), udp_resp a ea b eb ts);
      (Some (hs_sender st), confirm_dgram (enc_key (udp_server_keys (udp_shared a ea b eb))))] /\
    u_time w' = u_time w.
Proof.
  intros pi t now ts kg cl tx rs e ps src rx st w Ha Hea Hb Heb Hpre. revert pi st.
  assert (take 32 (drop 4 (udp_init a ea b t)) = x25519_pub ea) as Hepk
    by (apply udp_hs_epk; by apply x25519_pub_wf).
  destruct (confirm_dgram_ok (enc_key (udp_client_keys (udp_shared a ea b eb)))) as [Hconf Hcl']; [apply session_halves_wf|].
  induction Hpre as [|pk pre Hpk _ IH]; intros pi st Hkg Hcl Htx Hrun Hpoll Hrx Hnow Ht Hd.
  - cbn [app server_peers]. rewrite Hepk, udp_server_init_key, udp_init_parse by (done || unfold is_int64; lia).
    cbv match. ubind u_timestamp_run. rewrite ts_fresh by done. ubind u_ecdh_keygen_run. cbv match.
    cbn [hs_ok hs_keys hs_sender]. rewrite udp_server_shared by done.
    ubind u_timestamp_run. ubind sys_sendto_run. ubind sys_sendto_run.
    erewrite UM_bind_eq; [|eapply await_confirm_run; [exact Hrun|exact Hpoll|exact Hrx|by rewrite Hcl']].
    cbv match. cbn [dec_key udp_client_keys enc_key] in *. rewrite Hconf, Hcl', Nat.leb_refl, Z.add_0_r.
    eexists. split; [reflexivity|]. split; [|done]. simpl. by rewrite <- app_assoc.
  - cbn [app server_peers]. rewrite Hepk, Hpk.
    destruct (IH (pi + 1) st Hkg Hcl Htx Hrun Hpoll Hrx Hnow Ht Hd) as (w' & Hw & Ho & Htime).
    exists w'. split_and!; [|done..]. rewrite Hw.
    replace (pi + zlen (pk :: pre)) with (pi + 1 + zlen pre); [done|]. cbn [length]. lia.
Qed.

End Messages.

(** ** Waiting for the confirmation

    There is no limit on the wait, and no cache of handshakes already seen: a
    recorded first datagram that is sent again within the window holds the loop
    until something else arrives. *)

Lemma wait_confirm_waits (n : nat) : forall fuel w,
  u_running w = replicate n true -> u_poll w = replicate n (PollRet no_event no_event) -> wait_confirm fuel w = None.
Proof.
  induction n as [|n IH]; intros [|fuel] w Hr Hp; cbn [wait_confirm]; [done| |done|].
  - unfold mbind, UM_bind, g_running. by rewrite Hr.
  - rewrite (UM_bind_eq g_running _ w true (set_running (replicate n true) w)) by (unfold g_running; by rewrite Hr).
    cbn [negb]. rewrite (UM_bind_eq u_pollcall _ _ (PollRet no_event no_event)
      (set_upoll (replicate n (PollRet no_event no_event)) (set_running (replicate n true) w))).
    + cbn [no_event pollin pollbad orb negb]. by apply IH.
    + unfold u_pollcall. cbn [u_poll set_running]. by rewrite Hp.
Qed.

(** A first datagram that opens under the key of a configured peer and whose
    timestamp is in the window, whether or not it was handled before: the server
    answers it and then waits, however many times [poll] runs into its timeout of
    500 ms. *)
Theorem udp_replay_holds_server (A : Aead) (C : Crypto) (U : Locals) (n : nat) (pi : Z) (priv pk dgram iepk ek : bytes) (its now ts : Z)
    (peers : list bytes) (st : hs_result) (kg : list (option bytes)) (clk : list (option Z)) (tx : list bool) (w : uworld) :
  udp_hs_parse dgram (init_key (derive_into "ee" priv (take 32 (drop 4 dgram))) (derive_into "es_init" priv pk)) = Some (iepk, its) ->
  u_clock w = Some now :: Some ts :: clk -> ts_stale (timestamp_now (Some now)) its = false ->
  u_keygen w = Some ek :: kg -> u_tx w = true :: true :: tx ->
  u_running w = replicate n true -> u_poll w = replicate n (PollRet no_event no_event) ->
  server_peers pi priv (pk :: peers) dgram st w = None.
Proof.
  intros Hp Hc Hs Hk Ht Hr Hpoll. cbn [server_peers]. rewrite Hp.
  rewrite (UM_bind_eq u_timestamp _ w _ (set_uclock (Some ts :: clk) w)) by (unfold u_timestamp; by rewrite Hc).
  rewrite Hs. rewrite (UM_bind_eq u_ecdh_keygen _ _ (Some (x25519_pub ek, ek)) (set_ukeygen kg (set_uclock (Some ts :: clk) w)))
    by (unfold u_ecdh_keygen; cbn [u_keygen set_uclock]; by rewrite Hk).
  cbv zeta. erewrite UM_bind_eq; [|reflexivity]. erewrite UM_bind_eq.
  2: { unfold sys_sendto. cbn [u_tx set_uclock set_ukeygen]. rewrite Ht. reflexivity. }
  erewrite UM_bind_eq; [|reflexivity]. unfold mbind, UM_bind, await_confirm. rewrite (wait_confirm_waits n); done.
Qed.
