(* ===== verification/UdpTunnel.v ===== *)
(** * UdpTunnel: the UDP server and client loops (mode_tun_udp.c, second half)

    The session table of the server, the two directions of its poll loop, the
    keepalive pass, and the client's loop.  The set-up of the interface and
    its routes is in [Tun]; socket options and log lines are left out. *)

From S2P Require Import Prelude Aes Aegis Aead Util Io Frame Handshake ModeCommon Socks5 Udp.

Definition UDP_MAX_CLIENTS : nat := 64.

Record udp_session_t := mkSess {
  s_addr : sockaddr_in;
  s_enc_key : bytes;
  s_dec_key : bytes;
  s_tun_ip : Z;
  s_last_seen : Z;
  s_active : bool
}.

(** [memset(..., 0, ...)] and [secure_memzero] of a session. *)
Definition sess_zero : udp_session_t := mkSess (mkAddr (zeros 4) 0) (zeros 16) (zeros 16) 0 0 false.

Record udp_table := mkTable { t_sessions : list udp_session_t; t_count : nat }.

Definition table_init : udp_table := mkTable (replicate UDP_MAX_CLIENTS sess_zero) 0.

Definition ip_dst_addr (pkt : bytes) : Z :=
  if zlen pkt <? 20 then 0
  else if negb (Z.shiftr (get pkt 0) 4 =? 4) then 0
  else
    let ihl := Z.land (get pkt 0) 15 * 4 in
    if (ihl <? 20) || (zlen pkt <? ihl) then 0
    else be_value (take 4 (drop 16 pkt)).

(** The loop from index [i]. *)
Fixpoint find_from (i : nat) (ss : list udp_session_t) (addr : sockaddr_in) : option nat :=
  match ss with
  | [] => None
  | s :: ss' =>
      if negb (s_active s) then find_from (S i) ss' addr
      else if bool_decide (sin_addr (s_addr s) = sin_addr addr) then Some i
      else find_from (S i) ss' addr
  end.

(** [None] for -1. *)
Definition session_find (t : udp_table) (addr : sockaddr_in) : option nat :=
  find_from 0 (take (t_count t) (t_sessions t)) addr.

Definition set_session (i : nat) (f : udp_session_t -> udp_session_t) (t : udp_table) : udp_table :=
  mkTable (alter f i (t_sessions t)) (t_count t).

Section Server.
Context {A : Aead} {C : Crypto} {U : Locals}.
(** [g_asym_priv], [g_asym_peers], [g_peer_tun_ips] and the keepalive period. *)
Context (priv : bytes) (peers : list bytes) (tun_ips : list Z) (keepalive : Z).

(** "Add/update session in table". *)
Definition session_add (sender : sockaddr_in) (peer : Z) (keys : session_keys_t) (t : udp_table) : UM udp_table :=
  let fill now s := mkSess sender (enc_key keys) (dec_key keys) (s_tun_ip s) now true in
  match session_find t sender with
  | Some si =>
      now ← u_now;
      mret (set_session si (fill now) t)
  | None =>
      if (t_count t <? UDP_MAX_CLIENTS)%nat then
        let si := t_count t in
        let ip := nth (Z.to_nat peer) tun_ips 0 in
        let t1 := mkTable (alter (fun s => mkSess (s_addr s) (s_enc_key s) (s_dec_key s) ip (s_last_seen s) (s_active s))
                             si (t_sessions t)) (S (t_count t)) in
        now ← u_now;
        mret (set_session si (fill now) t1)
      else mret t
  end.

(** A handshake datagram. *)
Definition server_handshake (sender : sockaddr_in) (buf : bytes) (t : udp_table) : UM udp_table :=
  now ← u_now;
  w ← (fun w => Some (w, w)) : UM uworld;
  let '(r, rate) := handshake_rate_check (inet_ntop4 (sin_addr sender)) now (u_rate w) in
  _ ← (fun w => Some (tt, set_urate rate w)) : UM unit;
  if r <? 0 then mret t
  else
    st ← server_peers 0 priv peers (take UDP_HS_DGRAM buf)
           (mkHs false (-1) (mkKeys (uninit "keys.enc_key") (uninit "keys.dec_key")) sender);
    if hs_ok st && (0 <=? hs_peer st) then session_add (hs_sender st) (hs_peer st) (hs_keys st) t
    else mret t.

(** The loop that finishes a short [write]; [rest] is what is left. *)
Fixpoint write_rest (fuel : nat) (rest : bytes) : UM unit :=
  match fuel with
  | O => fun _ => None
  | S f =>
      if (length rest =? 0)%nat then mret tt
      else
        r ← sys_tun_write rest;
        match r with
        | inl EAGAIN | inl EINTR => write_rest f rest
        | inl EIO => mret tt
        | inr n => write_rest f (drop n rest)
        end
  end.

(** Each round takes one entry of the script of [write]. *)
Definition write_rest_all (rest : bytes) : UM unit := fun w => write_rest (S (length (u_tun_tx w))) rest w.

(** A packet to the TUN device: one [write], its failure logged, a short one
    continued. *)
Definition tun_deliver (pkt : bytes) : UM unit :=
  r ← sys_tun_write pkt;
  match r with
  | inl _ => mret tt
  | inr n => if (n <? length pkt)%nat then write_rest_all (drop n pkt) else mret tt
  end.

(** A datagram that is not a handshake. *)
Definition server_data (sender : sockaddr_in) (buf : bytes) (t : udp_table) : UM udp_table :=
  match session_find t sender with
  | None => mret t
  | Some si =>
      match t_sessions t !! si with
      | None => mret t
      | Some s =>
          let t1 := if negb (sin_port (s_addr s) =? sin_port sender)
                    then set_session si (fun s => mkSess (mkAddr (sin_addr (s_addr s)) (sin_port sender))
                           (s_enc_key s) (s_dec_key s) (s_tun_ip s) (s_last_seen s) (s_active s)) t
                    else t in
          match frame_parse_explicit buf (s_dec_key s) with
          | None => mret t1
          | Some (ty, _, pkt) =>
              now ← u_now;
              let t2 := set_session si (fun s => mkSess (s_addr s) (s_enc_key s) (s_dec_key s) (s_tun_ip s)
                                                   now (s_active s)) t1 in
              if (ty =? FRAME_DATA) && (0 <? zlen pkt) then (_ ← tun_deliver pkt; mret t2) else mret t2
          end
      end
  end.

(** One datagram of the drain loop. *)
Definition server_datagram (sender : sockaddr_in) (buf : bytes) (t : udp_table) : UM udp_table :=
  if (Z.of_nat UDP_HS_DGRAM <=? zlen buf) && (get buf 0 =? FRAME_HANDSHAKE)
  then server_handshake sender buf t
  else server_data sender buf t.

(** UDP to TUN: until the socket is empty.  Each round reads [g_running]. *)
Fixpoint server_drain_udp (fuel : nat) (t : udp_table) : UM udp_table :=
  match fuel with
  | O => fun _ => None
  | S f =>
      run ← g_running;
      if negb run then mret t
      else
        r ← sys_recvfrom UDP_MAX_DGRAM;
        match r with
        | inl EAGAIN => mret t
        | inl _ => server_drain_udp f t
        | inr (sender, buf) =>
            t' ← server_datagram sender buf t;
            server_drain_udp f t'
        end
  end.

(** One packet to every session it is routed to. *)
Fixpoint route_packet (dst : Z) (pkt : bytes) (ss : list udp_session_t) : UM unit :=
  match ss with
  | [] => mret tt
  | s :: ss' =>
      if negb (s_active s) then route_packet dst pkt ss'
      else if negb (dst =? 0) && negb (s_tun_ip s =? 0) && negb (dst =? s_tun_ip s) then route_packet dst pkt ss'
      else
        r ← do_build_explicit FRAME_DATA 0 pkt (s_enc_key s);
        match r with
        | None => route_packet dst pkt ss'
        | Some wb => _ ← sys_sendto (Some (s_addr s)) wb; route_packet dst pkt ss'
        end
  end.

(** TUN to UDP: [false] when the device has failed or is gone. *)
Fixpoint server_drain_tun (fuel : nat) (t : udp_table) : UM bool :=
  match fuel with
  | O => fun _ => None
  | S f =>
      run ← g_running;
      if negb run then mret true
      else
        r ← sys_tun_read (Z.to_nat FRAME_MAX_PAYLOAD);
        match r with
        | inl EAGAIN => mret true
        | inl _ => mret false
        | inr [] => mret false
        | inr pkt =>
            _ ← route_packet (ip_dst_addr pkt) pkt (take (t_count t) (t_sessions t));
            server_drain_tun f t
        end
  end.

(** Keepalive and expiry of one session, at time [now]. *)
Definition keepalive_one (now : Z) (s : udp_session_t) : UM udp_session_t :=
  if negb (s_active s) then mret s
  else
    s1 ← (if (0 <? keepalive) && (keepalive <=? now - s_last_seen s) then
            r ← do_build_explicit FRAME_KEEPALIVE 0 [] (s_enc_key s);
            _ ← match r with None => mret 0 | Some kw => sys_sendto (Some (s_addr s)) kw end;
            mret (mkSess (s_addr s) (s_enc_key s) (s_dec_key s) (s_tun_ip s) now (s_active s))
          else mret s);
    if 300 <? now - s_last_seen s1 then mret sess_zero else mret s1.

Fixpoint keepalive_all (now : Z) (n : nat) (ss : list udp_session_t) : UM (list udp_session_t) :=
  match n, ss with
  | S n', s :: ss' => s' ← keepalive_one now s; r ← keepalive_all now n' ss'; mret (s' :: r)
  | _, _ => mret ss
  end.

Definition server_keepalive (t : udp_table) : UM udp_table :=
  now ← u_now;
  ss ← keepalive_all now (t_count t) (t_sessions t);
  mret (mkTable ss (t_count t)).

(** One round of the poll loop: the table, or [None] to leave it. *)
Definition server_round (t : udp_table) : UM (option udp_table) :=
  p ← u_pollcall;
  match p with
  | PollFail EINTR => mret (Some t)
  | PollFail _ => mret None
  | PollRet udp tun =>
      t1 ← (if pollin udp then (fun w => server_drain_udp (S (length (u_running w))) t w) else mret t);
      go ← (if pollin tun then (fun w => server_drain_tun (S (length (u_running w))) t1 w) else mret true);
      if negb go then mret None
      else (t2 ← server_keepalive t1; mret (Some t2))
  end.

(** The poll loop: the table at its end (wiped by the caller). *)
Fixpoint server_loop (fuel : nat) (t : udp_table) : UM udp_table :=
  match fuel with
  | O => fun _ => None
  | S f =>
      run ← g_running;
      if negb run then mret t
      else
        r ← server_round t;
        match r with
        | None => mret t
        | Some t' => server_loop f t'
        end
  end.

(** The clean-up after the loop. *)
Definition table_wipe (t : udp_table) : udp_table :=
  mkTable (replicate (t_count t) sess_zero ++ drop (t_count t) (t_sessions t)) (t_count t).

Definition mode_tun_udp_server : UM udp_table := fun w =>
  match server_loop (S (length (u_running w))) table_init w with
  | None => None
  | Some (t, w') => Some (table_wipe t, w')
  end.

(** ** The client *)

(** TUN to UDP: [false] to disconnect.  Each round takes one entry of the
    script of [read]. *)
Fixpoint client_drain_tun (fuel : nat) (key : bytes) : UM bool :=
  match fuel with
  | O => fun _ => None
  | S f =>
      r ← sys_tun_read (Z.to_nat FRAME_MAX_PAYLOAD);
      match r with
      | inl EAGAIN => mret true
      | inl _ => mret false
      | inr [] => mret false
      | inr pkt =>
          b ← do_build_explicit FRAME_DATA 0 pkt key;
          match b with
          | None => client_drain_tun f key
          | Some wb => _ ← sys_sendto None wb; client_drain_tun f key
          end
      end
  end.

(** UDP to TUN. *)
Fixpoint client_drain_udp (fuel : nat) (key : bytes) : UM bool :=
  match fuel with
  | O => fun _ => None
  | S f =>
      r ← sys_recvfrom UDP_MAX_DGRAM;
      match r with
      | inl EAGAIN => mret true
      | inl _ => mret false
      | inr (_, []) => mret false
      | inr (_, wb) =>
          match frame_parse_explicit wb key with
          | Some (ty, _, pkt) =>
              if (ty =? FRAME_DATA) && (0 <? zlen pkt)
              then (_ ← write_rest_all pkt; client_drain_udp f key)
              else client_drain_udp f key
          | None => client_drain_udp f key
          end
      end
  end.

(** The keepalive of the client: the new [last_ka]. *)
Definition client_keepalive (key : bytes) (last_ka : Z) : UM Z :=
  now ← u_now;
  if (0 <? keepalive) && (keepalive <=? now - last_ka) then
    r ← do_build_explicit FRAME_KEEPALIVE 0 [] key;
    _ ← match r with None => mret 0 | Some kw => sys_sendto None kw end;
    mret now
  else mret last_ka.

(** One round of the data loop: [last_ka], or [None] to disconnect. *)
Definition client_round (keys : session_keys_t) (last_ka : Z) : UM (option Z) :=
  p ← u_pollcall;
  match p with
  | PollFail EINTR => mret (Some last_ka)
  | PollFail _ => mret None
  | PollRet tun udp =>
      g1 ← (if pollin tun then (fun w => client_drain_tun (S (length (u_tun_rx w))) (enc_key keys) w) else mret true);
      if negb g1 then mret None
      else
        g2 ← (if pollin udp then (fun w => client_drain_udp (S (length (u_rx w))) (dec_key keys) w) else mret true);
        if negb g2 then mret None
        else (l ← client_keepalive (enc_key keys) last_ka; mret (Some l))
  end.

Fixpoint client_loop (fuel : nat) (keys : session_keys_t) (last_ka : Z) : UM unit :=
  match fuel with
  | O => fun _ => None
  | S f =>
      run ← g_running;
      if negb run then mret tt
      else
        r ← client_round keys last_ka;
        match r with
        | None => mret tt
        | Some l => client_loop f keys l
        end
  end.

(** One connection of [mode_tun_udp_client]: the handshake, then the data
    loop; [false] when the handshake failed. *)
Definition client_connection (keys : session_keys_t) : UM bool :=
  x ← udp_handshake_client priv (nth 0 peers []) keys;
  if negb (fst x =? 0) then mret false
  else
    last_ka ← u_now;
    _ ← (fun w => client_loop (S (length (u_running w))) (snd x) last_ka w) : UM unit;
    mret true.

(** The loop around it, one turn after the other: [g_running] at the top,
    whether there is a socket and its descriptor, whether the host resolves and
    [connect] works, and the world of the connection.  The result is what
    happens to the sockets, and the pauses in seconds.  Where the list ends,
    [g_running] is found cleared. *)
Record udp_turn := mkTurn {
  ut_running : bool; ut_socket : option Z; ut_resolve : bool; ut_connect : bool;
  ut_keys : session_keys_t; ut_world : uworld
}.

Inductive turn_ev := TurnNet (e : net_ev) | TurnSleep (d : Z).

Fixpoint mode_tun_udp_client (turns : list udp_turn) : option (list turn_ev) :=
  match turns with
  | [] => Some []
  | t :: turns' =>
      if negb (ut_running t) then Some []
      else match ut_socket t with
           | None => cons (TurnSleep 1) <$> mode_tun_udp_client turns'
           | Some udp_fd =>
               let again := fun evs =>
                 app ([TurnNet (Opened udp_fd UDP); TurnNet (Marked udp_fd 51820)] ++ evs) <$> mode_tun_udp_client turns' in
               if negb (ut_resolve t) then again [TurnNet (Closed udp_fd); TurnSleep 2]
               else if negb (ut_connect t) then again [TurnNet (Closed udp_fd); TurnSleep 2]
               else match client_connection (ut_keys t) (ut_world t) with
                    | None => None
                    | Some (false, _) => again [TurnNet (Closed udp_fd); TurnSleep 2]
                    | Some (true, _) => again [TurnNet (Closed udp_fd); TurnSleep 2]
                    end
           end
  end.

Definition turn_net (l : list turn_ev) : list net_ev := omap (fun e => match e with TurnNet n => Some n | TurnSleep _ => None end) l.
Definition turn_pauses (l : list turn_ev) : list Z := omap (fun e => match e with TurnSleep d => Some d | TurnNet _ => None end) l.

(** The client never gives up: however its connections end, it pauses for a
    second or two and tries again, until it is stopped. *)
Lemma udp_client_retries turns :
  Forall (fun t => ut_running t = true /\ is_Some (client_connection (ut_keys t) (ut_world t))) turns ->
  exists l, mode_tun_udp_client turns = Some l /\ length (turn_pauses l) = length turns /\
    Forall (fun d => 1 <= d <= 2) (turn_pauses l).
Proof.
  induction 1 as [|t turns [Hr [[b w] Hx]] _ (l & IH & Hl & Hd)]; [by exists []|]. cbn [mode_tun_udp_client].
  rewrite Hr, Hx, IH. cbn [negb]. destruct (ut_socket t), (ut_resolve t), (ut_connect t), b; cbn [negb fmap option_fmap option_map];
    (eexists; split_and!; [reflexivity|simpl; f_equal; exact Hl|constructor; [lia|exact Hd]]).
Qed.

(** Every socket of the client is closed before the next one is opened. *)
Lemma udp_client_sockets turns : forall l, mode_tun_udp_client turns = Some l ->
  fds_closed (turn_net l) = fds_opened (turn_net l).
Proof.
  induction turns as [|t turns IH]; intros l; cbn [mode_tun_udp_client]; [by intros [= <-]|].
  destruct (negb (ut_running t)); [by intros [= <-]|].
  destruct (ut_socket t) as [fd|]; [|intros (l' & H & ->)%fmap_Some; exact (IH l' H)].
  assert (forall evs, evs = [TurnNet (Closed fd); TurnSleep 2] ->
    app ([TurnNet (Opened fd UDP); TurnNet (Marked fd 51820)] ++ evs) <$> mode_tun_udp_client turns = Some l ->
    fds_closed (turn_net l) = fds_opened (turn_net l)) as Hagain.
  { intros evs -> (l' & H & ->)%fmap_Some. simpl. f_equal. by apply IH. }
  destruct (negb (ut_resolve t)); [by apply Hagain|]. destruct (negb (ut_connect t)); [by apply Hagain|].
  destruct (client_connection _ _) as [[[] w]|]; [by apply Hagain..|done].
Qed.

End Server.

(** ** The session table *)

Section Table.

(** [s] is the live session at [i]. *)
Definition live (t : udp_table) (i : nat) (s : udp_session_t) : Prop :=
  (i < t_count t)%nat /\ t_sessions t !! i = Some s /\ s_active s = true.

Lemma find_from_Some ss addr : forall i k,
  find_from i ss addr = Some k ->
  exists j s, k = (i + j)%nat /\ ss !! j = Some s /\ s_active s = true /\ sin_addr (s_addr s) = sin_addr addr.
Proof.
  induction ss as [|s ss IH]; intros i k; simpl; [done|]. destruct (s_active s) eqn:Ha; simpl.
  - case_bool_decide as Hd.
    + intros [= <-]. exists 0%nat, s. split_and!; [lia|done..].
    + intros (j & s' & -> & Hj)%IH. exists (S j), s'. split; [lia|done].
  - intros (j & s' & -> & Hj)%IH. exists (S j), s'. split; [lia|done].
Qed.

Lemma find_from_None ss addr : forall i j s,
  find_from i ss addr = None -> ss !! j = Some s -> s_active s = true -> sin_addr (s_addr s) <> sin_addr addr.
Proof.
  induction ss as [|x ss IH]; intros i j s; simpl; [done|]. destruct j as [|j]; simpl.
  - intros H [= ->] Ha. rewrite Ha in H. simpl in H. by case_bool_decide.
  - destruct (s_active x); simpl; [case_bool_decide; [done|]|]; apply IH.
Qed.

Lemma session_find_Some t addr i :
  session_find t addr = Some i -> exists s, live t i s /\ sin_addr (s_addr s) = sin_addr addr.
Proof.
  intros (j & s & -> & Hj & Ha & Hip)%find_from_Some. exists s. apply lookup_take_Some in Hj as [Hj Hlt]. done.
Qed.

Lemma session_find_None t addr i s :
  session_find t addr = None -> live t i s -> sin_addr (s_addr s) <> sin_addr addr.
Proof.
  intros Hf (Hi & Hs & Ha). eapply find_from_None; [exact Hf| |done]. by apply lookup_take_Some.
Qed.

(** At most 64 sessions, one to an address, with keys of the right size. *)
Record table_inv (t : udp_table) : Prop := {
  ti_length : length (t_sessions t) = UDP_MAX_CLIENTS;
  ti_count : (t_count t <= UDP_MAX_CLIENTS)%nat;
  ti_unique : forall i j s s', live t i s -> live t j s' -> sin_addr (s_addr s) = sin_addr (s_addr s') -> i = j;
  ti_keys : forall i s, live t i s -> wf_block (s_enc_key s) /\ wf_block (s_dec_key s)
}.

(** Changes that keep addresses and keys of the live sessions, or end some. *)
Lemma table_inv_refine t t' :
  table_inv t -> length (t_sessions t') = UDP_MAX_CLIENTS -> t_count t' = t_count t ->
  (forall i s', live t' i s' -> exists s, live t i s /\ sin_addr (s_addr s') = sin_addr (s_addr s) /\
     s_enc_key s' = s_enc_key s /\ s_dec_key s' = s_dec_key s) ->
  table_inv t'.
Proof.
  intros [Hl Hc Hu Hk] Hl' Hc' Hs. constructor; [done|lia| |].
  - intros i j s s' Hi Hj Hip. destruct (Hs _ _ Hi) as (r & Hr & Er & _), (Hs _ _ Hj) as (r' & Hr' & Er' & _).
    apply (Hu i j r r'); [done..|congruence].
  - intros i s' (s & Hi & _ & -> & ->)%Hs. by eapply Hk.
Qed.

Lemma live_set_session t i f j s' :
  live (set_session i f t) j s' ->
  exists s, (j < t_count t)%nat /\ t_sessions t !! j = Some s /\ s_active s' = true /\
    ((i = j /\ s' = f s) \/ (i <> j /\ s' = s)).
Proof.
  intros (Hj & Hs & Ha). simpl in *. destruct (decide (i = j)) as [<-|Hne].
  - rewrite list_lookup_alter_eq in Hs. apply fmap_Some in Hs as (s & Hs & ->). eauto 10.
  - rewrite list_lookup_alter_ne in Hs by done. eauto 10.
Qed.

Lemma set_session_inv t i f :
  table_inv t ->
  (forall s, s_active (f s) = s_active s /\ sin_addr (s_addr (f s)) = sin_addr (s_addr s) /\
     s_enc_key (f s) = s_enc_key s /\ s_dec_key (f s) = s_dec_key s) ->
  table_inv (set_session i f t).
Proof.
  intros Ht Hf. apply (table_inv_refine t); [done|simpl; rewrite length_alter; apply Ht|done|].
  intros j s' (s & Hj & Hs & Ha & [[<- ->]|[_ ->]])%live_set_session; exists s.
  - destruct (Hf s) as (Hfa & ? & ? & ?). rewrite Hfa in Ha. done.
  - done.
Qed.

Lemma table_init_inv : table_inv table_init.
Proof.
  constructor; [done|simpl; lia|intros i j s s' (H & _)|intros i s (H & _)]; simpl in H; lia.
Qed.

(** Writing a whole session at [i], when no other one has its address. *)
Lemma fill_inv t i f sender :
  table_inv t -> (i < t_count t)%nat ->
  (forall s, sin_addr (s_addr (f s)) = sin_addr sender /\ wf_block (s_enc_key (f s)) /\ wf_block (s_dec_key (f s))) ->
  (forall j s, live t j s -> sin_addr (s_addr s) = sin_addr sender -> j = i) ->
  table_inv (set_session i f t).
Proof.
  intros [Hl Hc Hu Hk] Hi Hf Hother. constructor; [simpl; by rewrite length_alter|done| |].
  - intros j k s s' (r & Hj & Hr & Ha & Hcase)%live_set_session (r' & Hj' & Hr' & Ha' & Hcase')%live_set_session Hip.
    destruct Hcase as [[<- ->]|[Hne ->]], Hcase' as [[<- ->]|[Hne' ->]]; [done|..].
    + symmetry. apply (Hother k r'); [done|]. rewrite <- Hip. apply Hf.
    + apply (Hother j r); [done|]. rewrite Hip. apply Hf.
    + by apply (Hu j k r r').
  - intros j s' (r & Hj & Hr & Ha & [[<- ->]|[_ ->]])%live_set_session; [apply Hf|]. by apply (Hk j).
Qed.

End Table.

(** ** Every step of the server keeps the table *)

Section ServerInv.
Context {A : Aead} {C : Crypto} {CL : CryptoLaws C} {U : Locals}.
Context (priv : bytes) (peers : list bytes) (tun_ips : list Z) (keepalive : Z).

Lemma session_add_inv sender peer keys t w t' w' :
  table_inv t -> wf_block (enc_key keys) -> wf_block (dec_key keys) ->
  session_add tun_ips sender peer keys t w = Some (t', w') -> table_inv t'.
Proof.
  intros Ht He Hd H. unfold session_add in H. destruct (session_find t sender) as [si|] eqn:Hf.
  - urun_step. urun_step. apply session_find_Some in Hf as (s & Hs & Hip). pose proof Hs as (Hlt & _).
    apply (fill_inv _ _ _ sender); [done..|]. intros j r Hr Hr'. apply (ti_unique _ Ht j si r s); [done..|congruence].
  - destruct (t_count t <? UDP_MAX_CLIENTS)%nat eqn:Hc; [|by urun_step]. zbool. urun_step. urun_step.
    match goal with |- table_inv (set_session _ ?g ?t1) => set (f := g); set (u := t1) end.
    assert (forall j s, live u j s -> (j < t_count t)%nat -> live t j s) as Hold.
    { intros j s (_ & Hs & Ha) Hj. simpl in Hs. rewrite list_lookup_alter_ne in Hs by lia. done. }
    constructor.
    + simpl. rewrite !length_alter. apply Ht.
    + simpl. lia.
    + intros j k s s' (r & Hj & Hr & Ha & Hcase)%live_set_session (r' & Hj' & Hr' & Ha' & Hcase')%live_set_session Hip.
      assert (forall j s, (j < t_count u)%nat -> t_sessions u !! j = Some s -> s_active s = true ->
        t_count t <> j -> live t j s) as Hl
        by (intros j0 s0 Hj0 Hs0 Ha0 Hne; apply Hold; [done|]; simpl in Hj0; lia).
      destruct Hcase as [[<- ->]|[Hne ->]], Hcase' as [[<- ->]|[Hne' ->]]; [done|..].
      * destruct (session_find_None t sender k r' Hf); [by apply Hl|done].
      * destruct (session_find_None t sender j r Hf); [by apply Hl|done].
      * apply (ti_unique _ Ht j k r r'); [by apply Hl..|done].
    + intros j s (r & Hj & Hr & Ha & [[<- ->]|[Hne ->]])%live_set_session; [done|].
      apply (ti_keys _ Ht j). apply Hold; [done|]. simpl in Hj. lia.
Qed.

(** The keys of a handshake that is accepted are the digests of its secret. *)
Lemma server_peers_keys pi ps dgram st w st' w' :
  server_peers pi priv ps dgram st w = Some (st', w') ->
  hs_ok st' = hs_ok st /\ hs_keys st' = hs_keys st \/ exists sh, hs_keys st' = udp_server_keys sh.
Proof.
  revert pi st w. induction ps as [|pk ps IH]; intros pi st w H; cbn [server_peers] in H; [urun_step; by left|].
  destruct (udp_hs_parse _ _) as [[iepk its]|]; [|by eapply IH].
  urun_step. destruct (ts_stale _ _); [by eapply IH|]. urun_step.
  destruct a0 as [[epk ek]|]; [|by apply IH in H].
  repeat urun_step. right.
  match goal with c : option (sockaddr_in * bytes) |- _ => destruct c as [[src ckw]|] end; urun_step; by eexists.
Qed.

Lemma server_handshake_inv sender buf t w t' w' :
  table_inv t -> server_handshake priv peers tun_ips sender buf t w = Some (t', w') -> table_inv t'.
Proof.
  intros Ht H. unfold server_handshake in H. do 2 urun_step.
  destruct (handshake_rate_check _ _ _) as [r rate]. urun_step. destruct (r <? 0); [by urun_step|].
  urun_step. destruct (hs_ok a2 && (0 <=? hs_peer a2)) eqn:Hok; [|by urun_step]. zbool.
  apply server_peers_keys in E2 as [[Hf _]|[sh Hk]]; [simpl in Hf; congruence|].
  eapply session_add_inv; [done| | |exact H]; rewrite Hk; apply session_halves_wf.
Qed.

Lemma server_data_inv sender buf t w t' w' :
  table_inv t -> server_data sender buf t w = Some (t', w') -> table_inv t'.
Proof.
  intros Ht H. unfold server_data in H. destruct (session_find t sender) as [si|]; [|by urun_step].
  destruct (t_sessions t !! si) as [s|]; [|by urun_step].
  match type of H with context [set_session si _ ?u] => set (t1 := u) in * end.
  assert (table_inv t1) as Ht1 by (unfold t1; destruct (negb (_ =? sin_port sender)); [by apply set_session_inv|done]).
  destruct (frame_parse_explicit buf _) as [[[ty fl] pkt]|]; [|by urun_step]. urun_step.
  destruct (_ && _); repeat urun_step; by apply set_session_inv.
Qed.

Lemma server_drain_udp_inv f : forall t w t' w',
  table_inv t -> server_drain_udp priv peers tun_ips f t w = Some (t', w') -> table_inv t'.
Proof.
  induction f as [|f IH]; intros t w t' w' Ht H; [done|]. cbn [server_drain_udp] in H. urun_step.
  destruct (negb a); [by urun_step|]. urun_step. destruct a0 as [[]|[sender buf]].
  - by eapply IH.
  - by urun_step.
  - by eapply IH.
  - urun_step. eapply IH; [|exact H]. unfold server_datagram in E1. destruct (_ && _).
    + by eapply server_handshake_inv.
    + by eapply server_data_inv.
Qed.

Lemma keepalive_one_spec now s w s' w' :
  keepalive_one keepalive now s w = Some (s', w') -> s_active s' = true ->
  s_active s = true /\ s_addr s' = s_addr s /\ s_enc_key s' = s_enc_key s /\ s_dec_key s' = s_dec_key s.
Proof.
  unfold keepalive_one. intros H Ha. destruct (s_active s) eqn:E; simpl in H; [|urun_step; congruence].
  urun_step. destruct (300 <? _); [urun_step; done|]. urun_step.
  destruct (_ && _); repeat urun_step; done.
Qed.

Lemma keepalive_all_spec now n : forall ss w ss' w',
  keepalive_all keepalive now n ss w = Some (ss', w') ->
  length ss' = length ss /\ forall i s', ss' !! i = Some s' -> s_active s' = true ->
    exists s, ss !! i = Some s /\ s_active s = true /\ s_addr s' = s_addr s /\
      s_enc_key s' = s_enc_key s /\ s_dec_key s' = s_dec_key s.
Proof.
  induction n as [|n IH]; intros ss w ss' w' H; simpl in H; [urun_step; split; [done|eauto 10]|].
  destruct ss as [|s ss]; [urun_step; split; [done|eauto 10]|]. repeat urun_step.
  destruct (IH _ _ _ _ E0) as [Hl Hs]. split; [simpl; by rewrite Hl|].
  intros [|i] s' Hi Ha; simpl in Hi; [|by apply Hs]. simplify_eq.
  exists s. split; [done|]. by eapply keepalive_one_spec.
Qed.

Lemma server_keepalive_inv t w t' w' :
  table_inv t -> server_keepalive keepalive t w = Some (t', w') -> table_inv t'.
Proof.
  intros Ht H. unfold server_keepalive in H. repeat urun_step.
  destruct (keepalive_all_spec _ _ _ _ _ _ E0) as [Hl Hs].
  apply (table_inv_refine t); [done|simpl; rewrite Hl; apply Ht|done|].
  intros i s' (Hi & Hs' & Ha). destruct (Hs _ _ Hs' Ha) as (s & Hsi & Has & Ea & Ee & Ed).
  exists s. rewrite Ea. done.
Qed.

Lemma server_round_inv t w r w' :
  table_inv t -> server_round priv peers tun_ips keepalive t w = Some (r, w') -> from_option table_inv True r.
Proof.
  intros Ht H. unfold server_round in H. urun_step. destruct a as [e|udp tun]; [destruct e; by urun_step|].
  urun_step. assert (table_inv a) as Ha.
  { destruct (pollin udp); [by eapply server_drain_udp_inv|]. injection E0 as <- <-. done. }
  urun_step. destruct (negb a0); [by urun_step|]. repeat urun_step. simpl. by eapply server_keepalive_inv.
Qed.

Lemma server_loop_inv f : forall t w t' w',
  table_inv t -> server_loop priv peers tun_ips keepalive f t w = Some (t', w') -> table_inv t'.
Proof.
  induction f as [|f IH]; intros t w t' w' Ht H; [done|]. cbn [server_loop] in H. urun_step.
  destruct (negb a); [by urun_step|]. urun_step. apply server_round_inv in E0; [|done].
  destruct a0 as [t1|]; [by eapply IH|by urun_step].
Qed.

End ServerInv.

(** ** What reaches the TUN device, and who gets a session *)

Section Authentic.
Context {A : Aead} {L : AeadLaws A} {C : Crypto} {CL : CryptoLaws C} {U : Locals}.
Context (priv : bytes) (peers : list bytes) (tun_ips : list Z) (keepalive : Z).

Lemma write_rest_spec f : forall rest w x w',
  write_rest f rest w = Some (x, w') ->
  exists ws, u_tun_out w' = u_tun_out w ++ ws /\ concat ws `prefix_of` rest.
Proof.
  induction f as [|f IH]; intros rest w x w' H; [done|]. cbn [write_rest] in H.
  destruct (length rest =? 0)%nat.
  { urun_step. exists []. rewrite app_nil_r. split; [done|]. apply prefix_nil. }
  urun_step. unfold sys_tun_write in E. destruct (u_tun_tx w) as [|[n|e] l]; [done|..]; simplify_eq/=.
  - apply IH in H as (ws & Ho & Hp). cbn [u_tun_out set_tun_tx] in Ho.
    exists (take (Nat.min n (length rest)) rest :: ws). rewrite Ho, <- app_assoc. split; [done|]. simpl.
    destruct Hp as [k Hk]. exists k. by rewrite <- app_assoc, <- Hk, take_drop.
  - destruct e; [..|urun_step; exists []; rewrite app_nil_r; split; [done|apply prefix_nil]];
      by apply IH in H.
Qed.

Lemma tun_deliver_spec pkt w x w' :
  tun_deliver pkt w = Some (x, w') ->
  exists ws, u_tun_out w' = u_tun_out w ++ ws /\ concat ws `prefix_of` pkt.
Proof.
  intros H. unfold tun_deliver in H. urun_step. unfold sys_tun_write in E.
  destruct (u_tun_tx w) as [|[n|e] l]; [done|..]; simplify_eq/=.
  - destruct (_ <? _)%nat eqn:Hlt.
    + unfold write_rest_all in H. apply write_rest_spec in H as (ws & Ho & Hp). cbn [u_tun_out set_tun_tx] in Ho.
      exists (take (Nat.min n (length pkt)) pkt :: ws). rewrite Ho, <- app_assoc. split; [done|]. simpl.
      destruct Hp as [k Hk]. exists k. by rewrite <- app_assoc, <- Hk, take_drop.
    + urun_step. exists [take (Nat.min n (length pkt)) pkt]. split; [done|]. simpl. rewrite app_nil_r. 
      apply prefix_take.
  - urun_step. exists []. rewrite app_nil_r. split; [done|apply prefix_nil].
Qed.

(** The datagram was made by somebody who has the key. *)
Definition sealed_hello (dgram key epk : bytes) (ts : Z) : Prop :=
  exists hdr tsb, length hdr = 4%nat /\ ts = ts_decode tsb /\
    dgram = hdr ++ epk ++ fst (aead_encrypt key (zeros 16) (hdr ++ epk) tsb) ++
                          snd (aead_encrypt key (zeros 16) (hdr ++ epk) tsb).

Lemma udp_hs_parse_sealed dgram key epk ts :
  wf_block key -> wf_bytes dgram -> length dgram = UDP_HS_DGRAM ->
  udp_hs_parse dgram key = Some (epk, ts) -> sealed_hello dgram key epk ts.
Proof.
  intros Hk Hw Hl H. unfold udp_hs_parse in H. destruct (negb (get dgram 0 =? _)); [done|].
  destruct (aead_decrypt _ _ _ _ _) as [ret tsb] eqn:Hd. destruct (negb (ret =? 0)) eqn:Hr; [done|]. zbool.
  subst ret. injection H as <- <-. unfold UDP_HS_DGRAM in Hl.
  apply aead_accept in Hd as [Hm He]; [|done|apply zero_nonce_block|auto with aegis|auto with aegis|].
  2:{ split; [rewrite length_take, length_drop, Hl; done|auto with aegis]. }
  exists (take 4 dgram), tsb. split_and!; [rewrite length_take, Hl; done|done|]. rewrite He. cbn [fst snd].
  rewrite (take_ge (drop 44 dgram)) by (rewrite length_drop; lia).
  change 44%nat with (36 + 8)%nat. rewrite <- drop_drop, take_drop. 
  change 36%nat with (4 + 32)%nat. by rewrite <- (drop_drop dgram 32 4), take_drop, take_drop.
Qed.

(** [x] is among the entries that a run took from a script. *)
Definition taken {X} (x : X) (before after : list X) : Prop :=
  exists p q, before = p ++ x :: q /\ after `suffix_of` q.

Lemma taken_head {X} (x : X) l after : after `suffix_of` l -> taken x (x :: l) after.
Proof. intros H. by exists [], l. Qed.

Lemma taken_from {X} (x : X) l l1 after : l1 `suffix_of` l -> taken x l1 after -> taken x l after.
Proof. intros [k ->] (p & q & -> & H). exists (k ++ p), q. split; [by rewrite app_assoc|done]. Qed.

(** The timestamp is within a minute of the clock (or so far off that the
    subtraction of the code leaves the range of [int64_t]). *)
Definition fresh (now ts : Z) : Prop := 0 <= now /\ (Z.abs (now - ts) <= 60 \/ 2 ^ 63 <= Z.abs (now - ts)).

Lemma not_stale_fresh now ts : ts_stale now ts = false -> fresh now ts.
Proof.
  unfold ts_stale. intros H. apply orb_false_iff in H as [H1 H2]. zbool. split; [lia|].
  assert (forall d, 0 <= d -> s64 d <= 60 -> d <= 60 \/ 2 ^ 63 <= d) as Hs.
  { intros d Hd. unfold s64, u64. destruct (decide (d < 2 ^ 63)); [|lia].
    rewrite Z.mod_small by lia. rewrite (proj2 (Z.ltb_lt _ _)) by lia. lia. }
  destruct (ts <? now) eqn:E; zbool.
  - destruct (Hs (now - ts)); lia.
  - destruct (Hs (ts - now)); lia.
Qed.

(** What stands behind an accepted handshake, between the worlds [w] and [w'] of
    the call: a configured peer sealed the first message, at a time that is
    fresh by a clock reading of this call; the server's ephemeral key was
    generated in it; and a datagram received in it, from [addr], begins with the
    KEY_CONFIRM frame under the new session key. *)
Definition authenticated (dgram : bytes) (addr : sockaddr_in) (keys : session_keys_t) (w w' : uworld) : Prop :=
  exists pk epk its c ek d fl,
    pk ∈ peers /\
    sealed_hello dgram (init_key (derive_into "ee" priv epk) (derive_into "es_init" priv pk)) epk its /\
    taken c (u_clock w) (u_clock w') /\ fresh (timestamp_now c) its /\
    taken (Some ek) (u_keygen w) (u_keygen w') /\
    keys = udp_server_keys (shared_of (derive_into "ee" priv epk) (derive_into "es" priv pk) (derive_into "se" ek pk)) /\
    taken (Dgram addr d) (u_rx w) (u_rx w') /\
    frame_build FRAME_KEYCONFIRM fl [] 0 (dec_key keys) = Some (take CONFIRM_LEN d).

(** Every datagram consists of bytes. *)
Definition wf_dgrams (l : list dgram_ev) : Prop := Forall (fun e => match e with Dgram _ d => wf_bytes d | _ => True end) l.

Lemma wait_confirm_takes f : forall w src ckw w', wait_confirm f w = Some (Some (src, ckw), w') ->
  exists d, u_rx w = Dgram src d :: u_rx w' /\ ckw = take CONFIRM_LEN d /\
    u_clock w' = u_clock w /\ u_keygen w' = u_keygen w.
Proof.
  induction f as [|f IH]; intros w src ckw w' H; [done|]. cbn [wait_confirm] in H. unfold g_running in H. urun_step.
  destruct (u_running w) as [|r rs]; simplify_eq/=. destruct (negb a); [by urun_step|].
  unfold u_pollcall in H. urun_step. cbn [u_poll set_running] in *. destruct (u_poll w) as [|p ps]; simplify_eq/=.
  destruct a0 as [[]|udp e]; [exact (IH _ _ _ _ H)|by urun_step|by urun_step|].
  destruct (negb _); [exact (IH _ _ _ _ H)|]. urun_step. unfold sys_recvfrom in E. cbn [u_rx set_running set_upoll] in E.
  destruct (u_rx w) as [|[s d|er] l]; simplify_eq/=; try (by urun_step). injection H as <- <- <-. by exists d.
Qed.

(** A frame of twenty bytes that confirms is the KEY_CONFIRM frame of the key. *)
Lemma confirms_frame buf key : wf_block key -> wf_bytes buf -> length buf = CONFIRM_LEN -> confirms buf key = true ->
  exists fl, frame_build FRAME_KEYCONFIRM fl [] 0 key = Some buf.
Proof.
  intros Hk Hw Hl H. unfold confirms in H. destruct (frame_parse buf 0 key) as [[[ty fl] p]|] eqn:E; [|done].
  zbool. subst ty. apply frame_parse_iff in E as [Hwf Hb]; [|done..]. exists fl.
  pose proof Hb as Hb'. apply frame_build_len in Hb' as (_ & Hlen & _); [|done..].
  change CONFIRM_LEN with 20%nat in Hl. destruct p; [done|simpl in Hlen; lia].
Qed.

Lemma server_keys_wf sh : wf_block (enc_key (udp_server_keys sh)) /\ wf_block (dec_key (udp_server_keys sh)).
Proof. unfold udp_server_keys. cbn [enc_key dec_key]. split; apply key_of_digest. Qed.

Lemma sys_sendto_frame dest d w n w' : sys_sendto dest d w = Some (n, w') ->
  u_rx w' = u_rx w /\ u_clock w' = u_clock w /\ u_keygen w' = u_keygen w.
Proof. unfold sys_sendto. destruct (u_tx w) as [|[]]; intros; simplify_eq; done. Qed.

Lemma server_peers_auth pi ps dgram st w st' w' :
  wf_bytes dgram -> length dgram = UDP_HS_DGRAM -> wf_dgrams (u_rx w) ->
  (forall pk, pk ∈ ps -> pk ∈ peers) -> hs_ok st = false ->
  server_peers pi priv ps dgram st w = Some (st', w') -> hs_ok st' = true ->
  authenticated dgram (hs_sender st') (hs_keys st') w w'.
Proof.
  intros Hw Hl. revert pi st w. induction ps as [|pk ps IH]; intros pi st w Hdg Hin Hst H Hok; cbn [server_peers] in H.
  { urun_step. congruence. }
  assert (forall x, x ∈ ps -> x ∈ peers) as Hin' by (intros x Hx; apply Hin; by right).
  destruct (udp_hs_parse _ _) as [[iepk its]|] eqn:Hp; [|by eapply IH].
  assert (forall w1, u_rx w1 = u_rx w -> u_clock w1 `suffix_of` u_clock w -> u_keygen w1 `suffix_of` u_keygen w ->
    authenticated dgram (hs_sender st') (hs_keys st') w1 w' -> authenticated dgram (hs_sender st') (hs_keys st') w w') as Hlift.
  { intros w1 H1 H2 H3 (pk' & epk' & its' & c & ek & d & fl & ? & ? & Hc & ? & Hk & ? & Hd & ?).
    rewrite H1 in Hd. exists pk', epk', its', c, ek, d, fl.
    split_and!; [done|done|by eapply taken_from|done|by eapply taken_from|done|done|done]. }
  unfold u_timestamp in H. urun_step. destruct (u_clock w) as [|c cl] eqn:Ec; simplify_eq/=.
  destruct (ts_stale _ _) eqn:Hts.
  { apply (Hlift (set_uclock cl w)); [done|by apply suffix_cons_r|done|]. refine (IH _ _ _ _ Hin' _ H Hok); done. }
  unfold u_ecdh_keygen in H. urun_step. cbn [u_keygen set_uclock] in *.
  destruct (u_keygen w) as [|[ek|] kg] eqn:Ek; simplify_eq/=.
  2: { apply (Hlift (set_ukeygen kg (set_uclock cl w))); [done|by apply suffix_cons_r|by apply suffix_cons_r|].
       refine (IH _ _ _ _ Hin' _ H Hok); done. }
  assert (iepk = take 32 (drop 4 dgram)) as Hie.
  { clear -Hp. unfold udp_hs_parse in Hp. repeat case_match; simplify_eq. done. }
  urun_step. cbn [u_clock set_ukeygen set_uclock] in *. destruct cl as [|c2 cl]; simplify_eq/=.
  repeat urun_step.
  match goal with c : option (sockaddr_in * bytes) |- _ => destruct c as [[src ckw]|] end; urun_step; [|done].
  cbn [hs_ok hs_sender hs_keys] in *. zbool.

  change ((CONFIRM_LEN <=? length ckw)%nat = true) in H. apply Nat.leb_le in H.
  apply sys_sendto_frame in E as (Er & Ecl & Ekg), E0 as (Er0 & Ecl0 & Ekg0).
  apply wait_confirm_takes in E1 as (d & Er1 & Eck & Ecl1 & Ekg1).
  rewrite Er0, Er in Er1. rewrite Ecl0, Ecl in Ecl1. rewrite Ekg0, Ekg in Ekg1. cbn in Er1, Ecl1, Ekg1.
  destruct (confirms_frame ckw (dec_key (udp_server_keys (shared_of (derive_into "ee" priv (take 32 (drop 4 dgram)))
    (derive_into "es" priv pk) (derive_into "se" ek pk))))) as [fl Hfl].
  { apply server_keys_wf. }
  { rewrite Eck. apply wf_bytes_take. rewrite Er1 in Hdg. by inversion Hdg. }
  { apply Nat.le_antisymm; [|done]. rewrite Eck, length_take. apply Nat.le_min_l. }
  { exact H0. }
  exists pk, (take 32 (drop 4 dgram)), its, c, ek, d, fl. rewrite Ec, Ek, Er1, Ecl1, Ekg1.
  split_and!; [apply Hin; by left| | |by apply not_stale_fresh| |done|by apply taken_head|by rewrite <- Eck].
  - apply udp_hs_parse_sealed; [apply key_of_digest|done..].
  - apply taken_head. by apply suffix_cons_r.
  - by apply taken_head.
Qed.

(** Computations that write nothing to the TUN device. *)
Definition quiet {B} (m : UM B) : Prop := forall w x w', m w = Some (x, w') -> u_tun_out w' = u_tun_out w.

Lemma quiet_ret {B} (x : B) : quiet (mret x).
Proof. intros w y w' [= _ <-]. done. Qed.

Lemma quiet_bind {B D} (m : UM B) (f : B -> UM D) : quiet m -> (forall x, quiet (f x)) -> quiet (m ≫= f).
Proof. intros Hm Hf w y w' H. urun_step. rewrite (Hf _ _ _ _ H). by eapply Hm. Qed.

Lemma quiet_calls : quiet u_timestamp /\ quiet u_ecdh_keygen /\ quiet g_running /\ quiet u_pollcall /\ quiet u_now /\
  (forall n, quiet (sys_recvfrom n)) /\ forall o d, quiet (sys_sendto o d).
Proof.
  split_and!; intros; intros w x w' H;
    unfold u_timestamp, u_ecdh_keygen, g_running, u_pollcall, u_now, sys_recvfrom, sys_sendto in H;
    repeat case_match; by simplify_eq.
Qed.

Ltac quiet_call := apply quiet_bind; [apply quiet_calls|].

Lemma wait_confirm_quiet f : quiet (wait_confirm f).
Proof.
  induction f as [|f IH]; [done|]. cbn [wait_confirm]. quiet_call. intros run.
  destruct (negb _); [apply quiet_ret|]. quiet_call. intros [[]|udp e]; [done|apply quiet_ret..|].
  destruct (negb _); [done|]. quiet_call. intros []; apply quiet_ret.
Qed.

Lemma server_peers_quiet ps dgram : forall pi st, quiet (server_peers pi priv ps dgram st).
Proof.
  induction ps as [|pk ps IH]; intros pi st; cbn [server_peers]; [apply quiet_ret|].
  destruct (udp_hs_parse _ _) as [[iepk its]|]; [|apply IH]. quiet_call. intros now.
  destruct (ts_stale _ _); [apply IH|]. quiet_call. intros [[epk ek]|]; [|apply IH].
  do 3 (quiet_call; intros ?). apply quiet_bind.
  - intros w y w' H. by eapply wait_confirm_quiet.
  - intros [[src ckw]|]; apply quiet_ret.
Qed.

Lemma session_add_quiet sender peer keys t : quiet (session_add tun_ips sender peer keys t).
Proof.
  unfold session_add. destruct (session_find t sender); [|destruct (_ <? _)%nat; [|apply quiet_ret]];
    quiet_call; intros ?; apply quiet_ret.
Qed.

Lemma server_handshake_quiet sender buf t : quiet (server_handshake priv peers tun_ips sender buf t).
Proof.
  unfold server_handshake. quiet_call. intros now. apply quiet_bind; [by intros w y w' [= _ <-]|]. intros w0.
  destruct (handshake_rate_check _ _ _) as [r rate]. apply quiet_bind; [by intros w y w' [= _ <-]|]. intros _.
  destruct (r <? 0); [apply quiet_ret|]. apply quiet_bind; [apply server_peers_quiet|]. intros st.
  destruct (_ && _); [apply session_add_quiet|apply quiet_ret].
Qed.

(** The sessions after [session_add]: the old ones, and the new one. *)
Lemma session_add_live sender peer keys t w t' w' i s' :
  session_add tun_ips sender peer keys t w = Some (t', w') -> live t' i s' ->
  (exists s, live t i s /\ s_addr s' = s_addr s /\ s_enc_key s' = s_enc_key s /\ s_dec_key s' = s_dec_key s) \/
  (s_addr s' = sender /\ s_enc_key s' = enc_key keys /\ s_dec_key s' = dec_key keys).
Proof.
  intros H Hi. unfold session_add in H. destruct (session_find t sender) as [si|].
  - repeat urun_step. apply live_set_session in Hi as (s & Hj & Hs & Ha & [[<- ->]|[_ ->]]); [by right|].
    left. by exists s.
  - destruct (_ <? _)%nat; repeat urun_step; [|left; by exists s'].
    apply live_set_session in Hi as (s & Hj & Hs & Ha & [[<- ->]|[Hne ->]]); [by right|]. left.
    cbn [t_sessions t_count] in Hs, Hj. rewrite list_lookup_alter_ne in Hs by done.
    exists s. split; [|done]. split_and!; [lia|done..].
Qed.

Lemma session_add_frame sender peer keys t w t' w' :
  session_add tun_ips sender peer keys t w = Some (t', w') ->
  u_rx w' = u_rx w /\ u_clock w' = u_clock w /\ u_keygen w' = u_keygen w.
Proof.
  unfold session_add, u_now. intros H. destruct (session_find t sender); [|destruct (_ <? _)%nat];
    repeat urun_step; try done; by destruct (u_time w) as [|? ?]; simplify_eq/=.
Qed.

(** Scripts that the ends of the call leave alone. *)
Lemma authenticated_frame dgram addr keys w w1 w2 w' :
  u_rx w = u_rx w1 -> u_clock w = u_clock w1 -> u_keygen w = u_keygen w1 ->
  u_rx w' = u_rx w2 -> u_clock w' = u_clock w2 -> u_keygen w' = u_keygen w2 ->
  authenticated dgram addr keys w1 w2 -> authenticated dgram addr keys w w'.
Proof. unfold authenticated. by intros -> -> -> -> -> ->. Qed.

(** The sessions after [server_data]. *)
Lemma server_data_live sender buf t w t' w' i s' :
  server_data sender buf t w = Some (t', w') -> live t' i s' ->
  exists s, live t i s /\ sin_addr (s_addr s') = sin_addr (s_addr s) /\
    s_enc_key s' = s_enc_key s /\ s_dec_key s' = s_dec_key s.
Proof.
  intros H Hi. unfold server_data in H. destruct (session_find t sender) as [si|]; [|urun_step; by exists s'].
  destruct (t_sessions t !! si) as [s|]; [|urun_step; by exists s'].
  match type of H with context [set_session si _ ?u] => set (t1 := u) in * end.
  assert (forall i s', live t1 i s' -> exists s, live t i s /\ sin_addr (s_addr s') = sin_addr (s_addr s) /\
    s_enc_key s' = s_enc_key s /\ s_dec_key s' = s_dec_key s) as H1.
  { intros j r Hr. unfold t1 in Hr. destruct (negb (_ =? sin_port sender)); [|by exists r].
    apply live_set_session in Hr as (x & Hj & Hx & Ha & [[<- ->]|[_ ->]]); by exists x. }
  destruct (frame_parse_explicit buf _) as [[[ty fl] pkt]|]; [|urun_step; by apply H1]. urun_step.
  assert (live (set_session si (fun s => mkSess (s_addr s) (s_enc_key s) (s_dec_key s) (s_tun_ip s)
    a (s_active s)) t1) i s') as Hi' by (destruct (_ && _); by repeat urun_step).
  apply live_set_session in Hi' as (x & Hj & Hx & Ha & [[<- ->]|[_ ->]]);
    exact (H1 _ x (conj Hj (conj Hx Ha))).
Qed.

(** What [server_data] writes. *)
Lemma server_data_out sender buf t w t' w' :
  table_inv t -> wf_bytes buf -> server_data sender buf t w = Some (t', w') ->
  u_tun_out w' = u_tun_out w \/
  exists si s fl n8 pkt ws, live t si s /\ sin_addr (s_addr s) = sin_addr sender /\
    wf_explicit FRAME_DATA fl n8 pkt /\ buf = explicit_frame FRAME_DATA fl n8 pkt (s_dec_key s) /\
    u_tun_out w' = u_tun_out w ++ ws /\ concat ws `prefix_of` pkt.
Proof.
  intros Ht Hw H. unfold server_data in H. destruct (session_find t sender) as [si|] eqn:Hf; [|urun_step; by left].
  apply session_find_Some in Hf as (s & Hs & Hip). pose proof Hs as (_ & Hsi & _). rewrite Hsi in H.
  destruct (frame_parse_explicit buf _) as [[[ty fl] pkt]|] eqn:Hp; [|urun_step; by left].
  urun_step. assert (u_tun_out w0 = u_tun_out w) as Ho by by apply quiet_calls in E.
  destruct ((ty =? FRAME_DATA) && (0 <? zlen pkt)) eqn:Hty; repeat urun_step; [|by left]. zbool. subst ty. right.
  apply frame_parse_explicit_iff in Hp as (n8 & Hex & Hbuf); [|by apply (ti_keys _ Ht si)|done].
  apply tun_deliver_spec in E0 as (ws & Hws & Hpre). rewrite Ho in Hws.
  by exists si, s, fl, n8, pkt, ws.
Qed.

End Authentic.

(** ** The data path *)

Section DataPath.
Context {A : Aead} {L : AeadLaws A} {C : Crypto} {U : Locals}.
Context (priv : bytes) (peers : list bytes) (tun_ips : list Z).

(** The random source gives eight bytes. *)
Definition rand_ok (u : urandom) : Prop :=
  Forall (fun e => match e with RxData d => wf_bytes d | _ => True end) (ur_reads u) /\
  exists nonce, random_bytes u (zeros 16) 8 = Some (0, nonce).

(** A packet that fits a datagram once it is framed. *)
Definition packet_ok (p : bytes) : Prop := wf_bytes p /\ p <> [] /\ zlen p <= 65507.

Definition data_frame (key p f : bytes) : Prop :=
  exists n8, wf_explicit FRAME_DATA 0 n8 p /\ f = explicit_frame FRAME_DATA 0 n8 p key.

Lemma do_build_explicit_run (p key : bytes) (u : urandom) (l : list urandom) (w : uworld) :
  wf_block key -> packet_ok p -> rand_ok u -> u_rand w = u :: l ->
  exists f, do_build_explicit FRAME_DATA 0 p key w = Some (Some f, set_urand l w) /\ data_frame key p f.
Proof.
  intros Hk (Hp & _ & Hl) [Hu [nonce Hn]] Hr. unfold do_build_explicit. rewrite Hr.
  assert (Hsz : (FRAME_MAX_PAYLOAD <? zlen p) = false) by (apply Z.ltb_ge; unfold FRAME_MAX_PAYLOAD; lia).
  rewrite Hsz. assert (exists f, frame_build_explicit u FRAME_DATA 0 p key = Some (Some f)) as [f Hb].
  { unfold frame_build_explicit. rewrite Hsz. change AEGIS_NONCE_LEN with 16%nat. rewrite Hn. cbn [negb Z.eqb].
    destruct (aead_encrypt _ _ _ _). by eexists. }
  exists f. rewrite Hb. split; [done|]. apply (frame_build_explicit_some u _ _ p); [done| |done].
  split_and!; [unfold is_uint, FRAME_DATA; lia|unfold is_uint; lia|done].
Qed.

Lemma client_drain_tun_run key pkts : wf_block key -> forall fuel rands rr tx w,
  (length pkts < fuel)%nat -> Forall packet_ok pkts ->
  u_tun_rx w = map RxData pkts ++ [RxErr EAGAIN] ->
  u_rand w = rands ++ rr -> length rands = length pkts -> Forall rand_ok rands ->
  u_tx w = replicate (length pkts) true ++ tx ->
  exists frames w', client_drain_tun fuel key w = Some (true, w') /\
    u_out w' = u_out w ++ map (pair None) frames /\ Forall2 (data_frame key) pkts frames.
Proof.
  intros Hk. induction pkts as [|p pkts IH]; intros fuel rands rr tx w Hf Hok Hrx Hrand Hlen Hro Htx;
    (destruct fuel as [|fuel]; [simpl in Hf; lia|]); cbn [client_drain_tun].
  - exists [], (set_tun_rx [] w). unfold sys_tun_read. unfold mbind, UM_bind. rewrite Hrx. simpl.
    split_and!; [done|by rewrite app_nil_r|done].
  - destruct rands as [|u rands]; [done|]. apply Forall_cons in Hok as [Hp Hok], Hro as [Hu Hro].
    assert (sys_tun_read (Z.to_nat FRAME_MAX_PAYLOAD) w = Some (inr p, set_tun_rx (map RxData pkts ++ [RxErr EAGAIN]) w)) as Hread.
    { unfold sys_tun_read. rewrite Hrx. cbn [map app]. rewrite take_ge; [done|].
      destruct Hp as (_ & _ & Hl). unfold FRAME_MAX_PAYLOAD. lia. }
    rewrite (UM_bind_eq _ _ _ _ _ Hread). cbv match.
    destruct p as [|x p']; [by destruct Hp as (_ & ? & _)|]. set (p := x :: p') in *.
    destruct (do_build_explicit_run p key u (rands ++ rr) (set_tun_rx (map RxData pkts ++ [RxErr EAGAIN]) w))
      as (f & Hb & Hfr); [done..|].
    rewrite (UM_bind_eq _ _ _ _ _ Hb). cbv match.
    assert (u_tx w = true :: replicate (length pkts) true ++ tx) as Htx' by exact Htx. ubind sys_sendto_run.
    match goal with |- context [client_drain_tun fuel key ?w1] => set (w1' := w1) end.
    destruct (IH fuel rands rr tx w1') as (frames & w' & Hrun & Ho & Hall);
      [simpl in Hf; lia|done|done|done|by injection Hlen|done|done|].
    exists (f :: frames), w'. split_and!; [done| |by constructor].
    rewrite Ho. simpl. by rewrite <- app_assoc.
Qed.

(** The session of an address is the one the table finds. *)
Lemma session_find_live t i s addr :
  table_inv t -> live t i s -> sin_addr (s_addr s) = sin_addr addr -> session_find t addr = Some i.
Proof.
  intros Ht Hs Hip. destruct (session_find t addr) as [k|] eqn:Hf.
  - apply session_find_Some in Hf as (s' & Hs' & Hip'). f_equal. apply (ti_unique _ Ht k i s' s); [done..|congruence].
  - by destruct (session_find_None _ _ _ _ Hf Hs).
Qed.

(** A data frame at the server, with its session live and the device ready. *)
Lemma server_data_run t i s src p f now tm n tx w :
  table_inv t -> live t i s -> sin_addr (s_addr s) = sin_addr src -> packet_ok p ->
  data_frame (s_dec_key s) p f -> u_time w = now :: tm -> u_tun_tx w = TxSome n :: tx -> zlen p <= Z.of_nat n ->
  exists t' s', server_data src f t w = Some (t', set_tun_tx tx (u_tun_out w ++ [p]) (set_utime tm w)) /\
    table_inv t' /\ live t' i s' /\ sin_addr (s_addr s') = sin_addr src /\ s_dec_key s' = s_dec_key s.
Proof.
  intros Ht Hs Hip (Hp & Hne & Hl) (n8 & Hwf & ->) Htm Htx Hn. unfold server_data.
  rewrite (session_find_live t i s) by done. pose proof Hs as (Hi & Hsi & Ha). rewrite Hsi.
  destruct (ti_keys _ Ht _ _ Hs) as [_ Hk].
  assert (frame_parse_explicit (explicit_frame FRAME_DATA 0 n8 p (s_dec_key s)) (s_dec_key s) = Some (FRAME_DATA, 0, p)) as ->.
  { apply frame_parse_explicit_iff; [done|by apply explicit_frame_len|eauto]. }
  set (t1 := if negb _ then _ else t).
  assert (exists s1, table_inv t1 /\ live t1 i s1 /\ sin_addr (s_addr s1) = sin_addr src /\ s_dec_key s1 = s_dec_key s)
    as (s1 & Ht1 & (Hi1 & Hs1 & Ha1) & Hip1 & Hk1).
  { unfold t1. destruct (negb _); [|by exists s]. eexists. split; [by apply set_session_inv|].
    split; [split_and!; [done|simpl; by rewrite list_lookup_alter_eq, Hsi|done]|done]. }
  assert (u_now w = Some (now, set_utime tm w)) as Hnow by (unfold u_now; by rewrite Htm).
  erewrite UM_bind_eq by exact Hnow. rewrite Z.eqb_refl. 
  replace (0 <? zlen p) with true by (symmetry; apply Z.ltb_lt; destruct p; [done|simpl; lia]).
  cbn [andb]. unfold tun_deliver, sys_tun_write, mbind, UM_bind. cbn [u_tun_tx set_utime]. rewrite Htx.
  rewrite Nat.min_r by lia. rewrite Nat.ltb_irrefl, take_ge by lia.
  eexists _, _. split; [reflexivity|]. split; [by apply set_session_inv|]. split.
  - split_and!; [exact Hi1|simpl; by rewrite list_lookup_alter_eq, Hs1|done].
  - done.
Qed.

(** Only handshake datagrams go to [server_handshake]. *)
Lemma data_frame_type key p f : data_frame key p f -> get f 0 = FRAME_DATA.
Proof. by intros (n8 & _ & ->). Qed.

Lemma server_drain_udp_run key src ds ps : Forall2 (data_frame key) ps ds -> Forall packet_ok ps -> wf_block key ->
  forall fuel rs tms tm txs tx t i s w,
  (length ds < fuel)%nat -> table_inv t -> live t i s -> sin_addr (s_addr s) = sin_addr src -> s_dec_key s = key ->
  u_rx w = map (Dgram src) ds ++ [DgramErr EAGAIN] -> u_running w = replicate (S (length ds)) true ++ rs ->
  u_time w = tms ++ tm -> length tms = length ds -> u_tun_tx w = map TxSome txs ++ tx -> length txs = length ds ->
  Forall (fun n => 65507 <= Z.of_nat n) txs ->
  exists t' w', server_drain_udp priv peers tun_ips fuel t w = Some (t', w') /\
    u_tun_out w' = u_tun_out w ++ ps.
Proof.
  intros Hall Hok Hk. induction Hall as [|p d ps ds Hd Hall IH];
    intros fuel rs tms tm txs tx t i s w Hf Ht Hs Hip Hkey Hrx Hrun Htm Hltm Htx Hltx Hbig;
    (destruct fuel as [|fuel]; [simpl in Hf; lia|]); cbn [server_drain_udp].
  - assert (g_running w = Some (true, set_running rs w)) as Hg by (unfold g_running; by rewrite Hrun).
    rewrite (UM_bind_eq _ _ _ _ _ Hg). cbn [negb]. cbv match.
    eexists t, _. unfold sys_recvfrom, mbind, UM_bind. cbn [u_rx set_running]. rewrite Hrx. cbn [map app].
    split; [reflexivity|]. simpl. by rewrite app_nil_r.
  - assert (g_running w = Some (true, set_running (replicate (S (length ds)) true ++ rs) w)) as Hg
      by (unfold g_running; by rewrite Hrun).
    rewrite (UM_bind_eq _ _ _ _ _ Hg). cbn [negb]. cbv match.
    apply Forall_cons in Hok as [Hp Hok]. destruct tms as [|now tms]; [done|]. destruct txs as [|n txs]; [done|].
    apply Forall_cons in Hbig as [Hn Hbig].
    match goal with |- context [sys_recvfrom _ ≫= _] => idtac end.
    assert (length d <= UDP_MAX_DGRAM)%nat as Hlen.
    { destruct Hd as (n8 & Hwf & ->). destruct (explicit_frame_len FRAME_DATA 0 n8 p key Hk Hwf) as [-> _].
      destruct Hp as (_ & _ & Hl). unfold UDP_MAX_DGRAM. lia. }
    erewrite UM_bind_eq.
    2:{ unfold sys_recvfrom. cbn [u_rx set_running]. rewrite Hrx. cbn [map app]. rewrite take_ge by done. reflexivity. }
    cbv match. unfold server_datagram. rewrite (data_frame_type _ _ _ Hd). rewrite andb_false_r.
    subst key.
    match goal with |- context [(server_data src d t ≫= _) ?x] => set (w2 := x) end.
    destruct (server_data_run t i s src p d now (tms ++ tm) n (map TxSome txs ++ tx) w2)
      as (t' & s' & Hrun' & Ht' & Hs' & Hip' & Hk'); [done..|destruct Hp as (_ & _ & ?); lia|].
    rewrite (UM_bind_eq _ _ _ _ _ Hrun').
    match goal with |- context [server_drain_udp _ _ _ fuel t' ?x] => set (w3 := x) end.
    destruct (IH Hok fuel rs tms tm txs tx t' i s' w3) as (t2 & w' & Hw' & Ho);
      [simpl in Hf; lia|done|done|done|done|done|done|done|by injection Hltm|done|by injection Hltx|done|].
    exists t2, w'. split; [done|]. rewrite Ho. simpl. by rewrite <- app_assoc.
Qed.

End DataPath.

(** ** Properties *)

(** C28: the session table stays in order through every iteration of the
    server's loop, whatever arrives: at most 64 sessions, never two live ones
    for one address, and 16-byte keys in each. *)
Theorem udp_sessions_unique (A : Aead) (C : Crypto) (CL : CryptoLaws C) (U : Locals)
    (priv : bytes) (peers : list bytes) (tun_ips : list Z) (keepalive : Z) (fuel : nat)
    (w w' : uworld) (t : udp_table) :
  server_loop priv peers tun_ips keepalive fuel table_init w = Some (t, w') -> table_inv t.
Proof. apply server_loop_inv, table_init_inv. Qed.

(** C6: one datagram at the server.  What it writes to the TUN device is the
    payload (or, after a failed write, a prefix of it) of a DATA frame sealed
    under the key of the live session of the sender's address.  The sessions
    afterwards have the keys they had, or come from a handshake of this call:
    the datagram is a first message sealed under the keys of a configured peer,
    its time is fresh by a clock reading of the call, the server's ephemeral key
    was generated in the call, the session keys are derived from it, and a
    datagram received in the call, from the address the session has, begins
    with the KEY_CONFIRM frame under the new session key. *)
Theorem udp_server_authenticates (A : Aead) (L : AeadLaws A) (C : Crypto) (CL : CryptoLaws C) (U : Locals)
    (priv : bytes) (peers : list bytes) (tun_ips : list Z) (sender : sockaddr_in) (buf : bytes)
    (t t' : udp_table) (w w' : uworld) :
  table_inv t -> wf_bytes buf -> wf_dgrams (u_rx w) ->
  server_datagram priv peers tun_ips sender buf t w = Some (t', w') ->
  (u_tun_out w' = u_tun_out w \/
   exists si s fl n8 pkt ws, live t si s /\ sin_addr (s_addr s) = sin_addr sender /\
     wf_explicit FRAME_DATA fl n8 pkt /\ buf = explicit_frame FRAME_DATA fl n8 pkt (s_dec_key s) /\
     u_tun_out w' = u_tun_out w ++ ws /\ concat ws `prefix_of` pkt) /\
  forall i s', live t' i s' ->
    (exists s, live t i s /\ sin_addr (s_addr s') = sin_addr (s_addr s) /\
       s_enc_key s' = s_enc_key s /\ s_dec_key s' = s_dec_key s) \/
    authenticated priv peers (take UDP_HS_DGRAM buf) (s_addr s') (mkKeys (s_enc_key s') (s_dec_key s')) w w'.
Proof.
  intros Ht Hw Hdg H. unfold server_datagram in H.
  destruct ((Z.of_nat UDP_HS_DGRAM <=? zlen buf) && (get buf 0 =? FRAME_HANDSHAKE)) eqn:Hhs.
  - zbool. split; [left; by eapply server_handshake_quiet|]. intros i s' Hi.
    unfold server_handshake in H. unfold u_now in H at 1. do 2 urun_step.
    destruct (u_time w) as [|n1 tm]; simplify_eq/=. destruct (handshake_rate_check _ _ _) as [r rate].
    urun_step. destruct (r <? 0); [urun_step; left; by exists s'|]. urun_step.
    injection E as <- <-.
    destruct (hs_ok a1 && (0 <=? hs_peer a1)) eqn:Hok; [|urun_step; left; by exists s']. zbool.
    pose proof (session_add_frame _ _ _ _ _ _ _ _ H) as (Hrx & Hcl & Hkg).
    destruct (session_add_live _ _ _ _ _ _ _ _ _ _ H Hi) as [(s & Hs & -> & ?)|(-> & -> & ->)]; [left; by exists s|].
    right. destruct (hs_keys a1) as [e d] eqn:Hk. cbn [enc_key dec_key]. rewrite <- Hk.
    apply (authenticated_frame _ _ _ _ _ w (set_urate rate (set_utime tm w)) w1 w'); [done..|].
    eapply server_peers_auth; [..|exact E0|done];
      [auto with aegis| |done..]. rewrite length_take. lia.
  - split; [by eapply server_data_out|]. intros i s' Hi. left. by eapply server_data_live.
Qed.

Lemma Forall2_pick {X Y} (P : X -> Y -> Prop) (l : list X) (k : list Y) (ks : list nat) :
  Forall2 P l k -> Forall2 P (omap (fun i => l !! i) ks) (omap (fun i => k !! i) ks).
Proof.
  intros Hall. induction ks as [|i ks IH]; [constructor|]. simpl.
  destruct (l !! i) as [x|] eqn:Hx.
  - destruct (Forall2_lookup_l _ _ _ _ _ Hall Hx) as (y & Hy & Hp). rewrite Hy. by constructor.
  - assert (k !! i = None) as Hn by (apply lookup_ge_None in Hx; apply lookup_ge_None; by rewrite <- (Forall2_length _ _ _ Hall)).
    by rewrite Hn.
Qed.

(** C7: the UDP tunnel carries packets one by one.  The client turns the
    packets on its TUN device into one datagram each; whatever subset of these
    datagrams arrives at the server, in whatever order and however often, the
    server writes exactly the packets of the datagrams that arrived, whole and
    in the order of arrival.  ([ks] lists the datagrams that arrive, by number.)
    Nothing rejects a repeated one: a replayed datagram is delivered again, as
    often as it arrives. *)
Theorem udp_delivers (A : Aead) (L : AeadLaws A) (C : Crypto) (U : Locals) (priv : bytes) (peers : list bytes)
    (tun_ips : list Z) (key : bytes) (pkts : list bytes) (fuel : nat) (rands rr : list urandom) (tx : list bool)
    (wc : uworld) :
  wf_block key -> Forall packet_ok pkts -> (length pkts < fuel)%nat ->
  u_tun_rx wc = map RxData pkts ++ [RxErr EAGAIN] ->
  u_rand wc = rands ++ rr -> length rands = length pkts -> Forall rand_ok rands ->
  u_tx wc = replicate (length pkts) true ++ tx ->
  exists frames wc', client_drain_tun fuel key wc = Some (true, wc') /\
    u_out wc' = u_out wc ++ map (pair None) frames /\ length frames = length pkts /\
    forall (ks : list nat) (fuel : nat) (src : sockaddr_in) (t : udp_table) (i : nat) (s : udp_session_t)
      (rs : list bool) (tms tm : list Z) (txs : list nat) (tx : list tx_ev) (ws : uworld),
    let ds := omap (fun k => frames !! k) ks in
    (length ds < fuel)%nat -> table_inv t -> live t i s -> sin_addr (s_addr s) = sin_addr src -> s_dec_key s = key ->
    u_rx ws = map (Dgram src) ds ++ [DgramErr EAGAIN] -> u_running ws = replicate (S (length ds)) true ++ rs ->
    u_time ws = tms ++ tm -> length tms = length ds ->
    u_tun_tx ws = map TxSome txs ++ tx -> length txs = length ds -> Forall (fun n => 65507 <= Z.of_nat n) txs ->
    exists t' ws', server_drain_udp priv peers tun_ips fuel t ws = Some (t', ws') /\
      u_tun_out ws' = u_tun_out ws ++ omap (fun k => pkts !! k) ks.
Proof.
  intros Hk Hok Hf Hrx Hr Hlen Hro Htx.
  destruct (client_drain_tun_run key pkts Hk fuel rands rr tx wc) as (frames & wc' & Hrun & Ho & Hall); [done..|].
  exists frames, wc'. split_and!; [done|done|by rewrite (Forall2_length _ _ _ Hall)|].
  intros ks fuel' src t i s rs tms tm txs tx' ws ds Hf' Ht Hs Hip Hkey Hurx Hurun Htm Hltm Htx' Hltx Hbig.
  assert (Forall packet_ok (omap (fun k => pkts !! k) ks)) as Hok'.
  { rewrite Forall_forall in *. intros p (k & _ & Hp)%list_elem_of_omap. apply Hok. by eapply list_elem_of_lookup_2. }
  exact (server_drain_udp_run priv peers tun_ips key src ds _ (Forall2_pick _ _ _ ks Hall) Hok' Hk
    fuel' rs tms tm txs tx' t i s ws Hf' Ht Hs Hip Hkey Hurx Hurun Htm Hltm Htx' Hltx Hbig).
Qed.

(** C8: an honest client and the server, with the client anywhere in the list
    of peers, complete the UDP handshake: the client returns 0, the server has
    a live session for the address the confirmation came from, and each end
    decrypts with the key the other encrypts with. *)
Theorem udp_handshake_agrees (A : Aead) (L : AeadLaws A) (C : Crypto) (CL : CryptoLaws C) (U : Locals)
    (a ea b eb : bytes) (pre post : list bytes) (tun_ips : list Z) (tc tc' ts ts' n1 n2 : Z)
    (kgc kgs : list (option bytes)) (clc cls : list (option Z)) (txc txs rs : list bool) (e : revents)
    (ps : list poll_ev) (src1 src2 sender src : sockaddr_in) (rxc rxs : list dgram_ev) (tm : list Z)
    (k0 : session_keys_t) (rate : rate_state) (t : udp_table) (wc ws : uworld) :
  wf_key32 a -> wf_key32 ea -> wf_key32 b -> wf_key32 eb ->
  Forall (fun pk => udp_hs_parse (udp_init a ea b tc)
    (init_key (derive_into "ee" b (x25519_pub ea)) (derive_into "es_init" b pk)) = None) pre ->
  0 <= tc < 2 ^ 62 -> 0 <= tc' < 2 ^ 62 -> 0 <= ts < 2 ^ 62 -> 0 <= ts' < 2 ^ 62 ->
  Z.abs (ts - tc) <= 60 -> Z.abs (tc' - ts') <= 60 ->
  u_keygen wc = Some ea :: kgc -> u_clock wc = Some tc :: Some tc' :: clc -> u_tx wc = true :: true :: txc ->
  u_rx wc = Dgram src1 (udp_resp a ea b eb ts') ::
            Dgram src2 (confirm_dgram (enc_key (udp_server_keys (udp_shared a ea b eb)))) :: rxc ->
  u_time ws = n1 :: n2 :: tm -> handshake_rate_check (inet_ntop4 (sin_addr sender)) n1 (u_rate ws) = (0, rate) ->
  u_keygen ws = Some eb :: kgs -> u_clock ws = Some ts :: Some ts' :: cls -> u_tx ws = true :: true :: txs ->
  u_running ws = true :: rs -> u_poll ws = PollRet readable e :: ps ->
  u_rx ws = Dgram src (confirm_dgram (enc_key (udp_client_keys (udp_shared a ea b eb)))) :: rxs ->
  table_inv t -> is_Some (session_find t src) \/ (t_count t < UDP_MAX_CLIENTS)%nat ->
  exists kc wc' t' ws' i s,
    udp_handshake_client a (x25519_pub b) k0 wc = Some ((0, kc), wc') /\
    u_out wc' = u_out wc ++ [(None, udp_init a ea b tc); (None, confirm_dgram (enc_key kc))] /\
    server_handshake b (pre ++ x25519_pub a :: post) tun_ips sender (udp_init a ea b tc) t ws = Some (t', ws') /\
    u_out ws' = u_out ws ++ [(Some sender, udp_resp a ea b eb ts'); (Some sender, confirm_dgram (s_enc_key s))] /\
    live t' i s /\ s_addr s = src /\ s_last_seen s = n2 /\
    s_enc_key s = dec_key kc /\ s_dec_key s = enc_key kc.
Proof.
  intros Ha Hea Hb Heb Hpre Htc Htc' Hts Hts' Hd1 Hd2 Hkc Hcc Htxc Hrxc Htm Hrate Hks Hcs Htxs Hrun Hpoll Hrxs Ht Hroom.
  destruct (udp_client_run a ea b eb tc tc' ts' kgc clc txc src1 src2 rxc k0 wc) as (wc' & Hc & Hoc); [done..|].
  exists (udp_client_keys (udp_shared a ea b eb)), wc'.
  assert (length (udp_init a ea b tc) = 60%nat) as Hl
    by (apply udp_hs_build_length; [by apply x25519_pub_wf|apply key_of_digest]).
  unfold server_handshake. unfold u_now, mbind, UM_bind. rewrite Htm. cbn [u_rate set_utime]. rewrite Hrate.
  cbn [Z.ltb Z.compare]. rewrite take_ge by (unfold UDP_HS_DGRAM; lia).
  match goal with |- context [server_peers 0 b _ _ ?st ?w] =>
    destruct (server_peers_run a ea b eb pre post 0 tc ts ts' kgs cls txs rs e ps src rxs st w)
      as (ws' & Hs & Hos & Htm'); [done..|]; rewrite Hs end.
  cbn [hs_ok hs_peer hs_keys hs_sender andb]. replace (0 <=? 0 + zlen pre) with true by (symmetry; apply Z.leb_le; lia).
  cbn [u_time set_urate set_utime] in Htm'. cbn [u_out set_urate set_utime] in Hos.
  unfold session_add. destruct (session_find t src) as [si|] eqn:Hf.
  - apply session_find_Some in Hf as (s0 & (Hi & Hs0 & Ha0) & _).
    unfold u_now, mbind, UM_bind. rewrite Htm'. 
    eexists _, _, si, (mkSess src (snd (session_halves (udp_shared a ea b eb)))
      (fst (session_halves (udp_shared a ea b eb))) (s_tun_ip s0) n2 true).
    split_and!; [done|done|reflexivity|exact Hos| |done..].
    split_and!; [done|simpl; by rewrite list_lookup_alter_eq, Hs0|done].
  - destruct Hroom as [[? ?]|Hroom]; [done|]. apply Nat.ltb_lt in Hroom as Hroom'. rewrite Hroom'.
    destruct (lookup_lt_is_Some_2 (t_sessions t) (t_count t)) as [s0 Hs0]; [rewrite (ti_length _ Ht); done|].
    unfold u_now, mbind, UM_bind. rewrite Htm'. 
    eexists _, _, (t_count t), (mkSess src (snd (session_halves (udp_shared a ea b eb)))
      (fst (session_halves (udp_shared a ea b eb))) (nth (Z.to_nat (0 + zlen pre)) tun_ips 0) n2 true).
    split_and!; [done|done|reflexivity|exact Hos| |done..].
    split_and!; [simpl; lia|simpl; by rewrite !list_lookup_alter_eq, Hs0|done].
Qed.

(** A datagram that fails authentication still moves the session: if it
    comes from the client's address but another port, the server answers to
    that port from then on (until the next datagram). *)
Theorem udp_unauthenticated_port (A : Aead) (C : Crypto) (U : Locals) (priv : bytes) (peers : list bytes)
    (tun_ips : list Z) (sender : sockaddr_in) (buf : bytes) (t : udp_table) (i : nat) (s : udp_session_t) (w : uworld) :
  table_inv t -> live t i s -> sin_addr (s_addr s) = sin_addr sender ->
  zlen buf < Z.of_nat UDP_HS_DGRAM -> frame_parse_explicit buf (s_dec_key s) = None ->
  exists t' s', server_datagram priv peers tun_ips sender buf t w = Some (t', w) /\
    live t' i s' /\ s_addr s' = sender /\ s_enc_key s' = s_enc_key s.
Proof.
  intros Ht Hs Hip Hl Hp. unfold server_datagram. apply Z.leb_gt in Hl. rewrite Hl. cbn [andb].
  unfold server_data. rewrite (session_find_live t i s) by done. pose proof Hs as (Hi & Hsi & Ha). rewrite Hsi, Hp.
  destruct (sin_port (s_addr s) =? sin_port sender) eqn:E; zbool; cbn [negb].
  - exists t, s. split_and!; [done|done| |done]. destruct (s_addr s), sender. simpl in *. congruence.
  - eexists _, _. split; [reflexivity|]. split; [split_and!; [done|simpl; by rewrite list_lookup_alter_eq, Hsi|done]|].
    split; [|done]. simpl. rewrite Hip. by destruct sender.
Qed.

(** With a keepalive period of at most five minutes no session ever expires:
    sending the keepalive counts as activity of the peer. *)
Lemma keepalive_never_expires `{Aead} (keepalive now : Z) (s s' : udp_session_t) (w w' : uworld) :
  0 < keepalive <= 300 -> s_active s = true ->
  keepalive_one keepalive now s w = Some (s', w') -> s_active s' = true.
Proof.
  intros Hk Ha H0. unfold keepalive_one in H0. rewrite Ha in H0. cbn [negb] in H0. urun_step.
  destruct ((0 <? keepalive) && (keepalive <=? now - s_last_seen s)) eqn:Ek.
  - repeat urun_step. cbn [s_last_seen] in H0. rewrite Z.sub_diag in H0. cbn [Z.ltb Z.compare] in H0. by urun_step.
  - injection E as <- <-. apply andb_false_iff in Ek as [Ek|Ek]; zbool; [lia|].
    destruct (300 <? now - s_last_seen s) eqn:E'; zbool; [lia|by urun_step].
Qed.

(** *** A run *)

Definition demo_addr : sockaddr_in := mkAddr [10; 0; 0; 1] 5000.
Definition demo_udp_init : bytes := @udp_init pure_c toy_crypto no_locals key_a key_ea key_b 1000.
Definition demo_udp_resp : bytes := @udp_resp pure_c toy_crypto no_locals key_a key_ea key_b key_eb 1010.
Definition demo_udp_sh : bytes := @udp_shared toy_crypto no_locals key_a key_ea key_b key_eb.
Definition demo_ck : session_keys_t := @udp_client_keys toy_crypto demo_udp_sh.
Definition demo_sk : session_keys_t := @udp_server_keys toy_crypto demo_udp_sh.
Definition demo_peers : list bytes := [1 :: replicate 31 9; key_a].

Definition demo_uc : uworld :=
  mkU [] [] [Dgram demo_addr demo_udp_resp; Dgram demo_addr (@confirm_dgram pure_c (enc_key demo_sk))]
    [true; true] [] [] [] [] [Some 1000; Some 1011] [] [Some key_ea] [] rate_init.
Definition demo_us : uworld :=
  mkU [true] [PollRet readable no_event] [Dgram demo_addr (@confirm_dgram pure_c (enc_key demo_ck))]
    [true; true] [] [] [] [] [Some 1005; Some 1010] [50; 51] [Some key_eb] [] rate_init.

(** The other peer's key does not open the message. *)
Lemma demo_other_peer :
  @udp_hs_parse pure_c demo_udp_init
    (@init_key toy_crypto (@derive_into toy_crypto no_locals "ee" key_b (@x25519_pub toy_crypto key_ea))
       (@derive_into toy_crypto no_locals "es_init" key_b (1 :: replicate 31 9))) = None.
Proof. vm_compute. reflexivity. Qed.

Lemma udp_handshake_agrees_witness :
  exists kc wc' t' ws' i s,
    @udp_handshake_client pure_c toy_crypto no_locals key_a key_b demo_keys demo_uc = Some ((0, kc), wc') /\
    @server_handshake pure_c toy_crypto no_locals key_b demo_peers [0; 7] demo_addr demo_udp_init table_init demo_us =
      Some (t', ws') /\
    live t' i s /\ s_addr s = demo_addr /\ s_enc_key s = dec_key kc /\ s_dec_key s = enc_key kc.
Proof.
  destruct (udp_handshake_agrees pure_c pure_c_laws toy_crypto toy_crypto_laws no_locals
    key_a key_ea key_b key_eb [1 :: replicate 31 9] [] [0; 7] 1000 1011 1005 1010 50 51
    [] [] [] [] [] [] [] no_event [] demo_addr demo_addr demo_addr demo_addr [] [] []
    demo_keys (snd (handshake_rate_check (inet_ntop4 (sin_addr demo_addr)) 50 rate_init)) table_init demo_uc demo_us)
    as (kc & wc' & t' & ws' & i & s & Hc & _ & Hs & _ & Hl & Ha & _ & He & Hd);
    try reflexivity; try (apply wf_key32_rep; unfold is_uint; lia); try lia.
  - constructor; [exact demo_other_peer|constructor].
  - apply table_init_inv.
  - right. unfold UDP_MAX_CLIENTS. simpl. lia.
  - exists kc, wc', t', ws', i, s. split_and!; assumption.
Defined.

(** A table with one session, its keys known. *)
Definition demo_table : udp_table :=
  mkTable (mkSess demo_addr demo_nonce demo_key 7 50 true :: replicate 63 sess_zero) 1.

Lemma demo_table_live : live demo_table 0 (mkSess demo_addr demo_nonce demo_key 7 50 true).
Proof. split_and!; [simpl; lia|reflexivity|reflexivity]. Qed.

Lemma demo_table_inv : table_inv demo_table.
Proof.
  constructor; [reflexivity|unfold UDP_MAX_CLIENTS; simpl; lia| |].
  - intros i j s s' (Hi & _) (Hj & _) _. simpl in *. lia.
  - intros i s (Hi & Hs & _). simpl in Hi. assert (i = 0%nat) as -> by lia. simpl in Hs. injection Hs as <-. simpl.
    split; (split; [reflexivity|apply wf_bytesb_spec; vm_compute; reflexivity]).
Qed.

Definition demo_uworld (rx : list dgram_ev) : uworld :=
  mkU [true; true; true] [] rx [true] [] [RxData demo_msg; RxErr EAGAIN] [] [] [] [60] [] [demo_urandom] rate_init.

Lemma udp_unauthenticated_port_witness :
  exists t' s', @server_datagram pure_c toy_crypto no_locals key_b demo_peers [0; 7] (mkAddr [10; 0; 0; 1] 6666) [1; 2; 3]
      demo_table (demo_uworld []) = Some (t', demo_uworld []) /\
    live t' 0 s' /\ s_addr s' = mkAddr [10; 0; 0; 1] 6666 /\ s_enc_key s' = demo_nonce.
Proof.
  apply (udp_unauthenticated_port pure_c toy_crypto no_locals key_b demo_peers [0; 7] (mkAddr [10; 0; 0; 1] 6666) [1; 2; 3]
    demo_table 0 (mkSess demo_addr demo_nonce demo_key 7 50 true) (demo_uworld [])).
  - apply demo_table_inv.
  - apply demo_table_live.
  - reflexivity.
  - reflexivity.
  - vm_compute. reflexivity.
Defined.

Definition demo_data : bytes := @explicit_frame pure_c FRAME_DATA 0 (replicate 8 42) demo_msg demo_key.
Definition demo_ready : uworld :=
  mkU [true; true; true; false] [PollRet readable no_event] [Dgram demo_addr demo_data; DgramErr EAGAIN]
    [] [] [] [TxSome 20] [] [] [60; 61; 62] [] [] rate_init.

(** A DATA frame whose payload is written, and a handshake that makes a session. *)
Lemma udp_server_authenticates_witness :
  (exists t' w', @server_datagram pure_c toy_crypto no_locals key_b demo_peers [0; 7] demo_addr demo_data demo_table demo_ready =
     Some (t', w') /\ u_tun_out w' = [demo_msg] /\
   (u_tun_out w' = [] \/
    exists si s fl n8 pkt ws, live demo_table si s /\ sin_addr (s_addr s) = [10; 0; 0; 1] /\
      wf_explicit FRAME_DATA fl n8 pkt /\ demo_data = @explicit_frame pure_c FRAME_DATA fl n8 pkt (s_dec_key s) /\
      u_tun_out w' = [] ++ ws /\ concat ws `prefix_of` pkt)) /\
  exists t' w' s', @server_datagram pure_c toy_crypto no_locals key_b demo_peers [0; 7] demo_addr demo_udp_init table_init demo_us =
     Some (t', w') /\ live t' 0 s' /\
   @authenticated pure_c toy_crypto no_locals key_b demo_peers (take UDP_HS_DGRAM demo_udp_init) (s_addr s')
     (mkKeys (s_enc_key s') (s_dec_key s')) demo_us w'.
Proof.
  split.
  - assert (option_map (fun x => u_tun_out (snd x))
      (@server_datagram pure_c toy_crypto no_locals key_b demo_peers [0; 7] demo_addr demo_data demo_table demo_ready) =
      Some [demo_msg]) as Ho by (vm_compute; reflexivity).
    destruct (@server_datagram pure_c toy_crypto no_locals key_b demo_peers [0; 7] demo_addr demo_data demo_table demo_ready)
      as [[t' w']|] eqn:E; [|discriminate Ho].
    exists t', w'. split; [reflexivity|]. split; [apply (inj Some) in Ho; exact Ho|].
    apply (udp_server_authenticates pure_c pure_c_laws toy_crypto toy_crypto_laws no_locals key_b demo_peers [0; 7]
      demo_addr demo_data demo_table t' demo_ready w'); [apply demo_table_inv|apply wf_bytesb_spec; vm_compute; reflexivity| |exact E].
    constructor; [apply wf_bytesb_spec; vm_compute; reflexivity|constructor; [exact I|constructor]].
  - assert (option_map (fun x => (t_count (fst x), option_map s_active (t_sessions (fst x) !! 0%nat)))
      (@server_datagram pure_c toy_crypto no_locals key_b demo_peers [0; 7] demo_addr demo_udp_init table_init demo_us) =
      Some (1%nat, Some true)) as Ho by (vm_compute; reflexivity).
    destruct (@server_datagram pure_c toy_crypto no_locals key_b demo_peers [0; 7] demo_addr demo_udp_init table_init demo_us)
      as [[t' w']|] eqn:E; [|discriminate Ho].
    cbn [option_map fst] in Ho. apply (inj Some) in Ho. injection Ho as Hc Hs.
    destruct (t_sessions t' !! 0%nat) as [s'|] eqn:Hs'; [|discriminate Hs]. injection Hs as Hs.
    assert (live t' 0 s') as Hl by (split_and!; [lia|exact Hs'|exact Hs]).
    exists t', w', s'. split; [reflexivity|]. split; [exact Hl|].
    destruct (udp_server_authenticates pure_c pure_c_laws toy_crypto toy_crypto_laws no_locals key_b demo_peers [0; 7]
      demo_addr demo_udp_init table_init t' demo_us w') as [_ Hlive].
    + apply table_init_inv.
    + apply wf_bytesb_spec. vm_compute. reflexivity.
    + constructor; [apply wf_bytesb_spec; vm_compute; reflexivity|constructor].
    + exact E.
    + destruct (Hlive 0%nat s' Hl) as [(s & (Hlt & _) & _)|Ha]; [simpl in Hlt; lia|exact Ha].
Defined.

Lemma udp_sessions_unique_witness :
  exists t w', @server_loop pure_c toy_crypto no_locals key_b demo_peers [0; 7] 0 6 table_init demo_ready = Some (t, w') /\
    table_inv t.
Proof.
  destruct (@server_loop pure_c toy_crypto no_locals key_b demo_peers [0; 7] 0 6 table_init demo_ready)
    as [[t w']|] eqn:E; [|vm_compute in E; discriminate E].
  exists t, w'. split; [reflexivity|].
  exact (udp_sessions_unique pure_c toy_crypto toy_crypto_laws no_locals key_b demo_peers [0; 7] 0 6 demo_ready w' t E).
Defined.

Definition demo_twice (frame : bytes) : uworld :=
  mkU [true; true; true] [] [Dgram demo_addr frame; Dgram demo_addr frame; DgramErr EAGAIN] [] [] []
    [TxSome (Z.to_nat 65507); TxSome (Z.to_nat 65507)] [] [] [60; 61] [] [] rate_init.

(** One packet; its datagram arrives twice, and is delivered twice. *)
Lemma udp_delivers_witness :
  exists frame wc', @client_drain_tun pure_c 2 demo_key (demo_uworld []) = Some (true, wc') /\
    u_out wc' = [(None, frame)] /\
    exists t' ws', @server_drain_udp pure_c toy_crypto no_locals key_b demo_peers [0; 7] 3 demo_table
        (demo_twice frame) = Some (t', ws') /\ u_tun_out ws' = [demo_msg; demo_msg].
Proof.
  destruct (udp_delivers pure_c pure_c_laws toy_crypto no_locals key_b demo_peers [0; 7] demo_key [demo_msg] 2
    [demo_urandom] [] [] (demo_uworld [])) as (frames & wc' & Hr & Ho & Hl & Hs).
  - split; [reflexivity|apply wf_bytesb_spec; vm_compute; reflexivity].
  - constructor; [|constructor]. split; [apply wf_bytesb_spec; vm_compute; reflexivity|].
    split; [discriminate|vm_compute; discriminate].
  - simpl. lia.
  - reflexivity.
  - reflexivity.
  - reflexivity.
  - constructor; [|constructor]. split; [|eexists; vm_compute; reflexivity].
    do 3 (constructor; [first [exact I|apply wf_bytesb_spec; vm_compute; reflexivity]|]). constructor.
  - reflexivity.
  - destruct frames as [|frame [|]]; try discriminate Hl. exists frame, wc'. split; [exact Hr|]. split; [exact Ho|].
    apply (Hs [0%nat; 0%nat] 3%nat demo_addr demo_table 0%nat (mkSess demo_addr demo_nonce demo_key 7 50 true)
      [] [60; 61] [] [Z.to_nat 65507; Z.to_nat 65507] [] (demo_twice frame));
      try reflexivity; [simpl; lia|apply demo_table_inv|apply demo_table_live|].
    constructor; [|constructor; [|constructor]]; rewrite Z2Nat.id; lia.
Defined.
