(* ===== verification/ConfDoc.v ===== *)
(** * Configuration texts

    A configuration file as people and the tools write it: sections with
    entries, blank lines and comments in between.  [doc_text] is the text of
    such a document, [plain] the configuration it means; loading the text gives
    the table of the plain configuration ([load_doc]).  Used by the commands
    that edit these files and by the start-up code that reads them. *)

From stdpp Require Import sets.
From S2P Require Import Prelude IniConfig.

(** Lines and text. *)
Definition unlines (ls : list bytes) : bytes := ls ≫= fun l => l ++ [10].

(** A line that fits the buffer of [fgets]. *)
Definition line_ok (l : bytes) : Prop := text l /\ (length l < 511)%nat.

Inductive cline := Entry (e : ini_entry_t) | Note (l : bytes).

Definition line_text (c : cline) : bytes := match c with Entry e => entry_text e | Note l => l end.

Definition note_ok (l : bytes) : Prop := line_ok l /\ ignored l.

Definition cline_ok (c : cline) : Prop := match c with Entry e => entry_ok e | Note l => note_ok l end.

Definition entries_of (cs : list cline) : list ini_entry_t :=
  omap (fun c => match c with Entry e => Some e | Note _ => None end) cs.

(** Sections with their lines; the text before the first one is a list of
    notes. *)
Abbreviation doc := (list (bytes * list cline)).

Definition plain (d : doc) : config := map (fun s => (s.1, entries_of s.2)) d.

Definition section_lines (s : bytes * list cline) : list bytes := header_text s.1 :: map line_text s.2.

Definition doc_lines (pre : list bytes) (d : doc) : list bytes := pre ++ (d ≫= section_lines).
Definition doc_text (pre : list bytes) (d : doc) : bytes := unlines (doc_lines pre d).

(** Names without brackets. *)
Definition plain_name (nm : bytes) : Prop := (91 ∉ nm) /\ (93 ∉ nm).

Record dsec_ok (s : bytes * list cline) : Prop := {
  ds_name : text s.1;
  ds_plain : plain_name s.1;
  ds_fits : (length s.1 <= 508)%nat;
  ds_count : (length (entries_of s.2) <= INI_MAX_KEYS)%nat;
  ds_lines : Forall cline_ok s.2
}.

Definition doc_ok (pre : list bytes) (d : doc) : Prop := Forall note_ok pre /\ Forall dsec_ok d.

(** ** Lines *)

Lemma unlines_cons l ls : unlines (l :: ls) = l ++ 10 :: unlines ls.
Proof. change (unlines (l :: ls)) with ((l ++ [10]) ++ unlines ls). by rewrite <- app_assoc. Qed.

Lemma unlines_app a b : unlines (a ++ b) = unlines a ++ unlines b.
Proof. apply bind_app. Qed.

Lemma section_lines_cons s (d : doc) : (s :: d) ≫= section_lines = section_lines s ++ (d ≫= section_lines).
Proof. reflexivity. Qed.

Lemma doc_text_cons s d : doc_text [] (s :: d) = unlines (section_lines s) ++ doc_text [] d.
Proof. unfold doc_text, doc_lines. rewrite !app_nil_l. by rewrite section_lines_cons, unlines_app. Qed.

Lemma doc_text_pre pre d : doc_text pre d = unlines pre ++ doc_text [] d.
Proof. unfold doc_text, doc_lines. by rewrite unlines_app. Qed.

Lemma cline_line_ok c : cline_ok c -> line_ok (line_text c).
Proof. destruct c as [e|l]; [apply entry_text_ok|by intros []]. Qed.

Lemma header_line_ok s : dsec_ok s -> line_ok (header_text s.1).
Proof.
  intros [Hn _ Hf _ _]. unfold header_text. split.
  - constructor; [done|]. apply text_app. split; [done|by repeat constructor].
  - simpl. rewrite length_app. simpl. lia.
Qed.

Lemma section_lines_ok s : dsec_ok s -> Forall line_ok (section_lines s).
Proof.
  intros Hs. constructor; [by apply header_line_ok|]. rewrite Forall_map.
  eapply Forall_impl; [exact (ds_lines _ Hs)|]. apply cline_line_ok.
Qed.

Lemma doc_lines_ok pre d : doc_ok pre d -> Forall line_ok (doc_lines pre d).
Proof.
  intros [Hp Hd]. apply Forall_app. split; [by eapply Forall_impl; [exact Hp|intros ? []]|].
  induction Hd as [|s d Hs _ IH]; [constructor|]. rewrite section_lines_cons. apply Forall_app.
  split; [by apply section_lines_ok|done].
Qed.

(** Only a header begins with a bracket. *)
Lemma body_first c : cline_ok c -> match line_text c ++ [10] with c :: _ => c =? 91 | [] => false end = false.
Proof.
  destruct c as [e|l]; simpl.
  - intros [_ _ _ _ (c & k & Hk & _ & _ & H91) _ _]. unfold entry_text. rewrite Hk. simpl. by apply Z.eqb_neq.
  - intros [_ Hi]. destruct l as [|c l]; [done|]. simpl. apply Z.eqb_neq. intros ->. cbn in Hi. by destruct Hi.
Qed.

Lemma entries_of_app a b : entries_of (a ++ b) = entries_of a ++ entries_of b.
Proof. apply omap_app. Qed.

Lemma plain_app a b : plain (a ++ b) = plain a ++ plain b.
Proof. apply map_app. Qed.

Lemma plain_length d : length (plain d) = length d.
Proof. apply length_map. Qed.

(** ** Loading *)

Lemma load_notes ls rest st : Forall note_ok ls -> load (unlines ls ++ rest) st = load rest st.
Proof.
  induction 1 as [|l ls [[Ht Hl] Hi] _ IH]; [done|].
  rewrite unlines_cons, <- app_assoc. simpl. by rewrite load_ignored.
Qed.

Lemma load_body cs : forall es0 rest secs nm,
  Forall cline_ok cs -> (length (es0 ++ entries_of cs) <= INI_MAX_KEYS)%nat -> (S (length secs) < INI_MAX_SECTIONS)%nat ->
  load (unlines (map line_text cs) ++ rest) (mkLoad (table (secs ++ [(nm, es0)])) (Some (length secs)) []) =
  load rest (mkLoad (table (secs ++ [(nm, es0 ++ entries_of cs)])) (Some (length secs)) []).
Proof.
  induction cs as [|c cs IH]; intros es0 rest secs nm Hok Hl Hs; [by rewrite app_nil_r|].
  apply Forall_cons in Hok as [Hc Hok]. destruct (cline_line_ok c Hc) as [Ht Hlen]. cbn [map].
  rewrite unlines_cons, <- app_assoc. simpl (_ ++ rest). destruct c as [e|l].
  - change (entries_of (Entry e :: cs)) with ([e] ++ entries_of cs) in *. rewrite app_assoc in Hl |- *.
    rewrite load_line; [|done..|simpl; rewrite length_app; simpl; lia]. cbn [line_text].
    rewrite entry_line by (done || (rewrite !length_app in Hl; simpl in Hl; lia)). by rewrite IH.
  - destruct Hc as [_ Hi]. rewrite load_ignored by done. by apply IH.
Qed.

Lemma load_doc_app d rest : forall dn sec,
  Forall dsec_ok d -> (length dn + length d <= 7)%nat ->
  exists sec', load (doc_text [] d ++ rest) (mkLoad (table dn) sec []) = load rest (mkLoad (table (dn ++ plain d)) sec' []).
Proof.
  induction d as [|[nm cs] d IH]; intros dn sec Hok Hd.
  - exists sec. by rewrite app_nil_r.
  - apply Forall_cons in Hok as [Hs Hok]. destruct (header_line_ok _ Hs) as [Ht Hlen].
    destruct Hs as [Hn [_ Hc] Hf Hcount Hes]. cbn [fst snd length] in *.
    rewrite doc_text_cons, <- app_assoc. unfold section_lines at 1. cbn [fst snd].
    rewrite unlines_cons, <- app_assoc. simpl (_ ++ (_ ++ rest)).
    rewrite load_line; [|done..|cbn -[INI_MAX_SECTIONS]; unfold INI_MAX_SECTIONS; lia].
    rewrite header_line by (done || unfold INI_MAX_SECTIONS; lia).
    destruct (decide (length dn = 7%nat)) as [H7|H7]; [lia|].
    rewrite load_body by (done || unfold INI_MAX_SECTIONS; lia). simpl ([] ++ _).
    destruct (IH (dn ++ [(nm, entries_of cs)]) (Some (length dn))) as [sec' ->]; [done|rewrite length_app; simpl; lia|].
    exists sec'. by rewrite <- app_assoc.
Qed.

(** A document means its plain configuration, up to the size of the table. *)
Lemma load_doc pre d : doc_ok pre d ->
  l_cfg (load (doc_text pre d) (mkLoad conf_zero None [])) = table (kept 7 (plain d)).
Proof.
  intros [Hp Hd]. rewrite doc_text_pre, load_notes by done. change conf_zero with (table []).
  destruct (decide (length d <= 7)%nat) as [Hl|Hl].
  - destruct (load_doc_app d [] [] None) as [sec E]; [done|simpl; lia|]. rewrite app_nil_r in E. rewrite E.
    unfold kept. rewrite take_ge, drop_ge by (rewrite plain_length; lia). simpl. by rewrite app_nil_r.
  - destruct (lookup_lt_is_Some_2 d 7) as [s Hs]; [lia|]. rewrite <- (take_drop_middle d 7 s Hs).
    assert (length (take 7 d) = 7%nat) as H7 by (rewrite length_take; lia).
    assert (doc_text [] (take 7 d ++ s :: drop 8 d) = doc_text [] (take 7 d) ++ doc_text [] (s :: drop 8 d)) as ->.
    { unfold doc_text, doc_lines. rewrite !app_nil_l. by rewrite bind_app, unlines_app. }
    destruct (load_doc_app (take 7 d) (doc_text [] (s :: drop 8 d)) [] None) as [sec ->];
      [by apply Forall_take|simpl; lia|].
    rewrite Forall_forall in Hd. assert (dsec_ok s) as Hsok by (apply Hd; by eapply list_elem_of_lookup_2).
    destruct (header_line_ok _ Hsok) as [Ht Hlen]. destruct Hsok as [Hn [_ Hc] _ _ _].
    rewrite doc_text_cons. unfold section_lines. rewrite unlines_cons, <- app_assoc. simpl (_ ++ doc_text _ _).
    assert (length (plain (take 7 d)) = 7%nat) as Hp7 by by rewrite plain_length.
    rewrite load_line; [|done..|simpl; rewrite Hp7; unfold INI_MAX_SECTIONS; lia].
    rewrite header_line by (done || (simpl; rewrite Hp7; unfold INI_MAX_SECTIONS; lia)).
    rewrite load_full by (simpl; rewrite length_app, Hp7; unfold INI_MAX_SECTIONS; simpl; lia).
    unfold kept. rewrite plain_app. rewrite take_app_length' by done. rewrite drop_app_length' by done. done.
Qed.

Lemma iniconf_load_doc pre d cfg : doc_ok pre d ->
  iniconf_load cfg (Some (doc_text pre d)) [] = (0, table (kept 7 (plain d))).
Proof. intros. unfold iniconf_load. by rewrite load_doc. Qed.

(** ** Lookups *)

Lemma find_entry_elem es key v : find_entry es key = Some v ->
  exists e, e ∈ es /\ strcaseeq (e_key e) key = true /\ e_value e = v.
Proof.
  induction es as [|e es IH]; simpl; [done|]. destruct (strcaseeq (e_key e) key) eqn:E.
  - intros [= <-]. exists e. set_solver.
  - intros (e' & ? & ?)%IH. exists e'. set_solver.
Qed.

Lemma table_sections secs : take (conf_count (table secs)) (sections (table secs)) = map (fun s => mkSection (Some s.1) s.2) secs.
Proof. simpl. by rewrite <- (length_map (fun s => mkSection (Some s.1) s.2) secs) at 1; rewrite take_app_length. Qed.

(** The sections of a configuration that answer to a name. *)
Definition secs_named (section : bytes) (secs : config) : config := filter (fun s => strcaseeq s.1 section = true) secs.

Lemma filter_named secs section :
  filter (fun s => named section s = true) (map (fun s => mkSection (Some s.1) s.2) secs) =
  map (fun s => mkSection (Some s.1) s.2) (secs_named section secs).
Proof.
  induction secs as [|s secs IH]; [done|]. unfold secs_named in *. cbn [map].
  destruct (strcaseeq s.1 section) eqn:E.
  - rewrite !filter_cons_True by done. cbn [map]. by rewrite IH.
  - rewrite !filter_cons_False; [done|by rewrite E|unfold named; simpl; by rewrite E].
Qed.

Lemma get_indexed_table secs section key i :
  iniconf_get_indexed (table secs) section (Z.of_nat i) key =
  secs_named section secs !! i ≫= fun s => find_entry s.2 key.
Proof.
  unfold iniconf_get_indexed. rewrite table_sections.
  pose proof (indexed_loop_spec (map (fun s => mkSection (Some s.1) s.2) secs) section key 0 i) as E.
  rewrite Z.add_0_l in E. rewrite E, filter_named, list_lookup_fmap. by destruct (secs_named section secs !! i).
Qed.

Lemma get_table secs section key :
  iniconf_get (table secs) section key = secs_named section secs !! 0%nat ≫= fun s => find_entry s.2 key.
Proof.
  unfold iniconf_get. rewrite table_sections, get_loop_spec, filter_named. by destruct (secs_named _ _).
Qed.

Lemma kept_elem n secs s : s ∈ kept n secs -> exists s', s' ∈ secs /\ s.1 = s'.1 /\ (s = s' \/ s.2 = []).
Proof.
  unfold kept. intros [H|H]%elem_of_app.
  - exists s. split_and!; [|done|by left]. by eapply subseteq_take.
  - apply list_elem_of_fmap in H as (s' & -> & H). exists s'. split_and!; [|done|by right].
    eapply subseteq_drop, subseteq_take, H.
Qed.

Lemma kept_all secs : (length secs <= 7)%nat -> kept 7 secs = secs.
Proof. intros. unfold kept. rewrite take_ge, drop_ge by lia. simpl. by rewrite app_nil_r. Qed.

(** ** Entries by computation *)

(** A key of the tools' own vocabulary. *)
Definition key_okb (k : bytes) : bool :=
  bool_decide (text k) && bool_decide (ltrim k = k) && bool_decide (rtrim k = k) && negb (bool_decide (61 ∈ k)) &&
  match k with c :: _ => negb (c =? 35) && negb (c =? 59) && negb (c =? 91) | [] => false end &&
  (length k <=? 40)%nat.

(** A value that fits a line. *)
Definition value_ok (v : bytes) : Prop := text v /\ trimmed v /\ (length v <= 467)%nat.

Lemma entry_ok_key k v : key_okb (ascii_bytes k) = true -> value_ok v -> entry_ok (mkEntry (ascii_bytes k) v).
Proof.
  unfold key_okb. intros Hk (Hv & Ht & Hl). repeat (apply andb_true_iff in Hk as [Hk ?]).
  repeat match goal with
  | H : bool_decide _ = true |- _ => apply bool_decide_eq_true in H
  | H : negb (bool_decide _) = true |- _ => apply negb_true_iff, bool_decide_eq_false in H
  end. constructor; cbn [e_key e_value]; [done..|by split|done| |done|zbool; lia].
  destruct (ascii_bytes k) as [|c l]; [done|]. zbool. by exists c, l.
Qed.

Definition value_okb (v : bytes) : bool :=
  bool_decide (text v) && bool_decide (ltrim v = v) && bool_decide (rtrim v = v) && (length v <=? 467)%nat.

Lemma value_okb_spec v : value_okb v = true -> value_ok v.
Proof.
  unfold value_okb, value_ok, trimmed. intros H. repeat (apply andb_true_iff in H as [H ?]).
  rewrite !bool_decide_eq_true in *. zbool. done.
Qed.
