(* ===== verification/ConfigMgmt.v ===== *)
(** * The configuration commands (config_mgmt.c)

    [keygen], [peer add], [peer delete] and [create tun]: commands that edit
    text files.  The file system is that of [Keyfile]; a stdio stream that is
    written and closed is one write of all its text (how much of it the kernel
    takes is the environment's choice, and the code does not look).  What is
    printed is left out; the directories ([mkdir]) are in Disk.v. *)

From stdpp Require Import sets gmap.
From S2P Require Import Prelude Util Keyfile IniConfig ConfDoc.

(** ** The C library *)

(** [strstr]: the text from the first occurrence on. *)
Definition starts_with (needle hay : bytes) : bool := bool_decide (take (length needle) hay = needle).

Fixpoint strstr_at (hay needle : bytes) : option bytes :=
  if starts_with needle hay then Some hay
  else match hay with [] => None | _ :: h => strstr_at h needle end.

Definition contains (hay needle : bytes) : bool :=
  match strstr_at hay needle with Some _ => true | None => false end.

(** The successive results of [fgets]: every call takes a character. *)
Fixpoint lines_loop (fuel size : nat) (data : bytes) : list bytes :=
  match fuel with
  | O => []
  | S f => match fgets size data with
           | None => []
           | Some (l, rest) => l :: lines_loop f size rest
           end
  end.

Definition fgets_lines (size : nat) (data : bytes) : list bytes := lines_loop (S (length data)) size data.

(** [snprintf(buf, n, ...)]: at most [n - 1] characters. *)
Definition snp (n : nat) (s : string) : string := String.substring 0 (n - 1) s.

(** [fopen(p, "r")]: what the stream will give. *)
Definition fopen_r (env : fs_env) (p : path) (fs : filesystem) : option bytes :=
  if negb (can_open env p) then None
  else match fs !! p with
       | None => None
       | Some f => Some (if read_fails env p then [] else f_data f)
       end.

(** [fopen(p, "w")], the text, [fclose]. *)
Definition write_text (env : fs_env) (p : path) (d : bytes) (fs : filesystem) : option filesystem :=
  match open_trunc env p 438 fs with  (* 0666 *)
  | None => None
  | Some fs1 => Some (snd (sys_write_file env p d fs1))
  end.

(** [fopen(p, "a")], the text, [fclose]. *)
Definition append_text (env : fs_env) (p : path) (d : bytes) (fs : filesystem) : option filesystem :=
  if negb (can_open env p) then None
  else
    let fs1 := match fs !! p with
               | Some _ => fs
               | None => <[p := mkFile (Z.land 438 (Z.lnot (umask env))) []]> fs
               end in
    Some (snd (sys_write_file env p d fs1)).

(** ** Where things are *)

(** [getenv("SUDO_USER")], the home directory of that user, [getenv("HOME")]. *)
Definition get_real_home (sudo_user : option string) (pw_dir : string -> option string)
    (home : option string) : string :=
  let fallback := match home with Some h => h | None => "/tmp" end in
  match sudo_user with
  | Some u => if bool_decide (u = "") then fallback
              else match pw_dir u with Some d => d | None => fallback end
  | None => fallback
  end.

Fixpoint take_word (l : bytes) : bytes :=
  match l with
  | [] => []
  | c :: l' => if (c =? 32) || (c =? 10) then [] else c :: take_word l'
  end.

(** [out] is what [ip route show default] printed, [None] if it did not run;
    the result is also kept in the static variable. *)
Definition detect_default_iface (iface : bytes) (out : option bytes) : bytes :=
  if negb (bool_decide (iface = [])) then iface
  else
    let fallback := ascii_bytes "eth0" in
    match out ≫= fgets 256 with
    | None => fallback
    | Some (line, _) =>
        match strstr_at (c_str line) (ascii_bytes " dev ") with
        | None => fallback
        | Some dev =>
            let w := take_word (drop 5 dev) in
            if (0 <? length w)%nat && (length w <? 16)%nat then w else fallback
        end
    end.

Definition key_dir (home : string) : path := snp 768 (home ++ "/.aegis-tunnel").
Definition peer_dir (home : string) : path := snp 768 (key_dir home ++ "/peers").
Definition peer_path (home host : string) : path := snp 768 (peer_dir home ++ "/" ++ host ++ ".pub").
Definition CONF : path := "aegis.conf".

(** ** The text of the files *)

(** [fprintf(f, "key = %s\n", v)]. *)
Definition assign (key : string) (v : bytes) : bytes := ascii_bytes key ++ [32; 61; 32] ++ v.

(** The configuration that [keygen] and the first [peer add] write. *)
Definition base_conf (pubkey iface : bytes) : list bytes :=
  [ascii_bytes "[Interface]";
   assign "PrivateKey" (ascii_bytes "~/.aegis-tunnel/private.key");
   assign "PublicKey" pubkey;
   assign "Port" (ascii_bytes "9000");
   [];
   ascii_bytes "[Tunnel]";
   assign "Keepalive" (ascii_bytes "30");
   assign "NATInterface" iface].

(** [char hex\[65\]] filled by [fread(hex, 1, 64, f)], as a string. *)
Definition read_hex (env : fs_env) (p : path) (fs : filesystem) : bytes :=
  match fopen_r env p fs with None => [] | Some d => c_str (take 64 d) end.

(** The same with the newlines at the end cut off. *)
Definition is_newline (c : Z) : bool := (c =? 10) || (c =? 13).

Fixpoint strip_newlines (l : bytes) : bytes :=
  match l with
  | [] => []
  | c :: l' => match strip_newlines l' with [] => if is_newline c then [] else [c] | t => c :: t end
  end.

Definition read_key_text (env : fs_env) (p : path) (fs : filesystem) : bytes :=
  match fopen_r env p fs with None => [] | Some d => c_str (strip_newlines (take 64 d)) end.

(** ** The commands *)

Section commands.
Context (env : fs_env) (home : string) (iface : bytes).

Definition unlink (p : path) (fs : filesystem) : filesystem := delete p fs.

Definition cmd_keygen (keypair : option (bytes * bytes)) (fs : filesystem) : Z * filesystem :=
  let priv := snp 768 (key_dir home ++ "/private.key") in
  let pub := snp 768 (key_dir home ++ "/public.key") in
  let '(r, fs1) := keyfile_generate env keypair priv pub fs in
  if negb (r =? 0) then (1, fs1)
  else
    let hex := read_hex env pub fs1 in
    let fs2 := unlink "aegis-client.conf" (unlink "aegis-server.conf" (unlink CONF fs1)) in
    match write_text env CONF (unlines (base_conf hex iface)) fs2 with
    | None => (0, fs2)
    | Some fs3 => (0, fs3)
    end.

(** The key file of the new peer: a copy of a file, or the digits. *)
Definition store_key (host hex_or_file : string) (fs : filesystem) : Z * filesystem :=
  let p := peer_path home host in
  let arg := ascii_bytes hex_or_file in
  if bool_decide (47 ∈ arg) || bool_decide (46 ∈ arg) then
    match fopen_r env hex_or_file fs with
    | None => (1, fs)
    | Some _ =>
        match open_trunc env p 438 fs with
        | None => (1, fs)
        | Some fs1 =>
            (0, match fopen_r env hex_or_file fs1 with
                | None => fs1
                | Some d => snd (sys_write_file env p d fs1)
                end)
        end
    end
  else if negb (length arg =? 64)%nat then (1, fs)
  else match write_text env p (arg ++ [10]) fs with
       | None => (1, fs)
       | Some fs1 => (0, fs1)
       end.

Definition ensure_conf (fs : filesystem) : filesystem :=
  match fs !! CONF with
  | Some _ => fs
  | None =>
      let our_pub := read_hex env (snp 768 (key_dir home ++ "/public.key")) fs in
      match write_text env CONF (unlines (base_conf our_pub iface)) fs with
      | None => fs
      | Some fs1 => fs1
      end
  end.

(** A line that names this key. *)
Definition names_key (hx line : bytes) : bool := contains line (ascii_bytes "PublicKey") && contains line hx.

Definition peer_text (hx : bytes) (host : string) : bytes :=
  unlines [[]; ascii_bytes "[Peer]"; assign "PublicKey" hx; assign "Endpoint" (ascii_bytes host)].

Definition add_to_conf (host : string) (fs : filesystem) : filesystem :=
  let hx := read_key_text env (peer_path home host) fs in
  match hx with
  | [] => fs
  | _ =>
      let found := match fopen_r env CONF fs with
                   | None => false
                   | Some d => existsb (fun l => names_key hx (c_str l)) (fgets_lines 512 d)
                   end in
      if found then fs
      else match append_text env CONF (peer_text hx host) fs with
           | None => fs
           | Some fs1 => fs1
           end
  end.

Definition cmd_peer_add (host hex_or_file : string) (fs : filesystem) : Z * filesystem :=
  let '(r, fs1) := store_key host hex_or_file fs in
  if negb (r =? 0) then (1, fs1) else (0, add_to_conf host (ensure_conf fs1)).

(** *** [peer delete]: the loop that copies the configuration *)

Record del_state := mkDel { in_peer : bool; skip_peer : bool; wrote_peer : bool; d_out : bytes }.

Definition PEER : bytes := ascii_bytes "[Peer]".

(** The header of a peer that is kept is written late. *)
Definition flush (st : del_state) : bytes :=
  if in_peer st && negb (skip_peer st) && negb (wrote_peer st) then d_out st ++ PEER ++ [10] else d_out st.

Definition del_line (hx : bytes) (st : del_state) (buf : bytes) : del_state :=
  let line := c_str buf in
  if match line with c :: _ => c =? 91 | [] => false end then
    let out := flush st in
    if contains line PEER then mkDel true false false out else mkDel false false false (out ++ line)
  else
    let skip := skip_peer st || (in_peer st && negb (bool_decide (hx = [])) && names_key hx line) in
    if skip then mkDel (in_peer st) true (wrote_peer st) (d_out st)
    else
      let '(wrote, out) := if in_peer st && negb (wrote_peer st) then (true, d_out st ++ PEER ++ [10])
                           else (wrote_peer st, d_out st) in
      mkDel (in_peer st) false wrote (out ++ line).

Definition del_copy (hx data : bytes) : bytes :=
  flush (fold_left (del_line hx) (fgets_lines 512 data) (mkDel false false false [])).

(** [rename(old, new)]. *)
Definition rename (old new : path) (fs : filesystem) : filesystem :=
  match fs !! old with None => fs | Some f => <[new := f]> (delete old fs) end.

(** [pid] is the process id in decimal. *)
Definition cmd_peer_delete (pid name : string) (fs : filesystem) : Z * filesystem :=
  let p := snp 768 (home ++ "/.aegis-tunnel/peers/" ++ name ++ ".pub") in
  let hx := read_key_text env p fs in
  match fs !! p with
  | None => (1, fs)
  | Some _ =>
      let fs1 := unlink p fs in
      match fs1 !! CONF with
      | None => (0, fs1)
      | Some _ =>
          match fopen_r env CONF fs1 with
          | None => (0, fs1)
          | Some d =>
              let tmp := snp 768 ("aegis.conf." ++ pid) in
              match write_text env tmp (del_copy hx d) fs1 with
              | None => (0, fs1)
              | Some fs2 => (0, rename tmp CONF fs2)
              end
          end
      end
  end.

(** *** [create tun] *)

Definition TUN_CONF (is_server : bool) : path := if is_server then "aegis-server.conf" else "aegis-client.conf".
Definition role (is_server : bool) : bytes := ascii_bytes (if is_server then "server" else "client").

Definition post_line (cmd flag : string) (nat_if : bytes) : bytes :=
  ascii_bytes ("# " ++ cmd ++ " = iptables " ++ flag ++ " FORWARD -i %i -j ACCEPT; iptables -t nat " ++ flag
               ++ " POSTROUTING -s 10.0.0.0/24 -o ") ++ nat_if ++ ascii_bytes " -j MASQUERADE".

(** [snprintf(ep_buf, 320, "%s", ep)] and the default port. *)
Definition endpoint_buf (ep : option bytes) : bytes :=
  let b := take 319 (from_option id (ascii_bytes "server.com:9000") ep) in
  if bool_decide (58 ∈ b) then b else b ++ take (319 - length b) (ascii_bytes ":9000").

(** The lines of one peer. *)
Definition tun_peer (is_server : bool) (peer_idx : nat) (pk : bytes) (ep keepalive : option bytes) : list bytes :=
  [ascii_bytes "[Peer]"; assign "PublicKey" pk] ++
  (if is_server then
     assign "AllowedIPs" (ascii_bytes "10.0.0.2/32") ::
     match ep with Some e => [ascii_bytes "# Endpoint = " ++ e] | None => [] end
   else
     (if (peer_idx =? 0)%nat then [assign "Endpoint" (endpoint_buf ep)] else []) ++
     [assign "AllowedIPs" (ascii_bytes "0.0.0.0/0");
      assign "PersistentKeepalive" (from_option id (ascii_bytes "25") keepalive)]) ++
  [[]].

(** The loop over the peers of the base configuration; a table has at most
    eight sections. *)
Fixpoint tun_peers (fuel : nat) (icfg : iniconf_t) (is_server : bool) (keepalive : option bytes) (peer_idx : nat)
    : list bytes * nat :=
  match fuel with
  | O => ([], peer_idx)
  | S f =>
      match iniconf_get_indexed icfg (ascii_bytes "Peer") (Z.of_nat peer_idx) (ascii_bytes "PublicKey") with
      | None => ([], peer_idx)
      | Some pk =>
          let ep := iniconf_get_indexed icfg (ascii_bytes "Peer") (Z.of_nat peer_idx) (ascii_bytes "Endpoint") in
          let '(ls, n) := tun_peers f icfg is_server keepalive (S peer_idx) in
          (tun_peer is_server peer_idx pk ep keepalive ++ ls, n)
      end
  end.

Definition no_peer (is_server : bool) (keepalive : option bytes) : list bytes :=
  [ascii_bytes "[Peer]"; assign "PublicKey" (ascii_bytes "<peer-public-key>")] ++
  (if is_server then [assign "AllowedIPs" (ascii_bytes "10.0.0.2/32")]
   else [assign "Endpoint" (ascii_bytes "server.com:9000"); assign "AllowedIPs" (ascii_bytes "0.0.0.0/0");
         assign "PersistentKeepalive" (from_option id (ascii_bytes "25") keepalive)]) ++
  [[]].

Definition tun_lines (is_server : bool) (icfg : iniconf_t) (pubkey_hex : bytes) : list bytes :=
  let get := fun s k => iniconf_get icfg (ascii_bytes s) (ascii_bytes k) in
  let privkey := get "Interface" "PrivateKey" in
  let pubkey := get "Interface" "PublicKey" in
  let port := get "Interface" "Port" in
  let nat_if := from_option id iface (get "Tunnel" "NATInterface") in
  let keepalive := get "Tunnel" "Keepalive" in
  let '(peers, n) := tun_peers (S INI_MAX_SECTIONS) icfg is_server keepalive 0 in
  [ascii_bytes "# AEGIS-Tunnel TUN " ++ role is_server ++ ascii_bytes " config (generated from aegis.conf)"; [];
   ascii_bytes "[Interface]";
   assign "PrivateKey" (from_option id (ascii_bytes "~/.aegis-tunnel/private.key") privkey)] ++
  (if negb (bool_decide (pubkey_hex = [])) then [assign "PublicKey" pubkey_hex]
   else match pubkey with Some k => [assign "PublicKey" k] | None => [] end) ++
  [assign "Mode" (role is_server)] ++
  (if is_server then
     [assign "Address" (ascii_bytes "10.0.0.1/24");
      assign "ListenPort" (from_option id (ascii_bytes "9000") port);
      post_line "PostUp" "-A" nat_if; post_line "PostDown" "-D" nat_if]
   else [assign "Address" (ascii_bytes "10.0.0.2/24")]) ++
  [[]] ++ peers ++ (if (n =? 0)%nat then no_peer is_server keepalive else []) ++
  [ascii_bytes "[Tunnel]";
   assign "Keepalive" (from_option id (ascii_bytes "30") keepalive);
   assign "NATInterface" nat_if;
   assign "Timeout" (ascii_bytes "10");
   assign "MaxConnections" (ascii_bytes "64")].

Definition cmd_create_tun (is_server : bool) (oom : list bool) (fs : filesystem) : Z * filesystem :=
  match fs !! CONF with
  | None => (1, fs)
  | Some _ =>
      let '(r, icfg) := iniconf_load conf_zero (fopen_r env CONF fs) oom in
      if negb (r =? 0) then (1, fs)
      else
        let pubkey_hex := read_hex env (snp 768 (home ++ "/.aegis-tunnel/public.key")) fs in
        match write_text env (TUN_CONF is_server) (unlines (tun_lines is_server icfg pubkey_hex)) fs with
        | None => (1, fs)
        | Some fs1 => (0, fs1)
        end
  end.

End commands.

(** ** Lemmas on text *)

Lemma starts_with_spec needle hay : starts_with needle hay = true <-> (exists b, hay = needle ++ b).
Proof.
  unfold starts_with. rewrite bool_decide_eq_true. split.
  - intros H. exists (drop (length needle) hay). by rewrite <- H at 1; rewrite take_drop.
  - intros [b ->]. apply take_app_length.
Qed.

Lemma contains_spec hay needle : contains hay needle = true <-> (exists a b, hay = a ++ needle ++ b).
Proof.
  unfold contains. induction hay as [|c h IH]; simpl.
  - destruct (starts_with needle []) eqn:E.
    + apply starts_with_spec in E as [b E]. split; [|done]. intros _. by exists [], b.
    + split; [done|]. intros (a & b & H). symmetry in H. apply app_eq_nil in H as [-> H].
      exfalso. assert (starts_with needle [] = true) by (apply starts_with_spec; by exists b). congruence.
  - destruct (starts_with needle (c :: h)) eqn:E.
    + apply starts_with_spec in E as [b E]. split; [|done]. intros _. by exists [], b.
    + rewrite IH. split.
      * intros (a & b & ->). by exists (c :: a), b.
      * intros ([|x a] & b & H); [|simpl in H; simplify_eq; by exists a, b].
        assert (starts_with needle (c :: h) = true) by (apply starts_with_spec; by exists b). congruence.
Qed.

(** A part of a part. *)
Lemma contains_app_l a hay b needle : contains hay needle = true -> contains (a ++ hay ++ b) needle = true.
Proof.
  rewrite !contains_spec. intros (x & y & ->). exists (a ++ x), (y ++ b). by rewrite <- !app_assoc.
Qed.

Lemma contains_self a b needle : contains (a ++ needle ++ b) needle = true.
Proof. apply contains_spec. by exists a, b. Qed.

Lemma lines_loop_unlines ls : forall f,
  (length (unlines ls) < f)%nat -> Forall line_ok ls ->
  lines_loop f INI_MAX_LINE (unlines ls) = map (fun l => l ++ [10]) ls.
Proof.
  induction ls as [|l ls IH]; intros [|f] Hf Hls; try (simpl in *; lia); [done|].
  apply Forall_cons in Hls as [[Ht Hl] Hls].
  rewrite unlines_cons in *. rewrite length_app in Hf. simpl in Hf.
  cbn [lines_loop]. unfold fgets. destruct (l ++ 10 :: unlines ls) as [|x d] eqn:E; [by destruct l|].
  rewrite <- E, fgets_loop_line by (done || unfold INI_MAX_LINE; lia). simpl. by rewrite IH by (done || lia).
Qed.

(** Lines that fit the buffer are read one by one. *)
Lemma fgets_lines_unlines ls :
  Forall line_ok ls ->
  fgets_lines 512 (unlines ls) = map (fun l => l ++ [10]) ls.
Proof. intros. apply lines_loop_unlines; [lia|done]. Qed.


Lemma c_str_line l : text l -> c_str (l ++ [10]) = l ++ [10].
Proof. intros. apply c_str_text; [done|by repeat constructor]. Qed.

(** Reading a document line by line. *)
Lemma doc_existsb (P : bytes -> bool) pre d : doc_ok pre d ->
  existsb (fun l => P (c_str l)) (fgets_lines 512 (doc_text pre d)) = existsb (fun l => P (l ++ [10])) (doc_lines pre d).
Proof.
  intros Hok%doc_lines_ok. unfold doc_text. rewrite fgets_lines_unlines by done.
  induction Hok as [|x ls [Hx _] _ IH]; [done|]. cbn [map existsb]. by rewrite IH, c_str_line.
Qed.

(** ** [peer delete] on a document *)

Section delete_spec.
Context (hx : bytes).

Definition line_matches (c : cline) : bool := negb (bool_decide (hx = [])) && names_key hx (line_text c ++ [10]).

(** The lines in front of the first one that matches. *)
Fixpoint before (cs : list cline) : list cline :=
  match cs with [] => [] | c :: cs' => if line_matches c then [] else c :: before cs' end.

Lemma before_all cs : existsb line_matches cs = false -> before cs = cs.
Proof. induction cs as [|c cs IH]; [done|]. simpl. intros [-> E]%orb_false_iff. by rewrite IH. Qed.

Lemma before_unmatched cs : Forall (fun c => line_matches c = false) (before cs).
Proof. induction cs as [|c cs IH]; simpl; [constructor|]. destruct (line_matches c) eqn:E; by constructor. Qed.

Lemma before_sublist cs : before cs `sublist_of` cs.
Proof.
  induction cs as [|c cs IH]; simpl; [constructor|].
  destruct (line_matches c); [apply sublist_nil_l|by constructor].
Qed.

(** What remains of a section. *)
Definition revoke (s : bytes * list cline) : option (bytes * list cline) :=
  if bool_decide (s.1 = ascii_bytes "Peer") && existsb line_matches s.2
  then match before s.2 with [] => None | cs => Some (s.1, cs) end
  else Some s.

Lemma revoke_some s s' : revoke s = Some s' ->
  s'.1 = s.1 /\ s'.2 `sublist_of` s.2 /\
  (s.1 = ascii_bytes "Peer" -> Forall (fun c => line_matches c = false) s'.2).
Proof.
  unfold revoke. case_bool_decide as Hn; [|by intros [= <-]]. simpl.
  destruct (existsb line_matches s.2) eqn:E.
  - pose proof (before_unmatched s.2) as Hb. pose proof (before_sublist s.2) as Hs.
    destruct (before s.2) as [|c cs]; [done|]. by intros [= <-].
  - intros [= <-]. split_and!; [done..|]. intros _. rewrite <- (before_all s.2) by done. apply before_unmatched.
Qed.

Lemma header_is_peer nm : plain_name nm ->
  contains (header_text nm ++ [10]) PEER = bool_decide (nm = ascii_bytes "Peer").
Proof.
  intros [H1 H2]. case_bool_decide as H; [subst; reflexivity|]. apply not_true_is_false.
  rewrite contains_spec. intros (a & b & Hab). apply H. unfold header_text in Hab.
  change PEER with ([91] ++ ascii_bytes "Peer" ++ [93]) in Hab. rewrite <- !app_assoc in Hab. cbn [app] in Hab.
  destruct a as [|x a]; cbn [app] in Hab; apply (inj2 cons) in Hab as [_ Hab]; rewrite <- app_assoc in Hab; cbn [app] in Hab.
  - apply (f_equal (strchr 93)) in Hab. rewrite !strchr_app in Hab by (done || (vm_compute; set_solver)).
    by simplify_eq.
  - exfalso. assert (91 ∈ nm ++ [93; 10]) as Hin by (rewrite Hab; set_solver). set_solver.
Qed.

Abbreviation dels cs := (fold_left (del_line hx) (map (fun l => l ++ [10]) cs)).

Lemma del_body st c : cline_ok c -> del_line hx st (line_text c ++ [10]) =
  if skip_peer st || (in_peer st && line_matches c) then mkDel (in_peer st) true (wrote_peer st) (d_out st)
  else mkDel (in_peer st) false (in_peer st || wrote_peer st)
         (flush (mkDel (in_peer st) false (wrote_peer st) (d_out st)) ++ line_text c ++ [10]).
Proof.
  intros Hc. unfold del_line, line_matches. rewrite c_str_line by by apply cline_line_ok.
  rewrite body_first, <- andb_assoc by done. destruct (skip_peer st || _); [done|]. unfold flush. simpl.
  by destruct (in_peer st), (wrote_peer st).
Qed.

(** Lines that are skipped, of no peer, and of a peer that is kept so far. *)
Lemma del_skipped cs w out : Forall cline_ok cs -> dels (map line_text cs) (mkDel true true w out) = mkDel true true w out.
Proof. intros Hcs. induction Hcs as [|c cs Hc _ IH]; [done|]. cbn -[del_line]. by rewrite del_body by done. Qed.

Lemma del_other cs w out : Forall cline_ok cs ->
  dels (map line_text cs) (mkDel false false w out) = mkDel false false w (out ++ unlines (map line_text cs)).
Proof.
  intros Hcs. revert out. induction Hcs as [|c cs Hc _ IH]; intros out; [cbn; by rewrite app_nil_r|].
  cbn [map fold_left]. rewrite del_body by done. cbn -[unlines del_line]. unfold flush. cbn -[unlines del_line].
  rewrite IH, unlines_cons. f_equal. by rewrite <- !app_assoc.
Qed.

Lemma del_kept cs out : Forall cline_ok cs ->
  dels (map line_text cs) (mkDel true false true out) =
  mkDel true (existsb line_matches cs) true (out ++ unlines (map line_text (before cs))).
Proof.
  intros Hcs. revert out. induction Hcs as [|c cs Hc Hcs IH]; intros out; [cbn; by rewrite app_nil_r|].
  cbn [map fold_left]. rewrite del_body by done. cbn -[unlines del_line line_matches].
  destruct (line_matches c); cbn -[unlines del_line]; [by rewrite del_skipped, app_nil_r|]. unfold flush. cbn -[unlines del_line].
  rewrite IH, unlines_cons. f_equal. by rewrite <- !app_assoc.
Qed.

Definition revoked_text (s : bytes * list cline) : bytes := from_option (fun s => unlines (section_lines s)) [] (revoke s).

Lemma del_pending cs out : Forall cline_ok cs ->
  flush (dels (map line_text cs) (mkDel true false false out)) = out ++ revoked_text (ascii_bytes "Peer", cs).
Proof.
  intros Hcs. unfold revoked_text, revoke. rewrite bool_decide_eq_true_2 by done. cbn [fst snd andb].
  assert (forall cs', unlines (section_lines (ascii_bytes "Peer", cs')) = PEER ++ [10] ++ unlines (map line_text cs')) as Hr.
  { intros. unfold section_lines. by rewrite unlines_cons. }
  destruct Hcs as [|c cs Hc Hcs]; [cbn -[section_lines PEER ascii_bytes unlines]; by rewrite Hr|].
  cbn -[del_line unlines line_matches section_lines PEER ascii_bytes]. rewrite del_body by done. simpl orb.
  destruct (line_matches c); cbn -[del_line unlines section_lines PEER ascii_bytes].
  { rewrite del_skipped by done. unfold flush. simpl. by rewrite app_nil_r. }
  rewrite del_kept by done. unfold flush at 1. cbn -[unlines section_lines PEER ascii_bytes].
  rewrite andb_false_r. unfold flush. cbn -[unlines section_lines PEER ascii_bytes].
  destruct (existsb line_matches cs) eqn:E; cbn -[unlines section_lines PEER ascii_bytes];
    rewrite Hr, <- !app_assoc; do 3 f_equal; cbn [map]; rewrite unlines_cons; [done|]. by rewrite before_all.
Qed.

(** The copy of a whole section, whatever came before. *)
Lemma del_section st s : dsec_ok s -> flush (dels (section_lines s) st) = flush st ++ revoked_text s.
Proof.
  intros Hs. destruct s as [nm cs]. destruct (header_line_ok _ Hs) as [Ht _].
  destruct Hs as [_ Hp _ _ Hcs]. cbn [fst snd] in *. unfold section_lines. cbn -[del_line header_text flush].
  unfold del_line at 2. rewrite c_str_line by done.
  replace (match header_text nm ++ [10] with [] => false | c :: _ => c =? 91 end) with true by done.
  rewrite header_is_peer by done. case_bool_decide as Hn; [subst; by apply del_pending|].
  rewrite del_other by done. unfold revoked_text, revoke. cbn [fst snd]. rewrite bool_decide_eq_false_2 by done.
  unfold flush at 1, section_lines. cbn -[header_text unlines flush]. by rewrite unlines_cons, <- !app_assoc.
Qed.

Lemma del_doc d st : Forall dsec_ok d ->
  flush (dels (d ≫= section_lines) st) = flush st ++ doc_text [] (omap revoke d).
Proof.
  intros Hd. revert st. induction Hd as [|s d Hs _ IH]; intros st; [cbn; by rewrite app_nil_r|].
  rewrite section_lines_cons, map_app, fold_left_app, IH, del_section, <- app_assoc by done. f_equal.
  unfold revoked_text. cbn -[revoke section_lines doc_text]. destruct (revoke s) as [s'|]; [|done]. by rewrite doc_text_cons.
Qed.

Lemma del_notes ls st : Forall note_ok ls -> in_peer st = false -> skip_peer st = false ->
  dels ls st = mkDel false false (wrote_peer st) (d_out st ++ unlines ls).
Proof.
  intros Hls. revert st. induction Hls as [|l ls Hl _ IH]; intros [ip sk w out]; cbn [in_peer skip_peer wrote_peer d_out].
  - intros -> ->. cbn. by rewrite app_nil_r.
  - intros -> ->. cbn [map fold_left]. rewrite (del_body _ (Note l)) by done. cbn -[unlines].
    rewrite IH by done. unfold flush. cbn -[unlines]. by rewrite unlines_cons, <- !app_assoc.
Qed.

Lemma del_copy_doc pre d : doc_ok pre d -> del_copy hx (doc_text pre d) = doc_text pre (omap revoke d).
Proof.
  intros [Hp Hd]. unfold del_copy. unfold doc_text at 1. rewrite fgets_lines_unlines by by apply doc_lines_ok.
  unfold doc_lines. rewrite map_app, fold_left_app, (del_notes pre), del_doc by done. by rewrite (doc_text_pre pre).
Qed.

Lemma revoke_ok d : Forall dsec_ok d -> Forall dsec_ok (omap revoke d).
Proof.
  intros Hd. rewrite Forall_forall in *. intros s' (s & Hs & Hr)%list_elem_of_omap.
  destruct (Hd s Hs) as [Hn Hp Hf Hc Hl]. destruct (revoke_some s s' Hr) as (H1 & H2 & _).
  split; [by rewrite H1..| |by eapply Forall_sublist].
  etrans; [|exact Hc]. apply sublist_length. clear -H2. unfold entries_of.
  induction H2 as [|c l1 l2 _ IH|c l1 l2 _ IH]; cbn; [constructor| |]; destruct c; by try constructor.
Qed.

Lemma revoke_none d :
  existsb (fun l => names_key hx (l ++ [10])) (d ≫= section_lines) = false -> omap revoke d = d.
Proof.
  induction d as [|s d IH]; [done|]. rewrite section_lines_cons, existsb_app. intros [Hs Hss]%orb_false_iff.
  cbn -[revoke]. rewrite IH by done.
  unfold revoke. replace (existsb line_matches s.2) with false; [by rewrite andb_false_r|].
  symmetry. unfold section_lines in Hs. cbn [existsb] in Hs. apply orb_false_iff in Hs as [_ Hs].
  induction s.2 as [|c cs IHc]; [done|]. cbn [map existsb] in *. apply orb_false_iff in Hs as [Hc Hcs].
  rewrite IHc by done. unfold line_matches. by rewrite Hc, andb_false_r.
Qed.

Lemma doc_lines_revoke pre d : doc_lines pre (omap revoke d) `sublist_of` doc_lines pre d.
Proof.
  unfold doc_lines. apply sublist_app; [done|]. induction d as [|s d IH]; [done|].
  rewrite section_lines_cons. cbn -[revoke section_lines]. destruct (revoke s) as [s'|] eqn:E.
  - change (list_bind _ _ section_lines (s' :: ?l)) with (section_lines s' ++ (l ≫= section_lines)).
    apply sublist_app; [|done]. destruct (revoke_some s s' E) as (H1 & H2 & _). unfold section_lines. rewrite H1.
    constructor. by apply map_sublist.
  - by apply sublist_inserts_l.
Qed.

Lemma unlines_sublist a b : a `sublist_of` b -> (length (unlines a) <= length (unlines b))%nat.
Proof. induction 1; rewrite ?unlines_cons, ?length_app; simpl; lia. Qed.
End delete_spec.

(** ** Files *)

(** Every file can be opened and read, and takes [n] bytes. *)
Record roomy (env : fs_env) (n : nat) : Prop := {
  ro_open : forall p, can_open env p = true;
  ro_read : forall p, read_fails env p = false;
  ro_write : forall p, exists m, write_takes env p = Some m /\ (n <= m)%nat
}.

Section files.
Context (env : fs_env) (n : nat) (R : roomy env n).

Lemma sys_write_all p d fs f : (length d <= n)%nat -> fs !! p = Some f ->
  snd (sys_write_file env p d fs) = <[p := mkFile (f_mode f) (f_data f ++ d)]> fs.
Proof.
  intros Hd Hf. unfold sys_write_file. destruct (ro_write _ _ R p) as (m & -> & Hm). cbn [snd].
  rewrite take_ge by lia. apply map_eq. intros q. destruct (decide (q = p)) as [->|].
  - by rewrite lookup_alter_eq, lookup_insert_eq, Hf.
  - by rewrite lookup_alter_ne, lookup_insert_ne by done.
Qed.

Lemma write_text_all p d fs : (length d <= n)%nat ->
  write_text env p d fs = Some (<[p := mkFile (new_mode env 438 (fs !! p)) d]> fs).
Proof.
  intros Hd. unfold write_text, open_trunc. rewrite (ro_open _ _ R). simpl negb. cbv match.
  destruct (fs !! p) as [f|] eqn:Hf; erewrite sys_write_all by (done || by rewrite lookup_insert_eq);
    by rewrite insert_insert_eq.
Qed.

Lemma append_text_all p d fs f : (length d <= n)%nat -> fs !! p = Some f ->
  append_text env p d fs = Some (<[p := mkFile (f_mode f) (f_data f ++ d)]> fs).
Proof.
  intros Hd Hf. unfold append_text. rewrite (ro_open _ _ R), Hf. simpl negb. cbv match. by erewrite sys_write_all.
Qed.

Lemma fopen_r_all p fs : fopen_r env p fs = f_data <$> fs !! p.
Proof. unfold fopen_r. rewrite (ro_open _ _ R), (ro_read _ _ R). by destruct (fs !! p). Qed.
End files.

Lemma tmp_not_conf pid : snp 768 ("aegis.conf." ++ pid) <> CONF.
Proof. unfold snp, CONF. by destruct pid. Qed.

(** What [peer delete] leaves. *)
Lemma peer_delete_runs env home pid name fs f kf :
  let p := snp 768 (home ++ "/.aegis-tunnel/peers/" ++ name ++ ".pub") in
  let hx := read_key_text env p fs in
  let tmp := snp 768 ("aegis.conf." ++ pid) in
  roomy env (length (del_copy hx (f_data f))) -> fs !! p = Some kf -> p <> CONF -> fs !! CONF = Some f ->
  exists m, cmd_peer_delete env home pid name fs =
    (0, <[CONF := mkFile m (del_copy hx (f_data f))]> (delete tmp (delete p fs))).
Proof.
  intros p hx tmp R Hkf Hne Hf. unfold cmd_peer_delete. fold p hx tmp. rewrite Hkf. unfold unlink.
  rewrite (fopen_r_all _ _ R), lookup_delete_ne, Hf by done. cbn [fmap option_fmap option_map].
  erewrite write_text_all by done. eexists. f_equal. unfold rename.
  rewrite lookup_insert_eq. by rewrite delete_insert_eq.
Qed.

Lemma roomy_le env m n : roomy env n -> (m <= n)%nat -> roomy env m.
Proof. intros [Ho Hr Hw] Hl. split; [done..|]. intros p. destruct (Hw p) as (k & ? & ?). exists k. split; [done|lia]. Qed.


(** ** The configuration as an abstract state *)

(** The file [aegis.conf] holds the document. *)
Definition conf_is (fs : filesystem) (pre : list bytes) (d : doc) : Prop :=
  doc_ok pre d /\ exists f, fs !! CONF = Some f /\ f_data f = doc_text pre d.

(** What the program will load from it. *)
Lemma conf_is_loads env n fs pre d cfg : roomy env n -> conf_is fs pre d ->
  iniconf_load cfg (fopen_r env CONF fs) [] = (0, table (kept 7 (plain d))).
Proof.
  intros R (Hok & f & Hf & Hd). rewrite (fopen_r_all _ _ R), Hf. cbn [fmap option_fmap option_map].
  rewrite Hd. by apply iniconf_load_doc.
Qed.

(** No line names the key. *)
Definition unnamed (hx : bytes) (pre : list bytes) (d : doc) : Prop :=
  existsb (fun l => names_key hx (l ++ [10])) (doc_lines pre d) = false.

(** Keys and section names spelled as the commands write them. *)
Definition canonical (s : bytes * list ini_entry_t) : Prop :=
  strcaseeq s.1 (ascii_bytes "Peer") = true ->
  s.1 = ascii_bytes "Peer" /\
  Forall (fun e => strcaseeq (e_key e) (ascii_bytes "PublicKey") = true -> e_key e = ascii_bytes "PublicKey") s.2.

Lemma entries_of_elem e cs : e ∈ entries_of cs -> Entry e ∈ cs.
Proof. intros (c & Hc & E)%list_elem_of_omap. destruct c; by simplify_eq. Qed.

(** No key that matches is read after the revocation. *)
Lemma revoked_keys hx d i v :
  hx <> [] -> Forall canonical (plain d) ->
  iniconf_get_indexed (table (kept 7 (plain (omap (revoke hx) d)))) (ascii_bytes "Peer") (Z.of_nat i) (ascii_bytes "PublicKey") = Some v ->
  contains v hx = false.
Proof.
  intros Hx Hc H. rewrite get_indexed_table in H. apply bind_Some in H as (s & Hs & Hv).
  apply list_elem_of_lookup_2, list_elem_of_filter in Hs as [Hn Hs].
  apply find_entry_elem in Hv as (e & He & Hk & <-).
  apply kept_elem in Hs as (s' & Hs' & Hn' & [<-|H2]); [|rewrite H2 in He; set_solver].
  apply list_elem_of_fmap in Hs' as (t & -> & Ht). cbn [fst snd] in *.
  apply list_elem_of_omap in Ht as (t0 & Ht0 & Hr). destruct (revoke_some hx t0 t Hr) as (H1 & H2 & H3).
  rewrite Forall_forall in Hc. rewrite H1 in Hn.
  destruct (Hc (t0.1, entries_of t0.2)) as [Hpeer Hkeys]; [by apply list_elem_of_fmap; exists t0|done|].
  cbn [fst snd] in *. specialize (H3 Hpeer). rewrite Forall_forall in H3. rewrite Forall_forall in Hkeys.
  pose proof (entries_of_elem e _ He) as Hin. specialize (H3 _ Hin).
  unfold line_matches, names_key in H3. rewrite bool_decide_eq_false_2 in H3 by done. cbn -[contains ascii_bytes] in H3.
  apply not_true_is_false. intros Hcon. apply andb_false_iff in H3 as [H3|H3]; apply not_true_iff_false in H3; apply H3.
  - unfold entry_text. rewrite (Hkeys e), <- app_assoc; [apply (contains_self [])| |done].
    apply list_elem_of_omap. exists (Entry e). split; [|done]. clear -Hin H2.
    pose proof (Forall_sublist (fun c => c ∈ t0.2) t.2 t0.2 H2) as HF. rewrite !Forall_forall in HF. by apply HF.
  - unfold entry_text. rewrite <- !app_assoc, (app_assoc (e_key e)). by apply contains_app_l.
Qed.


(** ** [peer add] *)

Lemma substring_whole s n : (String.length s <= n)%nat -> String.substring 0 n s = s.
Proof. revert n. induction s as [|a s IH]; intros [|n] Hn; simpl in *; try lia; [done..|]. by rewrite IH by lia. Qed.

Lemma length_string_app a b : String.length (a ++ b) = (String.length a + String.length b)%nat.
Proof. induction a as [|c a IH]; simpl; [done|]. by rewrite IH. Qed.

Lemma string_app_assoc a b c : ((a ++ b) ++ c = a ++ b ++ c)%string.
Proof. induction a as [|x a IH]; [done|]. exact (f_equal (String x) IH). Qed.

(** With a short home directory and name, [peer add] and [peer delete] mean
    the same file. *)
Lemma peer_path_short home host : (String.length home + String.length host <= 700)%nat ->
  peer_path home host = snp 768 (home ++ "/.aegis-tunnel/peers/" ++ host ++ ".pub").
Proof.
  intros Hl. unfold peer_path, peer_dir, key_dir, snp.
  rewrite (substring_whole (home ++ _)) by (rewrite length_string_app; simpl; lia).
  rewrite (substring_whole (_ ++ "/peers")) by (rewrite !length_string_app; simpl; lia).
  by rewrite !string_app_assoc.
Qed.

Lemma peer_path_not_conf home host : (String.length home + String.length host <= 700)%nat -> peer_path home host <> CONF.
Proof.
  intros Hl. rewrite peer_path_short by done. unfold snp, CONF.
  rewrite substring_whole by (rewrite !length_string_app; simpl; lia).
  intros H%(f_equal String.length). rewrite !length_string_app in H. simpl in H. lia.
Qed.

(** What the digits of a key are not. *)
Lemma spells_digits ds k : spells ds k -> Forall (fun c => is_Some (hex_value c)) ds.
Proof. induction 1; repeat constructor; eauto. Qed.

Lemma digits_safe ds : Forall (fun c => is_Some (hex_value c)) ds ->
  (47 ∉ ds) /\ (46 ∉ ds) /\ text ds /\ trimmed ds /\ strip_newlines ds = ds /\ c_str ds = ds.
Proof.
  intros H. rewrite Forall_forall in H.
  assert (forall c, c ∈ ds -> 48 <= c <= 102) as Hr.
  { intros c [v Hv]%H. unfold hex_value in Hv. repeat case_match; zbool; simplify_eq; lia. }
  assert (Forall (fun c => 48 <= c <= 102) ds) as HF by by apply Forall_forall. clear H.
  split_and!; [by intros ?%Hr; lia..| | |  |].
  - eapply Forall_impl; [exact HF|]. intros c Hc. simpl in Hc. lia.
  - assert (forall c, 48 <= c <= 102 -> isspace c = false) as Hsp.
    { intros c Hc. unfold isspace. apply orb_false_iff. split; [apply Z.eqb_neq; lia|].
      apply andb_false_iff. right. apply Z.leb_gt. lia. }
    split.
    + destruct HF; [done|]. simpl. by rewrite Hsp.
    + induction HF as [|c l Hc _ IH]; [done|]. simpl. rewrite IH by set_solver. destruct l; [by rewrite Hsp|done].
  - induction HF as [|c l Hc _ IH]; [done|]. simpl. rewrite IH by set_solver. destruct l; [|done].
    unfold is_newline. destruct (c =? 10) eqn:E1, (c =? 13) eqn:E2; zbool; try lia. done.
  - induction HF as [|c l Hc _ IH]; [done|]. simpl. rewrite IH by set_solver. destruct (c =? 0) eqn:E; zbool; [lia|done].
Qed.

(** The section [peer add] appends. *)
Definition peer_section (hx host : bytes) : bytes * list cline :=
  (ascii_bytes "Peer", [Entry (mkEntry (ascii_bytes "PublicKey") hx); Entry (mkEntry (ascii_bytes "Endpoint") host)]).

Lemma peer_section_ok hx host : value_ok hx -> value_ok host -> dsec_ok (peer_section hx host).
Proof.
  intros Hx Hh. constructor; cbn [fst snd peer_section].
  - by repeat constructor.
  - vm_compute. set_solver.
  - vm_compute. lia.
  - vm_compute. lia.
  - constructor; [|constructor; [|constructor]]; by apply entry_ok_key.
Qed.

Lemma peer_text_lines hx host : peer_text hx host = unlines ([[]] ++ section_lines (peer_section hx (ascii_bytes host))).
Proof. reflexivity. Qed.

Lemma blank_ok : note_ok [].
Proof. split; [split; [apply Forall_nil_2|simpl; lia]|done]. Qed.

(** The blank line in front of the new section belongs to the section before
    it, or to the notes at the top. *)
Lemma append_section pre d s : doc_ok pre d -> dsec_ok s ->
  exists pre' d', doc_text pre d ++ unlines ([[]] ++ section_lines s) = doc_text pre' (d' ++ [s]) /\
    doc_ok pre' (d' ++ [s]) /\ plain d' = plain d /\ length d' = length d /\
    forall P : bytes -> bool, P [10] = false ->
      existsb (fun l => P (l ++ [10])) (doc_lines pre' d') = existsb (fun l => P (l ++ [10])) (doc_lines pre d).
Proof.
  intros [Hpre Hd] Hs. unfold doc_text. rewrite <- unlines_app. destruct d as [|s1 d _] using rev_ind.
  - exists (pre ++ [[]]), []. split_and!; try done.
    + f_equal. unfold doc_lines. cbn [app mbind list_bind]. by rewrite !app_nil_r, <- app_assoc.
    + split; [|by constructor]. apply Forall_app. split; [done|]. constructor; [apply blank_ok|constructor].
    + intros P HP. unfold doc_lines. rewrite !existsb_app. simpl. by rewrite HP, !orb_false_r.
  - exists pre, (d ++ [(s1.1, s1.2 ++ [Note []])]).
    assert (section_lines (s1.1, s1.2 ++ [Note []]) = section_lines s1 ++ [[]]) as Hl.
    { unfold section_lines. cbn [fst snd]. by rewrite map_app. }
    assert (entries_of (s1.2 ++ [Note []]) = entries_of s1.2) as He by (rewrite entries_of_app; apply app_nil_r).
    apply Forall_app in Hd as [Hd [Hs1 _]%Forall_cons]. split_and!.
    + f_equal. unfold doc_lines. rewrite !bind_app. cbn [mbind list_bind]. rewrite Hl, !app_nil_r. by rewrite <- !app_assoc.
    + split; [done|]. rewrite !Forall_app. split_and!; [done| |by constructor].
      constructor; [|constructor]. destruct Hs1 as [Hn Hp Hf Hc Hls]. constructor; cbn [fst snd]; try done.
      * by rewrite He.
      * apply Forall_app. split; [done|]. constructor; [exact blank_ok|constructor].
    + rewrite !plain_app. f_equal. unfold plain. cbn [map fst snd]. by rewrite He.
    + rewrite !length_app. done.
    + intros P HP. unfold doc_lines. rewrite !bind_app, !existsb_app. cbn [mbind list_bind].
      rewrite Hl, !app_nil_r, existsb_app. cbn [existsb app]. by rewrite HP, !orb_false_r.
Qed.

Lemma filter_digits ds : Forall (fun c => is_Some (hex_value c)) ds -> filter (fun c => is_blank c = false) ds = ds.
Proof.
  induction 1 as [|c l [v Hv] _ IH]; [done|]. rewrite filter_cons_True, IH; [done|]. by eapply hex_value_not_blank.
Qed.

Lemma add_to_conf_new env n (R : roomy env n) home host fs hx f :
  read_key_text env (peer_path home host) fs = hx -> hx <> [] -> fs !! CONF = Some f ->
  existsb (fun l => names_key hx (c_str l)) (fgets_lines 512 (f_data f)) = false ->
  (length (peer_text hx host) <= n)%nat ->
  add_to_conf env home host fs = <[CONF := mkFile (f_mode f) (f_data f ++ peer_text hx host)]> fs.
Proof.
  intros Hr Hx Hf He Hl. unfold add_to_conf. rewrite Hr, (fopen_r_all _ _ R), Hf. cbn [fmap option_fmap option_map].
  rewrite He, (append_text_all _ _ R _ _ _ f) by done. by destruct hx.
Qed.

(** A key given as 64 digits. *)
Record hex_key (hex : string) (k : bytes) : Prop := {
  hk_spells : spells (ascii_bytes hex) k;
  hk_length : length k = 32%nat
}.

Lemma hex_key_text hex k : hex_key hex k -> length (ascii_bytes hex) = 64%nat /\ value_ok (ascii_bytes hex) /\
  (47 ∉ ascii_bytes hex) /\ (46 ∉ ascii_bytes hex) /\
  forall l, c_str (strip_newlines (take 64 (ascii_bytes hex ++ l))) = ascii_bytes hex.
Proof.
  intros [Hs Hk]. pose proof (spells_length _ _ Hs) as Hl. rewrite Hk in Hl.
  destruct (digits_safe _ (spells_digits _ _ Hs)) as (H47 & H46 & Htx & Htr & Hst & Hcs).
  split_and!; [done| |done..|]. { repeat (split; [done|]). lia. }
  intros l. by rewrite take_app_le, take_ge, Hst, Hcs by lia.
Qed.

(** The state after adding a key to a configuration that does not name it. *)
Lemma peer_add_runs env home iface host hex fs pre d f k :
  let p := peer_path home host in
  let txt := doc_text pre d ++ peer_text (ascii_bytes hex) host in
  roomy env (length txt) -> (String.length home + String.length host <= 700)%nat -> hex_key hex k -> doc_ok pre d ->
  fs !! CONF = Some f -> f_data f = doc_text pre d -> unnamed (ascii_bytes hex) pre d ->
  cmd_peer_add env home iface host hex fs =
    (0, <[CONF := mkFile (f_mode f) txt]> (<[p := mkFile (new_mode env 438 (fs !! p)) (ascii_bytes hex ++ [10])]> fs)).
Proof.
  intros p txt R Hhome Hkey Hok Hf Hd Hnew.
  destruct (hex_key_text hex k Hkey) as (Hlen & Hval & H47 & H46 & Hread).
  assert (p <> CONF) as Hpc by by apply peer_path_not_conf.
  unfold cmd_peer_add, store_key. fold p. rewrite !bool_decide_eq_false_2 by done. cbv [orb].
  rewrite Hlen. change (negb (64 =? 64)%nat) with false. cbv match.
  rewrite (write_text_all _ _ R).
  2: { subst txt. rewrite peer_text_lines, !unlines_app, !length_app. unfold section_lines, peer_section.
       cbn [fst snd map]. rewrite !unlines_cons. rewrite !length_app. simpl. rewrite !length_app. simpl. lia. }
  cbv match. change (negb (0 =? 0)) with false. cbv match. f_equal.
  unfold ensure_conf. rewrite lookup_insert_ne, Hf by done.
  rewrite (add_to_conf_new _ _ R _ _ _ (ascii_bytes hex) f).
  - by rewrite Hd.
  - unfold read_key_text. fold p. rewrite (fopen_r_all _ _ R), lookup_insert_eq. apply Hread.
  - intros E. by rewrite E in Hlen.
  - by rewrite lookup_insert_ne.
  - rewrite Hd, doc_existsb; done.
  - subst txt. rewrite length_app. lia.
Qed.

Lemma added_key_loads env n (R : roomy env n) fs p hex k m : hex_key hex k ->
  fs !! p = Some (mkFile m (ascii_bytes hex ++ [10])) -> keyfile_load_public env fs (zeros 32) p = (0, k).
Proof.
  intros Hkey Hp. destruct (hex_key_text hex k Hkey) as (Hlen & _). destruct Hkey as [Hs Hk].
  eapply (load_public_text _ _ _ _ (ascii_bytes hex ++ [10])); [done| | |done|].
  - unfold read_public. rewrite (ro_open _ _ R), (ro_read _ _ R), Hp.
    simpl. by rewrite take_ge by (rewrite length_app; simpl; lia).
  - rewrite length_app. simpl. lia.
  - apply hex_text_loop; [done|]. exists (ascii_bytes hex), []. rewrite app_nil_r. split; [|done].
    rewrite filter_app, filter_cons_False, filter_nil, app_nil_r by done.
    apply filter_digits. by eapply spells_digits.
Qed.

(** [peer add] makes a peer known.  A key given as 64 hexadecimal digits,
    added to a configuration that does not name it, is stored in a key file
    that loads as these 32 bytes; the configuration has one more peer at its
    end, every other entry as before, and loads so. *)
Theorem peer_add_known env home iface host hex fs pre d k :
  roomy env (length (doc_text pre d ++ peer_text (ascii_bytes hex) host)) ->
  (String.length home + String.length host <= 700)%nat ->
  hex_key hex k -> value_ok (ascii_bytes host) -> conf_is fs pre d -> unnamed (ascii_bytes hex) pre d ->
  exists fs' pre' d', cmd_peer_add env home iface host hex fs = (0, fs') /\
    keyfile_load_public env fs' (zeros 32) (peer_path home host) = (0, k) /\
    conf_is fs' pre' d' /\ plain d' = plain d ++ plain [peer_section (ascii_bytes hex) (ascii_bytes host)] /\
    forall cfg, iniconf_load cfg (fopen_r env CONF fs') [] = (0, table (kept 7 (plain d'))).
Proof.
  intros R Hhome Hkey Hhost (Hok & f & Hf & Hd) Hnew.
  pose proof (peer_add_runs env home iface host hex fs pre d f k R Hhome Hkey Hok Hf Hd Hnew) as Hrun.
  destruct (hex_key_text hex k Hkey) as (_ & Hval & _).
  destruct (append_section pre d (peer_section (ascii_bytes hex) (ascii_bytes host))) as (pre' & d' & Htxt & Hok' & Hpl & _);
    [done|by apply peer_section_ok|].
  rewrite <- peer_text_lines in Htxt. rewrite Htxt in Hrun. set (fs' := <[CONF := _]> _) in Hrun.
  assert (conf_is fs' pre' (d' ++ [peer_section (ascii_bytes hex) (ascii_bytes host)])) as Hcis.
  { split; [done|]. eexists. split; [apply lookup_insert_eq|done]. }
  exists fs', pre', (d' ++ [peer_section (ascii_bytes hex) (ascii_bytes host)]). split_and!; [exact Hrun| |exact Hcis| |].
  - eapply added_key_loads; [exact R|exact Hkey|]. subst fs'.
    by rewrite lookup_insert_ne, lookup_insert_eq by (symmetry; by apply peer_path_not_conf).
  - by rewrite plain_app, Hpl.
  - intros cfg. eapply conf_is_loads; [exact R|exact Hcis].
Qed.

(** Deleting a peer whose section is the last. *)
Lemma revoke_last hx host d : hx <> [] ->
  existsb (fun l => names_key hx (l ++ [10])) (d ≫= section_lines) = false ->
  omap (revoke hx) (d ++ [peer_section hx host]) = d.
Proof.
  intros Hx Hn. rewrite omap_app, revoke_none by done. cbn -[revoke peer_section].
  replace (revoke hx (peer_section hx host)) with (None : option (bytes * list cline)); [apply app_nil_r|].
  unfold revoke, peer_section. cbn [fst snd]. rewrite bool_decide_eq_true_2 by done.
  cbn -[ascii_bytes line_matches]. replace (line_matches hx _) with true; [done|].
  unfold line_matches, names_key, line_text, entry_text. cbn [e_key e_value].
  rewrite bool_decide_eq_false_2 by done. symmetry. cbn -[contains app ascii_bytes]. apply andb_true_iff.
  split; [rewrite <- app_assoc; apply (contains_self [])|].
  rewrite <- !app_assoc, app_assoc. apply contains_self.
Qed.

(** [peer delete] undoes [peer add]: adding a new key and deleting the peer
    again leaves no key file, a configuration that means what it meant before,
    and every other file as it was (but for the temporary file, which is
    gone). *)
Theorem peer_add_delete env home iface pid host hex fs pre d k :
  let p := peer_path home host in
  let tmp := snp 768 ("aegis.conf." ++ pid) in
  roomy env (length (doc_text pre d ++ peer_text (ascii_bytes hex) host)) ->
  (String.length home + String.length host <= 700)%nat ->
  hex_key hex k -> value_ok (ascii_bytes host) -> conf_is fs pre d -> unnamed (ascii_bytes hex) pre d ->
  exists fs1 fs2 pre' d', cmd_peer_add env home iface host hex fs = (0, fs1) /\
    cmd_peer_delete env home pid host fs1 = (0, fs2) /\ fs2 !! p = None /\
    conf_is fs2 pre' d' /\ plain d' = plain d /\
    forall q, q <> p -> q <> CONF -> q <> tmp -> fs2 !! q = fs !! q.
Proof.
  intros p tmp R Hhome Hkey Hhost (Hok & f & Hf & Hd) Hnew.
  pose proof (peer_add_runs env home iface host hex fs pre d f k R Hhome Hkey Hok Hf Hd Hnew) as Hrun.
  destruct (hex_key_text hex k Hkey) as (Hlen & Hval & _ & _ & Hread).
  set (s := peer_section (ascii_bytes hex) (ascii_bytes host)).
  destruct (append_section pre d s) as (pre' & d' & Htxt & Hok' & Hpl & _ & Hex); [done|by apply peer_section_ok|].
  pose proof (peer_text_lines (ascii_bytes hex) host) as Hpt. fold s in Hpt. rewrite <- Hpt in Htxt. rewrite Htxt in Hrun, R. fold p in Hrun.
  assert (p <> CONF) as Hpc by by apply peer_path_not_conf. set (fs1 := <[CONF := _]> _) in Hrun.
  assert (omap (revoke (ascii_bytes hex)) (d' ++ [s]) = d') as Hrev.
  { apply revoke_last; [intros E; by rewrite E in Hlen|]. unfold unnamed in Hnew.
    rewrite <- (Hex (names_key (ascii_bytes hex))) in Hnew by done. unfold doc_lines in Hnew. rewrite existsb_app in Hnew.
    by apply orb_false_iff in Hnew as [_ Hnew]. }
  assert (read_key_text env p fs1 = ascii_bytes hex) as Hkt.
  { unfold read_key_text. subst fs1. rewrite (fopen_r_all _ _ R), lookup_insert_ne, lookup_insert_eq by done. apply Hread. }
  pose proof (peer_delete_runs env home pid host fs1 (mkFile (f_mode f) (doc_text pre' (d' ++ [s])))
    (mkFile (new_mode env 438 (fs !! p)) (ascii_bytes hex ++ [10]))) as Hdr. cbv zeta in Hdr.
  rewrite <- (peer_path_short home host Hhome) in Hdr. fold p tmp in Hdr.
  rewrite Hkt in Hdr. cbn [f_data] in Hdr. rewrite del_copy_doc, Hrev in Hdr by done. destruct Hdr as [m Hrun2].
  - eapply roomy_le; [exact R|]. rewrite <- Hrev at 1. apply unlines_sublist, doc_lines_revoke.
  - subst fs1. by rewrite lookup_insert_ne, lookup_insert_eq.
  - done.
  - apply lookup_insert_eq.
  - eexists fs1, _, pre', d'. split; [exact Hrun|]. split; [exact Hrun2|]. split_and!.
    + rewrite lookup_insert_ne by done. rewrite lookup_delete_None. right. by rewrite lookup_delete_eq.
    + split; [|eexists; split; [apply lookup_insert_eq|done]]. destruct Hok' as [Hp' Hd']. split; [done|].
      by apply Forall_app in Hd' as [? _].
    + done.
    + intros q Hq1 Hq2 Hq3. rewrite lookup_insert_ne, !lookup_delete_ne by done. subst fs1. by rewrite !lookup_insert_ne by done.
Qed.

(** ** [keygen] and [create tun] *)

Definition entry (k : string) (v : bytes) : cline := Entry (mkEntry (ascii_bytes k) v).

(** A short value: what the commands copy from one file to another. *)
Definition short (v : bytes) : Prop := text v /\ trimmed v /\ (length v <= 300)%nat.

Definition shortb (v : bytes) : bool := value_okb v && (length v <=? 300)%nat.

Lemma shortb_spec v : shortb v = true -> short v.
Proof. unfold shortb. intros [H1 H2]%andb_true_iff. destruct (value_okb_spec v H1) as (? & ? & _). by zbool. Qed.

Lemma short_ascii s : shortb (ascii_bytes s) = true -> short (ascii_bytes s).
Proof. apply shortb_spec. Qed.

Lemma short_value v : short v -> value_ok v.
Proof. intros (H1 & H2 & H3). split; [done|]. split; [done|lia]. Qed.

Lemma entry_line_ok k v : key_okb (ascii_bytes k) = true -> short v -> cline_ok (entry k v).
Proof. intros Hk Hv. apply entry_ok_key; [done|by apply short_value]. Qed.

Definition base_doc (pubkey iface : bytes) : doc :=
  [(ascii_bytes "Interface",
    [entry "PrivateKey" (ascii_bytes "~/.aegis-tunnel/private.key"); entry "PublicKey" pubkey;
     entry "Port" (ascii_bytes "9000"); Note []]);
   (ascii_bytes "Tunnel", [entry "Keepalive" (ascii_bytes "30"); entry "NATInterface" iface])].

Lemma base_conf_text pubkey iface : unlines (base_conf pubkey iface) = doc_text [] (base_doc pubkey iface).
Proof. reflexivity. Qed.

(** A section of the commands' vocabulary. *)
Lemma dsec_ok_intro nm cs :
  bool_decide (text (ascii_bytes nm)) && negb (bool_decide (91 ∈ ascii_bytes nm)) && negb (bool_decide (93 ∈ ascii_bytes nm)) &&
  (length (ascii_bytes nm) <=? 508)%nat = true ->
  (length cs <= 32)%nat -> Forall cline_ok cs -> dsec_ok (ascii_bytes nm, cs).
Proof.
  intros Hn Hl Hcs. repeat (apply andb_true_iff in Hn as [Hn ?]).
  repeat match goal with
  | H : bool_decide _ = true |- _ => apply bool_decide_eq_true in H
  | H : negb (bool_decide _) = true |- _ => apply negb_true_iff, bool_decide_eq_false in H
  end. zbool. constructor; cbn [fst snd]; try done.
  etrans; [|exact Hl]. unfold entries_of. clear. induction cs as [|[] cs IH]; cbn in *; lia.
Qed.

Ltac short_tac :=
  first [ done | apply short_ascii; vm_compute; reflexivity | eassumption ].

(** The lines of a section, each by computation or from a hypothesis. *)
Ltac lines_tac :=
  repeat (apply Forall_cons_2 || apply Forall_nil_2);
  first [ apply entry_line_ok; [vm_compute; reflexivity|try short_tac] | exact blank_ok | idtac ].

Lemma base_doc_ok pubkey iface : short pubkey -> short iface -> doc_ok [] (base_doc pubkey iface).
Proof.
  intros Hp Hi. split; [constructor|]. unfold base_doc.
  constructor; [|constructor; [|constructor]]; (apply dsec_ok_intro; [vm_compute; reflexivity|simpl; lia|]); lines_tac.
Qed.

(** After [keygen] the configuration is the base document. *)
Lemma keygen_conf env home iface keypair fs fs' n :
  let hex := read_hex env (snp 768 (key_dir home ++ "/public.key")) fs' in
  roomy env n -> (length (doc_text [] (base_doc hex iface)) <= n)%nat -> short hex -> short iface ->
  snp 768 (key_dir home ++ "/public.key") ∉ [CONF; "aegis-server.conf"; "aegis-client.conf"] ->
  cmd_keygen env home iface keypair fs = (0, fs') -> conf_is fs' [] (base_doc hex iface).
Proof.
  intros hex R Hn Hh Hi Hne H. unfold cmd_keygen in H.
  destruct (keyfile_generate _ _ _ _ fs) as [r fs1]. destruct (negb (r =? 0)); [by simplify_eq|].
  set (pub := snp 768 (key_dir home ++ "/public.key")) in *.
  set (fs2 := unlink _ _) in H. 
  assert (forall fs'', (forall q, q = pub -> fs'' !! q = fs1 !! q) -> read_hex env pub fs'' = read_hex env pub fs1) as Hrd.
  { intros fs'' Hq. unfold read_hex, fopen_r. by rewrite (Hq pub). }
  assert (fs2 !! pub = fs1 !! pub) as H2 by (subst fs2; unfold unlink; by rewrite !lookup_delete_ne by set_solver).
  assert (hex = read_hex env pub fs1) as Hhex.
  { subst hex. apply Hrd. intros q ->. unfold write_text in H. destruct (open_trunc _ _ _ fs2) as [fs3|] eqn:Ho; simplify_eq; [|done].
    unfold sys_write_file, open_trunc in *. rewrite <- H2. destruct (can_open env CONF); [|done]. simpl in Ho.
    destruct (write_takes env CONF) as [m|], (fs2 !! CONF); simplify_eq/=;
      rewrite ?lookup_alter_ne, ?lookup_insert_ne by set_solver; done. }
  rewrite <- Hhex, base_conf_text, (write_text_all _ _ R) in H by done. apply (f_equal snd) in H. cbn [snd] in H.
  split; [by apply base_doc_ok|]. eexists. split; [rewrite <- H; apply lookup_insert_eq|done].
Qed.

(** *** Examples *)

Definition env0 : fs_env := mkFsEnv 18 (fun _ => true) (fun _ => Some 4000%nat) (fun _ => false).
Definition key0 : bytes := seqZ 0 32.
Definition hex0 : string := "000102030405060708090a0b0c0d0e0f101112131415161718191a1b1c1d1e1f".
Definition doc0 : doc := base_doc (ascii_bytes "feed") (ascii_bytes "eth0").
Definition fs0 : filesystem := {[ CONF := mkFile 420 (doc_text [] doc0) ]}.
Definition fs1 : filesystem := snd (cmd_peer_add env0 "/root" (ascii_bytes "eth0") "alice" hex0 fs0).

(** The configuration after [peer add alice]. *)
Definition doc1 : doc :=
  match doc0 with
  | [i; t] => [i; (t.1, t.2 ++ [Note []]); peer_section (ascii_bytes hex0) (ascii_bytes "alice")]
  | _ => []
  end.

Lemma env0_roomy n : (n <= 4000)%nat -> roomy env0 n.
Proof. intros Hn. split; [done|done|]. intros p. by exists 4000%nat. Qed.

Lemma hex0_key : hex_key hex0 key0.
Proof.
  split; [|done]. replace (ascii_bytes hex0) with (hex_text key0) by (vm_compute; reflexivity).
  apply hex_text_spells. apply wf_bytesb_spec. vm_compute. reflexivity.
Qed.

Lemma conf_is_0 : conf_is fs0 [] doc0.
Proof.
  split; [apply base_doc_ok; short_tac|]. eexists. split; [apply lookup_singleton_eq|reflexivity].
Qed.

Lemma conf_is_1 : conf_is fs1 [] doc1.
Proof.
  split.
  - split; [constructor|]. destruct conf_is_0 as [[_ H] _]. unfold doc0, base_doc in H.
    apply Forall_cons in H as [Hi [Ht _]%Forall_cons]. constructor; [exact Hi|]. constructor.
    + apply dsec_ok_intro; [vm_compute; reflexivity|simpl; lia|]. lines_tac.
    + constructor; [|constructor]. apply peer_section_ok; apply value_okb_spec; vm_compute; reflexivity.
  - eexists. split; [vm_compute; reflexivity|vm_compute; reflexivity].
Qed.

Lemma peer_add_known_witness :
  exists fs' pre' d', cmd_peer_add env0 "/root" (ascii_bytes "eth0") "alice" hex0 fs0 = (0, fs') /\
    keyfile_load_public env0 fs' (zeros 32) (peer_path "/root" "alice") = (0, key0) /\
    conf_is fs' pre' d' /\ plain d' = plain doc0 ++ plain [peer_section (ascii_bytes hex0) (ascii_bytes "alice")] /\
    forall cfg, iniconf_load cfg (fopen_r env0 CONF fs') [] = (0, table (kept 7 (plain d'))).
Proof.
  apply (peer_add_known env0 "/root" (ascii_bytes "eth0") "alice" hex0 fs0 [] doc0 key0).
  - apply env0_roomy. vm_compute. lia.
  - vm_compute. lia.
  - exact hex0_key.
  - apply value_okb_spec. vm_compute. reflexivity.
  - exact conf_is_0.
  - vm_compute. reflexivity.
Defined.

Lemma peer_add_delete_witness :
  exists fs1 fs2 pre' d', cmd_peer_add env0 "/root" (ascii_bytes "eth0") "alice" hex0 fs0 = (0, fs1) /\
    cmd_peer_delete env0 "/root" "4711" "alice" fs1 = (0, fs2) /\ fs2 !! peer_path "/root" "alice" = None /\
    conf_is fs2 pre' d' /\ plain d' = plain doc0 /\
    forall q, q <> peer_path "/root" "alice" -> q <> CONF -> q <> snp 768 ("aegis.conf." ++ "4711") -> fs2 !! q = fs0 !! q.
Proof.
  apply (peer_add_delete env0 "/root" (ascii_bytes "eth0") "4711" "alice" hex0 fs0 [] doc0 key0).
  - apply env0_roomy. vm_compute. lia.
  - vm_compute. lia.
  - exact hex0_key.
  - apply value_okb_spec. vm_compute. reflexivity.
  - exact conf_is_0.
  - vm_compute. reflexivity.
Defined.


(** What the command does not recognise although the parser does: the key in
    capital digits, and a section headed [\[peer\]].  Both still give the
    revoked key. *)
Definition upper0 : string := "000102030405060708090A0B0C0D0E0F101112131415161718191A1B1C1D1E1F".
Definition variant_conf : bytes :=
  ascii_bytes "[Peer]" ++ [10] ++ ascii_bytes "PublicKey = " ++ ascii_bytes upper0 ++ [10] ++
  ascii_bytes "[peer]" ++ [10] ++ ascii_bytes "PublicKey = " ++ ascii_bytes hex0 ++ [10].

Lemma peer_delete_misses :
  let '(r, fs') := cmd_peer_delete env0 "/root" "4711" "alice" (<[CONF := mkFile 420 variant_conf]> fs1) in
  let cfg := snd (iniconf_load conf_zero (fopen_r env0 CONF fs') []) in
  r = 0 /\
  iniconf_get_indexed cfg (ascii_bytes "Peer") 0 (ascii_bytes "PublicKey") = Some (ascii_bytes upper0) /\
  iniconf_get_indexed cfg (ascii_bytes "Peer") 1 (ascii_bytes "PublicKey") = Some (ascii_bytes hex0).
Proof. vm_compute. split_and!; reflexivity. Qed.
