(* ===== verification/CreateTun.v ===== *)
(** * [create tun] (config_mgmt.c, cmd_create_tun)

    The file that [create tun] writes, as a document ([tun_doc]), and what the
    program reads from it. *)

From stdpp Require Import sets gmap.
From S2P Require Import Prelude Util Keyfile IniConfig ConfDoc ConfigMgmt.

(** The peers of a configuration that the loops over [PublicKey] find: they
    stop at the first section without one. *)
Fixpoint peers_until (ss : config) : list (bytes * option bytes) :=
  match ss with
  | [] => []
  | s :: ss' => match find_entry s.2 (ascii_bytes "PublicKey") with
                | None => []
                | Some pk => (pk, find_entry s.2 (ascii_bytes "Endpoint")) :: peers_until ss'
                end
  end.

Definition peers_of (secs : config) : list (bytes * option bytes) := peers_until (secs_named (ascii_bytes "Peer") secs).

Definition peer_doc (is_server : bool) (ka : option bytes) (i : nat) (p : bytes * option bytes) : bytes * list cline :=
  (ascii_bytes "Peer",
   [entry "PublicKey" p.1] ++
   (if is_server then
      entry "AllowedIPs" (ascii_bytes "10.0.0.2/32") ::
      match p.2 with Some e => [Note (ascii_bytes "# Endpoint = " ++ e)] | None => [] end
    else
      (if (i =? 0)%nat then [entry "Endpoint" (endpoint_buf p.2)] else []) ++
      [entry "AllowedIPs" (ascii_bytes "0.0.0.0/0");
       entry "PersistentKeepalive" (from_option id (ascii_bytes "25") ka)]) ++
   [Note []]).

Lemma peer_doc_lines is_server ka i p : section_lines (peer_doc is_server ka i p) = tun_peer is_server i p.1 p.2 ka.
Proof. destruct p as [pk [ep|]], is_server; [reflexivity| |reflexivity|]; by destruct i. Qed.

Lemma tun_peers_spec fuel secs is_server ka : forall i,
  (length (secs_named (ascii_bytes "Peer") secs) - i < fuel)%nat ->
  let ps := peers_until (drop i (secs_named (ascii_bytes "Peer") secs)) in
  tun_peers fuel (table secs) is_server ka i =
    (concat (imap (fun j p => section_lines (peer_doc is_server ka (i + j) p)) ps), (i + length ps)%nat).
Proof.
  induction fuel as [|fuel IH]; intros i Hi; [lia|]. cbn [tun_peers]. rewrite !get_indexed_table.
  destruct (secs_named (ascii_bytes "Peer") secs !! i) as [s|] eqn:Hs.
  - rewrite (drop_S _ s) by done. cbn -[section_lines ascii_bytes tun_peer].
    destruct (find_entry s.2 (ascii_bytes "PublicKey")) as [pk|]; cbn -[section_lines ascii_bytes tun_peer].
    + pose proof (lookup_lt_Some _ _ _ Hs). rewrite IH by lia. cbv zeta. f_equal; [|simpl; lia].
      rewrite peer_doc_lines, Nat.add_0_r. f_equal. f_equal. apply imap_ext. intros j p _. simpl. by rewrite Nat.add_succ_r.
    + f_equal. lia.
  - cbn. rewrite drop_ge by by apply lookup_ge_None. simpl. f_equal. lia.
Qed.

Section tun_doc.
Context (is_server : bool) (secs : config) (pubkey_hex iface : bytes).

Definition conf_get (s k : string) : option bytes := iniconf_get (table secs) (ascii_bytes s) (ascii_bytes k).
Definition tun_ka : option bytes := conf_get "Tunnel" "Keepalive".
Definition tun_nat : bytes := from_option id iface (conf_get "Tunnel" "NATInterface").

(** The peers, or the place holder when there is none. *)
Definition tun_peers_doc : doc :=
  match peers_of secs with
  | [] => [peer_doc is_server tun_ka 0 (ascii_bytes "<peer-public-key>", None)]
  | ps => imap (peer_doc is_server tun_ka) ps
  end.

Definition tun_doc : doc :=
  (ascii_bytes "Interface",
   [entry "PrivateKey" (from_option id (ascii_bytes "~/.aegis-tunnel/private.key") (conf_get "Interface" "PrivateKey"))] ++
   (if negb (bool_decide (pubkey_hex = [])) then [entry "PublicKey" pubkey_hex]
    else match conf_get "Interface" "PublicKey" with Some k => [entry "PublicKey" k] | None => [] end) ++
   [entry "Mode" (role is_server)] ++
   (if is_server then
      [entry "Address" (ascii_bytes "10.0.0.1/24");
       entry "ListenPort" (from_option id (ascii_bytes "9000") (conf_get "Interface" "Port"));
       Note (post_line "PostUp" "-A" tun_nat); Note (post_line "PostDown" "-D" tun_nat)]
    else [entry "Address" (ascii_bytes "10.0.0.2/24")]) ++ [Note []]) ::
  tun_peers_doc ++
  [(ascii_bytes "Tunnel",
    [entry "Keepalive" (from_option id (ascii_bytes "30") tun_ka); entry "NATInterface" tun_nat;
     entry "Timeout" (ascii_bytes "10"); entry "MaxConnections" (ascii_bytes "64")])].

Definition tun_pre : list bytes :=
  [ascii_bytes "# AEGIS-Tunnel TUN " ++ role is_server ++ ascii_bytes " config (generated from aegis.conf)"; []].

Lemma bind_concat_imap {A} (f : nat -> A -> bytes * list cline) (l : list A) :
  imap f l ≫= section_lines = concat (imap (fun j p => section_lines (f j p)) l).
Proof.
  revert f. induction l as [|x l IH]; intros f; [done|]. cbn [imap]. rewrite section_lines_cons.
  cbn [concat]. by rewrite IH.
Qed.

Lemma tun_lines_doc : (length secs <= 8)%nat ->
  tun_lines iface is_server (table secs) pubkey_hex = doc_lines tun_pre tun_doc.
Proof.
  intros Hl. unfold tun_lines. rewrite tun_peers_spec.
  2: { unfold secs_named. pose proof (length_filter (fun s => strcaseeq s.1 (ascii_bytes "Peer") = true) secs).
       unfold INI_MAX_SECTIONS. lia. }
  cbv zeta. rewrite drop_0. fold (peers_of secs). cbn [Nat.add].
  fold (conf_get "Interface" "PrivateKey") (conf_get "Interface" "PublicKey") (conf_get "Interface" "Port")
    (conf_get "Tunnel" "NATInterface") (conf_get "Tunnel" "Keepalive"). fold tun_nat tun_ka.
  unfold doc_lines, tun_doc. rewrite section_lines_cons, bind_app.
  assert (tun_peers_doc ≫= section_lines =
    concat (imap (fun j p => section_lines (peer_doc is_server tun_ka j p)) (peers_of secs)) ++
    (if (length (peers_of secs) =? 0)%nat then no_peer is_server tun_ka else [])) as ->.
  { unfold tun_peers_doc. destruct (peers_of secs) as [|p ps]; [by destruct is_server|].
    rewrite bind_concat_imap. cbn [length]. change (S (length ps) =? 0)%nat with false. by rewrite app_nil_r. }
  rewrite <- !app_assoc. unfold tun_pre, section_lines at 2. cbn [fst snd].
  destruct (negb _), (conf_get "Interface" "PublicKey"), is_server; reflexivity.
Qed.
End tun_doc.

Section tun_doc_ok.
Context (is_server : bool) (secs : config) (pubkey_hex iface : bytes).
Context (Hsecs : Forall (fun s => Forall (fun e => short (e_value e)) s.2) secs).
Context (Hhex : short pubkey_hex) (Hif : short iface).

Lemma find_entry_short es k v : Forall (fun e => short (e_value e)) es -> find_entry es k = Some v -> short v.
Proof. intros H (e & He & _ & <-)%find_entry_elem. rewrite Forall_forall in H. by apply H. Qed.

Lemma named_short nm s : s ∈ secs_named nm secs -> Forall (fun e => short (e_value e)) s.2.
Proof. intros [_ Hs]%list_elem_of_filter. rewrite Forall_forall in Hsecs. by apply Hsecs. Qed.

Lemma conf_get_short s k v : conf_get secs s k = Some v -> short v.
Proof.
  unfold conf_get. rewrite get_table. intros (x & Hx & Hv)%bind_Some. eapply find_entry_short; [|exact Hv].
  eapply named_short. by eapply list_elem_of_lookup_2.
Qed.

Lemma conf_get_default s k dflt : short dflt -> short (from_option id dflt (conf_get secs s k)).
Proof. intros. destruct (conf_get secs s k) eqn:E; simpl; [by eapply conf_get_short|done]. Qed.

Definition peer_short (p : bytes * option bytes) : Prop := short p.1 /\ forall e, p.2 = Some e -> short e.

Lemma peers_short : Forall peer_short (peers_of secs).
Proof.
  unfold peers_of. assert (Forall (fun s => Forall (fun e => short (e_value e)) s.2) (secs_named (ascii_bytes "Peer") secs)) as H.
  { rewrite Forall_forall. apply named_short. }
  induction H as [|s ss Hs _ IH]; [constructor|]. simpl. destruct (find_entry s.2 (ascii_bytes "PublicKey")) as [pk|] eqn:E; [|constructor].
  constructor; [|exact IH]. split; [by eapply find_entry_short|]. intros e He. by eapply find_entry_short.
Qed.

(** A comment around a short value. *)
Lemma comment_ok a b c :
  bool_decide (text (35 :: a)) && bool_decide (text c) && (length a + length c <=? 200)%nat = true ->
  short b -> note_ok ((35 :: a) ++ b ++ c).
Proof.
  intros [[Ha%bool_decide_eq_true Hc%bool_decide_eq_true]%andb_true_iff Hl]%andb_true_iff (Hb & _ & Hbl). zbool.
  split; [split|].
  - rewrite !text_app. done.
  - rewrite !length_app. simpl. lia.
  - cbn. by left.
Qed.

Lemma endpoint_buf_short ep : (forall e, ep = Some e -> short e) -> value_ok (endpoint_buf ep).
Proof.
  intros He. unfold endpoint_buf. set (v := from_option id _ ep).
  assert (short v) as (Ht & [Hl Hr] & Hlen).
  { subst v. destruct ep as [e|]; [by apply He|]. apply short_ascii. vm_compute. reflexivity. }
  rewrite take_ge by lia. case_bool_decide; [repeat split; try done; lia|].
  rewrite take_ge by (simpl; lia). repeat split.
  - apply text_app. split; [done|by repeat constructor].
  - destruct v as [|c v]; [done|]. simpl in *. destruct (isspace c) eqn:E; [|done].
    exfalso. apply (f_equal length) in Hl. clear -Hl. simpl in Hl.
    assert (length (ltrim v) <= length v)%nat; [|lia]. clear. induction v as [|x v IH]; simpl; [lia|]. case_match; simpl; lia.
  - rewrite rtrim_app by done. done.
  - rewrite length_app. simpl. lia.
Qed.

Lemma peer_doc_ok i p : peer_short p -> dsec_ok (peer_doc is_server (tun_ka secs) i p).
Proof.
  intros [Hpk Hep]. destruct p as [pk ep]. cbn [fst snd] in *.
  assert (short (from_option id (ascii_bytes "25") (tun_ka secs))) as Hka by (apply conf_get_default; short_tac).
  pose proof (endpoint_buf_short ep Hep) as Heb.
  assert (cline_ok (entry "Endpoint" (endpoint_buf ep))) as Hee by by apply entry_ok_key.
  unfold peer_doc. cbn [fst snd]. apply dsec_ok_intro; [vm_compute; reflexivity| |].
  - destruct is_server, ep, (i =? 0)%nat; simpl; lia.
  - apply Forall_app. split; [lines_tac|]. apply Forall_app. split; [|lines_tac]. destruct is_server.
    + destruct ep as [e|]; lines_tac. rewrite <- (app_nil_r e). apply comment_ok; [vm_compute; reflexivity|by apply Hep].
    + apply Forall_app. split; [destruct (i =? 0)%nat; [constructor; [exact Hee|constructor]|constructor]|]. lines_tac.
Qed.

Lemma tun_doc_ok : doc_ok (tun_pre is_server) (tun_doc is_server secs pubkey_hex iface).
Proof.
  assert (short (tun_nat secs iface)) as Hnat by by apply conf_get_default.
  assert (forall d, shortb (ascii_bytes d) = true -> short (from_option id (ascii_bytes d) (tun_ka secs))) as Hka.
  { intros d Hd. apply conf_get_default. by apply short_ascii. }
  assert (short (from_option id (ascii_bytes "~/.aegis-tunnel/private.key") (conf_get secs "Interface" "PrivateKey"))) as Hpriv
    by (apply conf_get_default; short_tac).
  assert (short (from_option id (ascii_bytes "9000") (conf_get secs "Interface" "Port"))) as Hport
    by (apply conf_get_default; short_tac).
  split.
  { unfold tun_pre. constructor; [|constructor; [apply blank_ok|constructor]]. apply comment_ok; [vm_compute; reflexivity|].
    destruct is_server; short_tac. }
  unfold tun_doc. constructor; [|apply Forall_app; split].
  - apply dsec_ok_intro; [vm_compute; reflexivity| |].
    + destruct (negb _), (conf_get secs "Interface" "PublicKey"), is_server; simpl; lia.
    + repeat (apply Forall_app; split).
      * lines_tac.
      * destruct (negb _); [lines_tac|]. destruct (conf_get secs "Interface" "PublicKey") as [k|] eqn:E; lines_tac.
        by eapply conf_get_short.
      * destruct is_server; lines_tac.
      * destruct is_server; lines_tac; unfold post_line; apply comment_ok; done || vm_compute; reflexivity.
      * lines_tac.
  - unfold tun_peers_doc. pose proof peers_short as Hps. destruct (peers_of secs) as [|p ps].
    + constructor; [|constructor]. apply peer_doc_ok. split; [short_tac|done].
    + rewrite Forall_forall in Hps. apply Forall_forall. intros s Hs. apply elem_of_lookup_imap_1 in Hs as (j & q & -> & Hq).
      apply peer_doc_ok, Hps. by eapply list_elem_of_lookup_2.
  - constructor; [|constructor]. apply dsec_ok_intro; [vm_compute; reflexivity|simpl; lia|]. lines_tac.
    by apply Hka.
Qed.
End tun_doc_ok.

(** *** What is read from the created file *)

Lemma find_entry_here (k : string) v es key : strcaseeq (ascii_bytes k) key = true ->
  find_entry (mkEntry (ascii_bytes k) v :: es) key = Some v.
Proof. intros H. cbn [find_entry e_key]. by rewrite H. Qed.

Lemma find_entry_next (k : string) v es key : strcaseeq (ascii_bytes k) key = false ->
  find_entry (mkEntry (ascii_bytes k) v :: es) key = find_entry es key.
Proof. intros H. cbn [find_entry e_key]. by rewrite H. Qed.

Ltac find_tac :=
  repeat first [ rewrite find_entry_here by (vm_compute; reflexivity)
               | rewrite find_entry_next by (vm_compute; reflexivity) ]; try reflexivity.

Definition allowed (is_server : bool) : bytes := ascii_bytes (if is_server then "10.0.0.2/32" else "0.0.0.0/0").

Lemma secs_named_cons_here nm es section secs : strcaseeq nm section = true ->
  secs_named section ((nm, es) :: secs) = (nm, es) :: secs_named section secs.
Proof. intros H. unfold secs_named. by rewrite filter_cons_True. Qed.

Lemma secs_named_cons_next nm es section secs : strcaseeq nm section = false ->
  secs_named section ((nm, es) :: secs) = secs_named section secs.
Proof. intros H. unfold secs_named. rewrite filter_cons_False; [done|]. simpl. by rewrite H. Qed.

Lemma secs_named_app section a b : secs_named section (a ++ b) = secs_named section a ++ secs_named section b.
Proof. apply filter_app. Qed.

Lemma secs_named_all section secs : Forall (fun s => strcaseeq s.1 section = true) secs -> secs_named section secs = secs.
Proof. induction 1 as [|[nm es] secs Hs _ IH]; [done|]. by rewrite secs_named_cons_here, IH. Qed.

Section created.
Context (is_server : bool) (secs : config) (pubkey_hex iface : bytes).
Context (Hps : peers_of secs <> []).

Lemma tun_doc_peers :
  secs_named (ascii_bytes "Peer") (plain (tun_doc is_server secs pubkey_hex iface)) =
  plain (imap (peer_doc is_server (tun_ka secs)) (peers_of secs)).
Proof.
  unfold tun_doc. unfold plain at 1. cbn [map fst snd]. rewrite map_app.
  fold (plain (tun_peers_doc is_server secs)).
  rewrite secs_named_cons_next, secs_named_app by (vm_compute; reflexivity). cbn [map fst snd].
  rewrite secs_named_cons_next by (vm_compute; reflexivity). unfold secs_named at 2. rewrite filter_nil, app_nil_r.
  unfold tun_peers_doc. destruct (peers_of secs) as [|p ps]; [done|]. apply secs_named_all, Forall_forall.
  intros s Hs. apply list_elem_of_fmap in Hs as (s' & -> & Hs). apply elem_of_lookup_imap_1 in Hs as (j & q & -> & _).
  vm_compute. reflexivity.
Qed.

Lemma tun_doc_length : length (tun_doc is_server secs pubkey_hex iface) = (2 + length (peers_of secs))%nat.
Proof.
  unfold tun_doc, tun_peers_doc. cbn [length]. rewrite length_app.
  destruct (peers_of secs) as [|p ps]; [done|]. rewrite length_imap. simpl. lia.
Qed.

Lemma tun_doc_peer_key i key (f : bytes * option bytes -> option bytes) :
  (forall j p, find_entry (entries_of (peer_doc is_server (tun_ka secs) j p).2) key = f p) ->
  (length (peers_of secs) <= 5)%nat ->
  iniconf_get_indexed (table (kept 7 (plain (tun_doc is_server secs pubkey_hex iface)))) (ascii_bytes "Peer")
    (Z.of_nat i) key = peers_of secs !! i ≫= f.
Proof.
  intros Hf Hl. rewrite kept_all by (rewrite plain_length, tun_doc_length; lia).
  rewrite get_indexed_table, tun_doc_peers. unfold plain. rewrite list_lookup_fmap, list_lookup_imap.
  destruct (peers_of secs !! i) as [p|]; [|done]. simpl. apply Hf.
Qed.

Lemma tun_doc_interface key v : (length (peers_of secs) <= 5)%nat ->
  find_entry (entries_of (hd ([], []) (tun_doc is_server secs pubkey_hex iface)).2) key = v ->
  iniconf_get (table (kept 7 (plain (tun_doc is_server secs pubkey_hex iface)))) (ascii_bytes "Interface") key = v.
Proof.
  intros Hl Hf. rewrite kept_all by (rewrite plain_length, tun_doc_length; lia).
  rewrite get_table. unfold tun_doc. unfold plain. cbn [map fst snd].
  rewrite secs_named_cons_here by (vm_compute; reflexivity). exact Hf.
Qed.
End created.

(** The file that is written. *)
Lemma create_tun_runs env home iface is_server fs pre d n :
  let secs := kept 7 (plain d) in
  let hex := read_hex env (snp 768 (home ++ "/.aegis-tunnel/public.key")) fs in
  roomy env n -> (length (doc_text (tun_pre is_server) (tun_doc is_server secs hex iface)) <= n)%nat ->
  conf_is fs pre d -> Forall (fun s => Forall (fun e => short (e_value e)) s.2) secs -> short hex -> short iface ->
  exists m, cmd_create_tun env home iface is_server [] fs = (0, <[TUN_CONF is_server := mkFile m
    (doc_text (tun_pre is_server) (tun_doc is_server secs hex iface))]> fs).
Proof.
  intros secs hex R Hn (Hdok & f & Hf & Hd) Hshort Hhex Hif.
  assert (length secs <= 8)%nat as Hl8.
  { subst secs. unfold kept. rewrite length_app, length_map, !length_take. lia. }
  eexists. unfold cmd_create_tun. rewrite Hf, (fopen_r_all _ _ R), Hf.
  cbn [fmap option_fmap option_map]. rewrite Hd, iniconf_load_doc by done. change (negb (0 =? 0)) with false. cbv match.
  fold hex secs. rewrite tun_lines_doc by done. fold (doc_text (tun_pre is_server) (tun_doc is_server secs hex iface)).
  by rewrite (write_text_all _ _ R).
Qed.

(** What [create tun] writes is what the program will read.  From a
    configuration with one to five peers (more do not fit the parser's table)
    it writes a file which, loaded, has the same public keys in the same order,
    the role and the private key; every peer gets the same address range. *)
Theorem create_tun_loads env home iface is_server fs pre d n :
  let secs := kept 7 (plain d) in
  let hex := read_hex env (snp 768 (home ++ "/.aegis-tunnel/public.key")) fs in
  roomy env n -> (length (doc_text (tun_pre is_server) (tun_doc is_server secs hex iface)) <= n)%nat ->
  conf_is fs pre d -> Forall (fun s => Forall (fun e => short (e_value e)) s.2) secs -> short hex -> short iface ->
  peers_of secs <> [] -> (length (peers_of secs) <= 5)%nat ->
  exists fs', cmd_create_tun env home iface is_server [] fs = (0, fs') /\
    forall cfg, exists cfg', iniconf_load cfg (fopen_r env (TUN_CONF is_server) fs') [] = (0, cfg') /\
      iniconf_get cfg' (ascii_bytes "Interface") (ascii_bytes "Mode") = Some (role is_server) /\
      iniconf_get cfg' (ascii_bytes "Interface") (ascii_bytes "PrivateKey") =
        Some (from_option id (ascii_bytes "~/.aegis-tunnel/private.key") (conf_get secs "Interface" "PrivateKey")) /\
      forall i,
        iniconf_get_indexed cfg' (ascii_bytes "Peer") (Z.of_nat i) (ascii_bytes "PublicKey") = fst <$> peers_of secs !! i /\
        iniconf_get_indexed cfg' (ascii_bytes "Peer") (Z.of_nat i) (ascii_bytes "AllowedIPs") =
          (fun _ => allowed is_server) <$> peers_of secs !! i.
Proof.
  intros secs hex R Hn Hcis Hshort Hhex Hif Hne Hl5.
  pose proof (tun_doc_ok is_server secs hex iface Hshort Hhex Hif) as Hok.
  destruct (create_tun_runs env home iface is_server fs pre d n R Hn Hcis Hshort Hhex Hif) as [m Hrun].
  fold secs hex in Hrun. set (fs' := <[TUN_CONF is_server := _]> fs) in Hrun.
  exists fs'. split; [exact Hrun|].
  intros cfg. eexists. rewrite (fopen_r_all _ _ R). unfold fs' at 1. rewrite lookup_insert_eq. cbn [fmap option_fmap option_map f_data].
    split; [by apply iniconf_load_doc|]. split_and!.
    + apply tun_doc_interface; [done..|]. unfold tun_doc. cbn [hd snd fst].
      destruct (negb _), (conf_get secs "Interface" "PublicKey"), is_server; cbn -[ascii_bytes find_entry role]; find_tac.
    + apply tun_doc_interface; [done..|]. unfold tun_doc. cbn [hd snd fst]. rewrite entries_of_app.
      cbn -[ascii_bytes find_entry]. find_tac.
    + intros i. rewrite (tun_doc_peer_key is_server secs hex iface Hne i _ (fun p => Some p.1)) by (done || intros; find_tac).
      rewrite (tun_doc_peer_key is_server secs hex iface Hne i _ (fun _ => Some (allowed is_server))); [| |done].
      * by destruct (peers_of secs !! i).
      * intros j [pk ep]. destruct is_server, ep, (j =? 0)%nat eqn:Ej; unfold peer_doc; cbn [fst snd]; rewrite ?Ej;
          cbn -[ascii_bytes find_entry endpoint_buf]; find_tac.
Qed.

(** *** Example *)

Lemma create_tun_loads_witness :
  exists fs', cmd_create_tun env0 "/root" (ascii_bytes "eth0") true [] fs1 = (0, fs') /\
    forall cfg, exists cfg', iniconf_load cfg (fopen_r env0 (TUN_CONF true) fs') [] = (0, cfg') /\
      iniconf_get cfg' (ascii_bytes "Interface") (ascii_bytes "Mode") = Some (role true) /\
      iniconf_get cfg' (ascii_bytes "Interface") (ascii_bytes "PrivateKey") =
        Some (from_option id (ascii_bytes "~/.aegis-tunnel/private.key")
          (conf_get (kept 7 (plain doc1)) "Interface" "PrivateKey")) /\
      forall i,
        iniconf_get_indexed cfg' (ascii_bytes "Peer") (Z.of_nat i) (ascii_bytes "PublicKey") =
          fst <$> peers_of (kept 7 (plain doc1)) !! i /\
        iniconf_get_indexed cfg' (ascii_bytes "Peer") (Z.of_nat i) (ascii_bytes "AllowedIPs") =
          (fun _ => allowed true) <$> peers_of (kept 7 (plain doc1)) !! i.
Proof.
  apply (create_tun_loads env0 "/root" (ascii_bytes "eth0") true fs1 [] doc1 3000).
  - apply env0_roomy. lia.
  - vm_compute. lia.
  - exact conf_is_1.
  - rewrite kept_all by (vm_compute; lia). unfold doc1, doc0, base_doc, plain. cbn [map fst snd].
    repeat (apply Forall_cons_2 || apply Forall_nil_2); apply shortb_spec; vm_compute; reflexivity.
  - apply shortb_spec. vm_compute. reflexivity.
  - apply shortb_spec. vm_compute. reflexivity.
  - vm_compute. discriminate.
  - vm_compute. lia.
Defined.
