(* ===== verification/Main.v ===== *)
(** * Start-up (main.c): arguments, configuration, dispatch

    [parse_hex] and [parse_host_port], the options after [getopt], the values
    taken from the configuration file, the checks, and the choice of the mode.
    Strings are byte lists; a [char] array written by [strncpy] or [snprintf]
    is the string it holds.  [Undef] marks a shift by an amount C leaves
    undefined. *)

From stdpp Require Import sets gmap.
From S2P Require Import Prelude Util Keyfile IniConfig ConfDoc ConfigMgmt CreateTun.

Definition MAX_PEERS : nat := 16.
Definition MAX_HOST_LEN : nat := 256.
Definition DEFAULT_MAX_CONN : Z := 32.
Definition DEFAULT_HS_TIMEOUT : Z := 5.

Inductive outcome (A : Type) := Ok (a : A) | Exit (code : Z) | Undef.
Arguments Ok {A} a.
Arguments Exit {A} code.
Arguments Undef {A}.

#[global] Instance outcome_ret : MRet outcome := fun A a => Ok a.
#[global] Instance outcome_bind : MBind outcome := fun A B f x =>
  match x with Ok a => f a | Exit c => Exit c | Undef => Undef end.

(** ** The C library *)

Definition atoi (l : bytes) : Z := to_int (fst (fst (strtol l))).

(** [strrchr]: the text before and after the last occurrence. *)
Fixpoint strrchr (c : Z) (l : bytes) : option (bytes * bytes) :=
  match l with
  | [] => None
  | x :: l' => match strrchr c l' with
               | Some (a, b) => Some (x :: a, b)
               | None => if x =? c then Some ([], l') else None
               end
  end.

(** [%u] and [%d]. *)
Fixpoint dec_loop (fuel : nat) (n : Z) (acc : bytes) : bytes :=
  match fuel with
  | O => acc
  | S f => let acc' := 48 + n mod 10 :: acc in if n <? 10 then acc' else dec_loop f (n / 10) acc'
  end.
Definition dec_u (n : Z) : bytes := dec_loop 10 n [].
Definition dec_d (n : Z) : bytes := if n <? 0 then 45 :: dec_u (- n) else dec_u n.

(** One [%u] of [sscanf]: the value and the rest. *)
Definition scan_u (l : bytes) : option (Z * bytes) :=
  let l0 := ltrim l in
  let '(neg, l1) := match l0 with
                    | c :: l' => if c =? 45 then (true, l') else if c =? 43 then (false, l') else (false, l0)
                    | [] => (false, l0)
                    end in
  match l1 with
  | c :: _ =>
      if is_digit c then
        let '(n, rest) := digits l1 0 in
        Some (u32 (if n <? 2 ^ 64 then (if neg : bool then u64 (- n) else n) else 2 ^ 64 - 1), rest)
      else None
  | [] => None
  end.

(** A literal character of the format. *)
Definition scan_char (c : Z) (l : bytes) : option bytes :=
  match l with x :: l' => if x =? c then Some l' else None | [] => None end.

(** [sscanf(s, "%u.%u.%u.%u...", ...) >= 4]. *)
Definition scan_quad (s : bytes) : option (Z * Z * Z * Z) :=
  '(a, s1) ← scan_u s; s2 ← scan_char 46 s1;
  '(b, s3) ← scan_u s2; s4 ← scan_char 46 s3;
  '(c, s5) ← scan_u s4; s6 ← scan_char 46 s5;
  '(d, _) ← scan_u s6; Some (a, b, c, d).

(** ** Helpers of main.c *)

(** Result and the caller's buffer. *)
Definition read_psk_file (env : fs_env) (fs : filesystem) (psk : bytes) (max_len : nat) (p : path) : Z * bytes :=
  match open_read env p max_len fs with
  | None => (-1, psk)
  | Some (n, d) => if n <? 0 then (-1, psk) else (n, splice psk 0 d)
  end.

(** The loop of [parse_hex]: bytes written before a bad digit stay. *)
Fixpoint parse_hex_loop (hex : bytes) (i : nat) (out : bytes) : bool * bytes :=
  match hex with
  | hi :: lo :: hex' =>
      match hex_value hi with
      | None => (false, out)
      | Some h => match hex_value lo with
                  | None => (false, out)
                  | Some l => parse_hex_loop hex' (S i) (<[i := Z.lor (Z.shiftl h 4) l]> out)
                  end
      end
  | _ => (true, out)
  end.

Definition parse_hex (out : bytes) (max : nat) (hex : bytes) : Z * bytes :=
  let hl := length hex in
  if negb (hl mod 2 =? 0)%nat then (-1, out)
  else
    let bl := (hl / 2)%nat in
    if (max <? bl)%nat then (-1, out)
    else let '(ok, out') := parse_hex_loop hex 0 out in (if ok then Z.of_nat bl else -1, out').

(** Result, host and port. *)
Definition parse_host_port (addr : bytes) : option (bytes * Z) :=
  match strrchr 58 addr with
  | None => None
  | Some (host, p) => let port := atoi p in if (0 <? port) && (port <=? 65535) then Some (host, port) else None
  end.

(** [(p == 0) ? 0 : (~0u << (32 - p))]: defined for a prefix of 0 to 32. *)
Definition netmask_of (prefix : Z) : outcome Z :=
  if prefix =? 0 then Ok 0
  else let s := u32 (32 - u32 prefix) in
       if s <? 32 then Ok (u32 (Z.shiftl (2 ^ 32 - 1) s)) else Undef.

Definition quad_text (nm : Z) : bytes :=
  dec_u (Z.land (Z.shiftr nm 24) 255) ++ [46] ++ dec_u (Z.land (Z.shiftr nm 16) 255) ++ [46] ++
  dec_u (Z.land (Z.shiftr nm 8) 255) ++ [46] ++ dec_u (Z.land nm 255).

(** [snprintf(tun_route, 63, "%s.0/%d", network, prefix)], with the last
    number of the address cut off. *)
Definition derive_route (ip : bytes) (prefix : Z) : option bytes :=
  match strrchr 46 ip with
  | None => None
  | Some (net, _) => Some (take 62 (net ++ ascii_bytes ".0/" ++ dec_d prefix))
  end.

(** ** The options *)

Record opts := mkOpts {
  listen_port : Z; remote_str : option bytes; config_file : option bytes;
  privkey_file : option bytes; peerkey_file : option bytes; o_mode : bytes;
  o_keepalive : Z; hs_timeout : Z; tun_mode : bool; tun_udp : bool;
  tun_ip : bytes; tun_netmask : bytes; tun_route : bytes; tun_nat_if : bytes;
  tun_postup : bytes; tun_postdown : bytes; g_max_conns : Z; g_tun_multipath : Z
}.

#[global] Instance opts_eta : Inhabited opts :=
  populate (mkOpts 0 None None None None [] 0 0 false false [] [] [] [] [] [] 0 0).

Definition SERVER : bytes := ascii_bytes "server".
Definition CLIENT : bytes := ascii_bytes "client".

(** The values before any option is read; [iface] is the interface of the
    default route. *)
Definition opts_init (iface : bytes) : opts :=
  mkOpts 9000 None None None None SERVER 0 DEFAULT_HS_TIMEOUT false false
    [] (ascii_bytes "255.255.255.0") [] (take 15 iface) [] [] DEFAULT_MAX_CONN 1.

Definition set_tun (o : opts) (mode : bool) (ip nm route : bytes) : opts :=
  mkOpts (listen_port o) (remote_str o) (config_file o) (privkey_file o) (peerkey_file o) (o_mode o)
    (o_keepalive o) (hs_timeout o) mode (tun_udp o) ip nm route (tun_nat_if o) (tun_postup o) (tun_postdown o)
    (g_max_conns o) (g_tun_multipath o).

Definition set_nums (o : opts) (port keepalive timeout maxc multi : Z) : opts :=
  mkOpts port (remote_str o) (config_file o) (privkey_file o) (peerkey_file o) (o_mode o)
    keepalive timeout (tun_mode o) (tun_udp o) (tun_ip o) (tun_netmask o) (tun_route o) (tun_nat_if o)
    (tun_postup o) (tun_postdown o) maxc multi.

Definition set_strs (o : opts) (remote conf priv peer : option bytes) (mode : bytes) : opts :=
  mkOpts (listen_port o) remote conf priv peer mode
    (o_keepalive o) (hs_timeout o) (tun_mode o) (tun_udp o) (tun_ip o) (tun_netmask o) (tun_route o) (tun_nat_if o)
    (tun_postup o) (tun_postdown o) (g_max_conns o) (g_tun_multipath o).

Definition set_misc (o : opts) (udp : bool) (nat_if postup postdown : bytes) : opts :=
  mkOpts (listen_port o) (remote_str o) (config_file o) (privkey_file o) (peerkey_file o) (o_mode o)
    (o_keepalive o) (hs_timeout o) (tun_mode o) udp (tun_ip o) (tun_netmask o) (tun_route o) nat_if
    postup postdown (g_max_conns o) (g_tun_multipath o).

(** An option as [getopt] delivers it. *)
Inductive option_t :=
  | OptL (a : bytes) | OptR (a : bytes) | OptP (a : bytes) | OptQ (a : bytes) | OptC (a : bytes)
  | OptMode (a : bytes) | OptT (a : bytes) | OptX (a : bytes) | OptK (a : bytes) | OptTun (a : bytes)
  | OptI (a : bytes) | OptN (a : bytes) | OptRoute (a : bytes) | OptW (a : bytes) | OptM (a : bytes)
  | OptU | OptV | OptH | OptBad.

(** [-T ip/prefix] or [-T ip]. *)
Definition opt_tun (a : bytes) (o : opts) : outcome opts :=
  match strchr 47 a with
  | None => Ok (set_tun o true (take 31 a) (tun_netmask o) (tun_route o))
  | Some (ip, p) =>
      let prefix := atoi p in
      let tip := take 31 ip in
      nm ← netmask_of prefix;
      Ok (set_tun o true tip (take 30 (quad_text nm)) (from_option id (tun_route o) (derive_route tip prefix)))
  end.

Definition clamp_multipath (n : Z) : Z := let n1 := if n <? 1 then 1 else n in if 8 <? n1 then 8 else n1.

Definition apply_option (x : option_t) (o : opts) : outcome opts :=
  match x with
  | OptL a => Ok (set_nums o (atoi a) (o_keepalive o) (hs_timeout o) (g_max_conns o) (g_tun_multipath o))
  | OptR a => Ok (set_strs o (Some a) (config_file o) (privkey_file o) (peerkey_file o) (o_mode o))
  | OptP a => Ok (set_strs o (remote_str o) (config_file o) (Some a) (peerkey_file o) (o_mode o))
  | OptQ a => Ok (set_strs o (remote_str o) (config_file o) (privkey_file o) (Some a) (o_mode o))
  | OptC a => Ok (set_strs o (remote_str o) (Some a) (privkey_file o) (peerkey_file o) (o_mode o))
  | OptMode a => Ok (set_strs o (remote_str o) (config_file o) (privkey_file o) (peerkey_file o) a)
  | OptT a => Ok (set_nums o (listen_port o) (o_keepalive o) (atoi a) (g_max_conns o) (g_tun_multipath o))
  | OptX a => Ok (set_nums o (listen_port o) (o_keepalive o) (hs_timeout o) (atoi a) (g_tun_multipath o))
  | OptK a => Ok (set_nums o (listen_port o) (atoi a) (hs_timeout o) (g_max_conns o) (g_tun_multipath o))
  | OptTun a => opt_tun a o
  | OptI a => Ok (set_tun o (tun_mode o) (take 31 a) (tun_netmask o) (tun_route o))
  | OptN a => Ok (set_tun o (tun_mode o) (tun_ip o) (take 31 a) (tun_route o))
  | OptRoute a => Ok (set_tun o (tun_mode o) (tun_ip o) (tun_netmask o) (take 63 a))
  | OptW a => Ok (set_misc o (tun_udp o) (take 15 a) (tun_postup o) (tun_postdown o))
  | OptM a => Ok (set_nums o (listen_port o) (o_keepalive o) (hs_timeout o) (g_max_conns o) (clamp_multipath (atoi a)))
  | OptU => Ok (set_misc o true (tun_nat_if o) (tun_postup o) (tun_postdown o))
  | OptV => Ok o
  | OptH => Exit 0
  | OptBad => Exit 1
  end.

Fixpoint apply_options (xs : list option_t) (o : opts) : outcome opts :=
  match xs with [] => Ok o | x :: xs' => o1 ← apply_option x o; apply_options xs' o1 end.

(** ** The configuration file *)

Record peers_t := mkPeers {
  g_asym_peers : list bytes; g_peer_endpoints : list bytes; g_peer_tun_ips : list Z; g_peer_count : nat
}.

(** Static storage is zero. *)
Definition peers_init : peers_t :=
  mkPeers (replicate MAX_PEERS (zeros 32)) (replicate MAX_PEERS []) (replicate MAX_PEERS 0) 0.

(** [(oct\[0\] << 24) | ...] of unsigned numbers. *)
Definition quad_addr (q : Z * Z * Z * Z) : Z :=
  let '(a, b, c, d) := q in
  Z.lor (Z.lor (Z.lor (u32 (Z.shiftl a 24)) (u32 (Z.shiftl b 16))) (u32 (Z.shiftl c 8))) d.

Definition peer_tun_ip (aip : option bytes) : Z :=
  match aip with None => 0 | Some s => from_option quad_addr 0 (scan_quad s) end.

Definition peer_key := fun icfg (pi : nat) (k : string) =>
  iniconf_get_indexed icfg (ascii_bytes "Peer") (Z.of_nat pi) (ascii_bytes k).

(** One round of the loop over the [\[Peer\]] sections. *)
Definition load_peer (icfg : iniconf_t) (pi : nat) (v : bytes) (g : peers_t) : peers_t :=
  if negb (length v =? 64)%nat then g
  else
    let '(r, key) := parse_hex (nth pi (g_asym_peers g) []) 32 v in
    let peers := <[pi := key]> (g_asym_peers g) in
    if negb (r =? 32) then mkPeers peers (g_peer_endpoints g) (g_peer_tun_ips g) (g_peer_count g)
    else
      mkPeers peers (<[pi := from_option (take 255) [] (peer_key icfg pi "Endpoint")]> (g_peer_endpoints g))
        (<[pi := peer_tun_ip (peer_key icfg pi "AllowedIPs")]> (g_peer_tun_ips g)) (S pi).

Fixpoint load_peers (fuel : nat) (icfg : iniconf_t) (pi : nat) (g : peers_t) : peers_t :=
  match fuel with
  | O => g
  | S f => match peer_key icfg pi "PublicKey" with
           | None => g
           | Some v => load_peers f icfg (S pi) (load_peer icfg pi v g)
           end
  end.

(** The routes: [AllowedIPs] of all peers, separated by commas, in 62
    characters. *)
Definition route_room (route : bytes) (s : bytes) : bytes := route ++ take (62 - length route) s.

Fixpoint aggregate (fuel : nat) (icfg : iniconf_t) (pi : nat) (route : bytes) : bytes :=
  match fuel with
  | O => route
  | S f => match peer_key icfg pi "AllowedIPs" with
           | None => route
           | Some [] => route
           | Some aip =>
               let r1 := if (0 <? pi)%nat && (length route <? 62)%nat then route ++ [44] else route in
               aggregate f icfg (S pi) (route_room r1 aip)
           end
  end.

(** [Address = ip/prefix]. *)
Definition config_address (v : bytes) (o : opts) : outcome opts :=
  match strchr 47 v with
  | None => Ok (set_tun o true (tun_ip o) (tun_netmask o) (tun_route o))
  | Some (ip, p) =>
      let px := atoi p in
      let tip := if (length ip <? 32)%nat then ip else tun_ip o in
      nm ← netmask_of px;
      let route := match tun_route o with [] => from_option id [] (derive_route tip px) | r => r end in
      Ok (set_tun o true tip (take 30 (quad_text nm)) route)
  end.

(** [~] at the start of a path. *)
Definition expand_home (home v : bytes) : bytes :=
  match v with c :: v' => if c =? 126 then home ++ v' else v | [] => v end.

(** [strstr(v, "client") || strstr(v, "Client")]. *)
Fixpoint has_substr (needle hay : bytes) : bool :=
  bool_decide (take (length needle) hay = needle) ||
  match hay with [] => false | _ :: h => has_substr needle h end.

Section config.
Context (icfg : iniconf_t) (home : bytes).

Definition cget (s k : string) : option bytes := iniconf_get icfg (ascii_bytes s) (ascii_bytes k).
Definition cint (s k : string) (dflt : Z) : Z := iniconf_get_int icfg (ascii_bytes s) (ascii_bytes k) dflt.

Definition cfg_port (o : opts) : opts :=
  if listen_port o =? 9000 then
    let lp := cint "Interface" "ListenPort" 0 in
    let port := if 0 <? lp then lp else cint "Interface" "Port" (listen_port o) in
    set_nums o port (o_keepalive o) (hs_timeout o) (g_max_conns o) (g_tun_multipath o)
  else o.

Definition cfg_scripts (o : opts) : opts :=
  let up := match tun_postup o with [] => from_option (take 255) [] (cget "Interface" "PostUp") | s => s end in
  let down := match tun_postdown o with [] => from_option (take 255) [] (cget "Interface" "PostDown") | s => s end in
  set_misc o (tun_udp o) (tun_nat_if o) up down.

Definition cfg_remote (o : opts) : opts :=
  let remote := match remote_str o with
                | Some r => Some r
                | None => match cget "Peer" "Endpoint" with
                          | None => None
                          | Some v => if bool_decide (v = ascii_bytes "0.0.0.0:0") then None else Some v
                          end
                end in
  let mode := if bool_decide (o_mode o = SERVER)
              then match cget "Interface" "Mode" with
                   | Some v => if has_substr (ascii_bytes "client") v || has_substr (ascii_bytes "Client") v
                               then CLIENT else o_mode o
                   | None => o_mode o
                   end
              else o_mode o in
  let priv := match privkey_file o with
              | Some p => Some p
              | None => expand_home home <$> cget "Interface" "PrivateKey"
              end in
  set_strs o remote (config_file o) priv (peerkey_file o) mode.

Definition cfg_peers (o : opts) (g : peers_t) : peers_t :=
  match peerkey_file o with None => load_peers MAX_PEERS icfg 0 g | Some _ => g end.

Definition cfg_route (o : opts) : opts :=
  match tun_route o with
  | [] =>
      let r := match aggregate MAX_PEERS icfg 0 [] with
               | [] => from_option (take 63) [] (cget "Peer" "AllowedIPs")
               | r => r
               end in
      set_tun o (tun_mode o) (tun_ip o) (tun_netmask o) r
  | _ => o
  end.

Definition cfg_tun (o : opts) : outcome opts :=
  match tun_ip o with
  | [] => match cget "Interface" "Address" with None => Ok o | Some v => config_address v o end
  | _ => Ok o
  end.

Definition cfg_nums (o : opts) : opts :=
  let ka1 := if o_keepalive o =? 0 then cint "Peer" "PersistentKeepalive" 0 else o_keepalive o in
  let to := if hs_timeout o =? DEFAULT_HS_TIMEOUT then cint "Tunnel" "Timeout" (hs_timeout o) else hs_timeout o in
  let ka2 := if ka1 =? 0 then cint "Tunnel" "Keepalive" ka1 else ka1 in
  let mc := if g_max_conns o =? DEFAULT_MAX_CONN then cint "Tunnel" "MaxConnections" (g_max_conns o) else g_max_conns o in
  let o1 := set_nums o (listen_port o) ka2 to mc (g_tun_multipath o) in
  match cget "Tunnel" "NATInterface" with
  | Some v => set_misc o1 (tun_udp o1) (take 15 v) (tun_postup o1) (tun_postdown o1)
  | None => o1
  end.

(** The whole block that applies a loaded file. *)
Definition apply_config (o : opts) (g : peers_t) : outcome (opts * peers_t) :=
  let o1 := cfg_remote (cfg_scripts (cfg_port o)) in
  let g1 := cfg_peers o1 g in
  o2 ← cfg_tun (cfg_route o1);
  Ok (cfg_nums o2, g1).
End config.

(** ** The checks and the choice of the mode *)

Inductive launch :=
  | Socks5Server (port : Z) (timeout keepalive : Z)
  | Socks5Client (host : bytes) (remote_port port timeout keepalive : Z)
  | UdpServer (o : opts) | UdpClient (host : bytes) (port : Z) (o : opts)
  | TunServer (o : opts) | TunClient (host : bytes) (port : Z) (o : opts)
  | PskServer (host : bytes) (port : Z) (o : opts) | PskClient (host : bytes) (port : Z) (o : opts).

Definition is_server (o : opts) : bool := bool_decide (o_mode o = SERVER).

(** The checks of the options, and the remote host and port. *)
Definition check_options (o : opts) : outcome (bytes * Z) :=
  if listen_port o <=? 0 then Exit 1
  else if match remote_str o with None => negb (tun_mode o) && negb (is_server o) | Some _ => false end then Exit 1
  else if negb (is_server o) && negb (bool_decide (o_mode o = CLIENT)) then Exit 1
  else match remote_str o with
       | None => Ok ([], 0)
       | Some r => match parse_host_port r with
                   | None => Exit 1
                   | Some (h, p) => Ok (take (MAX_HOST_LEN - 1) h, p)
                   end
       end.

(** [socks5_force] is 1 for a server, 2 for a client and 0 otherwise. *)
Definition dispatch (socks5_force : Z) (o : opts) (host : bytes) (port : Z) : launch :=
  if negb (socks5_force =? 0) then
    if socks5_force =? 1 then Socks5Server (listen_port o) (hs_timeout o) (o_keepalive o)
    else Socks5Client (from_option id (ascii_bytes "127.0.0.1") (remote_str o))
           (if port =? 0 then 9000 else port) (listen_port o) (hs_timeout o) (o_keepalive o)
  else if tun_mode o && tun_udp o then (if is_server o then UdpServer o else UdpClient host port o)
  else if tun_mode o then (if is_server o then TunServer o else TunClient host port o)
  else if is_server o then PskServer host port o else PskClient host port o.

Definition path_of (l : bytes) : path := String.string_of_list_ascii (map (fun c => Ascii.ascii_of_N (Z.to_N c)) l).

(** The peer's key: [-Q], the configuration, or the key directory, whose last
    entry that ends in [.pub] is taken ([found], with how many there were). *)
Definition resolve_peer (env : fs_env) (fs : filesystem) (o : opts) (found : option path) (g : peers_t) : outcome peers_t :=
  let set0 := fun k n => mkPeers (<[0%nat := k]> (g_asym_peers g)) (g_peer_endpoints g) (g_peer_tun_ips g) n in
  let key0 := nth 0 (g_asym_peers g) [] in
  match peerkey_file o with
  | Some q =>
      if (length q =? 64)%nat && negb (bool_decide (47 ∈ q)) && negb (bool_decide (46 ∈ q)) then
        let '(r, k) := parse_hex key0 32 q in
        if negb (r =? 32) then Exit 1 else Ok (set0 k 1%nat)
      else
        let '(r, k) := keyfile_load_public env fs key0 (path_of q) in
        if negb (r =? 0) then Exit 1 else Ok (set0 k 1%nat)
  | None =>
      if negb (g_peer_count g =? 0)%nat then Ok g
      else match found with
           | None => Exit 1
           | Some p =>
               let '(r, k) := keyfile_load_public env fs key0 p in
               if negb (r =? 0) then Exit 1 else Ok (set0 k (g_peer_count g))
           end
  end.

(** ** From the arguments to the mode *)

Section prepare.
Context (env : fs_env) (fs : filesystem) (home : string) (iface : bytes).
Context (keypair : option (bytes * bytes)) (found : option path).

(** [start tun -server | -client] (1 or 2; 0 without it). *)
Definition start_tun (force : Z) (o : opts) : outcome opts :=
  if force =? 0 then Ok o
  else
    let srv := force =? 1 in
    let o1 := set_tun (set_strs o (remote_str o) (config_file o) (privkey_file o) (peerkey_file o) (role srv))
                true (tun_ip o) (tun_netmask o) (tun_route o) in
    match config_file o1 with
    | Some _ => Ok o1
    | None =>
        match fs !! TUN_CONF srv with
        | None => Exit 1
        | Some _ => Ok (set_strs o1 (remote_str o1) (Some (ascii_bytes (TUN_CONF srv))) (privkey_file o1) (peerkey_file o1) (o_mode o1))
        end
    end.

Definition auto_config (o : opts) : opts :=
  match config_file o, fs !! CONF with
  | None, Some _ => set_strs o (remote_str o) (Some (ascii_bytes CONF)) (privkey_file o) (peerkey_file o) (o_mode o)
  | _, _ => o
  end.

Definition load_config (o : opts) (g : peers_t) : outcome (opts * peers_t) :=
  match config_file o with
  | None => Ok (o, g)
  | Some f =>
      let '(r, icfg) := iniconf_load conf_zero (fopen_r env (path_of f) fs) [] in
      if r =? 0 then apply_config icfg (ascii_bytes home) o g else Ok (o, g)
  end.

(** The private key: the one named, or the default one, made if missing. *)
Definition private_key (o : opts) : outcome (bytes * filesystem) :=
  let dflt := snp 768 (key_dir home ++ "/private.key") in
  let '(p, fs1) :=
    match privkey_file o with
    | Some f => (path_of f, fs)
    | None => (dflt, match fs !! dflt with
                     | Some _ => fs
                     | None => snd (keyfile_generate env keypair dflt (snp 768 (key_dir home ++ "/public.key")) fs)
                     end)
    end in
  let '(r, k, _) := keyfile_load_private env fs1 (zeros 32) p in
  if negb (r =? 0) then Exit 1 else Ok (k, fs1).

(** [main] after the subcommands: the mode that is entered, the private key
    and the peers. *)
Definition main_prepare (socks5_force start_force : Z) (xs : list option_t) : outcome (launch * bytes * peers_t) :=
  o ← apply_options xs (opts_init iface);
  o1 ← start_tun start_force o;
  '(o2, g) ← load_config (auto_config o1) peers_init;
  '(host, port) ← check_options o2;
  '(priv, fs1) ← private_key o2;
  g1 ← resolve_peer env fs1 o2 found g;
  Ok (dispatch socks5_force o2 host port, priv, g1).
End prepare.

(** ** Keys *)

(** At most [max_len] bytes are read, and the buffer is not overrun. *)
Lemma read_psk_file_bounded env fs psk max_len p : (max_len <= length psk)%nat ->
  let '(r, psk') := read_psk_file env fs psk max_len p in -1 <= r <= Z.of_nat max_len /\ length psk' = length psk.
Proof.
  intros Hl. unfold read_psk_file, open_read. destruct (negb _); [split; [lia|done]|]. destruct (fs !! p) as [f|]; [|split; [lia|done]].
  destruct (read_fails env p); [split; [lia|done]|]. pose proof (firstn_le_length max_len (f_data f)) as H.
  destruct (_ <? 0) eqn:E; zbool; [lia|]. split; [lia|]. rewrite splice_length; [done|]. lia.
Qed.

(** The digits are written one pair after the other; then the rest is read. *)
Lemma parse_hex_loop_prefix hex k rest : spells hex k -> forall pre out,
  (length k <= length out)%nat ->
  parse_hex_loop (hex ++ rest) (length pre) (pre ++ out) = parse_hex_loop rest (length pre + length k) (pre ++ k ++ drop (length k) out).
Proof.
  induction 1 as [|a b x y ds k Ha Hb _ IH]; intros pre out Hl; [by rewrite Nat.add_0_r|].
  cbn [app parse_hex_loop]. rewrite Ha, Hb.
  destruct out as [|z out]; [simpl in Hl; lia|]. simpl in Hl.
  replace (<[length pre := _]> (pre ++ z :: out)) with ((pre ++ [16 * x + y]) ++ out).
  - pose proof (IH (pre ++ [16 * x + y]) out) as E. rewrite length_app in E. simpl in E. rewrite Nat.add_1_r in E.
    rewrite E by lia. simpl. rewrite <- !app_assoc. f_equal. lia.
  - rewrite <- (Nat.add_0_r (length pre)), insert_app_r. simpl. rewrite <- app_assoc. simpl. do 2 f_equal.
    apply hex_value_range in Ha, Hb. rewrite <- nibbles by done. f_equal. unfold u8. symmetry.
    rewrite Z.mod_small; [done|]. rewrite Z.shiftl_mul_pow2 by lia. lia.
Qed.

(** A key of 64 digits is read in full. *)
Lemma parse_hex_key out hex k : spells hex k -> length k = 32%nat -> length out = 32%nat -> parse_hex out 32 hex = (32, k).
Proof.
  intros Hs Hk Ho. unfold parse_hex. rewrite (spells_length _ _ Hs), Hk. change ((2 * 32) mod 2 =? 0)%nat with true.
  change (32 <? 2 * 32 / 2)%nat with false. cbv match.
  pose proof (parse_hex_loop_prefix _ _ [] Hs [] out) as E. rewrite app_nil_r in E. cbn [length app] in E. rewrite E by lia.
  cbn [parse_hex_loop]. by rewrite drop_ge, app_nil_r by lia.
Qed.

(** Nothing else is accepted, and the buffer keeps its length. *)
Lemma parse_hex_loop_cases n : forall hex, length hex = (2 * n)%nat ->
  (exists k, spells hex k) \/ forall i out, fst (parse_hex_loop hex i out) = false.
Proof.
  induction n as [|n IH]; intros hex Hl; [destruct hex; [|done]; left; exists []; constructor|].
  destruct hex as [|a [|b hex]]; [simpl in Hl; lia..|]. simpl in Hl. cbn [parse_hex_loop].
  destruct (hex_value a) eqn:Ha; [|by right]. destruct (hex_value b) eqn:Hb; [|by right].
  destruct (IH hex) as [[k Hk]|H]; [lia| |by right]. left. eexists. by constructor.
Qed.

Lemma parse_hex_loop_length hex : forall i out, length (snd (parse_hex_loop hex i out)) = length out.
Proof.
  induction hex as [hex IH] using (well_founded_induction (well_founded_ltof _ (@length Z))). intros i out.
  destruct hex as [|a [|b hex]]; [done..|]. cbn [parse_hex_loop].
  destruct (hex_value a); [|done]. destruct (hex_value b); [|done].
  rewrite IH by (unfold ltof; simpl; lia). apply length_insert.
Qed.

Lemma parse_hex_length out hex : length (snd (parse_hex out 32 hex)) = length out.
Proof.
  unfold parse_hex. destruct (negb _); [done|]. destruct (_ <? _)%nat; [done|].
  pose proof (parse_hex_loop_length hex 0 out). by destruct (parse_hex_loop hex 0 out).
Qed.

(** The digits in front of a pair that has a bad one are written. *)
Lemma parse_hex_bad out ds k a b rest : length (ds ++ a :: b :: rest) = 64%nat -> length out = 32%nat ->
  spells ds k -> hex_value a = None \/ hex_value b = None ->
  parse_hex out 32 (ds ++ a :: b :: rest) = (-1, k ++ drop (length k) out).
Proof.
  intros Hl Ho Hs Hbad. unfold parse_hex. rewrite Hl. change (negb (64 mod 2 =? 0)%nat) with false.
  change (32 <? 64 / 2)%nat with false. cbv match.
  pose proof (parse_hex_loop_prefix ds k (a :: b :: rest) Hs [] out) as E. cbn [length app] in E.
  rewrite E by (apply spells_length in Hs; rewrite length_app in Hl; simpl in Hl; lia). cbn [parse_hex_loop].
  destruct (hex_value a); [|done]. destruct Hbad as [|Hbad]; [done|by rewrite Hbad].
Qed.

(** A public key as the configuration gives it. *)
Definition key_text (v k : bytes) : Prop := spells v k /\ length k = 32%nat.

Lemma key_text_fun v k k' : key_text v k' -> key_text v k -> k' = k.
Proof.
  intros [Hs' Hk'] [Hs Hk]. pose proof (parse_hex_key (zeros 32) v k Hs Hk eq_refl).
  pose proof (parse_hex_key (zeros 32) v k' Hs' Hk' eq_refl). congruence.
Qed.

Lemma parse_hex_accepts out v : length out = 32%nat -> length v = 64%nat ->
  (exists k, key_text v k /\ parse_hex out 32 v = (32, k)) \/
  (forall k, ~ key_text v k) /\ exists out', parse_hex out 32 v = (-1, out').
Proof.
  intros Ho Hv. destruct (parse_hex_loop_cases 32 v) as [[k Hk]|H]; [done| |].
  - left. assert (length k = 32%nat) by (apply spells_length in Hk; lia). exists k. split; [done|]. by apply parse_hex_key.
  - right. assert (parse_hex out 32 v = (-1, snd (parse_hex_loop v 0 out))) as E.
    { unfold parse_hex. rewrite Hv. change (negb (64 mod 2 =? 0)%nat) with false. change (32 <? 64 / 2)%nat with false.
      cbv match. specialize (H 0%nat out). destruct (parse_hex_loop v 0 out) as [ok o]. simpl in H. by subst. }
    split; [|eauto]. intros k [Hs Hk]. rewrite (parse_hex_key out v k) in E by done. discriminate.
Qed.

(** ** The peers of a configuration *)

Record peers_wf (g : peers_t) : Prop := {
  pw_keys : length (g_asym_peers g) = MAX_PEERS;
  pw_key : Forall (fun k => length k = 32%nat) (g_asym_peers g);
  pw_eps : length (g_peer_endpoints g) = MAX_PEERS;
  pw_ips : length (g_peer_tun_ips g) = MAX_PEERS;
  pw_count : (g_peer_count g <= MAX_PEERS)%nat
}.

Lemma peers_init_wf : peers_wf peers_init.
Proof. split; try done; [|simpl; lia]. apply Forall_replicate. done. Qed.

Lemma nth_key g pi : peers_wf g -> (pi < MAX_PEERS)%nat -> length (nth pi (g_asym_peers g) []) = 32%nat.
Proof.
  intros [Hl Hk _ _ _] Hpi. apply (Forall_nth (fun k => length k = 32%nat)); [done|lia].
Qed.

(** One section: a key is stored with its endpoint and address and counted; a
    value of another length changes nothing; 64 other characters leave some
    bytes in the slot and are not counted. *)
Lemma load_peer_cases icfg pi v g : peers_wf g -> (pi < MAX_PEERS)%nat ->
  peers_wf (load_peer icfg pi v g) /\
  ((exists k, key_text v k /\ load_peer icfg pi v g =
     mkPeers (<[pi := k]> (g_asym_peers g))
       (<[pi := from_option (take 255) [] (peer_key icfg pi "Endpoint")]> (g_peer_endpoints g))
       (<[pi := peer_tun_ip (peer_key icfg pi "AllowedIPs")]> (g_peer_tun_ips g)) (S pi)) \/
   (forall k, ~ key_text v k) /\ length v <> 64%nat /\ load_peer icfg pi v g = g \/
   (forall k, ~ key_text v k) /\ length v = 64%nat /\ load_peer icfg pi v g =
     mkPeers (<[pi := snd (parse_hex (nth pi (g_asym_peers g) []) 32 v)]> (g_asym_peers g)) (g_peer_endpoints g) (g_peer_tun_ips g) (g_peer_count g)).
Proof.
  intros Hw Hpi. pose proof (nth_key g pi Hw Hpi) as Hn. unfold load_peer.
  destruct (length v =? 64)%nat eqn:E; cbn [negb]; zbool.
  2: { split; [done|]. right. left. split; [|done]. intros k [Hs Hk]. apply spells_length in Hs. lia. }
  pose proof (parse_hex_length (nth pi (g_asym_peers g) []) v) as Hpl. destruct Hw as [Hl Hk He Hi Hc].
  destruct (parse_hex_accepts _ v Hn E) as [(k & Hkt & Hp)|(Hno & out & Hp)]; rewrite Hp in *; cbn [snd] in Hpl.
  - change (negb (32 =? 32)) with false. cbv match. split; [|left; by exists k].
    split; cbn; rewrite ?length_insert; try done. apply Forall_insert; [done|congruence].
  - change (negb (-1 =? 32)) with true. cbv match. split; [|right; right; by split_and!].
    split; cbn; rewrite ?length_insert; try done. apply Forall_insert; [done|congruence].
Qed.

Lemma peers_until_lookup ss i p : peers_until ss !! i = Some p ->
  exists s, ss !! i = Some s /\ find_entry s.2 (ascii_bytes "PublicKey") = Some p.1 /\
    find_entry s.2 (ascii_bytes "Endpoint") = p.2.
Proof.
  revert i. induction ss as [|s ss IH]; intros i; cbn [peers_until]; [done|].
  destruct (find_entry s.2 (ascii_bytes "PublicKey")) as [pk|] eqn:E; [|done].
  destruct i as [|i]; [intros [= <-]; by exists s|]. apply IH.
Qed.

Lemma peers_until_end ss : ss !! length (peers_until ss) ≫= (fun s => find_entry s.2 (ascii_bytes "PublicKey")) = None.
Proof.
  induction ss as [|s ss IH]; cbn [peers_until]; [done|].
  destruct (find_entry s.2 (ascii_bytes "PublicKey")) as [pk|] eqn:E; [exact IH|exact E].
Qed.

Lemma peer_key_of secs i k : peer_key (table secs) i k =
  secs_named (ascii_bytes "Peer") secs !! i ≫= fun s => find_entry s.2 (ascii_bytes k).
Proof. apply get_indexed_table. Qed.

Section load_peers.
Context (secs : config).
Let ps := peers_of secs.

(** The slot [i] holds the peer's key, endpoint and address. *)
Definition slot_ok (g : peers_t) (i : nat) (p : bytes * option bytes) (k : bytes) : Prop :=
  (i < g_peer_count g)%nat /\ g_asym_peers g !! i = Some k /\
  g_peer_endpoints g !! i = Some (from_option (take 255) [] p.2) /\
  g_peer_tun_ips g !! i = Some (peer_tun_ip (peer_key (table secs) i "AllowedIPs")).

(** After the first [n] sections. *)
Record loaded (n : nat) (g : peers_t) : Prop := {
  ld_wf : peers_wf g;
  ld_keys : forall i p k, (i < n)%nat -> ps !! i = Some p -> key_text p.1 k -> slot_ok g i p k;
  ld_gaps : forall i p, (i < n)%nat -> ps !! i = Some p -> length p.1 <> 64%nat -> g_asym_peers g !! i = Some (zeros 32);
  ld_junk : forall i p ds k a b rest, (i < n)%nat -> ps !! i = Some p -> length p.1 = 64%nat -> p.1 = ds ++ a :: b :: rest ->
    spells ds k -> hex_value a = None \/ hex_value b = None -> g_asym_peers g !! i = Some (k ++ zeros (32 - length k));
  ld_rest : forall i, (n <= i < MAX_PEERS)%nat -> g_asym_peers g !! i = Some (zeros 32);
  ld_count : (g_peer_count g <= n)%nat;
  ld_last : (0 < g_peer_count g)%nat -> exists p k, ps !! (g_peer_count g - 1)%nat = Some p /\ key_text p.1 k
}.

Local Ltac gcbn := cbn [g_asym_peers g_peer_endpoints g_peer_tun_ips g_peer_count].

Lemma loaded_step n p g : loaded n g -> ps !! n = Some p -> (n < MAX_PEERS)%nat ->
  loaded (S n) (load_peer (table secs) n p.1 g).
Proof.
  intros [Hw Hk Hg Hj Hr Hc Hl] Hp Hn.
  assert (peer_key (table secs) n "Endpoint" = p.2) as Hep.
  { rewrite peer_key_of. destruct (peers_until_lookup _ _ _ Hp) as (s & -> & _ & He). exact He. }
  destruct (load_peer_cases (table secs) n p.1 g Hw Hn) as [Hw' [(k & Hkt & E)|[(Hno & Hlen & E)|(Hno & Hlen & E)]]];
    rewrite E in *; split; try done; gcbn; try lia.
  - intros i q k' Hi Hq Hqk. destruct Hw as [Hl1 _ Hl2 Hl3 _]. destruct (decide (i = n)) as [->|Hin].
    + simplify_eq. assert (k' = k) as -> by by eapply key_text_fun.
      split_and!; gcbn; [lia|..]; rewrite list_lookup_insert_eq by lia; [done|by rewrite Hep|done].
    + destruct (Hk i q k') as (H1 & H2 & H3 & H4); [lia|done..|].
      split_and!; gcbn; [lia|..]; rewrite list_lookup_insert_ne by done; done.
  - intros i q Hi Hq Hlq. destruct (decide (i = n)) as [->|Hin].
    + simplify_eq. destruct Hkt as [Hs Hk']. apply spells_length in Hs. lia.
    + rewrite list_lookup_insert_ne by done. apply (Hg i q); [lia|done..].
  - intros i q ds k' a b rest Hi Hq Hlq Hd Hs Hbad. destruct (decide (i = n)) as [->|Hin].
    + simplify_eq. exfalso. pose proof (parse_hex_bad (zeros 32) ds k' a b rest) as E1. rewrite <- Hd in E1.
      rewrite (parse_hex_key (zeros 32) p.1 k) in E1; [|apply Hkt..|done]. by specialize (E1 Hlq eq_refl Hs Hbad).
    + rewrite list_lookup_insert_ne by done. by apply (Hj i q ds k' a b rest); [lia|..].
  - intros i Hi. rewrite list_lookup_insert_ne by lia. apply Hr. lia.
  - intros _. replace (S n - 1)%nat with n by lia. by exists p, k.
  - intros i q k' Hi Hq Hqk. destruct (decide (i = n)) as [->|Hin]; [simplify_eq; by destruct (Hno k')|]. apply Hk; [lia|done..].
  - intros i q Hi Hq Hlq. destruct (decide (i = n)) as [->|Hin]; [apply Hr; lia|]. apply (Hg i q); [lia|done..].
  - intros i q ds k' a b rest Hi Hq Hlq Hd Hs Hbad. destruct (decide (i = n)) as [->|Hin]; [by simplify_eq|].
    by apply (Hj i q ds k' a b rest); [lia|..].
  - intros i Hi. apply Hr. lia.
  - intros i q k' Hi Hq Hqk. destruct (decide (i = n)) as [->|Hin]; [simplify_eq; by destruct (Hno k')|].
    destruct (Hk i q k') as (H1 & H2 & H3 & H4); [lia|done..|].
    split_and!; gcbn; try done. by rewrite list_lookup_insert_ne.
  - intros i q Hi Hq Hlq. destruct (decide (i = n)) as [->|Hin]; [by simplify_eq|].
    rewrite list_lookup_insert_ne by done. apply (Hg i q); [lia|done..].
  - intros i q ds k' a b rest Hi Hq Hlq Hd Hs Hbad. destruct (decide (i = n)) as [->|Hin].
    + simplify_eq. rewrite list_lookup_insert_eq by (destruct Hw; lia).
      rewrite (nth_lookup_Some _ _ _ _ (Hr n ltac:(lia))), Hd, (parse_hex_bad (zeros 32) ds k' a b rest); try done; [|congruence].
      cbn [snd]. unfold zeros. by rewrite drop_replicate.
    + rewrite list_lookup_insert_ne by done. by apply (Hj i q ds k' a b rest); [lia|..].
  - intros i Hi. rewrite list_lookup_insert_ne by lia. apply Hr. lia.
Qed.

Lemma load_peers_loaded fuel : forall n g, loaded n g -> (n <= length ps)%nat -> (length ps - n < fuel)%nat ->
  (length ps <= MAX_PEERS)%nat -> loaded (length ps) (load_peers fuel (table secs) n g).
Proof.
  induction fuel as [|fuel IH]; intros n g Hld Hn Hf Hm; [lia|]. cbn [load_peers]. rewrite peer_key_of.
  destruct (ps !! n) as [p|] eqn:Hp.
  - destruct (peers_until_lookup _ _ _ Hp) as (s & Hs & Hf1 & _). rewrite Hs. cbn [mbind option_bind]. rewrite Hf1.
    pose proof (lookup_lt_Some _ _ _ Hp). apply IH; [|lia..]. apply loaded_step; [done..|lia].
  - apply lookup_ge_None in Hp. replace n with (length ps) in * by lia.
    pose proof (peers_until_end (secs_named (ascii_bytes "Peer") secs)) as E. fold (peers_of secs) in E. fold ps in E.
    rewrite E. exact Hld.
Qed.

Lemma loaded_init : loaded 0 peers_init.
Proof.
  split; try done; try (intros; lia); [apply peers_init_wf|..].
  - intros i Hi. cbn [g_asym_peers peers_init]. apply lookup_replicate_2. lia.
  - simpl. lia.
Qed.
End load_peers.


(** ** Routes *)

Fixpoint join_with (sep : Z) (l : list bytes) : bytes :=
  match l with [] => [] | [x] => x | x :: l' => x ++ sep :: join_with sep l' end.

(** The [AllowedIPs] of the leading peers that have some. *)
Fixpoint allowed_until (ss : config) : list bytes :=
  match ss with
  | [] => []
  | s :: ss' => match find_entry s.2 (ascii_bytes "AllowedIPs") with
                | None | Some [] => []
                | Some a => a :: allowed_until ss'
                end
  end.

Lemma join_snoc sep l x : l <> [] -> join_with sep (l ++ [x]) = join_with sep l ++ sep :: x.
Proof.
  induction l as [|a [|b l] IH]; intros Hl; [done|done|]. cbn [app join_with] in *.
  rewrite IH by done. by rewrite <- app_assoc.
Qed.

Lemma route_room_take r s : route_room (take 62 r) s = take 62 (take 62 r ++ s).
Proof.
  unfold route_room. by rewrite take_app, take_take, Nat.min_id.
Qed.

Lemma aggregate_spec fuel secs : forall pi done_,
  length done_ = pi -> (length (secs_named (ascii_bytes "Peer") secs) - pi < fuel)%nat ->
  aggregate fuel (table secs) pi (take 62 (join_with 44 done_)) =
  take 62 (join_with 44 (done_ ++ allowed_until (drop pi (secs_named (ascii_bytes "Peer") secs)))).
Proof.
  induction fuel as [|fuel IH]; intros pi dn Hl Hf; [lia|]. cbn [aggregate]. rewrite peer_key_of.
  destruct (secs_named (ascii_bytes "Peer") secs !! pi) as [s|] eqn:Hs.
  2: { rewrite drop_ge by by apply lookup_ge_None. cbn. by rewrite app_nil_r. }
  rewrite (drop_S _ s) by done. cbn [mbind option_bind allowed_until].
  destruct (find_entry s.2 (ascii_bytes "AllowedIPs")) as [[|c a]|]; [by rewrite app_nil_r| |by rewrite app_nil_r].
  pose proof (lookup_lt_Some _ _ _ Hs).
  assert (route_room (if (0 <? pi)%nat && (length (take 62 (join_with 44 dn)) <? 62)%nat
    then take 62 (join_with 44 dn) ++ [44] else take 62 (join_with 44 dn)) (c :: a) = take 62 (join_with 44 (dn ++ [c :: a]))) as ->.
  { destruct dn as [|x dn]; [simpl in Hl; subst; done|]. rewrite join_snoc by done.
    destruct pi as [|pi]; [done|]. change (0 <? S pi)%nat with true. cbn [andb].
    generalize (join_with 44 (x :: dn)). intros j. destruct (_ <? _)%nat eqn:E; zbool; rewrite length_take in E.
    - rewrite (take_ge j) by lia. unfold route_room. change (44 :: c :: a) with ([44] ++ c :: a).
      rewrite app_assoc, take_app, (take_ge (j ++ [44])) by (rewrite length_app; simpl; lia). done.
    - rewrite route_room_take, take_app_le, take_take by (rewrite length_take; lia). rewrite take_app_le by lia.
      by rewrite Nat.min_id. }
  rewrite IH by (rewrite ?length_app; simpl; lia). by rewrite <- app_assoc.
Qed.

(** The first 62 characters of the [AllowedIPs] of all peers, joined with
    commas. *)
Lemma aggregate_joined secs :
  (length secs < MAX_PEERS)%nat ->
  aggregate MAX_PEERS (table secs) 0 [] =
  take 62 (join_with 44 (allowed_until (secs_named (ascii_bytes "Peer") secs))).
Proof.
  intros Hl. pose proof (length_filter (fun s => strcaseeq s.1 (ascii_bytes "Peer") = true) secs) as Hlf.
  pose proof (aggregate_spec MAX_PEERS secs 0 [] eq_refl) as E. cbn [join_with] in E. rewrite take_nil, drop_0 in E.
  apply E. unfold secs_named. lia.
Qed.

(** *** Examples *)

(** A short key, one with a bad digit at its third place, a good one. *)
Definition mixed_secs : config :=
  [(ascii_bytes "Peer", [mkEntry (ascii_bytes "PublicKey") (ascii_bytes "abc")]);
   (ascii_bytes "Peer", [mkEntry (ascii_bytes "PublicKey") (ascii_bytes "0ax" ++ drop 3 (ascii_bytes hex0))]);
   (ascii_bytes "Peer", [mkEntry (ascii_bytes "PublicKey") (ascii_bytes hex0)])].

