(* ===== verification/Log.v ===== *)
(** * Diagnostics (util/log.c, [hex_dump] of util/util.c)

    The text on stderr is a list of bytes.  What a format string and its
    arguments produce ([vfprintf]) is an argument of [log_msg], the wall clock
    and the time zone ([localtime_r]) are parameters. *)

From stdpp Require Import list.
From S2P Require Import Prelude Util Keyfile IniConfig ConfDoc ConfigMgmt Main.

(** ** Levels *)

Inductive log_level_t := LOG_DEBUG | LOG_INFO | LOG_WARN | LOG_ERROR | LOG_NONE.

#[export] Instance log_level_eq_dec : EqDecision log_level_t.
Proof. solve_decision. Defined.

Definition level_num (l : log_level_t) : Z :=
  match l with LOG_DEBUG => 0 | LOG_INFO => 1 | LOG_WARN => 2 | LOG_ERROR => 3 | LOG_NONE => 4 end.

Definition level_names : list string := ["DEBUG"; "INFO"; "WARN"; "ERROR"].

(** The minimum level and what has been written. *)
Record log_state := mkLog { g_log_level : log_level_t; err : bytes }.

Definition log_init : log_state := mkLog LOG_INFO [].

Definition log_set_level (l : log_level_t) (st : log_state) : log_state := mkLog l (err st).
Definition log_get_level (st : log_state) : log_level_t := g_log_level st.

(** ** Lines *)

(** [%0wd] of a number that is not negative. *)
Definition zpad (w : nat) (n : Z) : bytes := let s := dec_u n in replicate (w - length s) 48 ++ s.

(** [%-ws]. *)
Definition pad_right (w : nat) (s : bytes) : bytes := s ++ replicate (w - length s) 32.

Record tm := mkTm { tm_hour : Z; tm_min : Z; tm_sec : Z }.
Record timespec := mkTs { tv_sec : Z; tv_nsec : Z }.

Section log.
Context (localtime_r : Z -> tm).

Definition stamp (ts : timespec) : bytes :=
  let t := localtime_r (tv_sec ts) in
  [91] ++ zpad 2 (tm_hour t) ++ [58] ++ zpad 2 (tm_min t) ++ [58] ++ zpad 2 (tm_sec t) ++ [46] ++
  zpad 3 (tv_nsec ts / 1000000) ++ [93].

(** [None]: a level without a name, beyond the end of the array. *)
Definition log_msg (level : log_level_t) (tag : bytes) (msg : bytes) (ts : timespec) (st : log_state) : option log_state :=
  if level_num level <? level_num (g_log_level st) then Some st
  else
    name ← level_names !! Z.to_nat (level_num level);
    Some (mkLog (g_log_level st)
      (err st ++ stamp ts ++ [32; 91] ++ pad_right 5 (ascii_bytes name) ++ [93; 32; 91] ++ tag ++ [93; 32] ++ msg ++ [10])).

Definition log_debug := log_msg LOG_DEBUG.
Definition log_info := log_msg LOG_INFO.
Definition log_warn := log_msg LOG_WARN.
Definition log_error := log_msg LOG_ERROR.

(** ** What is written *)

(** The calls a program can make. *)
Inductive log_call := SetLevel (l : log_level_t) | Say (l : log_level_t) (tag msg : bytes) (ts : timespec).

Definition call (c : log_call) (st : log_state) : option log_state :=
  match c with SetLevel l => Some (log_set_level l st) | Say l tag msg ts => log_msg l tag msg ts st end.

Fixpoint calls (cs : list log_call) (st : log_state) : option log_state :=
  match cs with [] => Some st | c :: cs' => st1 ← call c st; calls cs' st1 end.

Definition line (name : string) (tag msg : bytes) (ts : timespec) : bytes :=
  stamp ts ++ [32; 91] ++ pad_right 5 (ascii_bytes name) ++ [93; 32; 91] ++ tag ++ [93; 32] ++ msg ++ [10].

(** The lines that get through, given the level they meet. *)
Fixpoint shown (cs : list log_call) (now : log_level_t) : list bytes :=
  match cs with
  | [] => []
  | SetLevel l :: cs' => shown cs' l
  | Say l tag msg ts :: cs' =>
      (if level_num now <=? level_num l then [line (nth (Z.to_nat (level_num l)) level_names "") tag msg ts] else []) ++ shown cs' now
  end.

Definition has_name (c : log_call) : Prop := match c with Say LOG_NONE _ _ _ => False | _ => True end.

Lemma log_msg_runs l tag msg ts st : l <> LOG_NONE ->
  log_msg l tag msg ts st = Some (mkLog (g_log_level st)
    (err st ++ concat (shown [Say l tag msg ts] (g_log_level st)))).
Proof.
  intros Hl. unfold log_msg. cbn [shown]. rewrite app_nil_r. destruct (level_num l <? _) eqn:E; zbool.
  - rewrite (proj2 (Z.leb_gt _ _)) by lia. cbn [concat]. rewrite app_nil_r. by destruct st.
  - rewrite (proj2 (Z.leb_le _ _)) by lia. cbn [concat]. rewrite app_nil_r. by destruct l.
Qed.

(** Whatever the program says, in whatever order it changes the level, the
    messages at or above the level of their moment are written, each as one
    line, in order, and no other; the four functions never read beyond
    [level_names], and [LOG_NONE] silences everything. *)
Lemma calls_shown cs : Forall has_name cs -> forall st,
  exists now, calls cs st = Some (mkLog now (err st ++ concat (shown cs (g_log_level st)))).
Proof.
  induction 1 as [|c cs Hc _ IH]; intros st; [exists (g_log_level st); cbn; rewrite app_nil_r; by destruct st|].
  cbn [calls]. destruct c as [l|l tag msg ts].
  - destruct (IH (log_set_level l st)) as [now H]. exists now. exact H.
  - cbn [call]. rewrite log_msg_runs by (by intros ->). cbn [mbind option_bind].
    match goal with |- context [calls cs ?s] => destruct (IH s) as [now ->] end. exists now. cbn [g_log_level err shown].
    rewrite app_nil_r. by rewrite concat_app, app_assoc.
Qed.

Lemma none_is_silent cs : Forall (fun c => match c with Say l _ _ _ => l <> LOG_NONE | SetLevel _ => False end) cs ->
  shown cs LOG_NONE = [].
Proof.
  induction 1 as [|[l|l tag msg ts] cs Hc _ IH]; [done..|]. cbn [shown]. rewrite IH, app_nil_r. by destruct l.
Qed.
End log.

(** Option [-v] (main.c): the level goes down as the options are read. *)
Fixpoint verbosity (xs : list option_t) (st : log_state) : log_state :=
  match xs with
  | [] | OptH :: _ | OptBad :: _ => st
  | OptV :: xs' => verbosity xs' (log_set_level LOG_DEBUG st)
  | _ :: xs' => verbosity xs' st
  end.

Definition is_v (x : option_t) : bool := match x with OptV => true | _ => false end.

(** When the options are accepted, the level is DEBUG if [-v] is among them and
    what it was otherwise. *)
Lemma verbosity_level xs : forall o o' st, apply_options xs o = Ok o' ->
  g_log_level (verbosity xs st) = if existsb is_v xs then LOG_DEBUG else g_log_level st.
Proof.
  induction xs as [|x xs IH]; intros o o' st; [done|]. cbn [apply_options].
  destruct (apply_option x o) as [o1| |] eqn:E; [|done..]. cbn [mbind outcome_bind]. intros H.
  destruct x; cbn [verbosity existsb is_v orb]; try by eapply IH.
  - rewrite (IH _ _ _ H). by destruct (existsb is_v xs).
  - done.
  - done.
Qed.

(** ** hex_dump *)

(** [%zu] and [%04zx] of a [size_t]. *)
Fixpoint base_loop (b : Z) (digit : Z -> Z) (fuel : nat) (n : Z) (acc : bytes) : bytes :=
  match fuel with
  | O => acc
  | S f => let acc' := digit (n mod b) :: acc in if n <? b then acc' else base_loop b digit f (n / b) acc'
  end.
Definition fmt_zu (n : Z) : bytes := base_loop 10 hex_digit 20 n [].
Definition fmt_04zx (n : Z) : bytes := let s := base_loop 16 hex_digit 16 n [] in replicate (4 - length s) 48 ++ s.

(** One turn of the loop: byte [b] at index [i]. *)
Definition dump_step (i : nat) (b : Z) : bytes :=
  (if (i mod 16 =? 0)%nat then [32; 32] ++ fmt_04zx (Z.of_nat i) ++ [58; 32] else []) ++
  hex_byte b ++ [32] ++
  (if (i mod 16 =? 7)%nat then [32] else []) ++
  (if (i mod 16 =? 15)%nat then [10] else []).

Fixpoint dump_loop (i : nat) (buf : bytes) : bytes :=
  match buf with [] => [] | b :: buf' => dump_step i b ++ dump_loop (S i) buf' end.

Definition hex_dump (label : option bytes) (buf : bytes) : bytes :=
  default (ascii_bytes "hex") label ++ ascii_bytes " (" ++ fmt_zu (Z.of_nat (length buf)) ++ ascii_bytes " bytes):" ++ [10] ++
  dump_loop 0 buf ++ (if negb (length buf mod 16 =? 0)%nat then [10] else []).

(** The layout row by row: the offset, the bytes with a gap after the eighth,
    and the end of the line. *)
Definition hex_cells (l : bytes) : bytes := l ≫= fun b => hex_byte b ++ [32].

Definition dump_row (off : nat) (l : bytes) : bytes :=
  [32; 32] ++ fmt_04zx (Z.of_nat off) ++ [58; 32] ++ hex_cells (take 8 l) ++ (if (8 <=? length l)%nat then [32] else []) ++
  hex_cells (drop 8 l) ++ [10].

Fixpoint dump_rows (fuel off : nat) (buf : bytes) : bytes :=
  match fuel, buf with
  | S f, _ :: _ => dump_row off (take 16 buf) ++ dump_rows f (off + 16) (drop 16 buf)
  | _, _ => []
  end.

Lemma mod_row r k : (k < 16)%nat -> ((16 * r + k) mod 16 = k)%nat.
Proof. intros Hk. rewrite Nat.add_comm, Nat.mul_comm, Nat.Div0.mod_add. by apply Nat.mod_small. Qed.

(** The cells from column [k] on. *)
Fixpoint cells (k : nat) (l : bytes) : bytes :=
  match l with [] => [] | b :: l' => hex_byte b ++ [32] ++ (if (k =? 7)%nat then [32] else []) ++ cells (S k) l' end.

Lemma cells_right k l : (8 <= k)%nat -> cells k l = hex_cells l.
Proof.
  revert k. induction l as [|b l IH]; intros k Hk; [done|]. cbn [cells]. rewrite IH by lia.
  destruct (k =? 7)%nat eqn:E; zbool; [lia|]. unfold hex_cells. cbn [mbind list_bind]. by rewrite <- app_assoc.
Qed.

Lemma cells_left k l : (k <= 7)%nat ->
  cells k l = hex_cells (take (8 - k) l) ++ (if (8 - k <=? length l)%nat then [32] else []) ++ hex_cells (drop (8 - k) l).
Proof.
  revert k. induction l as [|b l IH]; intros k Hk; [by rewrite take_nil, drop_nil, (proj2 (Nat.leb_gt (8 - k) _)) by (simpl; lia)|].
  cbn [cells]. destruct (k =? 7)%nat eqn:E; zbool.
  - subst k. rewrite cells_right by lia. cbn [take drop Nat.sub length Nat.leb]. unfold hex_cells. cbn [mbind list_bind]. by rewrite <- !app_assoc.
  - rewrite IH by lia. replace (8 - k)%nat with (S (8 - S k)) by lia. cbn [take drop length Nat.leb]. unfold hex_cells.
    cbn [mbind list_bind]. by rewrite <- !app_assoc.
Qed.

(** The loop from column [k] of row [r] to the end of the row or of the data. *)
Lemma dump_loop_row r l : forall k rest, (1 <= k)%nat -> (k + length l <= 16)%nat ->
  dump_loop (16 * r + k) (l ++ rest) =
  cells k l ++ (if (0 <? length l)%nat && (k + length l =? 16)%nat then [10] else []) ++ dump_loop (16 * r + k + length l) rest.
Proof.
  induction l as [|b l IH]; intros k rest Hk Hl; [cbn [app length cells]; by rewrite !Nat.add_0_r|].
  cbn [app dump_loop length cells] in *. unfold dump_step. rewrite mod_row by lia.
  destruct (k =? 0)%nat eqn:E0; zbool; [lia|]. destruct (k =? 15)%nat eqn:E15; zbool.
  - destruct l; [|simpl in Hl; lia]. subst k. cbn [app length cells Nat.eqb]. rewrite <- !app_assoc. cbn [app].
    by replace (16 * r + 15 + 1)%nat with (S (16 * r + 15)) by lia.
  - rewrite <- Nat.add_succ_r, IH by lia. rewrite app_nil_r, <- !app_assoc. cbn [app].
    replace (S k + length l)%nat with (k + S (length l))%nat by lia.
    replace (16 * r + S k + length l)%nat with (16 * r + k + S (length l))%nat by lia.
    rewrite <- !app_assoc. destruct l; [|done]. cbn [length Nat.ltb Nat.leb andb]. destruct (k + 1 =? 16)%nat eqn:E; zbool; [lia|done].
Qed.

(** The first row. *)
Lemma dump_loop_first r b buf :
  dump_loop (16 * r) (b :: buf) =
  [32; 32] ++ fmt_04zx (Z.of_nat (16 * r)) ++ [58; 32] ++ cells 0 (b :: take 15 buf) ++
  (if (15 <=? length buf)%nat then [10] else []) ++ dump_loop (16 * S r) (drop 15 buf).
Proof.
  pose proof (dump_loop_row r (take 15 buf) 1 (drop 15 buf)) as E. rewrite take_drop, length_take in E.
  specialize (E ltac:(lia) ltac:(lia)). cbn [dump_loop cells Nat.eqb]. unfold dump_step.
  replace ((16 * r) mod 16)%nat with 0%nat by (rewrite Nat.mul_comm; symmetry; apply Nat.Div0.mod_mul).
  cbn [Nat.eqb]. replace (S (16 * r)) with (16 * r + 1)%nat by lia. rewrite E. rewrite <- !app_assoc. cbn [app]. 
  destruct (15 <=? length buf)%nat eqn:Hb; zbool.
  - rewrite Nat.min_l by lia. replace (16 * r + 1 + 15)%nat with (16 * S r)%nat by lia. reflexivity.
  - rewrite Nat.min_r, drop_ge by lia. destruct (1 + length buf =? 16)%nat eqn:H16; zbool; [lia|]. by rewrite andb_false_r.
Qed.

(** The dump is its rows; the newline after the loop ends the last one when it
    is not full. *)
Lemma dump_loop_rows fuel : forall r buf, (length buf <= fuel)%nat ->
  dump_loop (16 * r) buf ++ (if negb (length buf mod 16 =? 0)%nat then [10] else []) = dump_rows fuel (16 * r) buf.
Proof.
  induction fuel as [|fuel IH]; intros r buf Hl; [by destruct buf; [|simpl in Hl; lia]|].
  destruct buf as [|b buf]; [done|]. rewrite dump_loop_first. cbn [dump_rows take drop]. unfold dump_row.
  rewrite cells_left by lia. cbn [Nat.sub]. replace (16 * r + 16)%nat with (16 * S r)%nat by lia.
  rewrite <- IH by (rewrite length_drop; simpl in Hl; lia). rewrite length_drop. rewrite <- !app_assoc.
  do 6 f_equal. destruct (15 <=? length buf)%nat eqn:Hb; zbool.
  - cbn [app]. repeat f_equal. cbn [length]. replace (S (length buf)) with (length buf - 15 + 1 * 16)%nat by lia.
    by rewrite Nat.Div0.mod_add.
  - rewrite drop_ge by lia. replace (length buf - 15)%nat with 0%nat by lia. cbn [length dump_loop app].
    rewrite Nat.mod_small by lia. reflexivity.
Qed.

(** [hex_dump] prints the header and then every sixteen bytes on a line of
    their own. *)
Theorem hex_dump_rows label buf :
  hex_dump label buf = default (ascii_bytes "hex") label ++ ascii_bytes " (" ++ fmt_zu (Z.of_nat (length buf)) ++
    ascii_bytes " bytes):" ++ [10] ++ dump_rows (length buf) 0 buf.
Proof. unfold hex_dump. pose proof (dump_loop_rows (length buf) 0 buf ltac:(done)) as E. change (16 * 0)%nat with 0%nat in E. by rewrite E. Qed.

Example hex_dump_20 : hex_dump (Some (ascii_bytes "key")) (seqZ 0 20) =
  ascii_bytes "key (20 bytes):" ++ [10] ++
  ascii_bytes "  0000: 00 01 02 03 04 05 06 07  08 09 0a 0b 0c 0d 0e 0f " ++ [10] ++
  ascii_bytes "  0010: 10 11 12 13 " ++ [10].
Proof. vm_compute. reflexivity. Qed.

Example log_line : option_map err (log_info (fun _ => mkTm 9 5 59) (ascii_bytes "server") (ascii_bytes "ready") (mkTs 0 7500000) log_init) =
  Some (ascii_bytes "[09:05:59.007] [INFO ] [server] ready" ++ [10]).
Proof. vm_compute. reflexivity. Qed.
