(* ===== verification/Start.v ===== *)
(** * From [create tun] to [start tun]

    The commands of config_mgmt.c and the start-up code of main.c together: a
    configuration written by [create tun -server] makes [start tun -server]
    enter the TUN server with the private key and the peers of the base
    configuration. *)

From stdpp Require Import sets gmap.
From S2P Require Import Prelude Util Keyfile IniConfig ConfDoc ConfigMgmt CreateTun Main.

Lemma get_is_indexed secs section key :
  iniconf_get (table secs) section key = iniconf_get_indexed (table secs) section (Z.of_nat 0) key.
Proof. by rewrite get_table, get_indexed_table. Qed.

Lemma peers_until_imap {A} (f : nat -> A -> bytes * list cline) (key : A -> bytes) (l : list A) :
  (forall j x, find_entry (entries_of (f j x).2) (ascii_bytes "PublicKey") = Some (key x) /\
               find_entry (entries_of (f j x).2) (ascii_bytes "Endpoint") = None) ->
  peers_until (plain (imap f l)) = map (fun x => (key x, None)) l.
Proof.
  revert f. induction l as [|x l IH]; intros f Hf; [done|]. cbn [imap plain map peers_until snd].
  destruct (Hf 0%nat x) as [-> ->]. f_equal. apply (IH (f ∘ S)). intros j y. apply Hf.
Qed.

Section start_server.
Context (secs : config) (hex iface : bytes).
Context (Hne : peers_of secs <> []) (Hl5 : (length (peers_of secs) <= 5)%nat).

Abbreviation created := (kept 7 (plain (tun_doc true secs hex iface))).

Lemma created_plain : created = plain (tun_doc true secs hex iface).
Proof. apply kept_all. rewrite plain_length, tun_doc_length by done. lia. Qed.

Lemma created_peers : peers_of created = map (fun p => (p.1, None)) (peers_of secs).
Proof.
  rewrite created_plain. unfold peers_of at 1. rewrite tun_doc_peers by done. apply peers_until_imap.
  intros j [pk ep]. split; unfold peer_doc; destruct ep; cbn -[ascii_bytes find_entry]; find_tac.
Qed.

Lemma created_interface key v :
  find_entry (entries_of (hd ([], []) (tun_doc true secs hex iface)).2) (ascii_bytes key) = v ->
  cget (table created) "Interface" key = v.
Proof. unfold cget. by apply tun_doc_interface. Qed.

Ltac iface_tac :=
  apply created_interface; unfold tun_doc; cbn [hd snd fst];
  destruct (negb _), (conf_get secs "Interface" "PublicKey"); cbn -[ascii_bytes find_entry role conf_get]; find_tac.

Lemma created_port : cget (table created) "Interface" "ListenPort" =
  Some (from_option id (ascii_bytes "9000") (conf_get secs "Interface" "Port")).
Proof. iface_tac. Qed.

Lemma created_mode : cget (table created) "Interface" "Mode" = Some (role true).
Proof. iface_tac. Qed.

Lemma created_address : cget (table created) "Interface" "Address" = Some (ascii_bytes "10.0.0.1/24").
Proof. iface_tac. Qed.

Lemma created_private : cget (table created) "Interface" "PrivateKey" =
  Some (from_option id (ascii_bytes "~/.aegis-tunnel/private.key") (conf_get secs "Interface" "PrivateKey")).
Proof. iface_tac. Qed.

Lemma created_endpoint : cget (table created) "Peer" "Endpoint" = None.
Proof.
  unfold cget. rewrite get_is_indexed, (tun_doc_peer_key true secs hex iface Hne 0 _ (fun _ => None)); [by destruct (_ !! _)| |done].
  intros j [pk ep]. unfold peer_doc. destruct ep; cbn -[ascii_bytes find_entry]; find_tac.
Qed.

Lemma created_allowed i p : peers_of secs !! i = Some p ->
  peer_key (table created) i "AllowedIPs" = Some (ascii_bytes "10.0.0.2/32").
Proof.
  intros Hp. unfold peer_key. rewrite (tun_doc_peer_key true secs hex iface Hne i _ (fun _ => Some (allowed true))), Hp; [done| |done].
  intros j [pk ep]. unfold peer_doc. destruct ep; cbn -[ascii_bytes find_entry]; find_tac.
Qed.
End start_server.

(** The options after [start tun -server] without further arguments. *)
Definition started (iface : bytes) : opts :=
  mkOpts 9000 None (Some (ascii_bytes (TUN_CONF true))) None None SERVER 0 DEFAULT_HS_TIMEOUT true false
    [] (ascii_bytes "255.255.255.0") [] (take 15 iface) [] [] DEFAULT_MAX_CONN 1.

Lemma start_tun_server fs iface f : fs !! TUN_CONF true = Some f ->
  start_tun fs 1 (opts_init iface) = Ok (started iface).
Proof. intros H. unfold start_tun. change (1 =? 0) with false. cbv match zeta. cbn [config_file set_tun set_strs opts_init]. 
  change (1 =? 1) with true. by rewrite H. Qed.

(** A start-up that has read the created file. *)
Record server_started (o : opts) (home : bytes) : Prop := {
  ss_port : listen_port o = 9000;
  ss_remote : remote_str o = None;
  ss_mode : o_mode o = SERVER;
  ss_tun : tun_mode o = true /\ tun_udp o = false;
  ss_addr : tun_ip o = ascii_bytes "10.0.0.1" /\ tun_netmask o = ascii_bytes "255.255.255.0";
  ss_priv : privkey_file o = Some (home ++ ascii_bytes "/.aegis-tunnel/private.key");
  ss_peer : peerkey_file o = None
}.

Lemma cint_cget icfg s k dflt : cint icfg s k dflt =
  match cget icfg s k with
  | None => dflt
  | Some v => let '(n, moved, rest) := strtol v in
              if moved && match rest with [] => true | _ => false end then to_int n else dflt
  end.
Proof. reflexivity. Qed.

Lemma config_address_split v o ip p nm txt :
  strchr 47 v = Some (ip, p) -> (length ip <? 32)%nat = true -> netmask_of (atoi p) = Ok nm -> take 30 (quad_text nm) = txt ->
  config_address v o = Ok (set_tun o true ip txt
    (match tun_route o with [] => from_option id [] (derive_route ip (atoi p)) | r => r end)).
Proof. intros Hs Hl Hn Ht. unfold config_address. rewrite Hs, Hl, Hn. cbn [mbind outcome_bind]. by rewrite Ht. Qed.

Lemma apply_created secs hex iface home :
  peers_of secs <> [] -> (length (peers_of secs) <= 5)%nat ->
  conf_get secs "Interface" "Port" = Some (ascii_bytes "9000") ->
  conf_get secs "Interface" "PrivateKey" = Some (ascii_bytes "~/.aegis-tunnel/private.key") ->
  let T := table (kept 7 (plain (tun_doc true secs hex iface))) in
  exists o, apply_config T home (started iface) peers_init = Ok (o, load_peers MAX_PEERS T 0 peers_init) /\
    server_started o home.
Proof.
  intros Hne Hl5 Hport Hpriv T.
  assert (cfg_port T (started iface) = started iface) as Hp.
  { unfold cfg_port. change (listen_port (started iface) =? 9000) with true. cbv match zeta.
    rewrite cint_cget. subst T. rewrite created_port, Hport by done. reflexivity. }
  set (o1 := cfg_remote T home (cfg_scripts T (cfg_port T (started iface)))).
  assert (o1 = set_strs (cfg_scripts T (started iface)) None (Some (ascii_bytes (TUN_CONF true)))
    (Some (home ++ ascii_bytes "/.aegis-tunnel/private.key")) None SERVER) as Ho1.
  { subst o1. rewrite Hp. unfold cfg_remote. subst T. rewrite created_endpoint, created_mode, created_private, Hpriv by done.
    reflexivity. }
  set (o2 := cfg_route T o1).
  assert (exists r, o2 = set_tun o1 true [] (ascii_bytes "255.255.255.0") r) as [r Hr].
  { subst o2. unfold cfg_route. rewrite Ho1. cbn [tun_route set_strs cfg_scripts set_misc started]. eexists. reflexivity. }
  assert (exists r', cfg_tun T o2 = Ok (set_tun o2 true (ascii_bytes "10.0.0.1") (ascii_bytes "255.255.255.0") r')) as [r' Hr'].
  { unfold cfg_tun. replace (tun_ip o2) with ([] : bytes) by (by rewrite Hr). subst T. rewrite created_address by done.
    eexists. rewrite (config_address_split _ _ (ascii_bytes "10.0.0.1") (ascii_bytes "24") 4294967040
      (ascii_bytes "255.255.255.0")) by (vm_compute; reflexivity). reflexivity. }
  eexists. split.
  - unfold apply_config. fold o1. fold o2. rewrite Hr'. cbn [mbind outcome_bind]. reflexivity.
  - unfold cfg_nums. rewrite Hr, Ho1.
    split; destruct (cget T "Tunnel" "NATInterface"); cbn; try reflexivity; split; reflexivity.
Qed.

Lemma auto_config_started fs iface : auto_config fs (started iface) = started iface.
Proof. reflexivity. Qed.

Lemma path_of_ascii s : path_of (ascii_bytes s) = s.
Proof.
  unfold path_of, ascii_bytes. rewrite map_map. rewrite (map_ext _ id).
  - rewrite map_id. apply String.string_of_list_ascii_of_string.
  - intros a. rewrite N2Z.id. apply Ascii.ascii_N_embedding.
Qed.

Lemma check_started o home : server_started o home -> check_options o = Ok ([], 0).
Proof.
  intros [Hp Hr Hm [Ht _] _ _ _]. unfold check_options, is_server. rewrite Hp, Hr, Hm, Ht. reflexivity.
Qed.

Lemma dispatch_started o home host port : server_started o home -> dispatch 0 o host port = TunServer o.
Proof. intros [_ _ Hm [Ht Hu] _ _ _]. unfold dispatch, is_server. by rewrite Ht, Hu, Hm. Qed.

(** [create tun -server] followed by [start tun -server] runs the TUN server
    on port 9000 with address 10.0.0.1/24, with the private key of the key
    directory and exactly the peers of the base configuration, in order, one to
    five of them; but every one of them has the same TUN address 10.0.0.2. *)
Theorem create_then_start env home iface fs pre d n priv md keypair found :
  let secs := kept 7 (plain d) in
  let hex := read_hex env (snp 768 (home ++ "/.aegis-tunnel/public.key")) fs in
  let pk := path_of (ascii_bytes home ++ ascii_bytes "/.aegis-tunnel/private.key") in
  roomy env n -> (length (doc_text (tun_pre true) (tun_doc true secs hex iface)) <= n)%nat ->
  conf_is fs pre d -> Forall (fun s => Forall (fun e => short (e_value e)) s.2) secs -> short hex -> short iface ->
  peers_of secs <> [] -> (length (peers_of secs) <= 5)%nat ->
  (forall p, p ∈ peers_of secs -> exists k, key_text p.1 k) ->
  conf_get secs "Interface" "Port" = Some (ascii_bytes "9000") ->
  conf_get secs "Interface" "PrivateKey" = Some (ascii_bytes "~/.aegis-tunnel/private.key") ->
  fs !! pk = Some (mkFile md priv) -> length priv = 32%nat -> pk <> TUN_CONF true ->
  exists fs' o g, cmd_create_tun env home iface true [] fs = (0, fs') /\
    main_prepare env fs' home iface keypair found 0 1 [] = Ok (TunServer o, priv, g) /\
    server_started o (ascii_bytes home) /\
    g_peer_count g = length (peers_of secs) /\
    forall i p k, peers_of secs !! i = Some p -> key_text p.1 k ->
      g_asym_peers g !! i = Some k /\ g_peer_tun_ips g !! i = Some (10 * 2 ^ 24 + 2).
Proof.
  intros secs hex pk R Hn Hcis Hshort Hhex Hif Hne Hl5 Hkeys Hport Hpriv Hpk Hlp Hnt.
  destruct (apply_created secs hex iface (ascii_bytes home) Hne Hl5 Hport Hpriv) as (o & Happ & Hso).
  destruct (create_tun_runs env home iface true fs pre d n R Hn Hcis Hshort Hhex Hif) as (m & Hrun).
  fold secs hex in Hrun. set (fs' := <[TUN_CONF true := _]> fs) in Hrun.
  set (T := table (kept 7 (plain (tun_doc true secs hex iface)))) in *.
  assert (iniconf_load conf_zero (fopen_r env (TUN_CONF true) fs') [] = (0, T)) as Hload.
  { rewrite (fopen_r_all _ _ R). unfold fs'. rewrite lookup_insert_eq. cbn [fmap option_fmap option_map f_data].
    apply iniconf_load_doc. by apply tun_doc_ok. }
  set (g := load_peers MAX_PEERS T 0 peers_init) in *.
  pose proof (created_peers secs hex iface Hne Hl5) as Hcp.
  destruct (load_peers_loaded (kept 7 (plain (tun_doc true secs hex iface))) MAX_PEERS 0 peers_init (loaded_init _))
    as [Hwf Hslots _ _ _ Hc _]; try (rewrite Hcp, length_map; unfold MAX_PEERS; lia).
  fold T g in Hwf, Hslots, Hc. rewrite Hcp, length_map in Hslots, Hc.
  assert (forall i p k, peers_of secs !! i = Some p -> key_text p.1 k ->
    slot_ok (kept 7 (plain (tun_doc true secs hex iface))) g i (p.1, None) k) as Hslot.
  { intros i p k Hp Hk. apply Hslots; [by eapply lookup_lt_Some| |done]. rewrite list_lookup_fmap, Hp. done. }
  assert (g_peer_count g = length (peers_of secs)) as Hcount.
  { apply Nat.le_antisymm; [done|]. destruct (peers_of secs !! (length (peers_of secs) - 1)%nat) as [p|] eqn:Hp.
    - destruct (Hkeys p) as [k Hk]; [by eapply list_elem_of_lookup_2|]. destruct (Hslot _ p k Hp Hk) as [? _]. lia.
    - apply lookup_ge_None in Hp. destruct (peers_of secs); [done|simpl in *; lia]. }
  exists fs', o, g. split_and!; [exact Hrun| |exact Hso|exact Hcount|].
  - unfold main_prepare. cbn [apply_options mbind outcome_bind]. rewrite (start_tun_server fs' iface _ (lookup_insert_eq _ _ _)).
    cbn [mbind outcome_bind]. rewrite auto_config_started. unfold load_config. cbn [config_file started].
    rewrite path_of_ascii, Hload. change (0 =? 0) with true. cbv match. rewrite Happ. cbn [mbind outcome_bind].
    rewrite (check_started o _ Hso). cbn [mbind outcome_bind]. unfold private_key. rewrite (ss_priv _ _ Hso). fold pk.
    unfold keyfile_load_private. assert (fs' !! pk = Some (mkFile md priv)) as -> by (unfold fs'; by rewrite lookup_insert_ne).
    unfold keyfile_load, open_read. rewrite (ro_open _ _ R), (ro_read _ _ R). unfold fs'. rewrite lookup_insert_ne, Hpk by done.
    cbn [negb f_data]. rewrite take_ge by (unfold KEYFILE_KEY_LEN; lia). rewrite Hlp. change (negb (Z.of_nat 32 =? 32)) with false.
    cbv match. change (negb (0 =? 0)) with false. cbv match. cbn [mbind outcome_bind].
    unfold resolve_peer. rewrite (ss_peer _ _ Hso), Hcount.
    destruct (length (peers_of secs) =? 0)%nat eqn:E; zbool; [by destruct (peers_of secs)|]. cbn [negb mbind outcome_bind].
    rewrite (dispatch_started o _ _ _ Hso), splice_whole by done. done.
  - intros i p k Hp Hk. destruct (Hslot i p k Hp Hk) as (_ & H1 & _ & H3). split; [done|].
    rewrite H3, (created_allowed secs hex iface Hne Hl5 i p Hp). vm_compute. reflexivity.
Qed.

(** *** Examples *)

Definition fs2 : filesystem := <["/root/.aegis-tunnel/private.key" := mkFile 384 key0]> fs1.

Lemma conf_is_2 : conf_is fs2 [] doc1.
Proof.
  destruct conf_is_1 as (Hok & f & Hf & Hd). split; [exact Hok|]. exists f. split; [|exact Hd].
  unfold fs2. rewrite lookup_insert_ne; [exact Hf|]. vm_compute. discriminate.
Qed.

Lemma create_then_start_witness :
  exists fs' o g, cmd_create_tun env0 "/root" (ascii_bytes "eth0") true [] fs2 = (0, fs') /\
    main_prepare env0 fs' "/root" (ascii_bytes "eth0") None None 0 1 [] = Ok (TunServer o, key0, g) /\
    server_started o (ascii_bytes "/root") /\
    g_peer_count g = length (peers_of (kept 7 (plain doc1))) /\
    forall i p k, peers_of (kept 7 (plain doc1)) !! i = Some p -> key_text p.1 k ->
      g_asym_peers g !! i = Some k /\ g_peer_tun_ips g !! i = Some (10 * 2 ^ 24 + 2).
Proof.
  apply (create_then_start env0 "/root" (ascii_bytes "eth0") fs2 [] doc1 3000 key0 384 None None).
  - apply env0_roomy. lia.
  - vm_compute. lia.
  - exact conf_is_2.
  - rewrite kept_all by (vm_compute; lia). unfold doc1, doc0, base_doc, plain. cbn [map fst snd].
    repeat (apply Forall_cons_2 || apply Forall_nil_2); apply shortb_spec; vm_compute; reflexivity.
  - apply shortb_spec. vm_compute. reflexivity.
  - apply shortb_spec. vm_compute. reflexivity.
  - vm_compute. discriminate.
  - vm_compute. lia.
  - replace (peers_of (kept 7 (plain doc1))) with [(ascii_bytes hex0, Some (ascii_bytes "alice"))] by (vm_compute; reflexivity).
    intros p ->%list_elem_of_singleton. exists key0. split; [apply hex0_key|reflexivity].
  - vm_compute. reflexivity.
  - vm_compute. reflexivity.
  - vm_compute. reflexivity.
  - reflexivity.
  - vm_compute. discriminate.
Defined.

(** A configuration whose first peer is not spelled as the tools do: its
    endpoint comes before its key. *)
Definition two_peers : doc :=
  [(ascii_bytes "Peer", [entry "Endpoint" (ascii_bytes "a:9000"); entry "PublicKey" (ascii_bytes hex0)]);
   (ascii_bytes "Peer", [entry "PublicKey" (hex_text (seqZ 50 32))])].

(** A revoked peer can take the others with it.  When something stands in
    front of the key in the peer's section, [peer delete] leaves a section
    without a key, and the loop over the peers stops there: of a configuration
    with two peers, deleting the first leaves none, although the second is
    still in the file. *)
Theorem peer_delete_hides_next :
  g_peer_count (load_peers MAX_PEERS (table (plain two_peers)) 0 peers_init) = 2%nat /\
  plain (omap (revoke (ascii_bytes hex0)) two_peers) =
    [(ascii_bytes "Peer", [mkEntry (ascii_bytes "Endpoint") (ascii_bytes "a:9000")]);
     (ascii_bytes "Peer", [mkEntry (ascii_bytes "PublicKey") (hex_text (seqZ 50 32))])] /\
  g_peer_count (load_peers MAX_PEERS (table (plain (omap (revoke (ascii_bytes hex0)) two_peers))) 0 peers_init) = 0%nat.
Proof. vm_compute. done. Qed.

(** Four peers with a /24 each: the last route is cut to a /2, a quarter of
    the address space. *)
Lemma route_cut :
  let secs := map (fun n => (ascii_bytes "Peer", [mkEntry (ascii_bytes "AllowedIPs") (ascii_bytes n)]))
    ["192.168.10.0/24"; "192.168.11.0/24"; "192.168.12.0/24"; "192.168.13.0/24"] in
  aggregate MAX_PEERS (table secs) 0 [] =
    ascii_bytes "192.168.10.0/24,192.168.11.0/24,192.168.12.0/24,192.168.13.0/2".
Proof. vm_compute. reflexivity. Qed.
