(* ===== verification/Tun.v ===== *)
(** * The TUN device (tunnel/tun.c)

    Every operation runs external commands with [fork] and [execvp]; what is
    modelled is which commands run, with which arguments, in which order, and
    how their exit codes steer the rest.  [ok log argv] says whether the command
    [argv] succeeds when the commands in [log] ran before it.  The write to the
    [/proc] switch stands in the list as a command whose first word is the
    path. *)

From stdpp Require Import sets gmap.
From S2P Require Import Prelude Util Keyfile IniConfig ConfDoc ConfigMgmt Main.

Abbreviation argv := (list bytes).

(** Words of a command line written in the source. *)
Definition words (s : list string) : argv := map ascii_bytes s.

Definition TUN_ROUTE_TABLE : Z := 51820.
Definition TUN_FWMARK : Z := 51820.

(** ** The device *)

Definition IFNAMSIZ : nat := 16.

(** [opened] is the descriptor of [/dev/net/tun]; [setiff] is [TUNSETIFF], which
    takes the name asked for and answers with the name of the interface.  The
    result is the descriptor and the caller's [name], and what was closed. *)
Definition tun_create (opened : option Z) (setiff : bytes -> option bytes) (name : bytes) : option (Z * bytes) * list Z :=
  match opened with
  | None => (None, [])
  | Some fd =>
      match setiff (take (IFNAMSIZ - 1) name) with
      | None => (None, [fd])
      | Some actual => (Some (fd, take (IFNAMSIZ - 1) actual), [])
      end
  end.

(** [set_ok]: whether [setsockopt] takes the mark. *)
Definition tun_set_fwmark (set_ok : bool) : Z := if set_ok then 0 else -1.

(** One packet: return value and what is in the buffer. *)
Definition tun_read (buflen : nat) (e : rx_ev) : Z * bytes :=
  match e with
  | RxData d => (Z.of_nat (length (take buflen d)), take buflen d)
  | RxErr EAGAIN | RxErr EINTR => (0, [])
  | RxErr _ => (-1, [])
  end.

Definition tun_write (buf : bytes) (e : tx_ev) : Z * bytes :=
  match e with
  | TxSome n => (Z.of_nat (length (take n buf)), take n buf)
  | TxErr EAGAIN | TxErr EINTR => (0, [])
  | TxErr _ => (-1, [])
  end.

(** A device that could not be made leaves no descriptor behind, and a name
    always fits an interface name. *)
Lemma tun_create_clean opened setiff name :
  match tun_create opened setiff name with
  | (None, closed) => closed = option_list opened
  | (Some (fd, actual), closed) => opened = Some fd /\ closed = [] /\ (length actual < IFNAMSIZ)%nat
  end.
Proof.
  unfold tun_create. destruct opened as [fd|]; [|done]. destruct (setiff _) as [a|]; [|done].
  split_and!; [done..|]. rewrite length_take. unfold IFNAMSIZ. lia.
Qed.

Section tun.
Context (ok : list argv -> argv -> bool).

(** Result and the commands so far. *)
Definition T (A : Type) : Type := list argv -> A * list argv.

#[local] Instance T_ret : MRet T := fun A a log => (a, log).
#[local] Instance T_bind : MBind T := fun A B f m log => let '(a, log1) := m log in f a log1.

(** 0 on exit code 0, -1 on any failure.  ([ok] is any function of what ran before;
    it also stands for the status that nobody wrote, where the handler of
    [SIGCHLD] collected the child first.) *)
Definition run_cmdv (a : argv) : T Z := fun log => (if ok log a then 0 else -1, log ++ [a]).

Definition run_cmdv_quiet (a : argv) : T () := run_cmdv a ≫= fun _ => mret ().

(** The number of one bits of an octet. *)
Fixpoint popcount (fuel : nat) (o : Z) : Z :=
  match fuel with O => 0 | S f => if o =? 0 then 0 else Z.land o 1 + popcount f (Z.shiftr o 1) end.

Definition prefix_of (netmask : option bytes) : Z :=
  match netmask with
  | None => 24
  | Some nm => match scan_quad nm with
               | None => 24
               | Some (a, b, c, d) => popcount 32 a + popcount 32 b + popcount 32 c + popcount 32 d
               end
  end.

Definition tun_set_ip (name ip : bytes) (netmask : option bytes) : T Z :=
  let cidr := take 31 (ip ++ [47] ++ dec_d (prefix_of netmask)) in
  r ← run_cmdv (words ["ip"; "addr"; "add"] ++ [cidr] ++ words ["dev"] ++ [name]);
  mret (if negb (r =? 0) then -1 else 0).

Definition tun_up (name : bytes) : T Z :=
  r ← run_cmdv (words ["ip"; "link"; "set"] ++ [name] ++ words ["up"]);
  r1 ← (if negb (r =? 0) then run_cmdv (words ["ifconfig"] ++ [name] ++ words ["up"]) else mret r);
  _ ← run_cmdv_quiet (words ["ip"; "link"; "set"] ++ [name] ++ words ["txqueuelen"; "2000"]);
  mret (if r1 =? 0 then 0 else -1).

Definition tun_add_route (network name : bytes) : T Z :=
  r ← run_cmdv (words ["ip"; "route"; "add"] ++ [network] ++ words ["dev"] ++ [name]);
  r1 ← (if negb (r =? 0)
        then run_cmdv (words ["ip"; "route"; "replace"] ++ [network] ++ words ["dev"] ++ [name]) else mret r);
  mret (if r1 =? 0 then 0 else -1).

Definition table_str : bytes := dec_d TUN_ROUTE_TABLE.

Definition tun_add_full_tunnel (name : bytes) : T Z :=
  r ← run_cmdv (words ["ip"; "route"; "add"; "0.0.0.0/0"; "dev"] ++ [name] ++ words ["table"] ++ [table_str]);
  if negb (r =? 0) then
    r1 ← run_cmdv (words ["ip"; "route"; "replace"; "0.0.0.0/0"; "dev"] ++ [name] ++ words ["table"] ++ [table_str]);
    mret (if negb (r1 =? 0) then -1 else 0)
  else mret 0.

Definition tun_set_fwmark_rule (mark : Z) : T Z :=
  _ ← run_cmdv_quiet (words ["ip"; "rule"; "add"; "not"; "fwmark"] ++ [dec_d mark] ++ words ["table"] ++ [table_str]);
  _ ← run_cmdv_quiet (words ["ip"; "rule"; "del"; "fwmark"] ++ [dec_d mark] ++ words ["table"; "main"]);
  mret 0.

Definition tun_enable_forwarding : T Z :=
  r ← run_cmdv (words ["/proc/sys/net/ipv4/ip_forward"; "1"]); mret (if negb (r =? 0) then -1 else 0).

Definition nat_rule (flag : string) (subnet out_if : bytes) : argv :=
  words ["iptables"; "-t"; "nat"; flag; "POSTROUTING"; "-s"] ++ [subnet] ++ words ["-o"] ++ [out_if] ++ words ["-j"; "MASQUERADE"].

Definition tun_set_nat (subnet out_if : bytes) : T Z :=
  r ← run_cmdv (nat_rule "-C" subnet out_if);
  if r =? 0 then mret 0
  else
    r1 ← run_cmdv (nat_rule "-A" subnet out_if);
    _ ← (if negb (r1 =? 0)
         then run_cmdv_quiet (words ["nft"; "add"; "rule"; "ip"; "nat"; "POSTROUTING"; "ip"; "saddr"] ++ [subnet] ++
                              words ["oif"] ++ [out_if] ++ words ["masquerade"])
         else mret ());
    mret 0.

Definition forward_rule (flag dir : string) (name : bytes) : argv :=
  words ["iptables"; flag; "FORWARD"; dir] ++ [name] ++ words ["-j"; "ACCEPT"].

(** Check, and add if it is not there. *)
Definition ensure_rule (check add : argv) : T () :=
  r ← run_cmdv check; if negb (r =? 0) then run_cmdv_quiet add else mret ().

Definition tun_allow_forward (name : bytes) : T Z :=
  _ ← ensure_rule (forward_rule "-C" "-i" name) (forward_rule "-A" "-i" name);
  _ ← ensure_rule (forward_rule "-C" "-o" name) (forward_rule "-A" "-o" name);
  mret 0.

Definition dns_rule (flag : string) (name dns_ip : bytes) : argv :=
  words ["iptables"; flag; "FORWARD"; "-i"] ++ [name] ++ words ["-p"; "udp"; "--dport"; "53"; "-d"] ++ [dns_ip] ++ words ["-j"; "ACCEPT"].

Definition tun_allow_dns (name dns_ip : bytes) : T Z :=
  _ ← ensure_rule (dns_rule "-C" name dns_ip) (dns_rule "-A" name dns_ip); mret 0.

(** [strtok_r(buf, ", \t", ...)]: the words between separators. *)
Definition is_sep (c : Z) : bool := (c =? 44) || (c =? 32) || (c =? 9).

Fixpoint tokens_loop (l cur : bytes) : list bytes :=
  match l with
  | [] => match cur with [] => [] | _ => [cur] end
  | c :: l' => if is_sep c then (match cur with [] => tokens_loop l' [] | _ => cur :: tokens_loop l' [] end)
               else tokens_loop l' (cur ++ [c])
  end.

(** The tokens of the first 255 characters. *)
Definition tokens (s : bytes) : list bytes := tokens_loop (take 255 s) [].

Definition FULL4 : bytes := ascii_bytes "0.0.0.0/0".
Definition FULL6 : bytes := ascii_bytes "::/0".

Fixpoint each (f : bytes -> T Z) (l : list bytes) : T () :=
  match l with [] => mret () | x :: l' => _ ← f x; each f l' end.

Definition route_one (name tok : bytes) : T Z :=
  if bool_decide (tok = FULL4) || bool_decide (tok = FULL6) then tun_add_full_tunnel name else tun_add_route tok name.

Definition tun_add_routes_multi (allowed_ips name : bytes) : T Z :=
  match allowed_ips with [] => mret 0 | _ => _ ← each (route_one name) (tokens allowed_ips); mret 0 end.

Definition nat_one (out_if tok : bytes) : T Z :=
  if bool_decide (tok = FULL4) then
    _ ← tun_set_nat (ascii_bytes "10.0.0.0/8") out_if;
    _ ← tun_set_nat (ascii_bytes "172.16.0.0/12") out_if;
    tun_set_nat (ascii_bytes "192.168.0.0/16") out_if
  else tun_set_nat tok out_if.

Definition tun_set_nat_multi (allowed_ips out_if : bytes) : T Z :=
  match allowed_ips with [] => mret 0 | _ => _ ← each (nat_one out_if) (tokens allowed_ips); mret 0 end.

Definition tun_teardown (name : bytes) (server : bool) : T () :=
  _ ← run_cmdv_quiet (words ["ip"; "route"; "flush"; "table"] ++ [table_str]);
  _ ← run_cmdv_quiet (words ["ip"; "rule"; "del"; "not"; "fwmark"] ++ [table_str] ++ words ["table"] ++ [table_str]);
  _ ← run_cmdv_quiet (words ["ip"; "rule"; "del"; "not"; "fwmark"] ++ [table_str] ++ words ["table"; "main"]);
  _ ← run_cmdv_quiet (words ["ip"; "rule"; "del"; "fwmark"] ++ [table_str] ++ words ["table"; "main"]);
  _ ← run_cmdv_quiet (words ["ip"; "link"; "del"] ++ [name]);
  if server then
    _ ← run_cmdv_quiet (words ["iptables"; "-t"; "nat"; "-F"; "POSTROUTING"]);
    run_cmdv_quiet (words ["iptables"; "-F"; "FORWARD"])
  else mret ().

(** [tun_exec_script]: the command line with [%i] replaced, in a buffer of
    [remaining] characters. *)
Fixpoint subst_loop (src : bytes) (name : bytes) (remaining : nat) : bytes :=
  match remaining, src with
  | O, _ => []
  | _, [] => []
  | S r, c :: src' =>
      match src' with
      | d :: src'' =>
          if (c =? 37) && (d =? 105)
          then take remaining name ++ subst_loop src'' name (remaining - length (take remaining name))
          else c :: subst_loop src' name r
      | [] => c :: subst_loop src' name r
      end
  end.

Definition script_cmd (script name : bytes) : bytes := subst_loop script name 1023.

(** [execl("/bin/sh", "sh", "-c", cmd)]; [ok] stands for: it could be started and did not exit with a
    code other than 0. *)
Definition tun_exec_script (script name : bytes) : T Z :=
  match script with
  | [] => mret 0
  | _ => run_cmdv (words ["/bin/sh"; "sh"; "-c"] ++ [script_cmd script name])
  end.

(** ** The set-up of the two TUN modes (mode_tun.c) *)

Definition tun_setup_routing (name allowed_ips nat_if : bytes) (server : bool) : T () :=
  if server then
    _ ← tun_enable_forwarding;
    _ ← (match allowed_ips with
         | [] => mret ()
         | _ => _ ← tun_add_routes_multi allowed_ips name; _ ← tun_set_nat_multi allowed_ips nat_if; mret ()
         end);
    _ ← tun_allow_forward name; mret ()
  else mret ().

(** PostUp and PostDown. *)
Definition tun_run_postup (script name : bytes) : T () :=
  match script with [] => mret () | _ => _ ← tun_exec_script script name; mret () end.
Definition tun_run_postdown (script name : bytes) : T () :=
  match script with [] => mret () | _ => _ ← tun_exec_script script name; mret () end.

Definition is_full (route : bytes) : bool := bool_decide (route = FULL4) || bool_decide (route = FULL6).
Definition has_comma (route : bytes) : bool := bool_decide (44 ∈ route).

(** Address and link, common to both. *)
Definition tun_link (name : bytes) (o : opts) : T () :=
  _ ← (match tun_ip o with [] => mret 0 | ip => tun_set_ip name ip (Some (tun_netmask o)) end);
  _ ← tun_up name; mret ().

Definition tun_server_setup (name : bytes) (o : opts) : T () :=
  _ ← tun_link name o;
  _ ← (match tun_route o with
       | [] => mret 0
       | r => if is_full r then tun_add_full_tunnel name
              else if negb (has_comma r) then tun_add_route r name else mret 0
       end);
  _ ← tun_setup_routing name (tun_route o) (tun_nat_if o) true;
  tun_run_postup (tun_postup o) name.

Definition tun_client_setup (name : bytes) (o : opts) : T () :=
  _ ← tun_link name o;
  _ ← (match tun_route o with
       | [] => mret 0
       | r => if is_full r then (_ ← tun_add_full_tunnel name; tun_set_fwmark_rule TUN_FWMARK)
              else tun_add_route r name
       end);
  _ ← (if negb (bool_decide (tun_route o = [])) && has_comma (tun_route o)
       then tun_add_routes_multi (tun_route o) name else mret 0);
  tun_run_postup (tun_postup o) name.

(** The same in the UDP modes (mode_tun_udp.c, which has its own copy of
    [tun_setup_routing]): a list of ranges is not told apart from one range. *)
Definition udp_tun_server_setup (name : bytes) (o : opts) : T () :=
  _ ← tun_link name o;
  _ ← (match tun_route o with [] => mret 0 | r => if is_full r then tun_add_full_tunnel name else tun_add_route r name end);
  _ ← tun_setup_routing name (tun_route o) (tun_nat_if o) true;
  tun_run_postup (tun_postup o) name.

Definition udp_tun_client_setup (name : bytes) (o : opts) : T () :=
  _ ← tun_link name o;
  _ ← (match tun_route o with
       | [] => mret 0
       | r => if is_full r then (_ ← tun_add_full_tunnel name; tun_set_fwmark_rule TUN_FWMARK) else tun_add_route r name
       end);
  tun_run_postup (tun_postup o) name.

Definition tun_server_down (name : bytes) (o : opts) : T () :=
  _ ← tun_run_postdown (tun_postdown o) name; tun_teardown name true.

Definition tun_client_down (name : bytes) (o : opts) : T () :=
  _ ← tun_run_postdown (tun_postdown o) name; tun_teardown name false.
End tun.

(** ** The script *)

(** The substitution without a bound. *)
Fixpoint subst_name (src name : bytes) : bytes :=
  match src with
  | [] => []
  | c :: src' =>
      match src' with
      | d :: src'' => if (c =? 37) && (d =? 105) then name ++ subst_name src'' name else c :: subst_name src' name
      | [] => [c]
      end
  end.

Lemma subst_loop_spec n : forall src name r, (length src <= n)%nat -> subst_loop src name r = take r (subst_name src name).
Proof.
  induction n as [|n IH]; intros src name r Hl.
  { destruct src; [|simpl in Hl; lia]. by destruct r. }
  destruct r as [|r]; [by destruct src|]. destruct src as [|c [|d src]]; [done|by destruct r|].
  cbn [subst_loop subst_name]. simpl in Hl. destruct ((c =? 37) && (d =? 105)).
  - rewrite IH by lia. rewrite take_app. f_equal. f_equal. rewrite length_take. lia.
  - cbn [take]. f_equal. exact (IH (d :: src) name r ltac:(simpl; lia)).
Qed.

(** The command line of a PostUp or PostDown script is the script with every
    [%i] replaced by the interface name, cut off at 1023 characters; the
    1024-byte buffer is never overrun. *)
Theorem script_cmd_spec script name :
  script_cmd script name = take 1023 (subst_name script name) /\ (length (script_cmd script name) < 1024)%nat.
Proof.
  assert (script_cmd script name = take 1023 (subst_name script name)) as E by by eapply subst_loop_spec.
  split; [exact E|]. rewrite E, length_take. lia.
Qed.

(** ** Addresses *)

Lemma all_prefixes (P : Z -> bool) : forallb (fun i => P (Z.of_nat i)) (seq 0 33) = true ->
  forall p, 0 <= p <= 32 -> P p = true.
Proof.
  intros H p Hp. rewrite List.forallb_forall in H. rewrite <- (Z2Nat.id p) by lia. apply H. apply in_seq. lia.
Qed.

(** Netmask text and back, and the decimal numbers, for every prefix. *)
Definition prefix_ok (p : Z) : bool :=
  match netmask_of p with
  | Ok nm => (prefix_of (Some (take 30 (quad_text nm))) =? p) && (atoi (dec_d p) =? p) &&
             (length (dec_d p) <=? 2)%nat && negb (bool_decide (47 ∈ dec_d p))
  | _ => false
  end.

Lemma prefix_ok_all p : 0 <= p <= 32 -> prefix_ok p = true.
Proof. apply all_prefixes. vm_compute. reflexivity. Qed.

(** The address survives start-up: [Address = ip/prefix] of the
    configuration, for every prefix from 0 to 32, is split into address and
    netmask by main.c and put together again by tun.c, so that the command that
    runs is [ip addr add ip/prefix dev name]. *)
Theorem address_roundtrip ok name log ip p o :
  0 <= p <= 32 -> (47 ∉ ip) -> (length ip <= 28)%nat ->
  let v := ip ++ [47] ++ dec_d p in
  exists o', config_address v o = Ok o' /\ tun_ip o' = ip /\
    snd (tun_set_ip ok name (tun_ip o') (Some (tun_netmask o')) log) =
      log ++ [words ["ip"; "addr"; "add"] ++ [v] ++ words ["dev"] ++ [name]].
Proof.
  intros Hp H47 Hl v. pose proof (prefix_ok_all p Hp) as H. unfold prefix_ok in H.
  destruct (netmask_of p) as [nm| |] eqn:Hnm; [|done..].
  apply andb_true_iff in H as [[[Hpre%Z.eqb_eq Hat%Z.eqb_eq]%andb_true_iff Hlen%Nat.leb_le]%andb_true_iff _].
  eexists. unfold config_address. subst v. cbn [app]. rewrite strchr_app by done. rewrite Hat, Hnm. cbn [mbind outcome_bind].
  destruct (length ip <? 32)%nat eqn:E; zbool; [|lia]. split; [reflexivity|]. split; [reflexivity|].
  cbn [tun_ip tun_netmask set_tun]. unfold tun_set_ip. rewrite Hpre. rewrite take_ge by (len). reflexivity.
Qed.

Lemma address_roundtrip_witness :
  let v := ascii_bytes "10.0.0.1" ++ [47] ++ dec_d 24 in
  exists o', config_address v (opts_init []) = Ok o' /\ tun_ip o' = ascii_bytes "10.0.0.1" /\
    snd (tun_set_ip (fun _ _ => true) (ascii_bytes "tun0") (tun_ip o') (Some (tun_netmask o')) []) =
      [] ++ [words ["ip"; "addr"; "add"] ++ [v] ++ words ["dev"] ++ [ascii_bytes "tun0"]].
Proof.
  apply (address_roundtrip (fun _ _ => true) (ascii_bytes "tun0") [] (ascii_bytes "10.0.0.1") 24 (opts_init [])).
  - lia.
  - vm_compute. set_solver.
  - vm_compute. lia.
Defined.

(** ** Routes *)

(** An address range that is one token. *)
Definition one_range (a : bytes) : Prop := a <> [] /\ Forall (fun c => is_sep c = false) a.

Lemma tokens_loop_word a l cur : Forall (fun c => is_sep c = false) a ->
  tokens_loop (a ++ l) cur = tokens_loop l (cur ++ a).
Proof.
  intros Ha. revert cur. induction Ha as [|c a Hc _ IH]; intros cur; [by rewrite app_nil_r|].
  cbn [app tokens_loop]. rewrite Hc, IH. by rewrite <- app_assoc.
Qed.

(** The ranges that fit [n] characters with a comma after each; the first that does
    not fit is cut. *)
Fixpoint fit (n : nat) (l : list bytes) : list bytes :=
  match l with
  | [] => []
  | a :: l' =>
      if (length a <=? n)%nat then a :: fit (n - length a - 1) l'
      else if (n =? 0)%nat then [] else [take n a]
  end.

Lemma tokens_fit n l : Forall one_range l -> tokens_loop (take n (join_with 44 l)) [] = fit n l.
Proof.
  intros Hl. revert n. induction Hl as [|a l [Hne Hs] Hl IH]; intros n; [cbn [join_with]; by rewrite take_nil|].
  assert (exists t, join_with 44 (a :: l) = a ++ t /\ (l = [] /\ t = [] \/ t = 44 :: join_with 44 l)) as (t & -> & Ht).
  { destruct l as [|b l]; [exists []; rewrite app_nil_r; auto|]. eexists. split; [reflexivity|by right]. }
  cbn [fit]. destruct (length a <=? n)%nat eqn:E; zbool.
  - rewrite take_app, take_ge, tokens_loop_word by done. cbn [app]. destruct Ht as [[-> ->]| ->].
    + rewrite take_nil. simpl. by destruct a.
    + destruct (n - length a)%nat as [|m] eqn:Em; cbn [take tokens_loop].
      * replace (0 - 1)%nat with 0%nat by lia. rewrite <- (IH 0%nat). simpl. by destruct a.
      * change (is_sep 44) with true. cbv match. replace (S m - 1)%nat with m by lia. rewrite <- IH. by destruct a.
  - rewrite take_app_le by lia. rewrite <- (app_nil_r (take n a)) at 1.
    rewrite tokens_loop_word by (by apply Forall_take). cbn [tokens_loop app].
    destruct n as [|n]; [done|]. destruct a; [simpl in E; lia|]. done.
Qed.

Lemma fit_all n l : (length (join_with 44 l) <= n)%nat -> fit n l = l.
Proof.
  revert n. induction l as [|a l IH]; intros n Hn; [done|]. cbn [fit]. destruct l as [|b l].
  - cbn [join_with] in Hn. apply Nat.leb_le in Hn. by rewrite Hn.
  - cbn [join_with] in *. rewrite length_app in Hn. cbn [length] in Hn.
    rewrite (proj2 (Nat.leb_le _ _)) by lia. f_equal. apply IH. cbn [join_with] in *. lia.
Qed.

(** The command for one range: the default route goes to a table of its own. *)
Definition route_cmd (verb : string) (name a : bytes) : argv :=
  if bool_decide (a = FULL4) || bool_decide (a = FULL6)
  then words ["ip"; "route"; verb; "0.0.0.0/0"; "dev"] ++ [name] ++ words ["table"; "51820"]
  else words ["ip"; "route"; verb] ++ [a] ++ words ["dev"] ++ [name].

(** [add] for every range in order, each followed by [replace] exactly when it
    failed. *)
Inductive routed (ok : list argv -> argv -> bool) (name : bytes) : list bytes -> list argv -> list argv -> Prop :=
  | routed_nil log : routed ok name [] log log
  | routed_add a l log log' : ok log (route_cmd "add" name a) = true ->
      routed ok name l (log ++ [route_cmd "add" name a]) log' -> routed ok name (a :: l) log log'
  | routed_replace a l log log' : ok log (route_cmd "add" name a) = false ->
      routed ok name l (log ++ [route_cmd "add" name a] ++ [route_cmd "replace" name a]) log' -> routed ok name (a :: l) log log'.

Lemma route_one_log ok name a log : snd (route_one ok name a log) =
  if ok log (route_cmd "add" name a) then log ++ [route_cmd "add" name a]
  else log ++ [route_cmd "add" name a] ++ [route_cmd "replace" name a].
Proof.
  unfold route_one, tun_add_full_tunnel, tun_add_route, run_cmdv, route_cmd, mbind, T_bind, mret, T_ret.
  replace (words ["table"] ++ [table_str]) with (words ["table"; "51820"]) by (vm_compute; reflexivity).
  destruct (_ || _); cbv zeta; (destruct (ok log _); [done|]); change (negb (-1 =? 0)) with true; cbv match; cbn [snd]; by rewrite <- app_assoc.
Qed.

Lemma each_routed ok name l : forall log, routed ok name l log (snd (each (route_one ok name) l log)).
Proof.
  induction l as [|a l IH]; intros log; [constructor|]. cbn [each]. unfold mbind, T_bind.
  pose proof (route_one_log ok name a log) as H. destruct (route_one ok name a log) as [r log1]. cbn [snd] in H. subst log1.
  destruct (ok log (route_cmd "add" name a)) eqn:E; [by apply routed_add|by apply routed_replace].
Qed.

(** C32: which peers are routed.  The server takes the [AllowedIPs] of the leading
    peers that have some, each a single range, as far as they fit the 62 characters
    of the route buffer, and cuts the first that does not; for each of these, in
    order, it runs [ip route add] into the TUN device (for the default route into
    the table of its own), and [ip route replace] exactly when that fails.  If all
    fit, all are routed. *)
Theorem peer_routes_installed ok name log secs :
  let ranges := allowed_until (secs_named (ascii_bytes "Peer") secs) in
  (length secs < MAX_PEERS)%nat -> Forall one_range ranges ->
  (exists log', tun_add_routes_multi ok (aggregate MAX_PEERS (table secs) 0 []) name log = (0, log') /\
    routed ok name (fit 62 ranges) log log') /\
  ((length (join_with 44 ranges) <= 62)%nat -> fit 62 ranges = ranges).
Proof.
  intros ranges Hl Hr. split; [|apply fit_all]. rewrite aggregate_joined by done. fold ranges.
  unfold tun_add_routes_multi. pose proof (tokens_fit 62 ranges Hr) as Ht.
  destruct (take 62 (join_with 44 ranges)) as [|c j] eqn:E.
  - exists log. cbn [tokens_loop] in Ht. rewrite <- Ht. split; [done|constructor].
  - assert (length (c :: j) <= 62)%nat by (rewrite <- E, length_take; lia).
    unfold mbind, T_bind, mret, T_ret, tokens. rewrite take_ge, Ht by lia.
    pose proof (each_routed ok name (fit 62 ranges) log) as H'. destruct (each _ _ log) as [u log']. by exists log'.
Qed.

(** The command that adds one range. *)
Definition route_add (name a : bytes) : argv := words ["ip"; "route"; "add"] ++ [a] ++ words ["dev"] ++ [name].

#[local] Existing Instances T_ret T_bind.

(** Programs that do not run the command [c]. *)
Definition skips (c : argv) {A : Type} (m : T A) : Prop := forall log, c ∈ snd (m log) -> c ∈ log.

Lemma skips_ret c (A : Type) (a : A) : skips c (mret a : T A).
Proof. by intros log. Qed.

Lemma skips_bind c (A B : Type) (f : A -> T B) (m : T A) : skips c m -> (forall a, skips c (f a)) -> skips c (m ≫= f).
Proof. intros Hm Hf log. unfold mbind, T_bind. specialize (Hm log). destruct (m log) as [a log1]. intros H%Hf. by apply Hm. Qed.

Lemma skips_run ok c d : c <> d -> skips c (run_cmdv ok d).
Proof. intros Hn log. unfold run_cmdv. cbn [snd]. intros [H|H%list_elem_of_singleton]%elem_of_app; congruence. Qed.

Ltac skips_tac := repeat first [ apply skips_ret | apply skips_bind; [|intros ?] | apply skips_run | case_match ].

(** The UDP client routes no range of a list: the only route commands it runs
    name the whole list. *)
Lemma udp_client_routes_whole ok name o a : has_comma (tun_route o) = true -> tun_postup o = [] -> a <> tun_route o ->
  skips (route_add name a) (udp_tun_client_setup ok name o).
Proof.
  intros Hc Hp Ha. assert (is_full (tun_route o) = false) as Hf.
  { unfold is_full. apply orb_false_iff. split; apply bool_decide_eq_false; intros E; rewrite E in Hc; vm_compute in Hc; discriminate Hc. }
  unfold udp_tun_client_setup, tun_link, tun_up, tun_set_ip, tun_add_route, tun_run_postup, run_cmdv_quiet. rewrite Hp.
  destruct (tun_route o) as [|c r]; [done|]. rewrite Hf.
  skips_tac; intros E; first [discriminate E|apply Ha; by apply (f_equal (fun l => nth 3 l [])) in E].
Qed.

Definition range_secs (l : list string) : config :=
  map (fun n => (ascii_bytes "Peer", [mkEntry (ascii_bytes "AllowedIPs") (ascii_bytes n)])) l.

(** Two ranges are routed; of four /24 the last is cut to a /2. *)
Lemma peer_routes_installed_witness :
  let many := range_secs ["192.168.10.0/24"; "192.168.11.0/24"; "192.168.12.0/24"; "192.168.13.0/24"] in
  (exists log', tun_add_routes_multi (fun _ _ => false) (aggregate MAX_PEERS (table (range_secs ["10.0.0.2/32"; "10.1.0.0/16"])) 0 []) (ascii_bytes "tun0") [] = (0, log') /\
    routed (fun _ _ => false) (ascii_bytes "tun0") (words ["10.0.0.2/32"; "10.1.0.0/16"]) [] log') /\
  (exists log', tun_add_routes_multi (fun _ _ => true) (aggregate MAX_PEERS (table many) 0 []) (ascii_bytes "tun0") [] = (0, log') /\
    routed (fun _ _ => true) (ascii_bytes "tun0") (words ["192.168.10.0/24"; "192.168.11.0/24"; "192.168.12.0/24"; "192.168.13.0/2"]) [] log').
Proof.
  split.
  - apply (peer_routes_installed (fun _ _ => false) (ascii_bytes "tun0") [] (range_secs ["10.0.0.2/32"; "10.1.0.0/16"])); [vm_compute; lia|].
    vm_compute. repeat constructor; discriminate.
  - apply (peer_routes_installed (fun _ _ => true) (ascii_bytes "tun0") []
      (range_secs ["192.168.10.0/24"; "192.168.11.0/24"; "192.168.12.0/24"; "192.168.13.0/24"])); [vm_compute; lia|].
    vm_compute. repeat constructor; discriminate.
Defined.
