(* ===== verification/Modes.v ===== *)
(** * The modes (mode_psk.c, mode_tun.c, mode_socks5.c): connections in a loop

    Resolving and connecting (main.c), the reconnect loops of the clients and
    the accept loops of the servers.  What one connection does (handshake, key
    confirmation, tunnel) is the code of [Handshake], [Tunnel] and [Socks5], run
    on the [world] of that connection; a loop takes one [round] after the other
    from a script that says what the environment did.  The result is the trace
    of attempts and pauses. *)

From S2P Require Import Prelude Aes Aegis Aead Util Io Frame FrameReader Handshake Tunnel ModeCommon Socks5.
From S2P Require Import Keyfile IniConfig ConfDoc ConfigMgmt CreateTun Main Tun.

(** ** Connecting (main.c) *)

Section connect.
Context (can_socket : nat -> proto -> bool) (can_connect : nat -> bool) (fwmark : Z).

Definition set_mark (fd : Z) : list net_ev := if 0 <? fwmark then [Marked fd fwmark] else [].

(** The loop of [connect_to_host] over the resolved addresses; descriptors are
    numbered from [next]. *)
Fixpoint connect_loop (addrs : list nat) (next : Z) : option Z * list net_ev :=
  match addrs with
  | [] => (None, [])
  | a :: rest =>
      if negb (can_socket a TCP) then connect_loop rest next
      else
        let pre := Opened next TCP :: set_mark next ++ [Tried next a] in
        if can_connect a then (Some next, pre)
        else let '(r, evs) := connect_loop rest (next + 1) in (r, pre ++ Closed next :: evs)
  end.

(** [addrs] is what [getaddrinfo] returned, [None] if it failed. *)
Definition connect_to_host (addrs : option (list nat)) (next : Z) : option Z * list net_ev :=
  match addrs with None => (None, []) | Some l => connect_loop l next end.

(** The two flags say which kind of socket has been made already. *)
Definition mptcp_socket (a : nat) (tried_mptcp tried_tcp : bool) : option proto * bool * bool :=
  if negb tried_mptcp && can_socket a MPTCP then (Some MPTCP, true, tried_tcp)
  else if negb tried_tcp && can_socket a TCP then (Some TCP, tried_mptcp, true)
  else (None, tried_mptcp, tried_tcp).

Fixpoint mptcp_loop (addrs : list nat) (tried_mptcp tried_tcp : bool) (next : Z) : option Z * list net_ev :=
  match addrs with
  | [] => (None, [])
  | a :: rest =>
      let '(s, tm, tc) := mptcp_socket a tried_mptcp tried_tcp in
      match s with
      | None => mptcp_loop rest tm tc next
      | Some p =>
          let pre := Opened next p :: set_mark next ++ [Tried next a] in
          if can_connect a then (Some next, pre)
          else let '(r, evs) := mptcp_loop rest tm tc (next + 1) in (r, pre ++ Closed next :: evs)
      end
  end.

(** The second result of [getaddrinfo] is asked for without the protocol. *)
Definition connect_to_host_mptcp (addrs1 addrs2 : option (list nat)) (next : Z) : option Z * list net_ev :=
  match addrs1 with
  | Some l => mptcp_loop l false false next
  | None => match addrs2 with None => (None, []) | Some l => mptcp_loop l false false next end
  end.

(** Listening: [can_listen] says whether [bind] and [listen] work. *)
Definition listen_fd (can_listen : bool) (p : proto) (next : Z) : option Z * list net_ev :=
  if can_listen then (Some next, [Opened next p]) else (None, [Opened next p; Closed next]).

Definition listen_on_port (can_listen : bool) (next : Z) : option Z * list net_ev :=
  if can_socket 0 TCP then listen_fd can_listen TCP next else (None, []).

Definition listen_on_port_mptcp (can_listen : bool) (next : Z) : option Z * list net_ev :=
  if can_socket 0 MPTCP then listen_fd can_listen MPTCP next
  else if can_socket 0 TCP then listen_fd can_listen TCP next else (None, []).

(** The socket of the UDP server; on failure the TUN device is closed too. *)
Definition udp_server_socket (tun_fd : Z) (can_bind : bool) (next : Z) : option Z * list net_ev :=
  if negb (can_socket 0 UDP) then (None, [Closed tun_fd])
  else if can_bind then (Some next, [Opened next UDP]) else (None, [Opened next UDP; Closed next; Closed tun_fd]).
End connect.

(** ** Reconnecting *)

(** An attempt, what happened to the sockets in it, a pause. *)
Inductive ev := Try (pi : nat) (host : bytes) (port : Z) | Net (l : list net_ev) | Sleep (d : Z).

Definition next_delay (d : Z) : Z := if d =? 0 then 1 else if d <? 30 then d * 2 else d.

(** The network of one attempt: which sockets can be made, which addresses
    accept, what [getaddrinfo] says of a host and port (with the hints of the
    first and of the second call), and the next free descriptor. *)
Record net := mkNet {
  n_socket : nat -> proto -> bool; n_connect : nat -> bool;
  n_addrs : bytes -> Z -> option (list nat); n_addrs2 : bytes -> Z -> option (list nat); n_next : Z
}.

Definition dial (n : net) (host : bytes) (port fwmark : Z) : option Z * list net_ev :=
  connect_to_host (n_socket n) (n_connect n) fwmark (n_addrs n host port) (n_next n).

Definition dial_mptcp (n : net) (host : bytes) (port fwmark : Z) : option Z * list net_ev :=
  connect_to_host_mptcp (n_socket n) (n_connect n) fwmark (n_addrs n host port) (n_addrs2 n host port) (n_next n).

(** What happens in one turn of a loop: [g_running] at the top, the network,
    for a connection its world and the values of [g_running] that the tunnel
    sees, and [g_running] before the pause.  Where the list of rounds ends,
    [g_running] is found cleared at the top. *)
Record round := mkRound { rd_running : bool; rd_net : net; rd_conn : world * list bool; rd_running2 : bool }.

Section clients.
Context {A : Aead} {C : Crypto} {U : Locals}.
Context (priv : bytes) (keepalive : Z) (k0 : session_keys_t).

(** [tunnel_init] and the line that follows it. *)
Definition mode_tunnel (pt_fd enc_fd : Z) (keys : session_keys_t) : tunnel_t :=
  let t := tunnel_init pt_fd enc_fd (enc_key keys) (dec_key keys) in
  mkTunnel (t_fd t) (t_enc_key t) (t_dec_key t) (t_enc_nonce t) (t_dec_nonce t) keepalive
    (t_rekey_sec t) (t_session_psk t) (t_psk t) (t_psk_len t) (t_running t).

(** One connection of [mode_psk_client] and [mode_tun_client], up to the call of
    [tunnel_run]; [None] where the handshake or the confirmation fails. *)
Definition client_setup (peer : bytes) (pt_fd fd : Z) : M (option tunnel_t) :=
  x ← handshake_client priv peer k0;
  let '(r, keys) := x in
  if negb (r =? 0) then mret None
  else
    c ← handshake_key_confirm_client keys;
    if negb (c =? 0) then mret None else mret (Some (mode_tunnel pt_fd fd keys)).

Definition session (peer : bytes) (pt_fd fd : Z) (gs : list bool) : M (option Z) :=
  x ← client_setup peer pt_fd fd;
  match x with
  | None => mret None
  | Some t => y ← tunnel_run gs t; mret (Some (fst y))
  end.

(** The children of [mode_psk_server] and [mode_tun_server]: [pt] is the
    descriptor of the plaintext side, for the first what [connect_to_host] made
    of the target, for the second the TUN device.  The result is the status the
    child exits with. *)
Definition server_setup (peers : list bytes) (pt : option Z) (client_fd : Z) : M (option tunnel_t) :=
  x ← try_handshake_server priv peers k0;
  let '(peer_idx, keys) := x in
  if peer_idx <? 0 then mret None
  else
    c ← handshake_key_confirm_server keys;
    if negb (c =? 0) then mret None
    else match pt with None => mret None | Some fd => mret (Some (mode_tunnel fd client_fd keys)) end.

Definition server_child (peers : list bytes) (pt : option Z) (client_fd : Z) (gs : list bool) : M Z :=
  x ← server_setup peers pt client_fd;
  match x with
  | None => mret 1
  | Some t => y ← tunnel_run gs t; mret (if fst y =? 0 then 0 else 1)
  end.

Definition run_session (peer : bytes) (pt_fd fd : Z) (c : world * list bool) : option (option Z) :=
  let '(w, gs) := c in
  match session peer pt_fd fd gs w with None => None | Some (r, _) => Some r end.

(** *** mode_tun_client *)

Section tun_client.
Context (remote_host : bytes) (remote_port : Z) (g : peers_t) (g_tun_multipath : Z) (tun_fd : Z).

Definition use_single : bool := negb (bool_decide (remote_host = [])).
Definition peer_count : nat := if negb use_single && (0 <? g_peer_count g)%nat then g_peer_count g else 1.

(** The peer of this turn: [None] for an endpoint that does not parse.  The host
    of an endpoint points into [ep_buf], whose block has ended when it is used:
    the name that is resolved is what is found there then. *)
Definition target (peer_idx : nat) : option (nat * bytes * Z) :=
  if use_single then Some (0%nat, remote_host, remote_port)
  else match nth peer_idx (g_peer_endpoints g) [] with
       | [] => Some (0%nat, remote_host, remote_port)
       | ep => match parse_host_port (endpoint_buf (Some ep)) with
               | None => None
               | Some (h, p) => Some (peer_idx, dead "ep_buf" h, p)
               end
       end.

Definition next_peer (peer_idx : nat) : nat := ((peer_idx + 1) mod peer_count)%nat.

Definition tun_dial (n : net) (host : bytes) (port : Z) : option Z * list net_ev :=
  if 1 <? g_tun_multipath then dial_mptcp n host port TUN_FWMARK else dial n host port TUN_FWMARK.

Fixpoint tun_client_loop (rounds : list round) (delay : Z) (peer_idx : nat) : option (list ev) :=
  match rounds with
  | [] => Some []
  | rd :: rounds' =>
      if negb (rd_running rd) then Some []
      else
        match target peer_idx with
        | None => tun_client_loop rounds' delay (next_peer peer_idx)
        | Some (pi, host, port) =>
            let '(tunnel_fd, io) := tun_dial (rd_net rd) host port in
            let retry := fun io idx =>
              if negb (rd_running2 rd) then Some [Try pi host port; Net io]
              else
                let d := next_delay delay in
                tr ← tun_client_loop rounds' d idx; Some (Try pi host port :: Net io :: Sleep d :: tr) in
            match tunnel_fd with
            | None => retry io (next_peer peer_idx)
            | Some fd =>
                r ← run_session (nth pi (g_asym_peers g) []) tun_fd fd (rd_conn rd);
                match r with
                | Some r =>
                    let io := io ++ [Closed fd] in
                    if r =? 0 then Some [Try pi host port; Net io] else retry io peer_idx
                | None =>
                    let io := io ++ [Closed fd] in
                    retry io (next_peer peer_idx)
                end
            end
        end
  end.
End tun_client.

(** *** mode_psk_client: the loop for one local connection *)

Fixpoint psk_client_loop (peer host : bytes) (port local_fd : Z) (rounds : list round) (delay : Z) : option (list ev) :=
  match rounds with
  | [] => Some []
  | rd :: rounds' =>
      if negb (rd_running rd) then Some []
      else
        let '(tunnel_fd, io) := dial (rd_net rd) host port 0 in
        let retry := fun io delay =>
          if negb (rd_running2 rd) then Some [Try 0 host port; Net io]
          else
            let d := next_delay delay in
            tr ← psk_client_loop peer host port local_fd rounds' d; Some (Try 0 host port :: Net io :: Sleep d :: tr) in
        match tunnel_fd with
        | None => retry io delay
        | Some fd =>
            r ← run_session peer local_fd fd (rd_conn rd);
            match r with
            | Some r =>
                let io := io ++ [Closed fd] in
                if r =? 0 then Some [Try 0 host port; Net io] else retry io 0
            | None => retry (io ++ [Closed fd]) delay
            end
        end
  end.

(** *** mode_socks5_client: the same with a connect request *)

Definition socks5_session (thost : bytes) (tport : Z) (peer : bytes) (local_fd fd : Z) (gs : list bool) : M bool :=
  x ← socks5_client_setup thost tport priv peer k0 local_fd fd keepalive;
  match x with
  | None => mret false
  | Some t => _ ← tunnel_run gs t; mret true
  end.

Fixpoint socks5_client_loop (thost : bytes) (tport : Z) (peer host : bytes) (port local_fd : Z)
    (rounds : list round) (delay : Z) : option (list ev) :=
  match rounds with
  | [] => Some []
  | rd :: rounds' =>
      if negb (rd_running rd) then Some []
      else
        let '(tunnel_fd, io) := dial (rd_net rd) host port 0 in
        let retry := fun io =>
          if negb (rd_running2 rd) then Some [Try 0 host port; Net io]
          else
            let d := next_delay delay in
            tr ← socks5_client_loop thost tport peer host port local_fd rounds' d;
            Some (Try 0 host port :: Net io :: Sleep d :: tr) in
        match tunnel_fd with
        | None => retry io
        | Some fd =>
            let '(w, gs) := rd_conn rd in
            match socks5_session thost tport peer local_fd fd gs w with
            | None => None
            | Some (connected, _) =>
                let io := io ++ [Closed fd] in
                if (connected : bool) then Some [Try 0 host port; Net io] else retry io
            end
        end
  end.

(** *** The accept loops of the two clients

    One local connection is served after the other.  An event is a failed
    [accept], or a connection: its descriptor, the world of the negotiation with
    the local program (SOCKS5 only), and the turns of the reconnect loop.  The
    results are the traces of the connections served and [g_active_conns]. *)
Inductive local_ev := LocalFail | Local (fd : Z) (w : world) (rounds : list round).

Fixpoint mode_psk_client (peer host : bytes) (port g_max_conns : Z) (evs : list local_ev) (active : Z) : option (list (list ev) * Z) :=
  match evs with
  | [] => Some ([], active)
  | LocalFail :: evs' => mode_psk_client peer host port g_max_conns evs' active
  | Local fd _ rounds :: evs' =>
      if g_max_conns <=? active then mode_psk_client peer host port g_max_conns evs' active
      else
        let active := active + 1 in
        tr ← psk_client_loop peer host port fd rounds 0;
        '(trs, n) ← mode_psk_client peer host port g_max_conns evs' (active - 1);
        Some (tr :: trs, n)
  end.

Fixpoint mode_socks5_client (peer host : bytes) (port : Z) (evs : list local_ev) (active : Z) : option (list (list ev) * Z) :=
  match evs with
  | [] => Some ([], active)
  | LocalFail :: evs' => mode_socks5_client peer host port evs' active
  | Local fd w rounds :: evs' =>
      let active := active + 1 in
      '(r, _) ← socks5_accept w;
      match r with
      | None => mode_socks5_client peer host port evs' (active - 1)
      | Some (thost, tport) =>
          tr ← socks5_client_loop thost tport peer host port fd rounds 0;
          '(trs, n) ← mode_socks5_client peer host port evs' (active - 1);
          Some (tr :: trs, n)
      end
  end.
End clients.

(** ** Accepting *)

(** [s_forked] and [s_exited] count the children of the loop made and gone,
    [s_lost] the decrements of the counter that were overwritten. *)
Record server := mkServer {
  s_active : Z; s_rate : rate_state; s_forked : nat; s_exited : nat; s_lost : nat; s_broken : bool
}.

(** [sigchld_handler]: one decrement for each child that is collected, be it a
    child of the accept loop ([own]) or one that [run_cmdv] or [tun_exec_script]
    made and has not waited for yet ([cmds]). *)
Definition sigchld (own cmds : nat) (s : server) : server :=
  mkServer (s_active s - Z.of_nat own - Z.of_nat cmds) (s_rate s) (s_forked s) (s_exited s + own) (s_lost s) (s_broken s).

(** The state at the top of the loop; the set-up of the TUN server has run
    commands, and the handler was first to collect [stolen] of them. *)
Definition server_init (rate : rate_state) : server := mkServer 0 rate 0 0 0 false.
Definition server_start (stolen : nat) (rate : rate_state) : server := sigchld 0 stolen (server_init rate).

(** The next thing that happens: a connection (with the clock, whether [fork]
    works, and how many children exit between the [fork] and the load of
    [g_active_conns++], and between its load and its store), a failed [accept],
    or children that exit at another time. *)
Inductive accept_ev :=
  | Accepted (ip : bytes) (now : Z) (fork_ok : bool) (before during : nat)
  | AcceptFail (eintr : bool)
  | Exits (n : nat).

(** [fork] and [g_active_conns++]: the counter is loaded, and what is stored is
    the loaded value plus one, whatever the handler did to it in between. *)
Definition fork_child (handler : nat -> server -> server) (fork_ok : bool) (before during : nat) (s : server)
    (rate : rate_state) : server :=
  if negb fork_ok then mkServer (s_active s) rate (s_forked s) (s_exited s) (s_lost s) (s_broken s)
  else
    let s := handler before (mkServer (s_active s) rate (S (s_forked s)) (s_exited s) (s_lost s) (s_broken s)) in
    let loaded := s_active s in
    let s := handler during s in
    let lost := Z.to_nat (loaded - s_active s) in
    mkServer (loaded + 1) (s_rate s) (s_forked s) (s_exited s) (s_lost s + lost) (s_broken s).

Section accept.
Context (g_max_conns : Z).

Definition take_conn (handler : nat -> server -> server) (ip : bytes) (now : Z) (fork_ok : bool) (before during : nat)
    (s : server) : server :=
  if g_max_conns <=? s_active s then s
  else let '(r, rate) := handshake_rate_check ip now (s_rate s) in
       if r <? 0 then mkServer (s_active s) rate (s_forked s) (s_exited s) (s_lost s) (s_broken s)
       else fork_child handler fork_ok before during s rate.

Definition psk_accept (s : server) (e : accept_ev) : server :=
  match e with
  | AcceptFail _ => s
  | Accepted ip now fork_ok before during => take_conn (fun n => sigchld n 0) ip now fork_ok before during s
  | Exits n => sigchld n 0 s
  end.

(** mode_tun_server: no limit per address; [accept] failing ends the loop. *)
Definition tun_accept (s : server) (e : accept_ev) : server :=
  if s_broken s then s
  else match e with
       | AcceptFail true => s
       | AcceptFail false => mkServer (s_active s) (s_rate s) (s_forked s) (s_exited s) (s_lost s) true
       | Accepted _ _ fork_ok before during =>
           if g_max_conns <=? s_active s then s
           else fork_child (fun n => sigchld n 0) fork_ok before during s (s_rate s)
       | Exits n => sigchld n 0 s
       end.

(** mode_socks5_server has put [SIGCHLD] back to its default: nothing counts
    the children that exit. *)
Definition uncounted_exit (n : nat) (s : server) : server :=
  mkServer (s_active s) (s_rate s) (s_forked s) (s_exited s + n) (s_lost s) (s_broken s).

Definition socks5_server_accept (s : server) (e : accept_ev) : server :=
  match e with
  | AcceptFail _ => s
  | Accepted ip now fork_ok before during => take_conn uncounted_exit ip now fork_ok before during s
  | Exits n => uncounted_exit n s
  end.
End accept.

(** ** Connecting leaks nothing *)

Definition addrs_tried (evs : list net_ev) : list nat := omap (fun e => match e with Tried _ a => Some a | _ => None end) evs.

Section connect_props.
Context (can_socket : nat -> proto -> bool) (can_connect : nat -> bool) (fwmark : Z).

Lemma pre_events fd p a :
  let pre := Opened fd p :: set_mark fwmark fd ++ [Tried fd a] in
  fds_opened pre = [fd] /\ fds_closed pre = [] /\ addrs_tried pre = [a].
Proof. unfold set_mark. by destruct (0 <? fwmark). Qed.

(** What a loop over addresses does: it tries a prefix of the addresses it can
    make a socket for, and closes every descriptor but the one it returns. *)
Definition good_run (next : Z) (r : option Z) (evs : list net_ev) : Prop :=
  fds_opened evs = fds_closed evs ++ option_list r /\ Forall (fun fd => next <= fd) (fds_opened evs) /\
  (is_Some r <-> exists a, last (addrs_tried evs) = Some a /\ can_connect a = true) /\
  Forall (fun a => can_connect a = false) (take (length (addrs_tried evs) - 1) (addrs_tried evs)) /\
  (r = None -> Forall (fun a => can_connect a = false) (addrs_tried evs)).

Lemma good_nil next : good_run next None [].
Proof. split_and!; try done; [|by constructor..]. split; [by intros []|by intros (? & ? & _)]. Qed.

Lemma good_success next p a : can_connect a = true ->
  good_run next (Some next) (Opened next p :: set_mark fwmark next ++ [Tried next a]).
Proof.
  intros Ha. destruct (pre_events next p a) as (H1 & H2 & H3). unfold good_run. rewrite H1, H2, H3.
  split_and!; [done|repeat constructor; lia|split; [intros _; by exists a|done]|constructor|done].
Qed.

Lemma good_failure next p a r evs : can_connect a = false -> good_run (next + 1) r evs ->
  good_run next r ((Opened next p :: set_mark fwmark next ++ [Tried next a]) ++ Closed next :: evs).
Proof.
  intros Ha (G1 & G2 & G3 & G4 & G5). destruct (pre_events next p a) as (H1 & H2 & H3).
  unfold good_run.
  assert (forall pre, fds_opened (pre ++ Closed next :: evs) = fds_opened pre ++ fds_opened evs) as -> by (intros; exact (omap_app _ _ (Closed next :: evs))).
  assert (forall pre, fds_closed (pre ++ Closed next :: evs) = fds_closed pre ++ next :: fds_closed evs) as -> by (intros; exact (omap_app _ _ (Closed next :: evs))).
  assert (forall pre, addrs_tried (pre ++ Closed next :: evs) = addrs_tried pre ++ addrs_tried evs) as -> by (intros; exact (omap_app _ _ (Closed next :: evs))).
  rewrite H1, H2, H3. cbn [app]. generalize dependent (addrs_tried evs). intros tried G3 G4 G5. split_and!.
  - by rewrite G1.
  - constructor; [lia|]. eapply Forall_impl; [exact G2|]. simpl. lia.
  - rewrite G3. destruct tried as [|b l]; [|done]. split; [by intros (? & ? & _)|].
    intros (x & [= <-] & Hx). congruence.
  - cbn [length]. rewrite Nat.sub_succ, Nat.sub_0_r. destruct tried as [|b l]; [constructor|].
    cbn [length take] in *. constructor; [done|]. by rewrite Nat.sub_succ, Nat.sub_0_r in G4.
  - intros Hr. constructor; [done|by apply G5].
Qed.

Lemma connect_loop_good addrs : forall next, let '(r, evs) := connect_loop can_socket can_connect fwmark addrs next in good_run next r evs.
Proof.
  induction addrs as [|a rest IH]; intros next; [apply good_nil|]. cbn [connect_loop].
  destruct (negb (can_socket a TCP)); [apply IH|]. destruct (can_connect a) eqn:E; [by apply good_success|].
  specialize (IH (next + 1)). destruct (connect_loop _ _ _ rest (next + 1)) as [r evs]. by apply good_failure.
Qed.

Lemma mptcp_loop_good addrs : forall tm tc next,
  let '(r, evs) := mptcp_loop can_socket can_connect fwmark addrs tm tc next in
  good_run next r evs /\ (length (addrs_tried evs) <= (if tm then 0 else 1) + (if tc then 0 else 1))%nat.
Proof.
  induction addrs as [|a rest IH]; intros tm tc next; [split; [apply good_nil|simpl; lia]|]. cbn [mptcp_loop].
  destruct (mptcp_socket can_socket a tm tc) as [[s tm'] tc'] eqn:Es. destruct s as [p|].
  - assert ((if tm' then 0 else 1) + (if tc' then 0 else 1) < (if tm then 0 else 1) + (if tc then 0 else 1))%nat as Hlt.
    { unfold mptcp_socket in Es. destruct tm, tc; simpl in Es; repeat case_match; simplify_eq; lia. }
    destruct (pre_events next p a) as (_ & _ & H3). destruct (can_connect a) eqn:E.
    + split; [by apply good_success|]. rewrite H3. simpl. lia.
    + specialize (IH tm' tc' (next + 1)). destruct (mptcp_loop _ _ _ rest tm' tc' (next + 1)) as [r evs]. destruct IH as [IH1 IH2].
      split; [by apply good_failure|]. unfold addrs_tried in *. rewrite omap_app, H3. cbn. lia.
  - unfold mptcp_socket in Es. specialize (IH tm tc next).
    assert (tm' = tm /\ tc' = tc) as [-> ->] by (destruct tm, tc; simpl in Es; repeat case_match; by simplify_eq). done.
Qed.
End connect_props.

(** Connecting is clean.  Both versions return a descriptor exactly when
    the last address they tried accepted the connection, all earlier ones
    having refused, and close every other descriptor they opened.  The MPTCP
    version tries at most two addresses, however many there are: one socket of
    each kind. *)
Theorem connect_clean can_socket can_connect fwmark addrs next :
  (let '(r, evs) := connect_to_host can_socket can_connect fwmark (Some addrs) next in good_run can_connect next r evs) /\
  (let '(r, evs) := connect_to_host_mptcp can_socket can_connect fwmark (Some addrs) None next in
   good_run can_connect next r evs /\ (length (addrs_tried evs) <= 2)%nat).
Proof.
  split; [apply connect_loop_good|]. exact (mptcp_loop_good can_socket can_connect fwmark addrs false false next).
Qed.

(** A listener keeps its descriptor exactly when it returns it. *)
Lemma listen_clean can_socket can_listen tun_fd next :
  (let '(r, evs) := listen_on_port can_socket can_listen next in fds_opened evs = fds_closed evs ++ option_list r) /\
  (let '(r, evs) := listen_on_port_mptcp can_socket can_listen next in fds_opened evs = fds_closed evs ++ option_list r) /\
  (let '(r, evs) := udp_server_socket can_socket tun_fd can_listen next in
   if r is Some fd then fds_closed evs = [] /\ fds_opened evs = [fd] else fds_closed evs = fds_opened evs ++ [tun_fd]).
Proof.
  unfold listen_on_port, listen_on_port_mptcp, udp_server_socket, listen_fd.
  by destruct (can_socket 0%nat MPTCP), (can_socket 0%nat TCP), (can_socket 0%nat UDP), can_listen.
Qed.

(** ** Both ends of a session *)

Lemma mode_tunnel_inv pt_fd enc_fd k ka : wf_block (enc_key k) -> wf_block (dec_key k) -> tunnel_inv (mode_tunnel ka pt_fd enc_fd k).
Proof. intros H1 H2. split; [done|]. split; [done|]. cbn. unfold NONCE_OVERFLOW_LIMIT. lia. Qed.

(** C5: a tunnel between an honest server and the client whose key is the first
    of its configured peers (with any other one the server fails: it reads a new
    message for each peer it tries) is set up completely: after the three messages both ends are about to run a tunnel with
    mirrored keys and counters in step, past the counter of the confirmation,
    in the invariant of the event loop.  Data is then carried in both
    directions: packets of a TUN device, and what a socket gives until it is
    closed. *)
Theorem session_setup_agrees (A : Aead) (L : AeadLaws A) (C : Crypto) (CL : CryptoLaws C) (U : Locals)
    (a ea b eb cf : bytes) (peers : list bytes) (tc tc' ts ts' ka : Z) (kgc kgs : list (option bytes))
    (clc cls : list (option Z)) (k0 k1 : session_keys_t) (lfd efd sfd tfd : Z) (wc ws : world) :
  let k := asym_sess (shared_secret a ea b eb) (x25519_pub ea) (x25519_pub eb) in
  wf_key32 a -> wf_key32 ea -> wf_key32 b -> wf_key32 eb ->
  w_keygen wc = Some ea :: kgc -> w_keygen ws = Some eb :: kgs ->
  w_clock wc = Some tc :: Some tc' :: clc -> w_clock ws = Some ts :: Some ts' :: cls ->
  replay_inv wc -> replay_inv ws ->
  fresh wc tc' ts' (x25519_pub eb) -> fresh ws ts tc (x25519_pub ea) ->
  frame_build FRAME_KEYCONFIRM FLAG_NONE [] 0 (dec_key k) = Some cf ->
  tx_takes [WLEN] (w_tx wc) -> tx_takes [WLEN; length cf] (w_tx ws) ->
  net_gives 3 (server_hello a ea b eb ts' ++ cf) wc ->
  net_gives 2 (client_hello a ea b tc) ws ->
  exists t1 t2 wc' ws',
    client_setup a ka k0 (x25519_pub b) lfd efd wc = Some (Some t1, wc') /\
    server_setup b ka k1 (x25519_pub a :: peers) (Some tfd) sfd ws = Some (Some t2, ws') /\
    w_out wc' = w_out wc ++ client_hello a ea b tc /\
    w_out ws' = w_out ws ++ server_hello a ea b eb ts' ++ cf /\
    t_enc_key t1 = t_dec_key t2 /\ t_dec_key t1 = t_enc_key t2 /\
    t_enc_nonce t1 = t_dec_nonce t2 /\ t_dec_nonce t1 = t_enc_nonce t2 /\
    tunnel_inv t1 /\ tunnel_inv t2 /\ carries t1 t2 /\ carries t2 t1 /\
    delivers_all t1 t2 /\ delivers_all t2 t1.
Proof.
  intros k Ha Hea Hb Heb Hkc Hks Hcc Hcs Hic His Hfc Hfs Hcf Htc Hts Hnc Hns.
  assert (Hke : wf_block (enc_key k)) by apply key_of_digest.
  assert (Hkd : wf_block (dec_key k)) by apply key_of_digest.
  assert (Hts' : 0 <= ts') by (destruct Hfc as (_ & ? & _); lia).
  destruct (handshake_client_run a ea b eb tc tc' ts' kgc clc k0 1 cf [] wc)
    as (wc1 & Hc & Hoc & Hnc1 & _); [done..|].
  rewrite <- (app_nil_r (client_hello _ _ _ _)) in Hns.
  destruct (handshake_server_run a ea b eb ts ts' tc kgs cls k1 0 [] [length cf] ws)
    as (ws1 & Hs & Hos & _ & Hts1 & _); [done..|]. fold k in Hc, Hs.
  rewrite <- (app_nil_r cf) in Hnc1.
  destruct (confirm_client_run k cf [] 0 wc1 Hkd Hcf Hnc1) as (rx & p & Hcc1 & _).
  destruct (send_all_run cf [] ws1 Hts1) as (tx2 & Hsc & _).
  eexists (mode_tunnel ka lfd efd k), (mode_tunnel ka tfd sfd (mkKeys (dec_key k) (enc_key k))), _, _.
  split_and!.
  - unfold client_setup. rewrite (M_bind_eq _ _ _ _ _ Hc). cbn [Z.eqb negb].
    rewrite (M_bind_eq _ _ _ _ _ Hcc1). reflexivity.
  - unfold server_setup, try_handshake_server. cbn [try_peers].
    unfold mbind at 1, M_bind at 1. unfold mbind at 1, M_bind at 1. rewrite Hs. cbn [Z.eqb].
    unfold mret at 1, M_ret at 1. cbn [Z.ltb Z.compare].
    unfold handshake_key_confirm_server. cbn [enc_key dec_key]. rewrite Hcf, (M_bind_eq _ _ _ _ _ Hsc). reflexivity.
  - exact Hoc.
  - change (w_out ws1 ++ cf = w_out ws ++ server_hello a ea b eb ts' ++ cf). by rewrite Hos, <- app_assoc.
  - done.
  - done.
  - done.
  - done.
  - by apply mode_tunnel_inv.
  - by apply mode_tunnel_inv.
  - by apply mirrored_carries; try apply mode_tunnel_inv.
  - by apply mirrored_carries; try apply mode_tunnel_inv.
  - by apply mirrored_delivers_all; try apply mode_tunnel_inv.
  - by apply mirrored_delivers_all; try apply mode_tunnel_inv.
Qed.

(** ** Pauses *)

Definition sleeps (tr : list ev) : list Z := omap (fun e => match e with Sleep d => Some d | _ => None end) tr.
Definition tries (tr : list ev) : list (nat * bytes * Z) :=
  omap (fun e => match e with Try pi h p => Some (pi, h, p) | _ => None end) tr.

(** The delay after [n] failures. *)
Definition delay_after (n : nat) : Z := match n with O => 0 | S m => 2 ^ Z.of_nat (Nat.min m 5) end.

Lemma next_delay_after n : next_delay (delay_after n) = delay_after (S n).
Proof.
  destruct n as [|[|[|[|[|[|n]]]]]]; try reflexivity. unfold delay_after.
  rewrite !Nat.min_r by lia. reflexivity.
Qed.

Lemma delay_after_bounds n : 1 <= delay_after (S n) <= 32.
Proof.
  unfold delay_after. assert (Nat.min n 5 <= 5)%nat as H by lia. revert H. generalize (Nat.min n 5). intros m Hm.
  destruct m as [|[|[|[|[|[|m]]]]]]; [vm_compute; split; discriminate..|lia].
Qed.

Section pauses.
Context {A : Aead} {C : Crypto} {U : Locals}.
Context (priv : bytes) (keepalive : Z) (k0 : session_keys_t).

(** The sleeps of a trace, from [n] failures on. *)
Definition backoff_from (n : nat) (l : list Z) : Prop := forall i d, l !! i = Some d -> d = delay_after (S (n + i)).

Lemma backoff_nil n : backoff_from n [].
Proof. by intros i d. Qed.

Lemma backoff_cons n l : backoff_from (S n) l -> backoff_from n (delay_after (S n) :: l).
Proof.
  intros H [|i] d Hd; [apply (inj Some) in Hd as <-; by rewrite Nat.add_0_r|]. rewrite (H i d Hd). f_equal. lia.
Qed.

Lemma tun_client_backoff remote_host remote_port g mp tun_fd rounds : forall n idx tr,
  tun_client_loop priv keepalive k0 remote_host remote_port g mp tun_fd rounds (delay_after n) idx = Some tr ->
  backoff_from n (sleeps tr).
Proof.
  induction rounds as [|rd rounds IH]; intros n idx tr; cbn [tun_client_loop]; [intros [= <-]; apply backoff_nil|].
  destruct (negb (rd_running rd)); [intros [= <-]; apply backoff_nil|].
  destruct (target remote_host remote_port g idx) as [[[pi host] port]|]; [|apply IH].
  destruct (tun_dial mp (rd_net rd) host port) as [ofd io0].
  assert (forall io idx', (if negb (rd_running2 rd) then Some [Try pi host port; Net io]
    else tr ← tun_client_loop priv keepalive k0 remote_host remote_port g mp tun_fd rounds (next_delay (delay_after n)) idx';
         Some (Try pi host port :: Net io :: Sleep (next_delay (delay_after n)) :: tr)) = Some tr -> backoff_from n (sleeps tr)) as Hretry.
  { intros io idx'. destruct (negb (rd_running2 rd)); [intros [= <-]; apply backoff_nil|].
    rewrite next_delay_after. intros (tr' & Htr & [= <-])%bind_Some. apply backoff_cons. by eapply IH. }
  destruct ofd as [fd|]; [|apply Hretry]. intros (r & _ & H)%bind_Some.
  destruct r as [r|]; [|by eapply Hretry]. destruct (r =? 0); [|by eapply Hretry]. simplify_eq. apply backoff_nil.
Qed.

Lemma psk_client_backoff peer host port local_fd rounds : forall n tr,
  psk_client_loop priv keepalive k0 peer host port local_fd rounds (delay_after n) = Some tr ->
  Forall (fun d => exists m, d = delay_after (S m)) (sleeps tr).
Proof.
  induction rounds as [|rd rounds IH]; intros n tr; cbn [psk_client_loop]; [intros [= <-]; constructor|].
  destruct (negb (rd_running rd)); [intros [= <-]; constructor|]. destruct (dial (rd_net rd) host port 0) as [ofd io0].
  assert (forall io m, (if negb (rd_running2 rd) then Some [Try 0 host port; Net io]
    else tr ← psk_client_loop priv keepalive k0 peer host port local_fd rounds (next_delay (delay_after m));
         Some (Try 0 host port :: Net io :: Sleep (next_delay (delay_after m)) :: tr)) = Some tr ->
    Forall (fun d => exists m, d = delay_after (S m)) (sleeps tr)) as Hretry.
  { intros io m. destruct (negb (rd_running2 rd)); [intros [= <-]; constructor|].
    rewrite next_delay_after. intros (tr' & Htr & [= <-])%bind_Some. constructor; [by exists m|]. by eapply IH. }
  destruct ofd as [fd|]; [|apply Hretry]. intros (r & _ & H)%bind_Some.
  destruct r as [r|]; [|by eapply Hretry]. destruct (r =? 0); [simplify_eq; constructor|]. by eapply (Hretry _ 0%nat).
Qed.

Lemma socks5_client_backoff thost tport peer host port local_fd rounds : forall n tr,
  socks5_client_loop priv keepalive k0 thost tport peer host port local_fd rounds (delay_after n) = Some tr ->
  backoff_from n (sleeps tr).
Proof.
  induction rounds as [|rd rounds IH]; intros n tr; cbn [socks5_client_loop]; [intros [= <-]; apply backoff_nil|].
  destruct (negb (rd_running rd)); [intros [= <-]; apply backoff_nil|]. destruct (dial (rd_net rd) host port 0) as [ofd io0].
  assert (forall io, (if negb (rd_running2 rd) then Some [Try 0 host port; Net io]
    else tr ← socks5_client_loop priv keepalive k0 thost tport peer host port local_fd rounds (next_delay (delay_after n));
         Some (Try 0 host port :: Net io :: Sleep (next_delay (delay_after n)) :: tr)) = Some tr -> backoff_from n (sleeps tr)) as Hretry.
  { intros io. destruct (negb (rd_running2 rd)); [intros [= <-]; apply backoff_nil|].
    rewrite next_delay_after. intros (tr' & Htr & [= <-])%bind_Some. apply backoff_cons. by eapply IH. }
  destruct ofd as [fd|]; [|apply Hretry]. destruct (rd_conn rd) as [w gs].
  destruct (socks5_session _ _ _ _ _ _ _ _ _ w) as [[[] ?]|]; [intros [= <-]; apply backoff_nil|apply Hretry|done].
Qed.
End pauses.

(** The clients back off.  The pauses of the TUN client and of the SOCKS5
    client are 1, 2, 4, 8, 16 and then 32 seconds, counted over the whole life
    of the loop (for the TUN client, a session that worked in between does not
    reset them); those of the forwarding client, which does reset them, are among
    the same values. *)
Theorem clients_back_off (A : Aead) (C : Crypto) (U : Locals) priv keepalive k0 remote_host remote_port g mp fd peer thost tport
    rounds tr1 tr2 tr3 :
  tun_client_loop priv keepalive k0 remote_host remote_port g mp fd rounds 0 0 = Some tr1 ->
  psk_client_loop priv keepalive k0 peer remote_host remote_port fd rounds 0 = Some tr2 ->
  socks5_client_loop priv keepalive k0 thost tport peer remote_host remote_port fd rounds 0 = Some tr3 ->
  (forall i d, sleeps tr1 !! i = Some d -> d = 2 ^ Z.of_nat (Nat.min i 5)) /\
  Forall (fun d => 1 <= d <= 32) (sleeps tr2) /\
  (forall i d, sleeps tr3 !! i = Some d -> d = 2 ^ Z.of_nat (Nat.min i 5)).
Proof.
  intros H1 H2 H3. split_and!.
  - intros i d. apply (tun_client_backoff priv keepalive k0 remote_host remote_port g mp fd rounds 0 0 tr1 H1).
  - eapply Forall_impl; [exact (psk_client_backoff priv keepalive k0 peer remote_host remote_port fd rounds 0 tr2 H2)|].
    intros d [m ->]. apply delay_after_bounds.
  - intros i d. apply (socks5_client_backoff priv keepalive k0 thost tport peer remote_host remote_port fd rounds 0 tr3 H3).
Qed.

(** The forwarding client serves every local connection it accepts, one trace
    for each, and its counter comes back to where it was: the limit, checked
    between connections, never strikes. *)
Lemma psk_client_serves {A : Aead} {C : Crypto} {U : Locals} priv keepalive k0 peer host port max evs : forall active trs n,
  active < max -> mode_psk_client priv keepalive k0 peer host port max evs active = Some (trs, n) ->
  n = active /\ length trs = length (omap (fun e => match e with Local fd _ _ => Some fd | LocalFail => None end) evs).
Proof.
  induction evs as [|[|fd w rounds] evs IH]; intros active trs n Hm; cbn [mode_psk_client].
  - by intros [= <- <-].
  - intros H. by destruct (IH _ _ _ Hm H).
  - rewrite (proj2 (Z.leb_gt _ _)) by done. intros (tr & _ & ([trs' n'] & H & [= <- <-])%bind_Some)%bind_Some.
    rewrite Z.add_simpl_r in H. destruct (IH _ _ _ Hm H) as [H1 H2]. split; [done|]. simpl. by rewrite H2.
Qed.

(** ** The sockets of the clients *)

Definition trace_net (tr : list ev) : list net_ev := concat (omap (fun e => match e with Net l => Some l | _ => None end) tr).

(** Every socket that was opened has been closed. *)
Definition all_closed (l : list net_ev) : Prop := fds_closed l ≡ₚ fds_opened l.

Lemma all_closed_nil : all_closed [].
Proof. constructor. Qed.

Lemma all_closed_app l k : all_closed l -> all_closed k -> all_closed (l ++ k).
Proof. unfold all_closed. rewrite fds_opened_app, fds_closed_app. by intros -> ->. Qed.

(** What an attempt leaves open is the socket it returns. *)
Definition hands_out (r : option Z * list net_ev) : Prop := fds_opened r.2 = fds_closed r.2 ++ option_list r.1.

Lemma good_hands_out can_connect next r evs : good_run can_connect next r evs -> hands_out (r, evs).
Proof. by intros (H & _). Qed.

Lemma dial_hands_out n host port fwmark : hands_out (dial n host port fwmark) /\ hands_out (dial_mptcp n host port fwmark).
Proof.
  unfold dial, dial_mptcp, connect_to_host, connect_to_host_mptcp. split.
  - destruct (n_addrs n host port) as [l|]; [|done].
    pose proof (connect_loop_good (n_socket n) (n_connect n) fwmark l (n_next n)) as H.
    destruct (connect_loop _ _ _ _ _) as [r evs]. by eapply good_hands_out.
  - assert (forall l, hands_out (mptcp_loop (n_socket n) (n_connect n) fwmark l false false (n_next n))) as Hm.
    { intros l. pose proof (mptcp_loop_good (n_socket n) (n_connect n) fwmark l false false (n_next n)) as H.
      destruct (mptcp_loop _ _ _ _ _ _ _) as [r evs]. destruct H as [H _]. by eapply good_hands_out. }
    destruct (n_addrs n host port); [apply Hm|]. destruct (n_addrs2 n host port); [apply Hm|done].
Qed.

Lemma none_closed io : hands_out (None, io) -> all_closed io.
Proof. unfold hands_out, all_closed. cbn [fst snd option_list]. rewrite app_nil_r. by intros ->. Qed.

Lemma some_closed fd io : hands_out (Some fd, io) -> all_closed (io ++ [Closed fd]).
Proof.
  unfold hands_out, all_closed. rewrite fds_opened_app, fds_closed_app. cbn [fst snd option_list]. intros ->.
  change (fds_opened [Closed fd]) with ([] : list Z). by rewrite app_nil_r.
Qed.

Section sockets.
Context {A : Aead} {C : Crypto} {U : Locals}.
Context (priv : bytes) (keepalive : Z) (k0 : session_keys_t).

Lemma tun_client_sockets remote_host remote_port g mp tun_fd rounds : forall delay idx tr,
  tun_client_loop priv keepalive k0 remote_host remote_port g mp tun_fd rounds delay idx = Some tr -> all_closed (trace_net tr).
Proof.
  induction rounds as [|rd rounds IH]; intros delay idx tr; cbn [tun_client_loop]; [intros [= <-]; apply all_closed_nil|].
  destruct (negb (rd_running rd)); [intros [= <-]; apply all_closed_nil|].
  destruct (target remote_host remote_port g idx) as [[[pi host] port]|]; [|apply IH].
  assert (hands_out (tun_dial mp (rd_net rd) host port)) as Hd.
  { unfold tun_dial. destruct (1 <? mp); apply dial_hands_out. }
  destruct (tun_dial mp (rd_net rd) host port) as [ofd io0].
  assert (forall io idx', all_closed io -> (if negb (rd_running2 rd) then Some [Try pi host port; Net io]
    else tr ← tun_client_loop priv keepalive k0 remote_host remote_port g mp tun_fd rounds (next_delay delay) idx';
         Some (Try pi host port :: Net io :: Sleep (next_delay delay) :: tr)) = Some tr -> all_closed (trace_net tr)) as Hretry.
  { intros io idx' Hio. destruct (negb (rd_running2 rd)); [intros [= <-]; apply all_closed_app; [done|apply all_closed_nil]|].
    intros (tr' & Htr & [= <-])%bind_Some. apply all_closed_app; [done|]. by eapply IH. }
  destruct ofd as [fd|]; [|by apply Hretry, none_closed]. intros (r & _ & H)%bind_Some.
  destruct r as [r|]; [|by eapply Hretry; [by apply some_closed|]].
  destruct (r =? 0); [|by eapply Hretry; [by apply some_closed|]]. simplify_eq. apply all_closed_app; [by apply some_closed|apply all_closed_nil].
Qed.
End sockets.

(** ** Which peer is tried *)

Section peers.
Context {A : Aead} {C : Crypto} {U : Locals}.
Context (priv : bytes) (keepalive : Z) (k0 : session_keys_t) (remote_host : bytes) (remote_port : Z) (g : peers_t) (mp tun_fd : Z).

(** Nobody answers at this host and port, the program runs on. *)
Definition unreachable (host : bytes) (port : Z) (rd : round) : Prop :=
  rd_running rd = true /\ rd_running2 rd = true /\ fst (tun_dial mp (rd_net rd) host port) = None.

Lemma tun_client_rotates (dest : nat -> nat * bytes * Z) rounds : forall delay idx,
  (forall i rd, rounds !! i = Some rd ->
     let '(_, host, port) := dest ((idx + i) mod peer_count remote_host g)%nat in unreachable host port rd) ->
  (forall j, (j < peer_count remote_host g)%nat -> target remote_host remote_port g j = Some (dest j)) ->
  (idx < peer_count remote_host g)%nat ->
  exists tr, tun_client_loop priv keepalive k0 remote_host remote_port g mp tun_fd rounds delay idx = Some tr /\
    tries tr = map (fun i => dest ((idx + i) mod peer_count remote_host g)%nat) (seq 0 (length rounds)).
Proof.
  induction rounds as [|rd rounds IH]; intros delay idx Hr Ht Hidx; cbn [tun_client_loop length]; [by exists []|].
  pose proof (Hr 0%nat rd eq_refl) as H0. rewrite Nat.add_0_r, Nat.mod_small in H0 by done.
  rewrite (Ht idx Hidx). destruct (dest idx) as [[pi host] port] eqn:Hd. destruct H0 as (R1 & R2 & R3).
  rewrite R1, R2. cbn [negb]. destruct (tun_dial mp (rd_net rd) host port) as [ofd io]. cbn [fst] in R3. subst ofd.
  assert (next_peer remote_host g idx < peer_count remote_host g)%nat as Hn by (apply Nat.mod_upper_bound; lia).
  assert (forall k, ((next_peer remote_host g idx + k) mod peer_count remote_host g = (idx + S k) mod peer_count remote_host g)%nat) as Hk.
  { intros k. unfold next_peer. rewrite Nat.Div0.add_mod_idemp_l. f_equal. lia. }
  destruct (IH (next_delay delay) (next_peer remote_host g idx)) as (tr & Htr & Htries); [|done..|].
  { intros k rd' Hrd. rewrite Hk. by apply Hr. }
  rewrite Htr. eexists. split; [reflexivity|].
  change (tries (Try pi host port :: Net io :: Sleep (next_delay delay) :: tr)) with ((pi, host, port) :: tries tr).
  cbn [seq map]. rewrite Nat.add_0_r, Nat.mod_small by done. rewrite Hd. f_equal.
  rewrite Htries, <- seq_shift, map_map. apply map_ext. intros k. by rewrite Hk.
Qed.

Lemma tun_client_single rounds : forall delay idx tr, remote_host <> [] ->
  tun_client_loop priv keepalive k0 remote_host remote_port g mp tun_fd rounds delay idx = Some tr ->
  Forall (fun x => x = (0%nat, remote_host, remote_port)) (tries tr).
Proof.
  intros delay idx tr Hne. assert (forall idx, target remote_host remote_port g idx = Some (0%nat, remote_host, remote_port)) as Htg.
  { intros j. unfold target, use_single. by rewrite bool_decide_eq_false_2. }
  revert delay idx tr. induction rounds as [|rd rounds IH]; intros delay idx tr; cbn [tun_client_loop]; [intros [= <-]; constructor|].
  destruct (negb (rd_running rd)); [intros [= <-]; constructor|]. rewrite Htg.
  destruct (tun_dial mp (rd_net rd) remote_host remote_port) as [ofd io0].
  assert (forall io idx', (if negb (rd_running2 rd) then Some [Try 0 remote_host remote_port; Net io]
    else tr ← tun_client_loop priv keepalive k0 remote_host remote_port g mp tun_fd rounds (next_delay delay) idx';
         Some (Try 0 remote_host remote_port :: Net io :: Sleep (next_delay delay) :: tr)) = Some tr ->
    Forall (fun x => x = (0%nat, remote_host, remote_port)) (tries tr)) as Hretry.
  { intros io idx'. destruct (negb (rd_running2 rd)); [intros [= <-]; by repeat constructor|].
    intros (tr' & Htr & [= <-])%bind_Some. constructor; [done|]. by eapply IH. }
  destruct ofd as [fd|]; [|apply Hretry]. intros (r & _ & H)%bind_Some.
  destruct r as [r|]; [|by eapply Hretry]. destruct (r =? 0); [|by eapply Hretry]. simplify_eq. by repeat constructor.
Qed.
End peers.

(** An endpoint of the configuration that names [host] and [port]: with the port
    after the last colon, or without a colon for port 9000. *)
Definition names_endpoint (ep host : bytes) (port : Z) : Prop :=
  (length ep <= 255)%nat /\ 0 < port <= 65535 /\
  (ep = host ++ [58] ++ dec_u port \/ ep = host /\ host <> [] /\ (58 ∉ host) /\ port = 9000).

Lemma digits_dec f : forall n acc, (0 < f)%nat -> 0 <= n < 10 ^ Z.of_nat f -> digits (dec_loop f n acc) 0 = digits acc n.
Proof.
  induction f as [|f IH]; intros n acc Hf Hn; [lia|]. cbn [dec_loop].
  assert (forall m, m = n / 10 -> digits ((48 + n mod 10) :: acc) m = digits acc n) as Hd.
  { intros m ->. cbn [digits]. unfold is_digit. pose proof (Z.mod_pos_bound n 10 ltac:(lia)).
    rewrite (proj2 (Z.leb_le _ _)), (proj2 (Z.leb_le _ _)) by lia. cbn [andb]. f_equal.
    pose proof (Z.div_mod n 10 ltac:(lia)). lia. }
  destruct (n <? 10) eqn:E; zbool.
  - apply Hd. symmetry. apply Z.div_small. lia.
  - rewrite Nat2Z.inj_succ, Z.pow_succ_r in Hn by lia. destruct f as [|f]; [simpl in Hn; lia|].
    rewrite IH; [by apply Hd|lia|]. split; [apply Z.div_pos; lia|apply Z.div_lt_upper_bound; lia].
Qed.

Lemma dec_loop_digits f : forall n acc, 0 <= n -> Forall (fun c => 48 <= c <= 57) acc -> (acc <> [] \/ (0 < f)%nat) ->
  Forall (fun c => 48 <= c <= 57) (dec_loop f n acc) /\ dec_loop f n acc <> [].
Proof.
  induction f as [|f IH]; intros n acc Hn Ha Hne; cbn [dec_loop]; [split; [done|]; destruct Hne; [done|lia]|].
  pose proof (Z.mod_pos_bound n 10 ltac:(lia)).
  assert (Forall (fun c => 48 <= c <= 57) ((48 + n mod 10) :: acc)) as Hc by (constructor; [lia|done]).
  destruct (n <? 10); [by split|]. apply IH; [apply Z.div_pos; lia|done|by left].
Qed.

Lemma atoi_dec n : 0 <= n < 2 ^ 31 -> atoi (dec_u n) = n.
Proof.
  intros Hn. unfold atoi, dec_u, strtol.
  destruct (dec_loop_digits 10 n []) as [Hd Hne]; [lia|constructor|right; lia|].
  pose proof (digits_dec 10 n [] ltac:(lia) ltac:(simpl; lia)) as Hv.
  destruct (dec_loop 10 n []) as [|c l]; [done|]. apply Forall_cons in Hd as [Hc _].
  assert (ltrim (c :: l) = c :: l) as ->.
  { cbn [ltrim]. replace (isspace c) with false; [done|]. symmetry. unfold isspace. destruct (c =? 32) eqn:E1, ((9 <=? c) && (c <=? 13)) eqn:E2; zbool; lia. }
  rewrite (proj2 (Z.eqb_neq c 45)), (proj2 (Z.eqb_neq c 43)) by lia.
  unfold is_digit at 1. rewrite (proj2 (Z.leb_le _ _)), (proj2 (Z.leb_le _ _)) by lia. cbn [andb]. rewrite Hv. cbn [digits fst].
  unfold to_int, u32. rewrite Z.min_r, Z.mod_small by lia. by rewrite (proj2 (Z.ltb_lt _ _)) by lia.
Qed.

Lemma strrchr_none c l : c ∉ l -> strrchr c l = None.
Proof.
  induction l as [|x l IH]; intros H; [done|]. cbn [strrchr]. apply not_elem_of_cons in H as [Hx Hl].
  rewrite IH by done. by rewrite (proj2 (Z.eqb_neq x c)) by congruence.
Qed.

Lemma strrchr_last c a b : c ∉ b -> strrchr c (a ++ c :: b) = Some (a, b).
Proof.
  intros H. induction a as [|x a IH]; cbn [app strrchr]; [|by rewrite IH]. rewrite strrchr_none by done. by rewrite Z.eqb_refl.
Qed.

Lemma endpoint_parses ep host port : names_endpoint ep host port ->
  ep <> [] /\ parse_host_port (endpoint_buf (Some ep)) = Some (host, port).
Proof.
  intros (Hl & Hp & Hep).
  assert (58 ∉ dec_u port) as Hcol.
  { unfold dec_u. destruct (dec_loop_digits 10 port []) as [Hd _]; [lia|constructor|right; lia|].
    intros Hin. rewrite Forall_forall in Hd. apply Hd in Hin. lia. }
  assert (endpoint_buf (Some ep) = host ++ 58 :: dec_u port /\ ep <> []) as [Hb Hne].
  { unfold endpoint_buf. cbn [from_option id]. rewrite take_ge by lia. destruct Hep as [->|(-> & Hne & Hno & ->)].
    - split; [|by destruct host]. rewrite bool_decide_eq_true_2; [done|]. apply elem_of_app. right. by left.
    - split; [|done]. rewrite bool_decide_eq_false_2 by done. f_equal. rewrite take_ge; [reflexivity|simpl; lia]. }
  split; [done|]. unfold parse_host_port. rewrite Hb, strrchr_last by done. rewrite atoi_dec by lia.
  by rewrite (proj2 (Z.ltb_lt _ _)), (proj2 (Z.leb_le _ _)) by lia.
Qed.


Lemma set_tun_remote o mode ip nm route : remote_str (set_tun o mode ip nm route) = remote_str o.
Proof. reflexivity. Qed.

Lemma ok_remote o o2 : Ok o = Ok o2 -> remote_str o2 = remote_str o.
Proof. by intros [= <-]. Qed.

Lemma config_address_remote v o o2 : config_address v o = Ok o2 -> remote_str o2 = remote_str o.
Proof.
  unfold config_address. destruct (strchr 47 v) as [[ip p]|]; [|intros H; by rewrite (ok_remote _ _ H), set_tun_remote].
  destruct (netmask_of (atoi p)) as [n| |]; cbn [mbind outcome_bind]; [|done..].
  intros H. by rewrite (ok_remote _ _ H), set_tun_remote.
Qed.

Lemma cfg_tun_remote icfg o o2 : cfg_tun icfg o = Ok o2 -> remote_str o2 = remote_str o.
Proof.
  unfold cfg_tun. destruct (tun_ip o); [|apply ok_remote].
  destruct (cget icfg "Interface" "Address"); [apply config_address_remote|apply ok_remote].
Qed.

(** But an endpoint in the first [\[Peer\]] section switches this off: start-up
    takes it for the remote host, as if it had been given with [-r], and the
    client never tries any other peer. *)
Theorem configured_endpoint_is_single (A : Aead) (C : Crypto) (U : Locals) icfg home o g o' g' v host port
    priv k0 mp tun_fd rounds tr :
  remote_str o = None -> cget icfg "Peer" "Endpoint" = Some v -> v <> ascii_bytes "0.0.0.0:0" ->
  apply_config icfg home o g = Ok (o', g') -> check_options o' = Ok (host, port) -> host <> [] ->
  tun_client_loop priv (o_keepalive o') k0 host port g' mp tun_fd rounds 0 0 = Some tr ->
  (exists h, parse_host_port v = Some (h, port) /\ host = take (MAX_HOST_LEN - 1) h) /\
  Forall (fun x => x = (0%nat, host, port)) (tries tr).
Proof.
  intros Ho Hv Hne Happ Hchk Hh Htr. split; [|by eapply tun_client_single].
  assert (remote_str o' = Some v) as Hr'.
  { unfold apply_config in Happ. destruct (cfg_tun icfg _) as [o2| |] eqn:E; try done. cbn in Happ.
    assert (o' = cfg_nums icfg o2) as -> by congruence. clear Happ Hchk.
    assert (remote_str (cfg_nums icfg o2) = remote_str o2) as -> by (unfold cfg_nums; by destruct (cget icfg "Tunnel" "NATInterface")).
    set (o1 := cfg_remote icfg home _) in E.
    assert (remote_str o1 = Some v) as H1.
    { subst o1. unfold cfg_remote. assert (remote_str (cfg_scripts icfg (cfg_port icfg o)) = None) as ->.
      { unfold cfg_scripts, cfg_port. cbn. by destruct (listen_port o =? 9000). }
      rewrite Hv, bool_decide_eq_false_2 by done. reflexivity. }
    assert (remote_str (cfg_route icfg o1) = Some v) as H2 by (unfold cfg_route; by destruct (tun_route o1)).
    rewrite <- H2. exact (cfg_tun_remote _ _ _ E). }
  unfold check_options in Hchk. rewrite Hr' in Hchk. destruct (_ <=? 0); [done|]. destruct (_ && _); [done|].
  destruct (parse_host_port v) as [[h p]|] eqn:E; [|done]. exists h. by simplify_eq.
Qed.

(** A server that found its peer's key in the key directory (no [-Q], no peer
    in the configuration) has read the key and serves nobody: the number of
    peers stays 0, and the child gives up without reading the client's
    message. *)
Theorem detected_peer_never_served (A : Aead) (C : Crypto) (U : Locals) env fs o p g g' priv ka k0 pt fd w :
  peerkey_file o = None -> g_peer_count g = 0%nat -> (0 < length (g_asym_peers g))%nat -> resolve_peer env fs o (Some p) g = Ok g' ->
  keyfile_load_public env fs (nth 0 (g_asym_peers g) []) p = (0, nth 0 (g_asym_peers g') []) /\
  server_setup priv ka k0 (take (g_peer_count g') (g_asym_peers g')) pt fd w = Some (None, w).
Proof.
  intros Hq Hc Hl H. unfold resolve_peer in H. rewrite Hq, Hc in H. cbn [Nat.eqb negb] in H.
  destruct (keyfile_load_public env fs _ p) as [r k] eqn:E. destruct (r =? 0) eqn:Er; [|done]. zbool. subst r. cbn [negb] in H.
  assert (g' = mkPeers (<[0%nat := k]> (g_asym_peers g)) (g_peer_endpoints g) (g_peer_tun_ips g) 0) as -> by congruence.
  cbn [g_asym_peers g_peer_count]. split; [|reflexivity]. destruct (g_asym_peers g); [simpl in Hl; lia|done].
Qed.

(** ** The number of children *)

Definition living (s : server) : Z := Z.of_nat (s_forked s) - Z.of_nat (s_exited s).

(** The counter is the number of living children, plus the decrements that were
    overwritten, minus the children of commands that it was decremented for; and
    it is never above the limit. *)
Definition counted (stolen : nat) (max : Z) (s : server) : Prop :=
  s_active s = living s + Z.of_nat (s_lost s) - Z.of_nat stolen /\ s_active s <= max.

(** No signal arrives between the load and the store of the counter. *)
Definition calm (e : accept_ev) : Prop := match e with Accepted _ _ _ _ during => during = 0%nat | _ => True end.

Lemma sigchld_counted stolen max n s : counted stolen max s -> counted stolen max (sigchld n 0 s).
Proof. unfold counted, living, sigchld. simpl. lia. Qed.

Lemma fork_counted stolen max b before during s rate : counted stolen max s -> s_active s < max ->
  counted stolen max (fork_child (fun n => sigchld n 0) b before during s rate) /\
  (during = 0%nat -> s_lost (fork_child (fun n => sigchld n 0) b before during s rate) = s_lost s).
Proof. unfold counted, living. intros [H1 H2] H3. destruct b; simpl; [|done]. lia. Qed.

Lemma psk_accept_counted stolen max s e : counted stolen max s ->
  counted stolen max (psk_accept max s e) /\ (calm e -> s_lost (psk_accept max s e) = s_lost s).
Proof.
  intros Hc. destruct e as [ip now b before during|b|n]; [|done|split; [by apply sigchld_counted|done]].
  unfold psk_accept, take_conn. destruct (max <=? s_active s) eqn:E; [done|]. zbool.
  destruct (handshake_rate_check ip now (s_rate s)) as [r rate]. destruct (r <? 0); [done|by apply fork_counted].
Qed.

Lemma tun_accept_counted stolen max s e : counted stolen max s ->
  counted stolen max (tun_accept max s e) /\ (calm e -> s_lost (tun_accept max s e) = s_lost s).
Proof.
  intros Hc. unfold tun_accept. destruct (s_broken s); [done|].
  destruct e as [ip now b before during|[]|n]; [|done|done|split; [by apply sigchld_counted|done]].
  destruct (max <=? s_active s) eqn:E; [done|]. zbool. by apply fork_counted.
Qed.

Lemma fold_counted stolen max step : (forall s e, counted stolen max s ->
    counted stolen max (step s e) /\ (calm e -> s_lost (step s e) = s_lost s)) ->
  forall evs s, counted stolen max s ->
    counted stolen max (fold_left step evs s) /\ (Forall calm evs -> s_lost (fold_left step evs s) = s_lost s).
Proof.
  intros Hs. induction evs as [|e evs IH]; intros s Hc; [done|]. cbn [fold_left].
  destruct (Hs s e Hc) as [H1 H2]. destruct (IH _ H1) as [H3 H4]. split; [done|].
  intros [He Hevs]%Forall_cons. by rewrite H4, H2.
Qed.

(** C29: the children of the forwarding server and of the TUN server, whenever
    they exit, also between the steps of [g_active_conns++].  The counter never
    exceeds the limit, and is the number of living children plus the decrements
    that an increment overwrote (none if no child exits between its load and its
    store): the forwarding server never has more children than the limit.  The
    counter of the TUN server is lower by the number [stolen] of commands of the
    set-up that the signal handler collected; it may have that many children more. *)
Theorem children_bounded max rate stolen evs :
  0 <= max ->
  let p := fold_left (psk_accept max) evs (server_init rate) in
  let t := fold_left (tun_accept max) evs (server_start stolen rate) in
  (s_active p = living p + Z.of_nat (s_lost p) /\ s_active p <= max /\ living p <= max) /\
  (s_active t = living t + Z.of_nat (s_lost t) - Z.of_nat stolen /\ s_active t <= max /\ living t <= max + Z.of_nat stolen) /\
  (Forall calm evs -> s_lost p = 0%nat /\ s_lost t = 0%nat).
Proof.
  intros Hm p t.
  destruct (fold_counted 0 max (psk_accept max) (psk_accept_counted 0 max) evs (server_init rate)) as [[P1 P2] P3];
    [unfold counted, living; simpl; lia|]. fold p in P1, P2, P3.
  destruct (fold_counted stolen max (tun_accept max) (tun_accept_counted stolen max) evs (server_start stolen rate)) as [[T1 T2] T3];
    [unfold counted, living; simpl; lia|]. fold t in T1, T2, T3.
  clearbody p t. split_and!; try lia. intros Hc. by rewrite P3, T3.
Qed.

(** A lost decrement takes a place for ever: with a limit of one, a child that
    exits at the wrong moment leaves a server that refuses every connection. *)
Example lost_decrement :
  let s := fold_left (psk_accept 1) [Accepted [49] 100 true 0 1] (server_init rate_init) in
  living s = 0 /\ s_active s = 1 /\ psk_accept 1 s (Accepted [50] 200 true 0 0) = s.
Proof. vm_compute. done. Qed.

(** With two commands of the set-up collected by the handler, a TUN server with
    a limit of one has three children. *)
Example stolen_commands :
  let s := fold_left (tun_accept 1) (replicate 4 (Accepted [49] 100 true 0 0)) (server_start 2 rate_init) in living s = 3 /\ s_active s = 1.
Proof. vm_compute. done. Qed.

Lemma socks5_counts_forks max evs : forall s, s_active s = Z.of_nat (s_forked s) ->
  let s' := fold_left (socks5_server_accept max) evs s in
  s_active s' = Z.of_nat (s_forked s') /\ (s_forked s <= s_forked s')%nat.
Proof.
  induction evs as [|e evs IH]; intros s Hs; [done|]. cbn [fold_left].
  assert (s_active (socks5_server_accept max s e) = Z.of_nat (s_forked (socks5_server_accept max s e)) /\
    (s_forked s <= s_forked (socks5_server_accept max s e))%nat) as [H1 H2].
  { destruct e as [ip now b before during|b|n]; [|done|done]. unfold socks5_server_accept, take_conn.
    destruct (max <=? s_active s); [done|]. destruct (handshake_rate_check ip now (s_rate s)) as [r rate].
    destruct (r <? 0); [done|]. destruct b; simpl; lia. }
  destruct (IH _ H1) as [H3 H4]. split; [done|lia].
Qed.

(** C40: the SOCKS5 server does not count its children down: once it has served
    as many connections as the limit allows, it refuses every further one for
    ever, whatever children have exited. *)
Theorem socks5_server_exhausted max rate evs1 evs2 :
  let s := fold_left (socks5_server_accept max) evs1 (server_init rate) in
  Z.of_nat (s_forked s) = max ->
  s_forked (fold_left (socks5_server_accept max) evs2 s) = s_forked s.
Proof.
  intros s Hmax. pose proof (proj1 (socks5_counts_forks max evs1 (server_init rate) eq_refl)) as Ha. fold s in Ha. clearbody s.
  revert s Hmax Ha. induction evs2 as [|e evs IH]; intros s Hmax Ha; [done|]. cbn [fold_left].
  assert (s_forked (socks5_server_accept max s e) = s_forked s /\ s_active (socks5_server_accept max s e) = s_active s) as [H1 H2].
  { destruct e as [ip now b before during|b|n]; [|done|done]. unfold socks5_server_accept, take_conn.
    assert ((max <=? s_active s) = true) as -> by (apply Z.leb_le; lia). done. }
  rewrite IH by (rewrite ?H1, ?H2; done). done.
Qed.

(** ** Examples *)

(** Nobody answers, three times; then the program is stopped. *)
Definition no_net : net := mkNet (fun _ _ => true) (fun _ => false) (fun _ _ => Some [0%nat]) (fun _ _ => None) 6.
Definition down_round : round := mkRound true no_net (world0, []) true.
Definition demo_rounds : list round := replicate 3 down_round ++ [mkRound false no_net (world0, []) true].

Definition demo_peers : peers_t :=
  mkPeers [demo_pub; demo_priv] [ascii_bytes "vpn.example:51820"; ascii_bytes "10.1.1.1"] (g_peer_tun_ips peers_init) 2.

Lemma clients_back_off_witness :
  (forall i d, [1; 2; 4] !! i = Some d -> d = 2 ^ Z.of_nat (Nat.min i 5)) /\
  Forall (fun d => 1 <= d <= 32) [1; 2; 4] /\
  (forall i d, [1; 2; 4] !! i = Some d -> d = 2 ^ Z.of_nat (Nat.min i 5)).
Proof.
  apply (clients_back_off pure_c toy_crypto no_locals demo_priv 0 demo_keys (ascii_bytes "h") 9000 demo_peers 1 3 demo_pub
    (ascii_bytes "t") 80 demo_rounds
    (default [] (@tun_client_loop pure_c toy_crypto no_locals demo_priv 0 demo_keys (ascii_bytes "h") 9000 demo_peers 1 3 demo_rounds 0 0))
    (default [] (@psk_client_loop pure_c toy_crypto no_locals demo_priv 0 demo_keys demo_pub (ascii_bytes "h") 9000 3 demo_rounds 0))
    (default [] (@socks5_client_loop pure_c toy_crypto no_locals demo_priv 0 demo_keys (ascii_bytes "t") 80 demo_pub (ascii_bytes "h") 9000 3 demo_rounds 0)));
    vm_compute; reflexivity.
Defined.

Lemma session_setup_agrees_witness : exists t1 t2 wc' ws',
  @client_setup pure_c toy_crypto no_locals key_a 25 (mkKeys [] []) (@x25519_pub toy_crypto key_b) 5 6
    (set_tx [TxSome 60] [] proxy_client) = Some (Some t1, wc') /\
  @server_setup pure_c toy_crypto no_locals key_b 25 (mkKeys [] []) [@x25519_pub toy_crypto key_a] (Some 9) 7
    (set_rx [RxData demo_ch] proxy_server) = Some (Some t2, ws') /\
  t_enc_key t1 = t_dec_key t2 /\ t_enc_nonce t1 = t_dec_nonce t2.
Proof.
  destruct (session_setup_agrees pure_c pure_c_laws toy_crypto toy_crypto_laws no_locals key_a key_ea key_b key_eb
    demo_cf [] 1000 1011 1005 1010 25 [] [] [] [] (mkKeys [] []) (mkKeys [] []) 5 6 7 9
    (set_tx [TxSome 60] [] proxy_client) (set_rx [RxData demo_ch] proxy_server))
    as (t1 & t2 & wc' & ws' & H1 & H2 & _ & _ & H3 & _ & H4 & _).
  1-4: apply wf_key32_rep; unfold is_uint; lia.
  1-4: reflexivity.
  1-2: split; [reflexivity|unfold REPLAY_SLOTS; simpl; lia].
  1-2: split_and!; [lia..|unfold TIMESTAMP_WINDOW_SEC; lia|apply not_in_zero_cache; [reflexivity|lia]].
  - vm_compute. reflexivity.
  - apply tx_takes_cons; [unfold WLEN; lia|exact I].
  - apply tx_takes_cons; [unfold WLEN; lia|]. apply tx_takes_cons; [vm_compute; lia|exact I].
  - split_and!.
    + repeat constructor; vm_compute; discriminate.
    + apply wf_rxb_spec. vm_compute. reflexivity.
    + vm_compute. reflexivity.
    + exists 5%nat. split; [by exists no_event, []|simpl; lia].
  - split_and!.
    + repeat constructor; vm_compute; discriminate.
    + apply wf_rxb_spec. vm_compute. reflexivity.
    + vm_compute. reflexivity.
    + exists 5%nat. split; [by exists no_event, []|simpl; lia].
  - exists t1, t2, wc', ws'. split_and!; [exact H1|exact H2|exact H3|exact H4].
Defined.

Definition down_rounds : list round := replicate 3 down_round.

Definition demo_eps : list (bytes * Z) := [(ascii_bytes "vpn.example", 51820); (ascii_bytes "10.1.1.1", 9000)].


Definition single_secs : config :=
  [(ascii_bytes "Peer", [mkEntry (ascii_bytes "Endpoint") (ascii_bytes "vpn.example:51820")]);
   (ascii_bytes "Peer", [mkEntry (ascii_bytes "Endpoint") (ascii_bytes "10.1.1.1:9000")])].

Lemma configured_endpoint_is_single_witness :
  (exists h, parse_host_port (ascii_bytes "vpn.example:51820") = Some (h, 51820) /\ ascii_bytes "vpn.example" = take (MAX_HOST_LEN - 1) h) /\
  Forall (fun x => x = (0%nat, ascii_bytes "vpn.example", 51820)) (replicate 3 (0%nat, ascii_bytes "vpn.example", 51820)).
Proof.
  set (o := opts_init (ascii_bytes "eth0")).
  destruct (apply_config (table single_secs) (ascii_bytes "/root") o demo_peers) as [[o' g']| |] eqn:E; [|vm_compute in E; discriminate E..].
  refine (configured_endpoint_is_single pure_c toy_crypto no_locals (table single_secs) (ascii_bytes "/root") o demo_peers o' g'
    (ascii_bytes "vpn.example:51820") (ascii_bytes "vpn.example") 51820 demo_priv demo_keys 1 3 down_rounds
    (concat (map (fun d => [Try 0 (ascii_bytes "vpn.example") 51820; Net [Opened 6 TCP; Marked 6 51820; Tried 6 0; Closed 6]; Sleep d]) [1; 2; 4])) _ _ _ E _ _ _);
    vm_compute in E; injection E as <- <-; try (vm_compute; reflexivity); vm_compute; discriminate.
Defined.

(** A child exits in the middle of the third increment. *)
Definition demo_accepts : list accept_ev :=
  [Accepted demo_ip 100 true 0 0; Accepted demo_ip 100 true 0 0; Accepted demo_ip 101 true 0 0; Exits 1;
   Accepted demo_ip 102 true 0 1; Accepted demo_ip 103 true 0 0].

Lemma children_bounded_witness :
  let p := fold_left (psk_accept 2) demo_accepts (server_init rate_init) in
  let t := fold_left (tun_accept 2) demo_accepts (server_start 1 rate_init) in
  living p = 1 /\ s_lost p = 1%nat /\ s_active p = living p + Z.of_nat (s_lost p) /\ living p <= 2 /\
  living t = 2 /\ s_active t = living t + Z.of_nat (s_lost t) - 1 /\ living t <= 2 + 1.
Proof.
  intros p t. destruct (children_bounded 2 rate_init 1 demo_accepts) as ((P1 & P2 & P3) & (T1 & T2 & T3) & _); [lia|].
  split_and!; [vm_compute; reflexivity|vm_compute; reflexivity|exact P1|exact P3|vm_compute; reflexivity|exact T1|exact T3].
Defined.

Lemma socks5_server_exhausted_witness :
  s_forked (fold_left (socks5_server_accept 2) [Exits 2; Accepted demo_ip 200 true 0 0]
    (fold_left (socks5_server_accept 2) [Accepted demo_ip 100 true 0 0; Accepted demo_ip 100 true 0 0] (server_init rate_init))) = 2%nat.
Proof.
  apply (socks5_server_exhausted 2 rate_init [Accepted demo_ip 100 true 0 0; Accepted demo_ip 100 true 0 0] [Exits 2; Accepted demo_ip 200 true 0 0]).
  vm_compute. reflexivity.
Defined.
