(* ===== verification/Lifecycle.v ===== *)
(** * The modes from start to end (mode_psk.c, mode_socks5.c, mode_tun.c, mode_tun_udp.c)

    The loops of Modes.v and UdpTunnel.v with what stands around them: the TUN
    device and its set-up, the listener, the signals, the teardown, and every
    descriptor that is opened and closed. *)

From stdpp Require Import sets gmap.
From S2P Require Import Prelude Aes Aegis Aead Util Io Frame FrameReader Handshake Tunnel ModeCommon Socks5 Udp UdpTunnel.
From S2P Require Import Keyfile IniConfig ConfDoc ConfigMgmt CreateTun Main Tun Modes.

(** ** Signals (main.c) *)

(** [SIGINT] and [SIGTERM]: [g_running] is cleared. *)
Definition sig_handler (g_running : bool) : bool := false.

(** What an accept loop meets: the events of Modes.v, or one of the two
    signals, which interrupts [accept] ([sa_flags] is 0). *)
Inductive srv_ev := Ev (e : accept_ev) | Sigterm.

(** ** The accept loops, with the descriptors of the parent *)

(** What the parent does with the descriptor [c] of a connection: the limit, the
    limit per address, a failed [fork], and the parent after [fork]. *)
Definition psk_accept_io (c max : Z) (s : server) (e : accept_ev) : list net_ev :=
  match e with
  | Accepted ip now fork_ok _ _ =>
      Opened c TCP ::
      (if max <=? Modes.s_active s then [Closed c]
       else if fst (handshake_rate_check ip now (s_rate s)) <? 0 then [Closed c]
       else if negb fork_ok then [Closed c]
       else [Closed c])
  | _ => []
  end.

(** The TUN server marks a connection it takes. *)
Definition tun_accept_io (c max : Z) (s : server) (e : accept_ev) : list net_ev :=
  match e with
  | Accepted _ _ fork_ok _ _ =>
      Opened c TCP ::
      (if max <=? Modes.s_active s then [Closed c]
       else Marked c TUN_FWMARK :: (if negb fork_ok then [Closed c] else [Closed c]))
  | _ => []
  end.

(** [while (g_running)]: [None] while the server still waits. *)
Fixpoint accept_loop (step : server -> accept_ev -> server) (io : server -> accept_ev -> list net_ev)
    (evs : list srv_ev) (g_running : bool) (s : server) : option (server * list net_ev) :=
  if negb g_running || s_broken s then Some (s, [])
  else match evs with
       | [] => None
       | Sigterm :: evs' => accept_loop step io evs' (sig_handler g_running) s
       | Ev e :: evs' => '(s', l) ← accept_loop step io evs' g_running (step s e); Some (s', io s e ++ l)
       end.

(** ** The modes *)

(** How a mode ended: return value, what happened to its descriptors, the
    commands it ran, and what its loop left ([None] if it was not entered). *)
Record ended (A : Type) := mkEnded { e_ret : Z; e_net : list net_ev; e_cmds : list argv; e_loop : option A }.
Arguments mkEnded {A} e_ret e_net e_cmds e_loop.
Arguments e_ret {A} e.
Arguments e_net {A} e.
Arguments e_cmds {A} e.
Arguments e_loop {A} e.

(** [/dev/net/tun] and [TUNSETIFF]. *)
Record dev := mkDev { dv_open : option Z; dv_iff : bytes -> option bytes }.

Definition tun_name : bytes := ascii_bytes "tun0".

Definition try_dev (d : dev) : option (Z * bytes) * list Z := tun_create (dv_open d) (dv_iff d) (take 15 tun_name).

Section modes.
Context (ok : list argv -> argv -> bool) (can_socket : nat -> proto -> bool) (can_listen : bool) (next : Z) (o : opts).

(** A server that forks, without a device. *)
Definition fork_server (max : Z) (accept : server -> accept_ev -> server) (rate : rate_state) (evs : list srv_ev) : option (ended server) :=
  match listen_on_port can_socket can_listen next with
  | (None, net) => Some (mkEnded 1 net [] None)
  | (Some lfd, net) =>
      '(s, io) ← accept_loop accept (psk_accept_io (next + 1) max) evs true (server_init rate);
      Some (mkEnded 0 (net ++ io ++ [Closed lfd]) [] (Some s))
  end.

Definition mode_psk_server (max : Z) := fork_server max (psk_accept max).
Definition mode_socks5_server (max : Z) := fork_server max (socks5_server_accept max).

(** [stolen] commands of the set-up are collected by the handler of [SIGCHLD]. *)
Definition mode_tun_server (d : dev) (max : Z) (stolen : nat) (rate : rate_state) (evs : list srv_ev) : option (ended server) :=
  match try_dev d with
  | (None, cl) => Some (mkEnded 1 (map Closed cl) [] None)
  | (Some (tun_fd, name), cl) =>
      let cmds := snd (tun_server_setup ok name o []) in
      match listen_on_port_mptcp can_socket can_listen next with
      | (None, net) => Some (mkEnded 1 (map Closed cl ++ net ++ [Closed tun_fd]) cmds None)
      | (Some lfd, net) =>
          '(s, io) ← accept_loop (tun_accept max) (tun_accept_io (next + 1) max) evs true (server_start stolen rate);
          Some (mkEnded 0 (map Closed cl ++ net ++ io ++ [Closed lfd; Closed tun_fd]) (snd (tun_server_down ok name o cmds)) (Some s))
      end
  end.

Section with_crypto.
Context {A : Aead} {C : Crypto} {U : Locals}.
Context (priv : bytes) (keepalive : Z).

Definition mode_tun_client (d : dev) (k0 : session_keys_t) (host : bytes) (port : Z) (g : peers_t) (rounds : list round)
    : option (ended (list ev)) :=
  match try_dev d with
  | (None, cl) => Some (mkEnded 1 (map Closed cl) [] None)
  | (Some (tun_fd, name), cl) =>
      let cmds := snd (tun_client_setup ok name o []) in
      tr ← tun_client_loop priv keepalive k0 host port g (g_tun_multipath o) tun_fd rounds 0 0;
      Some (mkEnded 0 (map Closed cl ++ trace_net tr ++ [Closed tun_fd]) (snd (tun_client_down ok name o cmds)) (Some tr))
  end.

Definition mode_udp_server (d : dev) (peers : list bytes) (tun_ips : list Z) (w : uworld) : option (ended udp_table) :=
  match try_dev d with
  | (None, cl) => Some (mkEnded 1 (map Closed cl) [] None)
  | (Some (tun_fd, name), cl) =>
      let cmds := snd (udp_tun_server_setup ok name o []) in
      match udp_server_socket can_socket tun_fd can_listen next with
      | (None, net) => Some (mkEnded 1 (map Closed cl ++ net) cmds None)
      | (Some udp_fd, net) =>
          '(t, _) ← UdpTunnel.mode_tun_udp_server priv peers tun_ips keepalive w;
          Some (mkEnded 0 (map Closed cl ++ net ++ [Closed udp_fd; Closed tun_fd]) (snd (tun_server_down ok name o cmds)) (Some t))
      end
  end.

Definition mode_udp_client (d : dev) (peers : list bytes) (turns : list udp_turn) : option (ended (list turn_ev)) :=
  match try_dev d with
  | (None, cl) => Some (mkEnded 1 (map Closed cl) [] None)
  | (Some (tun_fd, name), cl) =>
      let cmds := snd (udp_tun_client_setup ok name o []) in
      tr ← UdpTunnel.mode_tun_udp_client priv peers keepalive turns;
      Some (mkEnded 0 (map Closed cl ++ turn_net tr ++ [Closed tun_fd]) (snd (tun_client_down ok name o cmds)) (Some tr))
  end.
End with_crypto.
End modes.

(** ** Descriptors *)

(** Every descriptor that was opened, the device included, has been closed. *)
Definition balanced (d : dev) (net : list net_ev) : Prop := fds_closed net ≡ₚ option_list (dv_open d) ++ fds_opened net.

Lemma fds_opened_map cl : fds_opened (map Closed cl) = [].
Proof. by induction cl. Qed.

Lemma fds_closed_map cl : fds_closed (map Closed cl) = cl.
Proof. induction cl as [|c cl IH]; [done|]. cbn. by f_equal. Qed.

Ltac fds := rewrite ?fds_opened_app, ?fds_closed_app, ?fds_opened_map, ?fds_closed_map, ?app_nil_r.

Lemma accept_loop_balanced step io evs : (forall s e, fds_closed (io s e) = fds_opened (io s e)) ->
  forall run s s' l, accept_loop step io evs run s = Some (s', l) -> fds_closed l = fds_opened l.
Proof.
  intros Hio. induction evs as [|[e|] evs IH]; intros run s s' l; cbn [accept_loop]; destruct (negb run || s_broken s).
  - by intros [= _ <-].
  - done.
  - by intros [= _ <-].
  - intros ([s1 l1] & H1 & [= _ <-])%bind_Some. fds. rewrite Hio. f_equal. by eapply IH.
  - by intros [= _ <-].
  - apply IH.
Qed.

Lemma try_dev_spec d : match try_dev d with
  | (None, cl) => cl = option_list (dv_open d)
  | (Some (fd, name), cl) => dv_open d = Some fd /\ cl = [] /\ (length name < IFNAMSIZ)%nat
  end.
Proof. apply tun_create_clean. Qed.

Section balance.
Context (ok : list argv -> argv -> bool) (can_socket : nat -> proto -> bool) (can_listen : bool) (next : Z) (o : opts).

Lemma fork_server_balanced max accept rate evs r :
  fork_server can_socket can_listen next max accept rate evs = Some r -> fds_closed (e_net r) ≡ₚ fds_opened (e_net r).
Proof.
  unfold fork_server. pose proof (proj1 (listen_clean can_socket can_listen 0 next)) as H.
  destruct (listen_on_port can_socket can_listen next) as [[lfd|] net]; cbn [option_list] in H.
  - intros ([s io] & Hs & [= <-])%bind_Some. cbn [e_net]. fds. rewrite H. apply accept_loop_balanced in Hs; [|intros ? []; unfold psk_accept_io; repeat case_match; done].
    rewrite Hs. cbn. fds. solve_Permutation.
  - intros [= <-]. cbn [e_net]. by rewrite H, app_nil_r.
Qed.

Lemma tun_server_balanced d max stolen rate evs r :
  mode_tun_server ok can_socket can_listen next o d max stolen rate evs = Some r -> balanced d (e_net r).
Proof.
  unfold mode_tun_server, balanced. pose proof (try_dev_spec d) as Hd. destruct (try_dev d) as [[[fd name]|] cl].
  - destruct Hd as (-> & -> & _). pose proof (proj1 (proj2 (listen_clean can_socket can_listen 0 next))) as H.
    destruct (listen_on_port_mptcp can_socket can_listen next) as [[lfd|] net]; cbn [option_list] in H.
    + intros ([s io] & Hs & [= <-])%bind_Some. cbn [e_net]. fds. rewrite H.
      apply accept_loop_balanced in Hs; [|intros ? []; unfold tun_accept_io; repeat case_match; done]. rewrite Hs. cbn. fds.
      solve_Permutation.
    + intros [= <-]. cbn [e_net]. fds. rewrite H. cbn. fds. solve_Permutation.
  - intros [= <-]. cbn [e_net]. fds. by rewrite Hd.
Qed.

Section crypto.
Context {A : Aead} {C : Crypto} {U : Locals} (priv : bytes) (keepalive : Z).

Lemma tun_client_balanced d k0 host port g rounds r :
  mode_tun_client ok o priv keepalive d k0 host port g rounds = Some r -> balanced d (e_net r).
Proof.
  unfold mode_tun_client, balanced. pose proof (try_dev_spec d) as Hd. destruct (try_dev d) as [[[fd name]|] cl].
  - destruct Hd as (-> & -> & _). intros (tr & Htr & [= <-])%bind_Some. cbn [e_net]. fds.
    pose proof (tun_client_sockets _ _ _ _ _ _ _ _ _ _ _ _ Htr) as H. unfold all_closed in H. rewrite H. cbn. fds. solve_Permutation.
  - intros [= <-]. cbn [e_net]. fds. by rewrite Hd.
Qed.

Lemma udp_server_balanced d peers tun_ips w r :
  mode_udp_server ok can_socket can_listen next o priv keepalive d peers tun_ips w = Some r -> balanced d (e_net r).
Proof.
  unfold mode_udp_server, balanced. pose proof (try_dev_spec d) as Hd. destruct (try_dev d) as [[[fd name]|] cl].
  - destruct Hd as (-> & -> & _). pose proof (proj2 (proj2 (listen_clean can_socket can_listen fd next))) as H.
    destruct (udp_server_socket can_socket fd can_listen next) as [[ufd|] net].
    + destruct H as [H1 H2]. intros ([t w'] & _ & [= <-])%bind_Some. cbn [e_net]. fds. rewrite H1, H2. cbn. solve_Permutation.
    + intros [= <-]. cbn [e_net]. fds. rewrite H. cbn. fds. solve_Permutation.
  - intros [= <-]. cbn [e_net]. fds. by rewrite Hd.
Qed.

Lemma udp_client_balanced d peers turns r :
  mode_udp_client ok o priv keepalive d peers turns = Some r -> balanced d (e_net r).
Proof.
  unfold mode_udp_client, balanced. pose proof (try_dev_spec d) as Hd. destruct (try_dev d) as [[[fd name]|] cl].
  - destruct Hd as (-> & -> & _). intros (tr & Htr & [= <-])%bind_Some. cbn [e_net]. fds.
    rewrite (udp_client_sockets _ _ _ _ _ Htr). cbn. fds. solve_Permutation.
  - intros [= <-]. cbn [e_net]. fds. by rewrite Hd.
Qed.
End crypto.
End balance.

(** ** Teardown *)

(** What the teardown runs. *)
Definition teardown_cmds (name : bytes) (is_server : bool) : list argv :=
  [words ["ip"; "route"; "flush"; "table"] ++ [table_str];
   words ["ip"; "rule"; "del"; "not"; "fwmark"] ++ [table_str] ++ words ["table"] ++ [table_str];
   words ["ip"; "rule"; "del"; "not"; "fwmark"] ++ [table_str] ++ words ["table"; "main"];
   words ["ip"; "rule"; "del"; "fwmark"] ++ [table_str] ++ words ["table"; "main"];
   words ["ip"; "link"; "del"] ++ [name]] ++
  (if is_server then [words ["iptables"; "-t"; "nat"; "-F"; "POSTROUTING"]; words ["iptables"; "-F"; "FORWARD"]] else []).

Definition script_cmds (script name : bytes) : list argv :=
  match script with [] => [] | _ => [words ["/bin/sh"; "sh"; "-c"] ++ [script_cmd script name]] end.

Lemma tun_server_down_cmds ok name o log :
  snd (tun_server_down ok name o log) = log ++ script_cmds (tun_postdown o) name ++ teardown_cmds name true.
Proof.
  unfold tun_server_down, tun_run_postdown, tun_exec_script, script_cmds.
  destruct (tun_postdown o); unfold tun_teardown, run_cmdv_quiet, run_cmdv, mbind, T_bind, mret, T_ret; cbn [snd app];
    rewrite <- ?app_assoc; reflexivity.
Qed.

Lemma tun_client_down_cmds ok name o log :
  snd (tun_client_down ok name o log) = log ++ script_cmds (tun_postdown o) name ++ teardown_cmds name false.
Proof.
  unfold tun_client_down, tun_run_postdown, tun_exec_script, script_cmds.
  destruct (tun_postdown o); unfold tun_teardown, run_cmdv_quiet, run_cmdv, mbind, T_bind, mret, T_ret; cbn [snd app];
    rewrite <- ?app_assoc; reflexivity.
Qed.

(** The command that removes what a command added: a rule is deleted, a table
    is flushed, what hangs on the device goes with the device, and the rules of
    iptables go with their chain.  (A route that [ip route replace] put in the
    place of another is removed; the other one does not come back.) *)
Definition begins (w : list string) (c : argv) : bool := bool_decide (take (length w) c = words w).

Definition removed_by (c : argv) : option argv :=
  if begins ["ip"; "rule"; "add"] c then Some (words ["ip"; "rule"; "del"] ++ drop 3 c)
  else if begins ["ip"; "route"] c && (length c =? 8)%nat then Some (words ["ip"; "route"; "flush"; "table"] ++ drop 7 c)
  else if begins ["ip"; "route"] c || begins ["ip"; "addr"; "add"] c then Some (words ["ip"; "link"; "del"] ++ drop 5 c)
  else if begins ["ip"; "link"; "set"] c then Some (words ["ip"; "link"; "del"] ++ [nth 3 c []])
  else if begins ["ifconfig"] c then Some (words ["ip"; "link"; "del"] ++ [nth 1 c []])
  else if begins ["iptables"; "-t"; "nat"; "-A"; "POSTROUTING"] c then Some (words ["iptables"; "-t"; "nat"; "-F"; "POSTROUTING"])
  else if begins ["iptables"; "-A"; "FORWARD"] c then Some (words ["iptables"; "-F"; "FORWARD"])
  else None.

(** A question to iptables, or the removal of a rule. *)
Definition leaves_nothing (c : argv) : bool :=
  begins ["iptables"; "-C"] c || begins ["iptables"; "-t"; "nat"; "-C"] c || begins ["ip"; "rule"; "del"] c.

(** What the program never takes back: the forwarding switch, the rule of the
    nftables fallback, and what a script does. *)
Definition stays (c : argv) : bool :=
  begins ["/proc/sys/net/ipv4/ip_forward"] c || begins ["nft"; "add"; "rule"] c || begins ["/bin/sh"] c.

(** The flushing and deleting of the teardown. *)
Definition takes_back (c : argv) : bool :=
  begins ["ip"; "route"; "flush"] c || begins ["ip"; "link"; "del"] c || begins ["iptables"; "-t"; "nat"; "-F"] c ||
  begins ["iptables"; "-F"] c.

Definition settled (name : bytes) (is_server : bool) (c : argv) : Prop :=
  takes_back c = false /\
  match removed_by c with
  | Some u => exists k, teardown_cmds name is_server !! k = Some u
  | None => leaves_nothing c || stays c = true
  end.

#[local] Existing Instances T_ret T_bind.

(** Programs whose commands all satisfy [P]. *)
Definition logs (P : argv -> Prop) {A : Type} (m : T A) : Prop := forall log, exists l, snd (m log) = log ++ l /\ Forall P l.

Section logs.
Context (ok : list argv -> argv -> bool) (P : argv -> Prop).

Lemma logs_ret (A : Type) (a : A) : logs P (mret a : T A).
Proof. intros log. exists []. by rewrite app_nil_r. Qed.

Lemma logs_bind (A B : Type) (f : A -> T B) (m : T A) : logs P m -> (forall a, logs P (f a)) -> logs P (m ≫= f).
Proof.
  intros Hm Hf log. unfold mbind, T_bind. destruct (Hm log) as (l & E & Hl). destruct (m log) as [a log1]. cbn [snd] in E. subst log1.
  destruct (Hf a (log ++ l)) as (l' & E' & Hl'). exists (l ++ l'). rewrite E', app_assoc. split; [done|]. by apply Forall_app.
Qed.

Lemma logs_run c : P c -> logs P (run_cmdv ok c).
Proof. intros Hc log. exists [c]. split; [done|]. by apply Forall_singleton. Qed.

Lemma logs_quiet c : P c -> logs P (run_cmdv_quiet ok c).
Proof. intros Hc. apply logs_bind; [by apply logs_run|]. intros _. apply logs_ret. Qed.

Lemma logs_each (f : bytes -> T Z) l : (forall x, logs P (f x)) -> logs P (each f l).
Proof. intros Hf. induction l as [|x l IH]; [apply logs_ret|]. cbn [each]. apply logs_bind; [apply Hf|]. by intros _. Qed.
End logs.

(** Splits a program; the commands remain. *)
Ltac logs_tac := repeat first
  [ apply logs_ret | apply logs_bind; [|intros ?] | apply logs_run | apply logs_quiet | apply logs_each; intros ? | case_match ].

Ltac settled_tac :=
  split; [reflexivity|];
  first [ exists 0%nat; reflexivity | exists 1%nat; reflexivity | exists 4%nat; reflexivity | exists 5%nat; reflexivity
        | exists 6%nat; reflexivity | reflexivity ].

Section setup.
Context (ok : list argv -> argv -> bool) (name : bytes).

Lemma link_settled srv o : logs (settled name srv) (tun_link ok name o).
Proof. unfold tun_link, tun_set_ip, tun_up. logs_tac; destruct srv; settled_tac. Qed.

Lemma route_settled srv net : logs (settled name srv) (tun_add_route ok net name).
Proof. unfold tun_add_route. logs_tac; destruct srv; settled_tac. Qed.

Lemma full_settled srv : logs (settled name srv) (tun_add_full_tunnel ok name).
Proof. unfold tun_add_full_tunnel. logs_tac; destruct srv; settled_tac. Qed.

Lemma script_settled srv script : logs (settled name srv) (tun_run_postup ok script name).
Proof. unfold tun_run_postup, tun_exec_script. destruct script; logs_tac; destruct srv; settled_tac. Qed.

Lemma fwmark_settled srv : logs (settled name srv) (tun_set_fwmark_rule ok TUN_FWMARK).
Proof. unfold tun_set_fwmark_rule. logs_tac; destruct srv; settled_tac. Qed.

Lemma nat_settled subnet out_if : logs (settled name true) (tun_set_nat ok subnet out_if).
Proof. unfold tun_set_nat. logs_tac; settled_tac. Qed.

Lemma forward_settled : logs (settled name true) (tun_allow_forward ok name).
Proof. unfold tun_allow_forward, ensure_rule. logs_tac; settled_tac. Qed.

Lemma routes_settled srv ips : logs (settled name srv) (tun_add_routes_multi ok ips name).
Proof.
  unfold tun_add_routes_multi. destruct ips; [apply logs_ret|]. apply logs_bind; [|intros ?; apply logs_ret].
  apply logs_each. intros tok. unfold route_one. destruct (_ || _); [apply full_settled|apply route_settled].
Qed.

Lemma nats_settled ips out_if : logs (settled name true) (tun_set_nat_multi ok ips out_if).
Proof.
  unfold tun_set_nat_multi. destruct ips; [apply logs_ret|]. apply logs_bind; [|intros ?; apply logs_ret].
  apply logs_each. intros tok. unfold nat_one. destruct (bool_decide _); [|apply nat_settled].
  apply logs_bind; [apply nat_settled|intros ?]. apply logs_bind; [apply nat_settled|intros ?]. apply nat_settled.
Qed.

Lemma routing_settled ips nat_if : logs (settled name true) (tun_setup_routing ok name ips nat_if true).
Proof.
  unfold tun_setup_routing. apply logs_bind; [unfold tun_enable_forwarding; logs_tac; settled_tac|intros ?].
  apply logs_bind; [destruct ips; [apply logs_ret|]|intros ?; apply logs_bind; [apply forward_settled|intros ?; apply logs_ret]].
  apply logs_bind; [apply routes_settled|intros ?]. apply logs_bind; [apply nats_settled|intros ?; apply logs_ret].
Qed.
End setup.

Ltac setup_tac := repeat first
  [ apply link_settled | apply route_settled | apply full_settled | apply script_settled | apply fwmark_settled
  | apply routes_settled | apply routing_settled | apply logs_ret | apply logs_bind; [|intros ?] | case_match ].

(** The four set-ups. *)
Lemma setups_settled ok name o :
  logs (settled name true) (tun_server_setup ok name o) /\ logs (settled name false) (tun_client_setup ok name o) /\
  logs (settled name true) (udp_tun_server_setup ok name o) /\ logs (settled name false) (udp_tun_client_setup ok name o).
Proof. split_and!; [unfold tun_server_setup|unfold tun_client_setup|unfold udp_tun_server_setup|unfold udp_tun_client_setup]; setup_tac. Qed.

(** How a TUN mode ends: with every descriptor closed; when it returns 0, with
    the commands of the teardown run after those of the set-up; when it returns
    1, with no command of the teardown run. *)
Record clean_end {A : Type} (d : dev) (o : opts) (is_server : bool) (r : ended A) : Prop := {
  ce_fds : balanced d (e_net r);
  ce_ret : e_ret r = 0 \/ e_ret r = 1;
  ce_ok : e_ret r = 0 -> exists name setup, Forall (settled name is_server) setup /\
    e_cmds r = setup ++ script_cmds (tun_postdown o) name ++ teardown_cmds name is_server;
  ce_failed : e_ret r = 1 -> Forall (fun c => takes_back c = false) (e_cmds r)
}.

Lemma accept_loop_ends step io evs : Sigterm ∈ evs -> forall run s, is_Some (accept_loop step io evs run s).
Proof.
  induction evs as [|[e|] evs IH]; intros Hin run s; [by apply elem_of_nil in Hin| |]; cbn [accept_loop]; destruct (negb run || s_broken s); eauto.
  - apply elem_of_cons in Hin as [?|Hin]; [done|]. destruct (IH Hin run (step s e)) as [[s' l] ->]. cbn. eauto.
  - unfold sig_handler. destruct evs; cbn; eauto.
Qed.

Lemma failed_setup name (m : T ()) is_server : logs (settled name is_server) m -> Forall (fun c => takes_back c = false) (snd (m [])).
Proof. intros H. destruct (H []) as (l & -> & Hl). cbn [app]. eapply Forall_impl; [exact Hl|]. by intros c [? _]. Qed.

(** A run with set-up [m], then the teardown. *)
Lemma done_setup {A : Type} d o is_server name (m : T ()) net (x : option A) cmds : logs (settled name is_server) m ->
  cmds = snd (m []) ++ script_cmds (tun_postdown o) name ++ teardown_cmds name is_server -> balanced d net ->
  clean_end d o is_server (mkEnded 0 net cmds x).
Proof.
  intros H -> Hb. split; cbn [e_net e_ret e_cmds]; [done|by left| |done].
  intros _. destruct (H []) as (l & -> & Hl). by exists name, l.
Qed.

Lemma no_setup {A : Type} d o is_server net cmds (x : option A) : Forall (fun c => takes_back c = false) cmds -> balanced d net ->
  clean_end d o is_server (mkEnded 1 net cmds x).
Proof. intros H Hb. split; cbn [e_net e_ret e_cmds]; [done|by right|done|done]. Qed.

Section clean.
Context {A : Aead} {C : Crypto} {U : Locals}.
Context (ok : list argv -> argv -> bool) (can_socket : nat -> proto -> bool) (can_listen : bool) (next : Z) (o : opts) (d : dev).

Lemma tun_server_clean max stolen rate evs r :
  mode_tun_server ok can_socket can_listen next o d max stolen rate evs = Some r -> clean_end d o true r.
Proof.
  intros H. pose proof (tun_server_balanced _ _ _ _ _ _ _ _ _ _ _ H) as Hb. unfold mode_tun_server in H.
  destruct (try_dev d) as [[[fd name]|] cl]; [|simplify_eq; by apply no_setup].
  destruct (setups_settled ok name o) as (S1 & _). destruct (listen_on_port_mptcp _ _ _) as [[lfd|] net].
  - apply bind_Some in H as ([s io] & _ & [= <-]). eapply done_setup; [exact S1|apply tun_server_down_cmds|exact Hb].
  - injection H as <-. apply no_setup; [by eapply failed_setup|exact Hb].
Qed.

Lemma tun_server_returns max stolen rate evs : Sigterm ∈ evs ->
  is_Some (mode_tun_server ok can_socket can_listen next o d max stolen rate evs).
Proof.
  intros Hs. unfold mode_tun_server. destruct (try_dev d) as [[[fd name]|] cl]; [|eauto].
  destruct (listen_on_port_mptcp _ _ _) as [[lfd|] net]; [|eauto].
  destruct (accept_loop_ends (tun_accept max) (tun_accept_io (next + 1) max) evs Hs true (server_start stolen rate)) as [[s io] ->]. cbn. eauto.
Qed.

Lemma tun_client_clean priv keepalive k0 host port g rounds r :
  mode_tun_client ok o priv keepalive d k0 host port g rounds = Some r -> clean_end d o false r.
Proof.
  intros H. pose proof (tun_client_balanced _ _ _ _ _ _ _ _ _ _ _ H) as Hb. unfold mode_tun_client in H.
  destruct (try_dev d) as [[[fd name]|] cl]; [|simplify_eq; by apply no_setup].
  destruct (setups_settled ok name o) as (_ & S1 & _). apply bind_Some in H as (tr & _ & [= <-]).
  eapply done_setup; [exact S1|apply tun_client_down_cmds|exact Hb].
Qed.

Lemma udp_server_clean priv keepalive peers tun_ips w r :
  mode_udp_server ok can_socket can_listen next o priv keepalive d peers tun_ips w = Some r -> clean_end d o true r.
Proof.
  intros H. pose proof (udp_server_balanced _ _ _ _ _ _ _ _ _ _ _ _ H) as Hb. unfold mode_udp_server in H.
  destruct (try_dev d) as [[[fd name]|] cl]; [|simplify_eq; by apply no_setup].
  destruct (setups_settled ok name o) as (_ & _ & S1 & _). destruct (udp_server_socket _ _ _ _) as [[ufd|] net].
  - apply bind_Some in H as ([t w'] & _ & [= <-]). eapply done_setup; [exact S1|apply tun_server_down_cmds|exact Hb].
  - injection H as <-. apply no_setup; [by eapply failed_setup|exact Hb].
Qed.

Lemma udp_client_clean priv keepalive peers turns r :
  mode_udp_client ok o priv keepalive d peers turns = Some r -> clean_end d o false r.
Proof.
  intros H. pose proof (udp_client_balanced _ _ _ _ _ _ _ _ H) as Hb. unfold mode_udp_client in H.
  destruct (try_dev d) as [[[fd name]|] cl]; [|simplify_eq; by apply no_setup].
  destruct (setups_settled ok name o) as (_ & _ & _ & S1). apply bind_Some in H as (tr & _ & [= <-]).
  eapply done_setup; [exact S1|apply tun_client_down_cmds|exact Hb].
Qed.
End clean.


(** The two servers without a device return once they are signalled. *)
Lemma fork_server_returns can_socket can_listen next max accept rate evs : Sigterm ∈ evs ->
  is_Some (fork_server can_socket can_listen next max accept rate evs).
Proof.
  intros Hs. unfold fork_server. destruct (listen_on_port _ _ _) as [[lfd|] net]; [|eauto].
  destruct (accept_loop_ends accept (psk_accept_io (next + 1) max) evs Hs true (server_init rate)) as [[s io] ->]. cbn. eauto.
Qed.

(** *** Example *)

Definition demo_dev : dev := mkDev (Some 5) Some.

Definition demo_opts : opts := opts_init (ascii_bytes "eth0").

(** The client makes a connection, its handshake fails, and it is stopped. *)
Definition demo_turn : list round :=
  [mkRound true (mkNet (fun _ _ => true) (fun a => (a =? 1)%nat) (fun _ _ => Some [0; 1]%nat) (fun _ _ => None) 6)
     (set_keygen [None] world0, []) false].

(** Nobody is there; then the program is stopped. *)
Definition demo_udp_turns : list udp_turn :=
  [mkTurn true (Some 6) true false demo_keys demo_us; mkTurn true None true true demo_keys demo_us;
   mkTurn false None true true demo_keys demo_us].

Definition demo_stopped : uworld := mkU [false] [] [] [] [] [] [] [] [] [0; 0] [] [] rate_init.


(** ** The shared device

    The children of the TCP server all read from the one TUN device; the kernel
    gives each packet to one of them, [readers] says to which. *)
Definition share (i : nat) (readers : list nat) (packets : list bytes) : list bytes :=
  omap (fun x => if decide (fst x = i) then Some (snd x) else None) (zip readers packets).

(** Whichever child reads a packet sends it to its own client: client [i]
    gets exactly the packets that child [i] was given, whatever their destination
    addresses are. *)
Lemma shared_device_by_reader {A : Aead} {L : AeadLaws A} {C : Crypto} {U : Locals} readers packets :
  (length packets <= 256)%nat -> Forall (fun p => p <> [] /\ wf_bytes p /\ zlen p <= FRAME_MAX_PAYLOAD) packets ->
  forall i t t2 w w2 fr rest, let mine := share i readers packets in
  tunnel_inv t -> tunnel_inv t2 -> t_dec_key t2 = t_enc_key t -> t_dec_nonce t2 = t_enc_nonce t ->
  w_pt_rx w = map RxData mine ++ RxErr EAGAIN :: rest -> tx_room (length mine) (w_tx w) ->
  t_enc_nonce t + zlen mine < NONCE_OVERFLOW_LIMIT - NONCE_REKEY_MARGIN ->
  reader_inv fr -> fr_eof fr = false -> pending fr = [] ->
  wf_rx (w_rx w2) -> data_rx (w_rx w2) -> tx_room (length mine) (w_pt_tx w2) ->
  exists t' w' stream,
    drain_plaintext (S (rx_size (w_pt_rx w))) 0 t w = Some ((Go, t'), w') /\ w_out w' = w_out w ++ stream /\
    (fst (rx_flow (w_rx w2)) = stream ->
     exists fr' t2' w2', receive (S (rx_size (w_rx w2))) fr t2 w2 = Some ((Go, fr', t2'), w2') /\
       w_pt_out w2' = w_pt_out w2 ++ concat mine).
Proof.
  intros Hl Hp i t t2 w w2 fr rest mine Hi Hi2 Hk Hn Hrx Htx Hlim Hfr He Hpe Hw2 Hd2 Hr2.
  assert (Forall (fun p => p <> [] /\ wf_bytes p /\ zlen p <= FRAME_MAX_PAYLOAD) mine /\ (length mine <= length packets)%nat) as [Hm Hml].
  { subst mine. clear - Hp. revert packets Hp. unfold share. induction readers as [|j readers IH]; intros [|p packets] Hp; cbn; try (split; [constructor|lia]).
    apply Forall_cons in Hp as [Hp Hps]. destruct (IH packets Hps) as [H1 H2]. destruct (decide (j = i)); cbn; (split; [by try constructor|lia]). }
  destruct (mirrored_carries t t2 Hi Hi2 Hk Hn mine rest w w2 fr) as (t' & w' & stream & H1 & H2 & H3); try done.
  { clearbody mine. clear - Hl Hml. lia. }
  exists t', w', stream. split_and!; [done..|]. intros Hs. destruct (H3 Hs) as (fr' & t2' & w2' & ? & ? & _). by exists fr', t2', w2'.
Qed.

(** A packet for 10.0.0.2 that the kernel gives to the child of 10.0.0.3. *)
Definition packet_for_2 : bytes := [69; 0; 0; 20] ++ zeros 8 ++ [10; 0; 0; 1] ++ [10; 0; 0; 2].

Example misdelivered : ip_dst_addr packet_for_2 = 10 * 2 ^ 24 + 2 /\ share 1 [1%nat] [packet_for_2] = [packet_for_2] /\
  share 0 [1%nat] [packet_for_2] = [].
Proof. vm_compute. done. Qed.
