(* ===== verification/Cli.v ===== *)
(** * The command line (main.c, config_mgmt.c)

    The options as [getopt] reads them, the subcommands of [main], [peer list]
    and [tun down], and the commands one after the other as the usage text
    recommends them.  Arguments are strings; [entries] is what [readdir] gives
    for a directory, in its order. *)

From Stdlib Require Import Ascii.
From stdpp Require Import sets gmap.
From S2P Require Import Prelude Util Keyfile IniConfig ConfDoc ConfigMgmt CreateTun Main Start Tun.

(** ** getopt *)

Definition ch (a : Ascii.ascii) : Z := Z.of_N (Ascii.N_of_ascii a).
#[global] Arguments ch a%_char_scope.

Inductive opt_spec := Flag (x : option_t) | WithArg (f : bytes -> option_t).

(** ["l:r:P:Q:C:c:m:t:x:K:T:I:N:R:W:M:Uvh"] and what the switch does with each. *)
Definition optstring : list (Z * opt_spec) :=
  [(ch "l", WithArg OptL); (ch "r", WithArg OptR); (ch "P", WithArg OptP); (ch "Q", WithArg OptQ);
   (ch "C", WithArg OptC); (ch "c", WithArg OptC); (ch "m", WithArg OptMode); (ch "t", WithArg OptT);
   (ch "x", WithArg OptX); (ch "K", WithArg OptK); (ch "T", WithArg OptTun); (ch "I", WithArg OptI);
   (ch "N", WithArg OptN); (ch "R", WithArg OptRoute); (ch "W", WithArg OptW); (ch "M", WithArg OptM);
   (ch "U", Flag OptU); (ch "v", Flag OptV); (ch "h", Flag OptH)].

Definition lookup_opt (c : Z) : option opt_spec := snd <$> List.find (fun x => fst x =? c) optstring.

(** The characters of one word after its dash: [others] is what the words after
    it give, [next f] the same when the option [f] takes the next word. *)
Fixpoint cluster (others : list option_t) (next : (bytes -> option_t) -> list option_t) (cs : bytes) : list option_t :=
  match cs with
  | [] => others
  | c :: cs' =>
      match lookup_opt c with
      | None => [OptBad]
      | Some (Flag x) => x :: cluster others next cs'
      | Some (WithArg f) => match cs' with [] => next f | _ => f cs' :: others end
      end
  end.

(** The successive results of [getopt] on [argv\[1\]], ...: clusters of flags,
    arguments joined or in the next word, words that are no options skipped,
    ["--"] ending the options.  After [OptBad] the program returns, so that
    what [getopt] would give next does not matter. *)
Fixpoint getopt (args : list bytes) : list option_t :=
  match args with
  | [] => []
  | a :: rest =>
      if bool_decide (a = [45; 45]) then []
      else match a with
           | d :: c :: cs =>
               if negb (d =? 45) then getopt rest
               else cluster (getopt rest) (fun f => match rest with [] => [OptBad] | v :: rest' => f v :: getopt rest' end) (c :: cs)
           | _ => getopt rest
           end
  end.

(** ** Subcommands *)

Inductive command :=
  | Keygen | Status | TunDown (name : string) | PeerList | PeerAdd (name key : string) | PeerDelete (name : string)
  | CreateTun (server : bool) | Usage | Run (start_force socks5_force : Z) (args : list string).

Definition role_of (a : string) : option Z :=
  if String.eqb a "-server" then Some 1 else if String.eqb a "-client" then Some 2 else None.

(** The test for [socks5], made on the arguments that [start tun] has left. *)
Definition socks5_cmd (start_force : Z) (args : list string) : command :=
  match args with
  | a :: r :: rest =>
      if String.eqb a "socks5"
      then match role_of r with None => Usage | Some f => Run start_force f rest end
      else Run start_force 0 args
  | _ => Run start_force 0 args
  end.

Definition peer_cmd (rest : list string) : command :=
  match rest with
  | [] => Usage
  | a :: rest' =>
      if String.eqb a "list" then PeerList
      else match rest' with
           | n :: k :: _ => if String.eqb a "add" then PeerAdd n k else if String.eqb a "delete" then PeerDelete n else Usage
           | [n] => if String.eqb a "delete" then PeerDelete n else Usage
           | [] => Usage
           end
  end.

(** [args] are [argv\[1\]], ... *)
Definition subcommand (args : list string) : command :=
  match args with
  | [] => Run 0 0 []
  | a :: rest =>
      if String.eqb a "keygen" then Keygen
      else if String.eqb a "status" then Status
      else if String.eqb a "tun" && String.eqb (nth 0 rest "") "down" then TunDown (nth 1 rest "tun0")
      else if String.eqb a "peer" && negb (bool_decide (rest = [])) then peer_cmd rest
      else match rest with
           | t :: r :: rest' =>
               if String.eqb a "create" && String.eqb t "tun" then
                 match role_of r with None => Usage | Some f => CreateTun (f =? 1) end
               else if String.eqb a "start" && String.eqb t "tun" then
                 match role_of r with None => Usage | Some f => socks5_cmd f rest' end
               else socks5_cmd 0 args
           | _ => socks5_cmd 0 args
           end
  end.

(** ** Directories *)

(** The name without [.pub], if there is one in front of it. *)
Definition pub_name (n : string) : option string :=
  let len := String.length n in
  if (4 <? len)%nat && String.eqb (String.substring (len - 4) 4 n) ".pub" then Some (String.substring 0 (len - 4) n) else None.

Definition hidden (n : string) : bool :=
  match n with String c _ => bool_decide (c = ".")%char | EmptyString => false end.

(** The names [peer list] prints; [None] if there is no directory. *)
Definition cmd_peer_list (entries : option (list string)) : list string :=
  omap (fun n => if hidden n then None else pub_name n) (default [] entries).

(** [status]: whether there is a key directory and, if so, each of the two key
    files; then the list of peers. *)
Definition cmd_status (home : string) (has_dir : bool) (entries : option (list string)) (fs : filesystem)
    : option (bool * bool) * list string :=
  let there p := bool_decide (is_Some (fs !! (snp 768 (key_dir home ++ p)))) in
  (if has_dir then Some (there "/private.key", there "/public.key") else None, cmd_peer_list entries).

(** The key file that the start-up takes when no peer is configured: the last
    one [readdir] gives. *)
Definition found_peer (home : string) (entries : option (list string)) : option path :=
  last (omap (fun n => (fun _ => snp 768 (peer_dir home ++ "/" ++ n)) <$> pub_name n) (default [] entries)).

Definition cmd_tun_down (ok : list argv -> argv -> bool) (name : bytes) (log : list argv) : list argv :=
  snd (fold_left (fun x a => run_cmdv_quiet ok a (snd x))
    [words ["ip"; "route"; "flush"; "table"; "51820"];
     words ["ip"; "rule"; "del"; "not"; "fwmark"; "51820"; "table"; "51820"];
     words ["ip"; "rule"; "del"; "not"; "fwmark"; "51820"; "table"; "main"];
     words ["ip"; "rule"; "del"; "fwmark"; "51820"; "table"; "main"];
     words ["ip"; "link"; "del"] ++ [name];
     words ["iptables"; "-t"; "nat"; "-F"; "POSTROUTING"];
     words ["iptables"; "-F"; "FORWARD"]] ((), log)).

(** ** main *)

Inductive result :=
  | Done (code : Z) (fs : filesystem)
  | Listed (names : list string)
  | StatusIs (x : option (bool * bool) * list string)
  | Commands (log : list argv)
  | Started (x : outcome (launch * bytes * peers_t)).

Section main.
Context (env : fs_env) (home : string) (iface : bytes) (pid : string) (keypair : option (bytes * bytes)).
Context (ok : list argv -> argv -> bool) (entries : option (list string)) (has_dir : bool).

Definition done_of (x : Z * filesystem) : result := Done (fst x) (snd x).

Definition main (args : list string) (fs : filesystem) : result :=
  match subcommand args with
  | Keygen => done_of (cmd_keygen env home iface keypair fs)
  | Status => StatusIs (cmd_status home has_dir entries fs)
  | PeerList => Listed (cmd_peer_list entries)
  | TunDown name => Commands (cmd_tun_down ok (ascii_bytes name) [])
  | PeerAdd n k => done_of (cmd_peer_add env home iface n k fs)
  | PeerDelete n => done_of (cmd_peer_delete env home pid n fs)
  | CreateTun s => done_of (cmd_create_tun env home iface s [] fs)
  | Usage => Done 1 fs
  | Run start socks args =>
      Started (main_prepare env fs home iface keypair (found_peer home entries) socks start (getopt (map ascii_bytes args)))
  end.
End main.

(** ** Options are read back *)

(** What people write: a word that is no option, a cluster of flags, or flags
    with an option that takes an argument, joined or in the next word. *)
Inductive item :=
  | Word (a : bytes)
  | Flags (xs : list (Z * option_t))
  | FlagsArg (xs : list (Z * option_t)) (c : Z) (f : bytes -> option_t) (v : bytes) (joined : bool).

Definition is_flag (x : Z * option_t) : Prop := lookup_opt (fst x) = Some (Flag (snd x)).

Definition item_ok (i : item) : Prop :=
  match i with
  | Word a => match a with d :: _ :: _ => d <> 45 | _ => True end
  | Flags xs => xs <> [] /\ Forall is_flag xs
  | FlagsArg xs c f v joined => Forall is_flag xs /\ lookup_opt c = Some (WithArg f) /\ (joined = true -> v <> [])
  end.

Definition item_words (i : item) : list bytes :=
  match i with
  | Word a => [a]
  | Flags xs => [45 :: map fst xs]
  | FlagsArg xs c f v true => [45 :: map fst xs ++ c :: v]
  | FlagsArg xs c f v false => [45 :: map fst xs ++ [c]; v]
  end.

Definition item_opts (i : item) : list option_t :=
  match i with Word _ => [] | Flags xs => map snd xs | FlagsArg xs _ f v _ => map snd xs ++ [f v] end.

Lemma no_dash_opt : lookup_opt 45 = None.
Proof. reflexivity. Qed.

Lemma cluster_flags xs others next cs : Forall is_flag xs ->
  cluster others next (map fst xs ++ cs) = map snd xs ++ cluster others next cs.
Proof. induction 1 as [|x xs Hx _ IH]; [done|]. simpl. by rewrite Hx, IH. Qed.

(** A word that starts with a dash and an option. *)
Lemma getopt_dash c cs rest : c <> 45 ->
  getopt ((45 :: c :: cs) :: rest) =
  cluster (getopt rest) (fun f => match rest with [] => [OptBad] | v :: rest' => f v :: getopt rest' end) (c :: cs).
Proof. intros Hc. cbn [getopt]. rewrite bool_decide_eq_false_2 by congruence. reflexivity. Qed.

Lemma lookup_not_dash c x : lookup_opt c = Some x -> c <> 45.
Proof. intros H ->. by rewrite no_dash_opt in H. Qed.

Lemma getopt_item i args : item_ok i -> getopt (item_words i ++ args) = item_opts i ++ getopt args.
Proof.
  destruct i as [a|xs|xs c f v joined]; cbn [item_ok item_words item_opts].
  - destruct a as [|d [|c cs]]; intros Ha; [reflexivity| |].
    + cbn [app getopt]. by rewrite bool_decide_eq_false_2.
    + cbn [app getopt]. rewrite bool_decide_eq_false_2 by congruence. apply Z.eqb_neq in Ha. by rewrite Ha.
  - intros [Hne Hxs]. destruct xs as [|x xs]; [done|]. pose proof (Forall_inv Hxs) as Hx. cbn [app map].
    rewrite getopt_dash by (by eapply lookup_not_dash). change (fst x :: map fst xs) with (map fst (x :: xs)).
    by rewrite <- (app_nil_r (map fst _)), cluster_flags.
  - intros (Hxs & Hc & Hj).
    assert (forall cs rest, getopt ((45 :: map fst xs ++ c :: cs) :: rest) =
      map snd xs ++ match cs with [] => match rest with [] => [OptBad] | v :: rest' => f v :: getopt rest' end
                                | _ => f cs :: getopt rest end) as Hw.
    { intros cs rest. transitivity (cluster (getopt rest)
        (fun f => match rest with [] => [OptBad] | v :: rest' => f v :: getopt rest' end) (map fst xs ++ c :: cs)).
      - destruct xs as [|x xs]; cbn [app map]; apply getopt_dash; [by eapply lookup_not_dash|].
        pose proof (Forall_inv Hxs). by eapply lookup_not_dash.
      - rewrite cluster_flags by done. cbn [cluster]. by rewrite Hc. }
    destruct joined; cbn [app].
    + rewrite Hw, <- app_assoc. destruct v as [|b v]; [by destruct Hj|done].
    + by rewrite Hw, <- app_assoc.
Qed.

(** [getopt] as [main] uses it reads a command line back.  Whatever mixture
    of clusters, joined and separate arguments and words that are no options a
    user writes, the options come out in order with their arguments, even an
    argument that looks like an option. *)
Theorem getopt_reads items :
  Forall item_ok items -> getopt (concat (map item_words items)) = concat (map item_opts items).
Proof. induction 1 as [|i items Hi _ IH]; [done|]. cbn [map concat]. by rewrite getopt_item, IH. Qed.

Lemma getopt_reads_witness :
  getopt (map ascii_bytes ["server"; "-vl"; "-5"; "-Kx"; "-"; "-U"]) = [OptV; OptL (ascii_bytes "-5"); OptK (ascii_bytes "x"); OptU].
Proof.
  apply (getopt_reads [Word (ascii_bytes "server"); FlagsArg [(ch "v", OptV)] (ch "l") OptL (ascii_bytes "-5") false;
    FlagsArg [] (ch "K") OptK (ascii_bytes "x") true; Word (ascii_bytes "-"); Flags [(ch "U", OptU)]]).
  repeat constructor; discriminate.
Defined.

(** ** Taking the device down by hand *)

(** [tun down] runs exactly the commands with which the server takes its
    device down. *)
Lemma tun_down_is_teardown ok name log : cmd_tun_down ok name log = snd (tun_teardown ok name true log).
Proof. reflexivity. Qed.

(** ** The list of peers *)

(** Which files a command can change. *)
Definition touches (ps : list path) (fs fs' : filesystem) : Prop := forall q, q ∉ ps -> fs' !! q = fs !! q.

Lemma touches_refl ps fs : touches ps fs fs.
Proof. by intros q _. Qed.

Lemma touches_trans ps fs1 fs2 fs3 : touches ps fs1 fs2 -> touches ps fs2 fs3 -> touches ps fs1 fs3.
Proof. intros H1 H2 q Hq. by rewrite H2, H1. Qed.

Lemma touches_weaken ps qs fs fs' : ps ⊆ qs -> touches ps fs fs' -> touches qs fs fs'.
Proof. intros Hs H q Hq. apply H. set_solver. Qed.

Lemma write_file_frame env p d fs :
  touches [p] fs (snd (sys_write_file env p d fs)) /\ (is_Some (snd (sys_write_file env p d fs) !! p) <-> is_Some (fs !! p)).
Proof.
  unfold sys_write_file. destruct (write_takes env p) as [n|]; simpl; [|split; [apply touches_refl|done]]. split.
  - intros q Hq. rewrite lookup_alter_ne by set_solver. done.
  - rewrite lookup_alter_eq. by rewrite fmap_is_Some.
Qed.

Lemma open_trunc_frame env p m fs fs' : open_trunc env p m fs = Some fs' -> touches [p] fs fs' /\ is_Some (fs' !! p).
Proof.
  unfold open_trunc. destruct (negb _); [done|]. intros H. destruct (fs !! p); simplify_eq; split;
    try (rewrite lookup_insert_eq; eauto); intros q Hq; rewrite lookup_insert_ne by set_solver; done.
Qed.

Lemma write_text_frame env p d fs fs' : write_text env p d fs = Some fs' -> touches [p] fs fs' /\ is_Some (fs' !! p).
Proof.
  unfold write_text. destruct (open_trunc env p 438 fs) as [fs1|] eqn:E; [|done]. intros [= <-].
  destruct (open_trunc_frame _ _ _ _ _ E) as [H1 H2]. destruct (write_file_frame env p d fs1) as [H3 H4].
  split; [by eapply touches_trans|by apply H4].
Qed.

Lemma append_text_frame env p d fs fs' : append_text env p d fs = Some fs' -> touches [p] fs fs'.
Proof.
  unfold append_text. destruct (negb _); [done|]. set (fs1 := match fs !! p with Some _ => fs | None => _ end). intros [= <-].
  assert (touches [p] fs fs1) as H1.
  { subst fs1. destruct (fs !! p); [apply touches_refl|]. intros q Hq. by rewrite lookup_insert_ne by set_solver. }
  eapply touches_trans; [exact H1|]. apply write_file_frame.
Qed.

Lemma store_key_frame env home host key fs fs1 : store_key env home host key fs = (0, fs1) ->
  touches [peer_path home host] fs fs1 /\ is_Some (fs1 !! peer_path home host).
Proof.
  unfold store_key. destruct (_ || _).
  - destruct (fopen_r env key fs); [|done]. destruct (open_trunc _ _ _ fs) as [fs2|] eqn:E; [|done].
    destruct (open_trunc_frame _ _ _ _ _ E) as [H1 H2]. destruct (fopen_r env key fs2) as [d|]; intros [= <-]; [|done].
    destruct (write_file_frame env (peer_path home host) d fs2) as [H3 H4]. split; [by eapply touches_trans|by apply H4].
  - destruct (negb _); [done|]. destruct (write_text _ _ _ fs) as [fs2|] eqn:E; [|done]. intros [= <-].
    by eapply write_text_frame.
Qed.

Lemma peer_add_frame env home iface host key fs fs' : cmd_peer_add env home iface host key fs = (0, fs') ->
  peer_path home host <> CONF ->
  touches [peer_path home host; CONF] fs fs' /\ is_Some (fs' !! peer_path home host).
Proof.
  intros H Hne. unfold cmd_peer_add in H. destruct (store_key _ _ _ _ fs) as [r fs1] eqn:E. destruct (r =? 0) eqn:Er; [|done].
  zbool. subst r. destruct (store_key_frame _ _ _ _ _ _ E) as [H1 H2]. simpl in H. apply (f_equal snd) in H. simpl in H. subst fs'.
  assert (touches [CONF] fs1 (ensure_conf env home iface fs1)) as H3.
  { unfold ensure_conf. destruct (fs1 !! CONF); [apply touches_refl|].
    destruct (write_text _ _ _ fs1) as [fs2|] eqn:E2; [by eapply write_text_frame|apply touches_refl]. }
  set (fs2 := ensure_conf _ _ _ fs1) in *.
  assert (touches [CONF] fs2 (add_to_conf env home host fs2)) as H4.
  { unfold add_to_conf. destruct (read_key_text _ _ _); [apply touches_refl|]. match goal with |- touches _ _ (if ?b then _ else _) => destruct b end; [apply touches_refl|].
    destruct (append_text _ _ _ fs2) as [fs3|] eqn:E2; [by eapply append_text_frame|apply touches_refl]. }
  pose proof (touches_trans _ _ _ _ H3 H4) as H5. split.
  - eapply touches_trans; [eapply touches_weaken; [|exact H1]|eapply touches_weaken; [|exact H5]]; set_solver.
  - rewrite (H5 (peer_path home host)) by set_solver. done.
Qed.

Lemma peer_delete_frame env home pid name fs fs' :
  let p := snp 768 (home ++ "/.aegis-tunnel/peers/" ++ name ++ ".pub") in
  let tmp := snp 768 ("aegis.conf." ++ pid) in
  cmd_peer_delete env home pid name fs = (0, fs') -> p <> CONF -> p <> tmp ->
  touches [p; CONF; tmp] fs fs' /\ fs' !! p = None.
Proof.
  intros p tmp H Hc Ht. unfold cmd_peer_delete in H. fold p tmp in H. destruct (fs !! p) as [kf|]; [|done]. unfold unlink in H.
  assert (touches [p; CONF; tmp] fs (delete p fs)) as H1 by (intros q Hq; rewrite lookup_delete_ne by set_solver; done).
  assert (delete p fs !! p = None) as H2 by apply lookup_delete_eq. set (fs1 := delete p fs) in *.
  destruct (fs1 !! CONF) as [cf|]; [|by simplify_eq]. destruct (fopen_r env CONF fs1) as [d|]; [|by simplify_eq].
  destruct (write_text _ tmp _ fs1) as [fs2|] eqn:E; [|by simplify_eq]. apply (f_equal snd) in H. simpl in H. subst fs'.
  destruct (write_text_frame _ _ _ _ _ E) as [H3 H4]. unfold rename.
  assert (touches [p; CONF; tmp] fs fs2) as H5 by (eapply touches_trans; [exact H1|]; eapply touches_weaken; [|exact H3]; set_solver).
  assert (fs2 !! p = None) as H6 by (rewrite (H3 p) by set_solver; done).
  destruct (fs2 !! tmp) as [f|]; [|done]. split.
  - intros q Hq. rewrite lookup_insert_ne, lookup_delete_ne by set_solver. by apply H5.
  - by rewrite lookup_insert_ne, lookup_delete_ne by done.
Qed.

(** [entries] is what [readdir] gives for [dir] (which has no subdirectories). *)
Definition has_slash (n : string) : bool := bool_decide (47 ∈ ascii_bytes n).

Definition readdir_of (fs : filesystem) (dir : path) (entries : list string) : Prop :=
  forall n, n ∈ entries <-> n = "." \/ n = ".." \/ (has_slash n = false /\ is_Some (fs !! (dir ++ "/" ++ n)%string)).

(** A name that [peer list] can show. *)
Definition listable (n : string) : Prop := n <> "" /\ hidden n = false /\ has_slash n = false.

Lemma ascii_bytes_app a b : ascii_bytes (a ++ b)%string = ascii_bytes a ++ ascii_bytes b.
Proof. unfold ascii_bytes. induction a as [|c a IH]; [done|]. simpl. by rewrite IH. Qed.

Lemma substring_split k : forall m, (k <= String.length m)%nat ->
  (String.substring 0 k m ++ String.substring k (String.length m - k) m)%string = m.
Proof.
  induction k as [|k IH]; intros [|c m] Hk; [done| |simpl in Hk; lia|].
  - change (String.substring 0 0 (String c m)) with "". rewrite Nat.sub_0_r. by apply substring_whole.
  - simpl in Hk. specialize (IH m). cbn [String.substring String.length]. rewrite Nat.sub_succ.
    exact (f_equal (String c) (IH ltac:(lia))).
Qed.

Lemma pub_name_app n : n <> "" -> pub_name (n ++ ".pub")%string = Some n.
Proof.
  intros Hn. unfold pub_name. rewrite length_string_app. change (String.length ".pub") with 4%nat.
  rewrite Nat.add_sub. assert (0 < String.length n)%nat by (destruct n; [done|simpl; lia]).
  rewrite (proj2 (Nat.ltb_lt _ _)) by lia.
  assert (forall k m, String.substring (String.length k) (String.length m) (k ++ m) = m) as H1.
  { induction k as [|c k IH]; intros m; [simpl; by apply substring_whole|simpl; apply IH]. }
  assert (forall k m, String.substring 0 (String.length k) (k ++ m) = k) as H2.
  { induction k as [|c k IH]; intros m; [by destruct m|simpl; by rewrite IH]. }
  change 4%nat with (String.length ".pub"). by rewrite H1, H2.
Qed.

Lemma pub_name_inv m n : pub_name m = Some n -> m = (n ++ ".pub")%string /\ n <> "".
Proof.
  unfold pub_name. destruct (4 <? String.length m)%nat eqn:E; [|done]. apply Nat.ltb_lt in E. simpl.
  destruct (String.eqb_spec (String.substring (String.length m - 4) 4 m) ".pub") as [E2|]; [|done]. intros [= <-].
  pose proof substring_split as Hs.
  split.
  - rewrite <- (Hs (String.length m - 4)%nat m) at 1 by lia. do 2 f_equal. rewrite <- E2. f_equal. lia.
  - intros H0. pose proof (f_equal String.length (Hs (String.length m - 4)%nat m ltac:(lia))) as HL.
    rewrite length_string_app, H0 in HL. replace (String.length m - (String.length m - 4))%nat with 4%nat in HL by lia.
    rewrite E2 in HL. simpl in HL. lia.
Qed.

Lemma peer_list_spec fs dir es n : readdir_of fs dir es ->
  n ∈ cmd_peer_list (Some es) <-> listable n /\ is_Some (fs !! (dir ++ "/" ++ n ++ ".pub")%string).
Proof.
  intros Hes. unfold cmd_peer_list. rewrite list_elem_of_omap. split.
  - intros (m & Hm & Hp). destruct (hidden m) eqn:Eh; [done|]. apply pub_name_inv in Hp as [-> Hn].
    assert (hidden n = false) as Hh by (by destruct n).
    apply Hes in Hm as [Hm|[Hm|[Hs Hf]]].
    + apply (f_equal String.length) in Hm. rewrite length_string_app in Hm. simpl in Hm. lia.
    + apply (f_equal String.length) in Hm. rewrite length_string_app in Hm. simpl in Hm. lia.
    + split; [|done]. split_and!; try done. unfold has_slash in *. rewrite ascii_bytes_app in Hs.
      apply bool_decide_eq_false in Hs. apply bool_decide_eq_false. intros H. apply Hs, elem_of_app. by left.
  - intros [(Hn & Hh & Hs) Hf]. exists (n ++ ".pub")%string. split.
    + apply Hes. right. right. split; [|done]. unfold has_slash in *. rewrite ascii_bytes_app.
      apply bool_decide_eq_false in Hs. apply bool_decide_eq_false. intros [H|H]%elem_of_app; [done|]. set_solver.
    + assert (hidden (n ++ ".pub")%string = false) as -> by (by destruct n). by apply pub_name_app.
Qed.

(** With a short home directory all names meet in the same file. *)
Lemma peer_path_in_dir home host : (String.length home + String.length host <= 700)%nat ->
  peer_path home host = (peer_dir home ++ "/" ++ host ++ ".pub")%string.
Proof.
  intros Hl. unfold peer_path, snp at 1. apply substring_whole. unfold peer_dir, key_dir, snp.
  rewrite (substring_whole (home ++ _)) by (rewrite length_string_app; simpl; lia).
  rewrite (substring_whole (_ ++ "/peers")) by (rewrite !length_string_app; simpl; lia).
  rewrite !length_string_app. simpl. lia.
Qed.

Lemma slash_dir dir n : has_slash (dir ++ "/" ++ n)%string = true.
Proof. unfold has_slash. rewrite !ascii_bytes_app. apply bool_decide_eq_true. set_solver. Qed.

Lemma has_slash_snp k s : has_slash s = false -> has_slash (snp k s) = false.
Proof.
  unfold has_slash, snp. intros H%bool_decide_eq_false. apply bool_decide_eq_false. contradict H.
  revert s H. generalize (k - 1)%nat. intros j. unfold ascii_bytes.
  induction j as [|j IH]; intros [|c s] H; [set_solver..|]. simpl in *.
  apply elem_of_cons in H as [H|H]; apply elem_of_cons; [by left|right; by apply IH].
Qed.

Lemma app_inj_l (a b c : string) : (a ++ b)%string = (a ++ c)%string -> b = c.
Proof. induction a as [|x a IH]; [done|]. simpl. intros [= H]. by apply IH. Qed.

Lemma app_inj_r (a b c : string) : (a ++ c)%string = (b ++ c)%string -> a = b.
Proof.
  intros H. assert (String.length a = String.length b) as Hl.
  { apply (f_equal String.length) in H. rewrite !length_string_app in H. lia. }
  revert b H Hl. induction a as [|x a IH]; intros [|y b] H Hl; try done. simpl in *. injection H as -> H. f_equal. apply IH; [done|lia].
Qed.

(** [peer list] shows what [peer add] and [peer delete] did: after a peer
    has been added under a name (whatever the key and the rest of the file
    system) the list has that name and the names it had; after it has been
    deleted again, the names it had without that one. *)
Theorem peer_list_tracks env home iface pid host key fs fs1 fs2 es es1 es2 :
  listable host -> has_slash pid = false -> (String.length home + String.length host <= 700)%nat ->
  readdir_of fs (peer_dir home) es -> readdir_of fs1 (peer_dir home) es1 -> readdir_of fs2 (peer_dir home) es2 ->
  cmd_peer_add env home iface host key fs = (0, fs1) -> cmd_peer_delete env home pid host fs1 = (0, fs2) ->
  forall n, (n ∈ cmd_peer_list (Some es1) <-> n = host \/ n ∈ cmd_peer_list (Some es)) /\
            (n ∈ cmd_peer_list (Some es2) <-> n <> host /\ n ∈ cmd_peer_list (Some es)).
Proof.
  intros Hh Hpid Hlen He He1 He2 Hadd Hdel n. rewrite !peer_list_spec by done.
  assert (has_slash (snp 768 ("aegis.conf." ++ pid)%string) = false) as Htmp.
  { apply has_slash_snp. unfold has_slash in *. rewrite ascii_bytes_app. apply bool_decide_eq_false in Hpid.
    apply bool_decide_eq_false. intros [H|H]%elem_of_app; [|done]. revert H. set_solver. }
  set (tmp := snp 768 ("aegis.conf." ++ pid)%string) in *. set (file := fun n => (peer_dir home ++ "/" ++ n ++ ".pub")%string).
  assert (forall n, file n <> CONF /\ file n <> tmp) as Hne.
  { intros m. assert (has_slash (file m) = true) as Hs by apply slash_dir. split; intros E; rewrite E in Hs; [done|congruence]. }
  assert (forall m, m <> host -> file m <> file host) as Hinj.
  { intros m Hm E. apply app_inj_l, app_inj_l, app_inj_r in E. done. }
  assert (peer_path home host = file host) as Hp by by apply peer_path_in_dir.
  apply peer_add_frame in Hadd as [T1 S1]; [|rewrite Hp; apply Hne].
  apply peer_delete_frame in Hdel as [T2 S2]; rewrite <- ?peer_path_short, ?Hp in * by done; try apply Hne.
  fold (file n). destruct (decide (n = host)) as [->|Hn].
  - split; [split; [by left|done]|]. rewrite S2. split; [intros [_ [? [=]]]|by intros [? _]].
  - destruct (Hne n) as [N1 N2]. pose proof (Hinj n Hn) as N3.
    rewrite (T2 (file n)), (T1 (file n)) by set_solver. split; split; naive_solver.
Qed.

(** *** Example: a peer is added to an empty machine and deleted again *)

Definition added : filesystem := snd (cmd_peer_add env0 "/root" (ascii_bytes "eth0") "alice" hex0 ∅).
Definition deleted : filesystem := snd (cmd_peer_delete env0 "/root" "17" "alice" added).

Lemma demo_add : cmd_peer_add env0 "/root" (ascii_bytes "eth0") "alice" hex0 ∅ = (0, added).
Proof. vm_compute. reflexivity. Qed.

Lemma demo_delete : cmd_peer_delete env0 "/root" "17" "alice" added = (0, deleted).
Proof. vm_compute. reflexivity. Qed.

Lemma demo_path n : n <> "alice.pub" -> (peer_dir "/root" ++ "/" ++ n)%string ∉ [peer_path "/root" "alice"; CONF].
Proof.
  intros Hn. rewrite peer_path_in_dir by (vm_compute; lia).
  assert ((peer_dir "/root" ++ "/" ++ n)%string <> CONF) by (vm_compute; discriminate).
  assert ((peer_dir "/root" ++ "/" ++ n)%string <> (peer_dir "/root" ++ "/" ++ "alice" ++ ".pub")%string).
  { intros E. apply app_inj_l, app_inj_l in E. done. }
  set_solver.
Qed.

Lemma readdir_added : readdir_of added (peer_dir "/root") ["."; ".."; "alice.pub"].
Proof.
  intros n. rewrite !elem_of_cons, elem_of_nil. destruct (decide (n = "alice.pub")) as [->|Hn].
  - split; [|intros _; right; right; left; done]. intros _. right. right. split; [reflexivity|]. vm_compute. eauto.
  - destruct (peer_add_frame _ _ _ _ _ _ _ demo_add) as [H _]; [vm_compute; discriminate|].
    rewrite (H (peer_dir "/root" ++ "/" ++ n)%string) by by apply demo_path. rewrite lookup_empty, is_Some_alt. clear H. naive_solver.
Qed.

Lemma readdir_deleted : readdir_of deleted (peer_dir "/root") ["."; ".."].
Proof.
  destruct (peer_delete_frame _ _ _ _ _ _ demo_delete) as [H H0]; [vm_compute; discriminate..|].
  intros n. rewrite !elem_of_cons, elem_of_nil. destruct (decide (n = "alice.pub")) as [->|Hn].
  - split; [intros [E|[E|E]]; [discriminate E..|destruct E]|]. intros [E|[E|[_ E]]]; [discriminate E..|]. change (peer_dir "/root" ++ "/" ++ "alice.pub")%string with
      (snp 768 ("/root" ++ "/.aegis-tunnel/peers/" ++ "alice" ++ ".pub")) in E. rewrite H0 in E. by destruct E.
  - rewrite H.
    + destruct (peer_add_frame _ _ _ _ _ _ _ demo_add) as [H1 _]; [vm_compute; discriminate|].
      rewrite (H1 (peer_dir "/root" ++ "/" ++ n)%string) by by apply demo_path. rewrite lookup_empty, is_Some_alt. clear H H0 H1. naive_solver.
    + clear H H0. pose proof (demo_path n Hn) as Hp. rewrite peer_path_short in Hp by (vm_compute; lia).
      assert ((peer_dir "/root" ++ "/" ++ n)%string <> snp 768 ("aegis.conf." ++ "17")) by (vm_compute; discriminate). set_solver.
Qed.

Lemma peer_list_tracks_witness :
  ("alice" ∈ cmd_peer_list (Some ["."; ".."; "alice.pub"]) <-> "alice" = "alice" \/ "alice" ∈ cmd_peer_list (Some ["."; ".."])) /\
  ("alice" ∈ cmd_peer_list (Some ["."; ".."]) <-> "alice" <> "alice" /\ "alice" ∈ cmd_peer_list (Some ["."; ".."])).
Proof.
  apply (peer_list_tracks env0 "/root" (ascii_bytes "eth0") "17" "alice" hex0 ∅ added deleted).
  - by split.
  - reflexivity.
  - vm_compute. lia.
  - intros n. rewrite lookup_empty. set_solver.
  - exact readdir_added.
  - exact readdir_deleted.
  - exact demo_add.
  - exact demo_delete.
Defined.
