(* ===== verification/Keygen.v ===== *)
(** * The key generator program (keygen.c)

    [mkdir_p], which makes a directory and the ones above it, and [main], which
    puts a new key pair into it.  The directories are a set of paths;
    [can_mkdir] says which of them can be made.  [stat] finds exactly the
    directories of the set. *)

From Stdlib Require Import Ascii.
From stdpp Require Import sets gmap.
From S2P Require Import Prelude Util Keyfile IniConfig ConfDoc ConfigMgmt.

(** [stat], and [mkdir] if there is nothing. *)
Definition ensure_dir (can_mkdir : path -> bool) (p : path) (dirs : gset path) : option (gset path) :=
  if bool_decide (p ∈ dirs) then Some dirs else if can_mkdir p then Some ({[p]} ∪ dirs) else None.

(** The loop over the slashes: [js] are the indices still to look at. *)
Fixpoint mkdir_loop (can_mkdir : path -> bool) (p : path) (js : list nat) (dirs : gset path) : option (gset path) :=
  match js with
  | [] => Some dirs
  | i :: js' =>
      if bool_decide (String.get i p = Some "/"%char)
      then dirs1 ← ensure_dir can_mkdir (String.substring 0 i p) dirs; mkdir_loop can_mkdir p js' dirs1
      else mkdir_loop can_mkdir p js' dirs
  end.

Definition mkdir_p (can_mkdir : path -> bool) (p : path) (dirs : gset path) : option (gset path) :=
  let len := String.length p in
  if (512 <=? len)%nat || (len =? 0)%nat then None
  else dirs1 ← mkdir_loop can_mkdir p (seq 1 (len - 1)) dirs; ensure_dir can_mkdir p dirs1.

(** [argv\[1\]] or the current directory; the exit code, the directories and
    the files. *)
Definition keygen_main (env : fs_env) (can_mkdir : path -> bool) (keypair : option (bytes * bytes)) (arg : option string)
    (dirs : gset path) (fs : filesystem) : Z * gset path * filesystem :=
  let dir := default "." arg in
  match mkdir_p can_mkdir dir dirs with
  | None => (1, dirs, fs)
  | Some dirs1 =>
      let '(r, fs1) := keyfile_generate env keypair (snp 512 (dir ++ "/private.key")) (snp 512 (dir ++ "/public.key")) fs in
      (if negb (r =? 0) then 1 else 0, dirs1, fs1)
  end.

(** ** Directories *)

(** What [mkdir -p] has to make. *)
Definition above (p q : path) : Prop := q = p \/ exists i, (0 < i < String.length p)%nat /\ String.get i p = Some "/"%char /\ q = String.substring 0 i p.

Lemma ensure_dir_spec can_mkdir p dirs dirs' : ensure_dir can_mkdir p dirs = Some dirs' ->
  forall q, q ∈ dirs' <-> q ∈ dirs \/ q = p.
Proof. unfold ensure_dir. case_bool_decide; [intros [= <-]; set_solver|]. destruct (can_mkdir p); [|done]. intros [= <-]. set_solver. Qed.

Lemma ensure_dir_runs can_mkdir p dirs : can_mkdir p = true -> is_Some (ensure_dir can_mkdir p dirs).
Proof. unfold ensure_dir. intros ->. case_bool_decide; eauto. Qed.

Lemma mkdir_loop_spec can_mkdir p js : forall dirs dirs', mkdir_loop can_mkdir p js dirs = Some dirs' ->
  forall q, q ∈ dirs' <-> q ∈ dirs \/ exists i, i ∈ js /\ String.get i p = Some "/"%char /\ q = String.substring 0 i p.
Proof.
  induction js as [|i js IH]; intros dirs dirs'; cbn [mkdir_loop]; [intros [= <-] q; set_solver|].
  case_bool_decide as Hc.
  - intros (dirs1 & H1 & H2)%bind_Some q. rewrite (IH _ _ H2 q), (ensure_dir_spec _ _ _ _ H1 q). set_solver.
  - intros H q. rewrite (IH _ _ H q). set_solver.
Qed.

Lemma mkdir_loop_runs can_mkdir p js : (forall q, can_mkdir q = true) -> forall dirs, is_Some (mkdir_loop can_mkdir p js dirs).
Proof.
  intros Hc. induction js as [|i js IH]; intros dirs; cbn [mkdir_loop]; [eauto|]. case_bool_decide; [|apply IH].
  destruct (ensure_dir_runs can_mkdir (String.substring 0 i p) dirs (Hc _)) as [dirs1 ->]. apply IH.
Qed.

(** [mkdir_p] makes exactly the directory and those above it, and fails only
    where the system does or the path is empty or too long. *)
Theorem mkdir_p_spec can_mkdir p dirs :
  (forall dirs', mkdir_p can_mkdir p dirs = Some dirs' -> forall q, q ∈ dirs' <-> q ∈ dirs \/ above p q) /\
  ((0 < String.length p < 512)%nat -> (forall q, can_mkdir q = true) -> is_Some (mkdir_p can_mkdir p dirs)).
Proof.
  unfold mkdir_p. split.
  - intros dirs'. destruct (_ || _); [done|]. intros (dirs1 & H1 & H2)%bind_Some q.
    rewrite (ensure_dir_spec _ _ _ _ H2 q), (mkdir_loop_spec _ _ _ _ _ H1 q). unfold above. setoid_rewrite elem_of_seq. split.
    + intros [[?|(i & Hi & Hg & ->)]| ->]; [by left| |by right; left]. right. right. exists i. split_and!; [lia|lia|done..].
    + intros [?|[->|(i & Hi & Hg & ->)]]; [by left; left|by right|]. left. right. exists i. split_and!; [lia|lia|done..].
  - intros Hl Hc. rewrite (proj2 (Nat.leb_gt _ _)), (proj2 (Nat.eqb_neq _ _)) by lia. cbn [orb].
    destruct (mkdir_loop_runs can_mkdir p (seq 1 (String.length p - 1)) Hc dirs) as [dirs1 ->]. by apply ensure_dir_runs.
Qed.

(** ** Key pairs *)

Lemma open_write_all env n p mode d fs : roomy env n -> (length d <= n)%nat ->
  exists fs1, open_trunc env p mode fs = Some fs1 /\
    sys_write_file env p d fs1 = (Z.of_nat (length d), <[p := mkFile (new_mode env mode (fs !! p)) d]> fs).
Proof.
  intros R Hd. unfold open_trunc. rewrite (ro_open _ _ R). cbn [negb].
  exists (<[p := mkFile (new_mode env mode (fs !! p)) []]> fs). split; [by destruct (fs !! p)|].
  unfold sys_write_file. destruct (ro_write _ _ R p) as (m & -> & Hm). rewrite take_ge by lia. f_equal.
  apply map_eq. intros q. destruct (decide (q = p)) as [->|].
  - by rewrite lookup_alter_eq, !lookup_insert_eq.
  - by rewrite lookup_alter_ne, !lookup_insert_ne by done.
Qed.

Lemma keyfile_generate_runs env n pub priv p q fs : roomy env n -> (65 <= n)%nat ->
  length pub = 32%nat -> length priv = 32%nat -> p <> q ->
  exists m1 m2, keyfile_generate env (Some (pub, priv)) p q fs =
    (0, <[q := mkFile m2 (hex_text pub ++ [10])]> (<[p := mkFile m1 priv]> fs)).
Proof.
  intros R Hn Hpub Hpriv Hpq. unfold keyfile_generate.
  destruct (open_write_all env n p 384 priv fs R) as (fs1 & -> & ->); [lia|]. rewrite Hpriv. cbn [negb].
  change (Z.of_nat 32 =? 32) with true. cbv match. cbn [negb].
  assert (length (hex_text pub ++ [10]) = 65%nat) as Hl by (rewrite length_app, hex_text_length, Hpub; done).
  match goal with |- context [open_trunc env q 420 ?f] => destruct (open_write_all env n q 420 (hex_text pub ++ [10]) f R) as (fs3 & -> & ->); [lia|] end.
  rewrite Hl. eexists _, _. reflexivity.
Qed.

(** The program leaves a key pair in a directory it has made. *)
Theorem keygen_main_runs env n can_mkdir pub priv arg dirs fs : roomy env n -> (65 <= n)%nat ->
  length pub = 32%nat -> length priv = 32%nat -> (forall q, can_mkdir q = true) ->
  (0 < String.length (default "." arg) < 400)%nat ->
  let dir := default "." arg in
  exists dirs' fs' m1 m2, keygen_main env can_mkdir (Some (pub, priv)) arg dirs fs = (0, dirs', fs') /\ dir ∈ dirs' /\
    fs' !! (dir ++ "/private.key")%string = Some (mkFile m1 priv) /\
    fs' !! (dir ++ "/public.key")%string = Some (mkFile m2 (hex_text pub ++ [10])).
Proof.
  intros R Hn Hpub Hpriv Hc Hl dir. unfold keygen_main. fold dir in Hl |- *.
  destruct (proj2 (mkdir_p_spec can_mkdir dir dirs)) as [dirs' Hd]; [lia|done|]. rewrite Hd.
  assert (forall s, (String.length s <= 50)%nat -> snp 512 (dir ++ s) = (dir ++ s)%string) as Hs.
  { intros s Hs. apply substring_whole. rewrite length_string_app. lia. }
  rewrite !Hs by (simpl; lia).
  assert ((dir ++ "/private.key")%string <> (dir ++ "/public.key")%string) as Hne.
  { intros E. apply (f_equal String.length) in E. rewrite !length_string_app in E. simpl in E. lia. }
  destruct (keyfile_generate_runs env n pub priv _ _ fs R Hn Hpub Hpriv Hne) as (m1 & m2 & ->).
  eexists dirs', _, m1, m2. split_and!; [reflexivity| | |].
  - apply (proj1 (mkdir_p_spec can_mkdir dir dirs) _ Hd). right. by left.
  - by rewrite lookup_insert_ne, lookup_insert_eq by done.
  - apply lookup_insert_eq.
Qed.
