(* ===== verification/Workflow.v ===== *)
(** * From nothing to a running server

    The usage text recommends: keygen, peer add, create tun -server, start tun
    -server.  This file runs these commands one after the other through [main]
    and shows that the server starts with the generated key and the added
    peers. *)

From stdpp Require Import sets gmap.
From S2P Require Import Prelude Util Keyfile IniConfig ConfDoc ConfigMgmt CreateTun Main Start Tun Cli Keygen.

Record new_peer := mkPeer { np_host : string; np_hex : string; np_key : bytes }.

Section shell.
Context (env : fs_env) (home : string) (iface : bytes) (pid : string) (keypair : option (bytes * bytes)).
Context (ok : list argv -> argv -> bool) (entries : option (list string)) (has_dir : bool).

(** Commands joined by [&&]. *)
Fixpoint shell (cmds : list (list string)) (fs : filesystem) : result :=
  match cmds with
  | [] => Done 0 fs
  | c :: cmds' =>
      match main env home iface pid keypair ok entries has_dir c fs with
      | Done code fs' => if code =? 0 then shell cmds' fs' else Done code fs'
      | r => r
      end
  end.

Definition add_cmd (p : new_peer) : list string := ["peer"; "add"; np_host p; np_hex p].

Definition workflow (ps : list new_peer) : list (list string) :=
  [["keygen"]] ++ map add_cmd ps ++ [["create"; "tun"; "-server"]; ["start"; "tun"; "-server"]].
End shell.

(** What the words select. *)
Section words.
Context (env : fs_env) (home : string) (iface : bytes) (pid : string) (keypair : option (bytes * bytes)).
Context (ok : list argv -> argv -> bool) (entries : option (list string)) (has_dir : bool) (fs : filesystem).

Lemma main_keygen : main env home iface pid keypair ok entries has_dir ["keygen"] fs = done_of (cmd_keygen env home iface keypair fs).
Proof. reflexivity. Qed.

Lemma main_add p : main env home iface pid keypair ok entries has_dir (add_cmd p) fs =
  done_of (cmd_peer_add env home iface (np_host p) (np_hex p) fs).
Proof. reflexivity. Qed.

Lemma main_create : main env home iface pid keypair ok entries has_dir ["create"; "tun"; "-server"] fs =
  done_of (cmd_create_tun env home iface true [] fs).
Proof. reflexivity. Qed.

Lemma main_start : main env home iface pid keypair ok entries has_dir ["start"; "tun"; "-server"] fs =
  Started (main_prepare env fs home iface keypair (found_peer home entries) 0 1 []).
Proof. reflexivity. Qed.
End words.

(** ** Paths *)

Definition priv_path (home : string) : path := (home ++ "/.aegis-tunnel" ++ "/private.key")%string.
Definition pub_path (home : string) : path := (home ++ "/.aegis-tunnel" ++ "/public.key")%string.

Lemma key_path home s : (String.length home + String.length s <= 700)%nat ->
  snp 768 (key_dir home ++ s) = (home ++ "/.aegis-tunnel" ++ s)%string.
Proof.
  intros Hl. unfold key_dir, snp. rewrite (substring_whole (home ++ _)) by (rewrite length_string_app; simpl; lia).
  rewrite substring_whole, string_app_assoc; [done|]. rewrite !length_string_app. simpl. lia.
Qed.

Lemma slash_in_home home s : has_slash (home ++ "/.aegis-tunnel" ++ s)%string = true.
Proof. unfold has_slash. rewrite !ascii_bytes_app. apply bool_decide_eq_true. set_solver. Qed.

Lemma slash_neq p q : has_slash p = true -> has_slash q = false -> p <> q.
Proof. congruence. Qed.

(** ** keygen *)

Lemma own_hex_short pub : length pub = 32%nat -> wf_bytes pub -> short (hex_text pub) /\ c_str (hex_text pub) = hex_text pub.
Proof.
  intros Hl Hw. destruct (digits_safe _ (spells_digits _ _ (hex_text_spells _ Hw))) as (_ & _ & Ht & Htr & _ & Hc).
  split; [|done]. split_and!; [done..|]. rewrite hex_text_length. lia.
Qed.

Lemma keygen_runs env n home iface pub priv fs : roomy env n -> (65 <= n)%nat ->
  (length (unlines (base_conf (hex_text pub) iface)) <= n)%nat -> (String.length home <= 600)%nat ->
  length pub = 32%nat -> wf_bytes pub -> length priv = 32%nat ->
  exists fs' m m1 m2, cmd_keygen env home iface (Some (pub, priv)) fs = (0, fs') /\
    fs' !! priv_path home = Some (mkFile m1 priv) /\ fs' !! pub_path home = Some (mkFile m2 (hex_text pub ++ [10])) /\
    fs' !! CONF = Some (mkFile m (unlines (base_conf (hex_text pub) iface))).
Proof.
  intros R Hn Hb Hh Hpub Hwf Hpriv. unfold cmd_keygen. rewrite !key_path by (simpl; lia).
  fold (priv_path home) (pub_path home).
  assert (priv_path home <> pub_path home) as Hne by (intros E%app_inj_l; discriminate E).
  destruct (keyfile_generate_runs env n pub priv (priv_path home) (pub_path home) fs R Hn Hpub Hpriv Hne) as (m1 & m2 & ->).
  cbn [negb Z.eqb]. set (fs1 := <[pub_path home := _]> _).
  assert (read_hex env (pub_path home) fs1 = hex_text pub) as ->.
  { unfold read_hex. rewrite (fopen_r_all _ _ R). unfold fs1. rewrite lookup_insert_eq. cbn [fmap option_fmap option_map f_data].
    rewrite take_app_le, take_ge by (rewrite hex_text_length; lia). by apply own_hex_short. }
  rewrite (write_text_all _ _ R) by done. eexists _, _, m1, m2. split; [reflexivity|].
  assert (forall p, has_slash p = true -> p <> CONF /\ p <> "aegis-server.conf" /\ p <> "aegis-client.conf") as Hs.
  { intros p Hp. split_and!; by eapply slash_neq. }
  destruct (Hs (priv_path home)) as (A1 & A2 & A3); [apply slash_in_home|].
  destruct (Hs (pub_path home)) as (B1 & B2 & B3); [apply slash_in_home|]. unfold unlink, fs1. split_and!.
  - by rewrite lookup_insert_ne, !lookup_delete_ne, lookup_insert_ne, lookup_insert_eq by done.
  - by rewrite lookup_insert_ne, !lookup_delete_ne, lookup_insert_eq by done.
  - by rewrite lookup_insert_eq.
Qed.

(** ** peer add *)

Definition peer_sec (p : new_peer) : bytes * list ini_entry_t :=
  (ascii_bytes "Peer", [mkEntry (ascii_bytes "PublicKey") (ascii_bytes (np_hex p));
                        mkEntry (ascii_bytes "Endpoint") (ascii_bytes (np_host p))]).

(** A peer that can be added: a key of 64 digits and a name that is a value of
    a configuration and does not look like a key line. *)
Record peer_ok (home : string) (p : new_peer) : Prop := {
  pk_key : hex_key (np_hex p) (np_key p);
  pk_host : short (ascii_bytes (np_host p));
  pk_home : (String.length home + String.length (np_host p) <= 700)%nat;
  pk_plain : contains (assign "Endpoint" (ascii_bytes (np_host p)) ++ [10]) (ascii_bytes "PublicKey") = false
}.

(** In a line with one key, no other key is found. *)
Lemma key_line_names hx v : Forall (fun c => is_Some (hex_value c)) hx -> Forall (fun c => is_Some (hex_value c)) v ->
  length hx = 64%nat -> length v = 64%nat -> names_key hx (assign "PublicKey" v ++ [10]) = true -> hx = v.
Proof.
  intros Hx Hv Lx Lv [_ H]%andb_true_iff. apply contains_spec in H as (a & b & E).
  set (pre := ascii_bytes "PublicKey" ++ [32; 61; 32]) in *.
  assert (pre ++ v ++ [10] = a ++ hx ++ b) as E' by (rewrite <- E; unfold assign; by rewrite <- !app_assoc). clear E.
  assert (length pre = 12%nat) as Lp by reflexivity.
  assert (pre !! 11%nat = Some 32) as P11 by reflexivity. clearbody pre.
  assert (forall i c, (pre ++ v ++ [10]) !! (length a + i)%nat = Some c -> (i < 64)%nat -> is_Some (hex_value c)) as Hin.
  { intros i c Hc Hi. rewrite E', lookup_app_r, Nat.add_comm, Nat.add_sub, lookup_app_l in Hc by lia.
    exact (Forall_lookup_1 _ _ _ _ Hx Hc). }
  pose proof (f_equal length E') as L. rewrite !length_app in L. simpl in L.
  destruct (decide (length a < 12)%nat) as [Ha|Ha].
  - destruct (Hin (11 - length a)%nat 32) as [x Hx']; [|lia|done].
    replace (length a + (11 - length a))%nat with 11%nat by lia. by rewrite lookup_app_l by lia.
  - destruct (decide (length a = 12)%nat) as [Ha'|Ha'].
    + apply app_inj_1 in E' as [_ E']; [|lia]. by apply app_inj_1 in E' as [E' _]; [|lia].
    + destruct (Hin (76 - length a)%nat 10) as [x Hx']; [|lia|done].
      replace (length a + (76 - length a))%nat with 76%nat by lia.
      rewrite lookup_app_r, lookup_app_r by lia. by rewrite Lp, Lv.
Qed.

Lemma names_key_blank hx : names_key hx [10] = false.
Proof. reflexivity. Qed.

Lemma other_key_unnamed home p q : peer_ok home p -> peer_ok home q -> np_hex p <> np_hex q ->
  existsb (fun l => names_key (ascii_bytes (np_hex q)) (l ++ [10])) 
    (section_lines (peer_section (ascii_bytes (np_hex p)) (ascii_bytes (np_host p)))) = false.
Proof.
  intros [Kp _ _ Pp] [Kq _ _ _] Hne.
  destruct (names_key (ascii_bytes (np_hex q)) (assign "PublicKey" (ascii_bytes (np_hex p)) ++ [10])) eqn:E.
  - apply key_line_names in E.
    + exfalso. apply Hne. rewrite <- (path_of_ascii (np_hex p)), <- (path_of_ascii (np_hex q)). by rewrite E.
    + by eapply spells_digits, hk_spells.
    + by eapply spells_digits, hk_spells.
    + by eapply hex_key_text.
    + by eapply hex_key_text.
  - change (section_lines _) with [ascii_bytes "[Peer]"; assign "PublicKey" (ascii_bytes (np_hex p)); assign "Endpoint" (ascii_bytes (np_host p))].
    cbn [existsb]. rewrite E. unfold names_key at 2. rewrite Pp. reflexivity.
Qed.

Section adding.
Context (env : fs_env) (n : nat) (R : roomy env n) (home : string) (iface : bytes) (pid : string) (keypair : option (bytes * bytes)).
Context (ok : list argv -> argv -> bool) (entries : option (list string)) (has_dir : bool) (own : bytes).

(** What the files hold after the peers [dn], with [td] still to come. *)
Record ready (dn td : list new_peer) (priv : bytes) (fs : filesystem) (pre : list bytes) (d : doc) : Prop := {
  rd_conf : conf_is fs pre d;
  rd_text : doc_text pre d = unlines (base_conf own iface) ++ concat (map (fun p => peer_text (ascii_bytes (np_hex p)) (np_host p)) dn);
  rd_plain : plain d = plain (base_doc own iface) ++ map peer_sec dn;
  rd_todo : Forall (fun p => unnamed (ascii_bytes (np_hex p)) pre d) td;
  rd_priv : exists m, fs !! priv_path home = Some (mkFile m priv);
  rd_pub : exists m, fs !! pub_path home = Some (mkFile m (own ++ [10]))
}.

Lemma base_unnamed p : peer_ok home p -> Forall (fun c => is_Some (hex_value c)) own -> length own = 64%nat ->
  own <> ascii_bytes (np_hex p) -> contains (assign "NATInterface" iface ++ [10]) (ascii_bytes "PublicKey") = false ->
  unnamed (ascii_bytes (np_hex p)) [] (base_doc own iface).
Proof.
  intros [Kp _ _ _] Ho Lo Hne Hif. unfold unnamed.
  destruct (names_key (ascii_bytes (np_hex p)) (assign "PublicKey" own ++ [10])) eqn:E.
  - apply key_line_names in E; [by rewrite E in Hne|by eapply spells_digits, hk_spells|done|by eapply hex_key_text|done].
  - change (doc_lines [] (base_doc own iface)) with
      ([ascii_bytes "[Interface]"; assign "PrivateKey" (ascii_bytes "~/.aegis-tunnel/private.key"); assign "PublicKey" own;
        assign "Port" (ascii_bytes "9000"); []; ascii_bytes "[Tunnel]"; assign "Keepalive" (ascii_bytes "30"); assign "NATInterface" iface]).
    cbn [existsb]. rewrite E. unfold names_key. rewrite Hif. reflexivity.
Qed.

Lemma peer_path_not_key p : peer_ok home p -> forall q, q = priv_path home \/ q = pub_path home -> q ∉ [peer_path home (np_host p); CONF].
Proof.
  intros [_ _ Hl _] q Hq. rewrite peer_path_short by done. unfold snp. rewrite substring_whole by (rewrite !length_string_app; simpl; lia).
  assert (q <> CONF) by (destruct Hq as [-> | ->]; (eapply slash_neq; [apply slash_in_home|reflexivity])).
  assert (q <> (home ++ "/.aegis-tunnel/peers/" ++ np_host p ++ ".pub")%string).
  { intros ->. by destruct Hq as [E|E]; apply app_inj_l in E. }
  set_solver.
Qed.

Lemma add_step dn p td priv fs pre d : peer_ok home p -> Forall (peer_ok home) td ->
  Forall (fun q => np_hex p <> np_hex q) td -> ready dn (p :: td) priv fs pre d ->
  (length (doc_text pre d ++ peer_text (ascii_bytes (np_hex p)) (np_host p)) <= n)%nat ->
  exists fs' pre' d', main env home iface pid keypair ok entries has_dir (add_cmd p) fs = Done 0 fs' /\ ready (dn ++ [p]) td priv fs' pre' d'.
Proof.
  intros Hp Htd Hdist [(Hok & f & Hf & Hd) Htext Hplain Htodo (m1 & Hpriv) (m2 & Hpub)] Hn.
  apply Forall_cons in Htodo as [Hun Htodo].
  pose proof (peer_add_runs env home iface (np_host p) (np_hex p) fs pre d f (np_key p) (roomy_le _ _ _ R Hn)
    (pk_home _ _ Hp) (pk_key _ _ Hp) Hok Hf Hd Hun) as Hrun.
  set (s := peer_section (ascii_bytes (np_hex p)) (ascii_bytes (np_host p))).
  assert (dsec_ok s) as Hs.
  { apply peer_section_ok; [by eapply hex_key_text, pk_key|]. destruct (pk_host _ _ Hp) as (H1 & H2 & H3). split_and!; [done..|lia]. }
  destruct (append_section pre d s Hok Hs) as (pre' & d' & Htxt & Hok' & Hpl & _ & Hex).
  unfold s in Htxt. rewrite <- peer_text_lines in Htxt. fold s in Htxt.
  set (fs' := <[CONF := _]> _) in Hrun. exists fs', pre', (d' ++ [s]). split.
  { by rewrite main_add, Hrun. }
  assert (touches [peer_path home (np_host p); CONF] fs fs') as Ht.
  { eapply peer_add_frame; [exact Hrun|]. by apply peer_path_not_conf, pk_home. }
  constructor.
  - split; [done|]. eexists. split; [apply lookup_insert_eq|]. exact Htxt.
  - rewrite <- Htxt, Htext, map_app, concat_app, <- app_assoc. cbn [map concat]. by rewrite app_nil_r.
  - rewrite plain_app, Hpl, Hplain, map_app, <- app_assoc. reflexivity.
  - rewrite Forall_forall in *. intros q Hq. unfold unnamed, doc_lines. rewrite bind_app. rewrite app_assoc, existsb_app. fold (doc_lines pre' d').
    rewrite (Hex (names_key (ascii_bytes (np_hex q)))) by apply names_key_blank.
    specialize (Htodo q Hq). unfold unnamed in Htodo. rewrite Htodo. cbn [mbind list_bind]. rewrite app_nil_r.
    eapply other_key_unnamed; eauto.
  - exists m1. rewrite Ht; [done|]. eapply peer_path_not_key; [done|by left].
  - exists m2. rewrite Ht; [done|]. eapply peer_path_not_key; [done|by right].
Qed.

Lemma add_all td : forall dn priv fs pre d cmds, Forall (peer_ok home) td -> NoDup (map np_hex td) -> ready dn td priv fs pre d ->
  (length (unlines (base_conf own iface) ++ concat (map (fun p => peer_text (ascii_bytes (np_hex p)) (np_host p)) (dn ++ td))) <= n)%nat ->
  exists fs' pre' d', shell env home iface pid keypair ok entries has_dir (map add_cmd td ++ cmds) fs =
    shell env home iface pid keypair ok entries has_dir cmds fs' /\ ready (dn ++ td) [] priv fs' pre' d'.
Proof.
  induction td as [|p td IH]; intros dn priv fs pre d cmds Hok Hnd Hr Hn.
  { exists fs, pre, d. rewrite app_nil_r. by split. }
  apply Forall_cons in Hok as [Hp Hok]. apply NoDup_cons in Hnd as [Hnp Hnd].
  replace (dn ++ p :: td) with ((dn ++ [p]) ++ td) in * by (by rewrite <- app_assoc).
  destruct (add_step dn p td priv fs pre d) as (fs1 & pre1 & d1 & Hrun & Hr1); [done..| |done| |].
  - apply Forall_forall. intros q Hq E. apply Hnp. apply list_elem_of_fmap. by exists q.
  - etrans; [|exact Hn]. rewrite (rd_text _ _ _ _ _ _ Hr), !map_app, !concat_app, !length_app. cbn [map concat]. rewrite app_nil_r. lia.
  - destruct (IH (dn ++ [p]) priv fs1 pre1 d1 cmds Hok Hnd Hr1 Hn) as (fs' & pre' & d' & H1 & H2).
    exists fs', pre', d'. split; [|done]. cbn [map app shell]. by rewrite Hrun.
Qed.
End adding.

(** ** create tun and start tun *)

Section final.
Context (own iface : bytes) (ps : list new_peer).

Abbreviation secs := (plain (base_doc own iface) ++ map peer_sec ps).

Lemma workflow_named : secs_named (ascii_bytes "Peer") secs = map peer_sec ps.
Proof.
  change secs with ((ascii_bytes "Interface", entries_of (snd (hd ([], []) (base_doc own iface)))) ::
    (ascii_bytes "Tunnel", entries_of (snd (nth 1 (base_doc own iface) ([], [])))) :: map peer_sec ps).
  unfold secs_named. rewrite !filter_cons_False by (vm_compute; discriminate).
  induction ps as [|p l IH]; [done|]. cbn [map]. rewrite filter_cons_True by (vm_compute; reflexivity). by rewrite IH.
Qed.

Lemma workflow_peers : peers_of secs = map (fun p => (ascii_bytes (np_hex p), Some (ascii_bytes (np_host p)))) ps.
Proof.
  unfold peers_of. rewrite workflow_named. induction ps as [|p l IH]; [done|]. cbn [map peers_until peer_sec snd].
  rewrite IH. reflexivity.
Qed.

Lemma workflow_short : short own -> short iface -> Forall (fun p => short (ascii_bytes (np_hex p)) /\ short (ascii_bytes (np_host p))) ps ->
  Forall (fun s => Forall (fun e => short (e_value e)) s.2) secs.
Proof.
  intros Ho Hi Hp. apply Forall_app. split.
  - unfold base_doc, plain. cbn [map fst snd entries_of omap list_omap entry].
    repeat (apply Forall_cons_2 || apply Forall_nil_2); cbn [e_value]; short_tac.
  - apply Forall_map. eapply Forall_impl; [exact Hp|]. intros p [H1 H2]. cbn [peer_sec snd]. by repeat (apply Forall_cons_2 || apply Forall_nil_2).
Qed.
End final.

(** The recommended workflow, with directories left out of account (Disk.v
    has them). *)
Lemma workflow_runs env n home iface pid ok entries has_dir pub priv ps fs :
  let own := hex_text pub in
  let secs := plain (base_doc own iface) ++ map peer_sec ps in
  roomy env n -> (65 <= n)%nat ->
  (length (unlines (base_conf own iface) ++ concat (map (fun p => peer_text (ascii_bytes (np_hex p)) (np_host p)) ps)) <= n)%nat ->
  (length (doc_text (tun_pre true) (tun_doc true secs own iface)) <= n)%nat ->
  (String.length home <= 600)%nat -> length pub = 32%nat -> wf_bytes pub -> length priv = 32%nat ->
  short iface -> contains (assign "NATInterface" iface ++ [10]) (ascii_bytes "PublicKey") = false ->
  Forall (peer_ok home) ps -> NoDup (map np_hex ps) -> Forall (fun p => own <> ascii_bytes (np_hex p)) ps ->
  (1 <= length ps <= 5)%nat ->
  exists o g, shell env home iface pid (Some (pub, priv)) ok entries has_dir (workflow ps) fs = Started (Ok (TunServer o, priv, g)) /\
    server_started o (ascii_bytes home) /\ g_peer_count g = length ps /\
    forall i p, ps !! i = Some p -> g_asym_peers g !! i = Some (np_key p) /\ g_peer_tun_ips g !! i = Some (10 * 2 ^ 24 + 2).
Proof.
  intros own secs R H65 Hn1 Hn2 Hh Hpub Hwf Hpriv Hif Hnat Hps Hnd Hown Hlen.
  destruct (own_hex_short pub Hpub Hwf) as [Hso Hc].
  assert (length (unlines (base_conf own iface)) <= n)%nat as Hn0 by (rewrite length_app in Hn1; lia).
  destruct (keygen_runs env n home iface pub priv fs R H65 Hn0 Hh Hpub Hwf Hpriv) as (fs1 & m & m1 & m2 & Hkg & Hf1 & Hf2 & Hf3).
  assert (ready home iface own [] ps priv fs1 [] (base_doc own iface)) as Hr.
  { constructor; [|by rewrite base_conf_text, app_nil_r|by rewrite app_nil_r| |by exists m1|by exists m2].
    - split; [by apply base_doc_ok|]. eexists. split; [exact Hf3|]. apply base_conf_text.
    - rewrite Forall_forall in *. intros p Hp. apply (base_unnamed home); auto.
      + eapply spells_digits. by apply hex_text_spells.
      + unfold own. rewrite hex_text_length. lia. }
  destruct (add_all env n R home iface pid (Some (pub, priv)) ok entries has_dir own ps [] priv fs1 [] (base_doc own iface)
    [["create"; "tun"; "-server"]; ["start"; "tun"; "-server"]] Hps Hnd Hr Hn1) as (fs2 & pre & d & Hsh & [Hcis _ Hpl _ (mp & Hpf) (mq & Hqf)]).
  cbn [app] in Hpl. fold secs in Hpl.
  assert (length secs <= 7)%nat as Hl7 by (unfold secs; rewrite length_app, plain_length, length_map; simpl; lia).
  assert (kept 7 (plain d) = secs) as Hk by (rewrite Hpl; by apply kept_all).
  assert (read_hex env (snp 768 (home ++ "/.aegis-tunnel/public.key")) fs2 = own) as Hrh.
  { unfold snp. rewrite substring_whole by (rewrite length_string_app; simpl; lia).
    unfold read_hex. rewrite (fopen_r_all _ _ R). change (home ++ "/.aegis-tunnel/public.key")%string with (pub_path home). rewrite Hqf.
    cbn [fmap option_fmap option_map f_data]. rewrite take_app_le, take_ge by (unfold own; rewrite hex_text_length; lia). exact Hc. }
  assert (path_of (ascii_bytes home ++ ascii_bytes "/.aegis-tunnel/private.key") = priv_path home) as Hpp.
  { rewrite <- ascii_bytes_app, path_of_ascii. reflexivity. }
  assert (forall p, p ∈ ps -> hex_key (np_hex p) (np_key p)) as Hkeys.
  { intros p Hp. rewrite Forall_forall in Hps. by apply pk_key with home, Hps. }
  destruct (create_then_start env home iface fs2 pre d n priv mp (Some (pub, priv)) (found_peer home entries))
    as (fs3 & o & g & Hcreate & Hstart & Hss & Hcount & Hg); rewrite ?Hk, ?Hrh, ?Hpp; try done.
  - apply workflow_short; [done..|]. eapply Forall_impl; [exact Hps|]. intros p Hp. split; [|apply Hp].
    destruct (hex_key_text _ _ (pk_key _ _ Hp)) as (H1 & (H2 & H3 & _) & _). split_and!; [done..|lia].
  - unfold secs. rewrite workflow_peers. destruct ps; [simpl in Hlen; lia|done].
  - unfold secs. rewrite workflow_peers, length_map. lia.
  - unfold secs. rewrite workflow_peers. intros p (q & -> & Hq)%list_elem_of_fmap. exists (np_key q).
    destruct (Hkeys q Hq) as [H1 H2]. by split.
  - intros E. assert (has_slash (priv_path home) = true) as Hs by apply slash_in_home. by rewrite E in Hs.
  - exists o, g. rewrite Hk in Hcount, Hg. unfold secs in Hcount, Hg. rewrite workflow_peers in Hcount, Hg. rewrite length_map in Hcount.
    split_and!; [|done..|].
    + unfold workflow. cbn [app shell]. rewrite main_keygen, Hkg. cbn [done_of fst snd Z.eqb]. rewrite Hsh.
      cbn [shell]. rewrite main_create, Hcreate. cbn [done_of fst snd Z.eqb]. by rewrite main_start, Hstart.
    + intros i p Hi. apply (Hg i (ascii_bytes (np_hex p), Some (ascii_bytes (np_host p)))); [by rewrite list_lookup_fmap, Hi|].
      destruct (Hkeys p) as [H1 H2]; [by eapply list_elem_of_lookup_2|]. by split.
Qed.

(** *** Example *)

Definition alice : new_peer := mkPeer "alice" hex0 key0.
Definition bob : new_peer := mkPeer "10.1.1.1:9000" (path_of (hex_text (seqZ 100 32))) (seqZ 100 32).
