(* ===== verification/Disk.v ===== *)
(** * Directories (config_mgmt.c, main.c)

    The commands and the start-up make the key directories with [mkdir] and do
    not look at the result.  Here a disk has directories beside its files, a
    file can only be opened where its directory exists, and the commands run
    with their [mkdir] calls.  The theorem says that they behave as the commands
    of Cli.v, which know files only. *)

From Stdlib Require Import Ascii.
From stdpp Require Import sets gmap.
From S2P Require Import Prelude Util Keyfile IniConfig ConfDoc ConfigMgmt CreateTun Main Start Tun Cli Keygen Workflow.

(** The path in front of the last slash. *)
Fixpoint dir_of (p : path) : option path :=
  match p with
  | EmptyString => None
  | String c p' => match dir_of p' with
                   | Some d => Some (String c d)
                   | None => if bool_decide (c = "/"%char) then Some "" else None
                   end
  end.

(** The directory a path is in. *)
Definition parent (p : path) : path :=
  match dir_of p with None => "." | Some EmptyString => "/" | Some d => d end.

(** [mkdir(p, 0700)] with the result thrown away. *)
Definition mkdir (can_mkdir : path -> bool) (p : path) (dirs : gset path) : gset path :=
  if bool_decide (p ∈ dirs) then dirs
  else if bool_decide (parent p ∈ dirs) && can_mkdir p then {[p]} ∪ dirs else dirs.

(** The same system with these directories only. *)
Definition in_dirs (dirs : gset path) (env : fs_env) : fs_env :=
  mkFsEnv (umask env) (fun p => can_open env p && bool_decide (parent p ∈ dirs)) (write_takes env) (read_fails env).

Section disk.
Context (env : fs_env) (can_mkdir : path -> bool) (home : string) (iface : bytes) (pid : string).
Context (keypair : option (bytes * bytes)) (ok : list argv -> argv -> bool).

Definition keygen_dirs (dirs : gset path) : gset path := mkdir can_mkdir (key_dir home) dirs.
Definition peer_add_dirs (dirs : gset path) : gset path :=
  mkdir can_mkdir (peer_dir home) (mkdir can_mkdir (key_dir home) dirs).

(** [main] after the subcommands: the key directory is made once the options
    are in order, that of the peers only when no peer is named. *)
Definition prepare_disk (dirs : gset path) (fs : filesystem) (found : option path) (socks5_force start_force : Z)
    (xs : list option_t) : outcome (launch * bytes * peers_t) * gset path :=
  let env0 := in_dirs dirs env in
  match (o ← apply_options xs (opts_init iface);
         o1 ← start_tun fs start_force o;
         '(o2, g) ← load_config env0 fs home (auto_config fs o1) peers_init;
         hp ← check_options o2; Ok (o2, g, hp)) with
  | Exit c => (Exit c, dirs)
  | Undef => (Undef, dirs)
  | Ok (o2, g, (host, port)) =>
      let dirs1 := mkdir can_mkdir (key_dir home) dirs in
      match private_key (in_dirs dirs1 env) fs home keypair o2 with
      | Exit c => (Exit c, dirs1)
      | Undef => (Undef, dirs1)
      | Ok (priv, fs1) =>
          let dirs2 := match peerkey_file o2 with
                       | None => if (g_peer_count g =? 0)%nat then mkdir can_mkdir (peer_dir home) dirs1 else dirs1
                       | Some _ => dirs1
                       end in
          (g1 ← resolve_peer (in_dirs dirs2 env) fs1 o2 found g; Ok (dispatch socks5_force o2 host port, priv, g1), dirs2)
      end
  end.

(** [main]: the result and the directories.  [entries] is what [readdir] gives
    for the directory of the peers. *)
Definition main_disk (entries : option (list string)) (args : list string) (dirs : gset path) (fs : filesystem)
    : result * gset path :=
  let env0 := in_dirs dirs env in
  match subcommand args with
  | Keygen => let dirs1 := keygen_dirs dirs in (done_of (cmd_keygen (in_dirs dirs1 env) home iface keypair fs), dirs1)
  | Status => (StatusIs (cmd_status home (bool_decide (key_dir home ∈ dirs)) entries fs), dirs)
  | PeerList => (Listed (cmd_peer_list entries), dirs)
  | TunDown name => (Commands (cmd_tun_down ok (ascii_bytes name) []), dirs)
  | PeerAdd n k => let dirs1 := peer_add_dirs dirs in (done_of (cmd_peer_add (in_dirs dirs1 env) home iface n k fs), dirs1)
  | PeerDelete n => (done_of (cmd_peer_delete env0 home pid n fs), dirs)
  | CreateTun s => (done_of (cmd_create_tun env0 home iface s [] fs), dirs)
  | Usage => (Done 1 fs, dirs)
  | Run start socks args =>
      let '(r, dirs1) := prepare_disk dirs fs (found_peer home entries) socks start (getopt (map ascii_bytes args)) in
      (Started r, dirs1)
  end.
End disk.

(** ** Paths *)

Lemma dir_of_plain n : has_slash n = false -> dir_of n = None.
Proof.
  unfold has_slash. intros H%bool_decide_eq_false. induction n as [|c n IH]; [done|]. cbn [dir_of].
  change (ascii_bytes (String c n)) with (ch c :: ascii_bytes n) in H.
  apply not_elem_of_cons in H as [Hc Hn]. rewrite IH by done. rewrite bool_decide_eq_false_2; [done|]. by intros ->.
Qed.

Lemma dir_of_app d n : has_slash n = false -> dir_of (d ++ String "/" n) = Some d.
Proof.
  intros Hn. induction d as [|c d IH].
  - change ("" ++ String "/" n)%string with (String "/" n). cbn [dir_of]. by rewrite dir_of_plain.
  - change (String c d ++ String "/" n)%string with (String c (d ++ String "/" n)). cbn [dir_of]. by rewrite IH.
Qed.

Lemma parent_app d n : d <> "" -> has_slash n = false -> parent (d ++ String "/" n) = d.
Proof. intros Hd Hn. unfold parent. rewrite dir_of_app by done. by destruct d. Qed.

Lemma parent_plain n : has_slash n = false -> parent n = ".".
Proof. intros Hn. unfold parent. by rewrite dir_of_plain. Qed.

(** ** Files in their directories *)

Definition wf_disk (dirs : gset path) (fs : filesystem) : Prop := forall p, is_Some (fs !! p) -> parent p ∈ dirs.

Create HintDb disk.

Section agree.
Context (env : fs_env) (dirs : gset path).

Lemma wf_insert p f fs : parent p ∈ dirs -> wf_disk dirs fs -> wf_disk dirs (<[p := f]> fs).
Proof. intros Hp H q Hq. destruct (decide (q = p)) as [->|]; [done|]. apply H. by rewrite lookup_insert_ne in Hq by done. Qed.

Lemma wf_delete p fs : wf_disk dirs fs -> wf_disk dirs (delete p fs).
Proof. intros H q [f Hq]. apply lookup_delete_Some in Hq as [_ Hq]. apply H. by exists f. Qed.

Lemma wf_write p d fs : wf_disk dirs fs -> wf_disk dirs (snd (sys_write_file env p d fs)).
Proof.
  intros H. unfold sys_write_file. destruct (write_takes env p); [|done]. intros q Hq. apply H.
  cbn [snd] in Hq. destruct (decide (q = p)) as [->|]; [|by rewrite lookup_alter_ne in Hq].
  rewrite lookup_alter_eq in Hq. destruct (fs !! p); [eauto|by destruct Hq].
Qed.

Lemma wf_trunc p m fs fs' : parent p ∈ dirs -> wf_disk dirs fs -> open_trunc env p m fs = Some fs' -> wf_disk dirs fs'.
Proof. unfold open_trunc. intros Hp H. destruct (negb _); [done|]. destruct (fs !! p); intros [= <-]; by apply wf_insert. Qed.

Lemma wf_write_text p d fs fs' : parent p ∈ dirs -> wf_disk dirs fs -> write_text env p d fs = Some fs' -> wf_disk dirs fs'.
Proof.
  unfold write_text. intros Hp H. destruct (open_trunc _ _ _ _) as [fs1|] eqn:E; [|done]. intros [= <-].
  eapply wf_write, wf_trunc; eauto.
Qed.

Lemma wf_append_text p d fs fs' : parent p ∈ dirs -> wf_disk dirs fs -> append_text env p d fs = Some fs' -> wf_disk dirs fs'.
Proof.
  unfold append_text. intros Hp H. destruct (negb _); [done|]. intros [= <-]. apply wf_write.
  destruct (fs !! p); [done|]. by apply wf_insert.
Qed.

(** On a disk in order, reading does not depend on the directories, and
    writing where there is a directory does not either. *)
Lemma fopen_r_dirs p fs : wf_disk dirs fs -> fopen_r (in_dirs dirs env) p fs = fopen_r env p fs.
Proof.
  intros H. unfold fopen_r, in_dirs. cbn [can_open read_fails]. destruct (fs !! p) as [f|] eqn:E.
  - rewrite (bool_decide_eq_true_2 (parent p ∈ dirs)) by eauto. by rewrite andb_true_r.
  - by destruct (negb (can_open env p)), (negb (can_open env p && _)).
Qed.

Lemma open_read_dirs p n fs : wf_disk dirs fs -> open_read (in_dirs dirs env) p n fs = open_read env p n fs.
Proof.
  intros H. unfold open_read, in_dirs. cbn [can_open read_fails]. destruct (fs !! p) as [f|] eqn:E.
  - rewrite (bool_decide_eq_true_2 (parent p ∈ dirs)) by eauto. by rewrite andb_true_r.
  - by destruct (negb (can_open env p)), (negb (can_open env p && _)).
Qed.

Lemma open_trunc_dirs p m fs : parent p ∈ dirs -> open_trunc (in_dirs dirs env) p m fs = open_trunc env p m fs.
Proof. intros H. unfold open_trunc, in_dirs. cbn [can_open umask]. by rewrite bool_decide_eq_true_2, andb_true_r. Qed.

Lemma write_text_dirs p d fs : parent p ∈ dirs -> write_text (in_dirs dirs env) p d fs = write_text env p d fs.
Proof. intros H. unfold write_text. by rewrite open_trunc_dirs. Qed.

Lemma append_text_dirs p d fs : parent p ∈ dirs -> append_text (in_dirs dirs env) p d fs = append_text env p d fs.
Proof. intros H. unfold append_text, in_dirs. cbn [can_open umask]. by rewrite bool_decide_eq_true_2, andb_true_r. Qed.

Lemma read_hex_dirs p fs : wf_disk dirs fs -> read_hex (in_dirs dirs env) p fs = read_hex env p fs.
Proof. intros H. unfold read_hex. by rewrite fopen_r_dirs. Qed.

Lemma read_key_text_dirs p fs : wf_disk dirs fs -> read_key_text (in_dirs dirs env) p fs = read_key_text env p fs.
Proof. intros H. unfold read_key_text. by rewrite fopen_r_dirs. Qed.

Lemma load_public_dirs key p fs : wf_disk dirs fs -> keyfile_load_public (in_dirs dirs env) fs key p = keyfile_load_public env fs key p.
Proof. intros H. unfold keyfile_load_public. by rewrite open_read_dirs. Qed.

Lemma load_private_dirs key p fs : wf_disk dirs fs -> keyfile_load_private (in_dirs dirs env) fs key p = keyfile_load_private env fs key p.
Proof. intros H. unfold keyfile_load_private, keyfile_load. by rewrite open_read_dirs. Qed.

(** Both parts for a command: it runs as without directories and leaves the
    disk in order. *)
Lemma generate_dirs keypair p q fs : parent p ∈ dirs -> parent q ∈ dirs -> wf_disk dirs fs ->
  keyfile_generate (in_dirs dirs env) keypair p q fs = keyfile_generate env keypair p q fs /\
  wf_disk dirs (snd (keyfile_generate env keypair p q fs)).
Proof.
  intros Hp Hq H. unfold keyfile_generate. destruct keypair as [[pub priv]|]; [|done].
  rewrite open_trunc_dirs by done. destruct (open_trunc env p 384 fs) as [fs1|] eqn:E1; [|done].
  apply wf_trunc in E1; [|done..]. change (sys_write_file (in_dirs dirs env)) with (sys_write_file env).
  pose proof (wf_write p priv fs1 E1) as W1. destruct (sys_write_file env p priv fs1) as [n fs2]. cbn [snd] in W1.
  destruct (negb (n =? 32)); [done|]. rewrite open_trunc_dirs by done.
  destruct (open_trunc env q 420 fs2) as [fs3|] eqn:E2; [|done]. apply wf_trunc in E2; [|done..].
  pose proof (wf_write q (hex_text pub ++ [10]) fs3 E2) as W2. destruct (sys_write_file env q _ fs3) as [m fs4].
  by destruct (negb (m =? 65)).
Qed.
End agree.

#[export] Hint Resolve wf_insert wf_delete wf_write : disk.

(** ** The commands *)

Section key_paths.
Context (home : string) (Hhome : (String.length home <= 600)%nat).

Lemma key_dir_whole : key_dir home = (home ++ "/.aegis-tunnel")%string.
Proof. unfold key_dir, snp. apply substring_whole. rewrite length_string_app. simpl. lia. Qed.

Lemma peer_dir_whole : peer_dir home = (home ++ "/.aegis-tunnel/peers")%string.
Proof.
  unfold peer_dir, snp. rewrite key_dir_whole, substring_whole, string_app_assoc; [done|].
  rewrite !length_string_app. simpl. lia.
Qed.

Lemma in_home_nonempty s : s <> "" -> (home ++ s)%string <> "".
Proof. intros Hs. by destruct home. Qed.

Lemma parent_key n : has_slash n = false -> (String.length n <= 60)%nat ->
  parent (snp 768 (key_dir home ++ String "/" n)) = key_dir home.
Proof.
  intros Hn Hl. rewrite key_path by (simpl; lia). rewrite key_dir_whole, <- string_app_assoc.
  by apply parent_app; [apply in_home_nonempty|].
Qed.

Lemma parent_peer_dir : parent (peer_dir home) = key_dir home.
Proof. unfold peer_dir. apply (parent_key "peers"); [done|simpl; lia]. Qed.

Lemma parent_peer host : has_slash host = false -> (String.length home + String.length host <= 700)%nat ->
  parent (peer_path home host) = peer_dir home.
Proof.
  intros Hh Hl. rewrite peer_path_short by done. unfold snp. rewrite substring_whole by (rewrite !length_string_app; simpl; lia).
  change (home ++ "/.aegis-tunnel/peers/" ++ host ++ ".pub")%string
    with (home ++ "/.aegis-tunnel/peers" ++ String "/" (host ++ ".pub"))%string.
  rewrite <- string_app_assoc, <- peer_dir_whole. apply parent_app.
  - rewrite peer_dir_whole. by apply in_home_nonempty.
  - revert Hh. unfold has_slash. rewrite ascii_bytes_app. intros H%bool_decide_eq_false. apply bool_decide_eq_false.
    intros [?|?]%elem_of_app; [done|]. set_solver.
Qed.

End key_paths.

Section commands_dirs.
Context (env : fs_env) (home : string) (iface : bytes) (pid : string) (dirs : gset path).
Context (Hhome : (String.length home <= 600)%nat) (Hdot : "." ∈ dirs).

Abbreviation denv := (in_dirs dirs env).

(** What is shown of each command: it runs as without directories and leaves
    the disk in order. *)
Definition unaffected (x y : Z * filesystem) : Prop := x = y /\ wf_disk dirs (snd y).

Lemma keygen_unaffected keypair fs : key_dir home ∈ dirs -> wf_disk dirs fs ->
  unaffected (cmd_keygen denv home iface keypair fs) (cmd_keygen env home iface keypair fs).
Proof.
  intros Hk H. unfold cmd_keygen, unaffected.
  destruct (generate_dirs env dirs keypair (snp 768 (key_dir home ++ "/private.key")) (snp 768 (key_dir home ++ "/public.key")) fs)
    as [-> W]; [by rewrite (parent_key home Hhome "private.key") by (done || (simpl; lia))|
                by rewrite (parent_key home Hhome "public.key") by (done || (simpl; lia))|done|].
  destruct (keyfile_generate env _ _ _ fs) as [r fs1]. cbn [snd] in W. destruct (negb (r =? 0)); [done|].
  rewrite read_hex_dirs by done. rewrite write_text_dirs by (by rewrite parent_plain).
  match goal with |- context [write_text env CONF ?t ?f] => destruct (write_text env CONF t f) as [fs3|] eqn:E;
    assert (wf_disk dirs f) as W2 by (unfold unlink; auto with disk) end; [|done].
  split; [done|]. eapply wf_write_text in E; [exact E|by rewrite parent_plain|done].
Qed.

Lemma store_key_unaffected host key fs : parent (peer_path home host) ∈ dirs -> wf_disk dirs fs ->
  unaffected (store_key denv home host key fs) (store_key env home host key fs).
Proof.
  intros Hp H. unfold store_key, unaffected. destruct (_ || _).
  - rewrite fopen_r_dirs by done. destruct (fopen_r env key fs); [|done]. rewrite open_trunc_dirs by done.
    destruct (open_trunc env _ 438 fs) as [fs1|] eqn:E; [|done]. apply (wf_trunc env dirs) in E; [|done..].
    rewrite fopen_r_dirs by done. change (sys_write_file denv) with (sys_write_file env). split; [done|].
    destruct (fopen_r env key fs1); [|done]. by apply wf_write.
  - destruct (negb _); [done|]. rewrite write_text_dirs by done. destruct (write_text env _ _ fs) as [fs1|] eqn:E; [|done].
    split; [done|]. by eapply wf_write_text in E.
Qed.

Lemma ensure_conf_unaffected fs : wf_disk dirs fs ->
  ensure_conf denv home iface fs = ensure_conf env home iface fs /\ wf_disk dirs (ensure_conf env home iface fs).
Proof.
  intros H. unfold ensure_conf. destruct (fs !! CONF); [done|]. rewrite read_hex_dirs by done.
  rewrite write_text_dirs by (by rewrite parent_plain).
  destruct (write_text env CONF _ fs) as [fs1|] eqn:E; [|done]. split; [done|].
  eapply wf_write_text in E; [exact E|by rewrite parent_plain|done].
Qed.

Lemma add_to_conf_unaffected host fs : wf_disk dirs fs ->
  add_to_conf denv home host fs = add_to_conf env home host fs /\ wf_disk dirs (add_to_conf env home host fs).
Proof.
  intros H. unfold add_to_conf. rewrite read_key_text_dirs by done. destruct (read_key_text env _ fs); [done|].
  rewrite fopen_r_dirs by done.
  match goal with |- (if ?b then _ else _) = _ /\ _ => destruct b; [done|] end.
  rewrite append_text_dirs by (by rewrite parent_plain). destruct (append_text env CONF _ fs) as [fs1|] eqn:E; [|done].
  split; [done|]. eapply wf_append_text in E; [exact E|by rewrite parent_plain|done].
Qed.

Lemma peer_add_unaffected host key fs : parent (peer_path home host) ∈ dirs -> wf_disk dirs fs ->
  unaffected (cmd_peer_add denv home iface host key fs) (cmd_peer_add env home iface host key fs).
Proof.
  intros Hp H. unfold cmd_peer_add. destruct (store_key_unaffected host key fs Hp H) as [-> W].
  destruct (store_key env home host key fs) as [r fs1]. cbn [snd] in W. destruct (negb (r =? 0)); [by split|].
  destruct (ensure_conf_unaffected fs1 W) as [-> W2]. destruct (add_to_conf_unaffected host _ W2) as [-> W3]. by split.
Qed.

Lemma rename_wf p q fs : parent q ∈ dirs -> wf_disk dirs fs -> wf_disk dirs (rename p q fs).
Proof. intros Hq H. unfold rename. destruct (fs !! p); auto with disk. Qed.

Lemma peer_delete_unaffected name fs : has_slash pid = false -> wf_disk dirs fs ->
  unaffected (cmd_peer_delete denv home pid name fs) (cmd_peer_delete env home pid name fs).
Proof.
  intros Hpid H. assert (parent (snp 768 ("aegis.conf." ++ pid)) = ".") as Ht.
  { apply parent_plain, has_slash_snp. revert Hpid. unfold has_slash. rewrite ascii_bytes_app. intros Hp%bool_decide_eq_false.
    apply bool_decide_eq_false. intros [?|?]%elem_of_app; [|done]. set_solver. }
  unfold cmd_peer_delete, unaffected. rewrite read_key_text_dirs by done. destruct (fs !! _); [|done].
  set (fs1 := unlink _ fs). assert (wf_disk dirs fs1) as W by (unfold fs1, unlink; auto with disk).
  destruct (fs1 !! CONF); [|done]. rewrite fopen_r_dirs by done. destruct (fopen_r env CONF fs1) as [d|]; [|done].
  rewrite write_text_dirs by (by rewrite Ht). destruct (write_text env _ _ fs1) as [fs2|] eqn:E; [|done]. split; [done|].
  apply rename_wf; [by rewrite parent_plain|]. eapply wf_write_text in E; [exact E|by rewrite Ht|done].
Qed.

Lemma create_tun_unaffected is_server fs : wf_disk dirs fs ->
  unaffected (cmd_create_tun denv home iface is_server [] fs) (cmd_create_tun env home iface is_server [] fs).
Proof.
  intros H. assert (parent (TUN_CONF is_server) = ".") as Ht by (by destruct is_server).
  unfold cmd_create_tun, unaffected. destruct (fs !! CONF); [|done]. rewrite fopen_r_dirs by done.
  destruct (iniconf_load _ _ _) as [r icfg]. destruct (negb (r =? 0)); [done|]. rewrite read_hex_dirs by done.
  rewrite write_text_dirs by (by rewrite Ht). destruct (write_text env _ _ fs) as [fs1|] eqn:E; [|done].
  split; [done|]. eapply wf_write_text in E; [exact E|by rewrite Ht|done].
Qed.
End commands_dirs.

(** ** Making directories *)

Section making.
Context (can_mkdir : path -> bool) (p : path) (dirs : gset path).

Lemma mkdir_old : dirs ⊆ mkdir can_mkdir p dirs.
Proof. unfold mkdir. case_bool_decide; [done|]. destruct (_ && _); set_solver. Qed.

Lemma mkdir_new : parent p ∈ dirs -> can_mkdir p = true -> p ∈ mkdir can_mkdir p dirs.
Proof. intros Hp Hc. unfold mkdir. case_bool_decide; [done|]. rewrite bool_decide_eq_true_2, Hc by done. set_solver. Qed.

Lemma mkdir_only : mkdir can_mkdir p dirs ⊆ {[p]} ∪ dirs.
Proof. unfold mkdir. case_bool_decide; [set_solver|]. destruct (_ && _); set_solver. Qed.
End making.

Lemma wf_disk_mono dirs dirs' fs : dirs ⊆ dirs' -> wf_disk dirs fs -> wf_disk dirs' fs.
Proof. intros Hd H p Hp. by apply Hd, H. Qed.

(** ** main *)

Section main_dirs.
Context (env : fs_env) (can_mkdir : path -> bool) (home : string) (iface : bytes) (pid : string).
Context (keypair : option (bytes * bytes)) (ok : list argv -> argv -> bool) (entries : option (list string)).
Context (Hhome : (String.length home <= 600)%nat) (Hpid : has_slash pid = false).
Context (Hk : can_mkdir (key_dir home) = true) (Hq : can_mkdir (peer_dir home) = true).

(** A disk the program can be used on: the current directory and the home
    directory exist, and so does the directory of every file. *)
Record usable (dirs : gset path) (fs : filesystem) : Prop := {
  us_dot : "." ∈ dirs;
  us_home : parent (key_dir home) ∈ dirs;
  us_files : wf_disk dirs fs
}.

Lemma usable_mono dirs dirs' fs fs' : usable dirs fs -> dirs ⊆ dirs' -> wf_disk dirs' fs' -> usable dirs' fs'.
Proof. intros [H1 H2 _] Hd Hw. split; [by apply Hd..|done]. Qed.

Lemma key_dir_made dirs fs : usable dirs fs -> key_dir home ∈ mkdir can_mkdir (key_dir home) dirs.
Proof. intros [_ H _]. by apply mkdir_new. Qed.

Lemma peer_dir_made dirs fs : usable dirs fs -> peer_dir home ∈ peer_add_dirs can_mkdir home dirs.
Proof. intros H. apply mkdir_new; [|done]. rewrite parent_peer_dir by done. by eapply key_dir_made. Qed.

Lemma peer_add_old dirs : dirs ⊆ peer_add_dirs can_mkdir home dirs.
Proof. unfold peer_add_dirs. etrans; apply mkdir_old. Qed.

Lemma private_key_unaffected dirs fs o : usable dirs fs ->
  let dirs1 := mkdir can_mkdir (key_dir home) dirs in
  private_key (in_dirs dirs1 env) fs home keypair o = private_key env fs home keypair o /\
  (forall k fs1, private_key env fs home keypair o = Ok (k, fs1) -> wf_disk dirs1 fs1).
Proof.
  intros U dirs1. assert (wf_disk dirs1 fs) as W by (eapply wf_disk_mono; [apply mkdir_old|apply U]).
  pose proof (key_dir_made dirs fs U) as Hin. fold dirs1 in Hin. unfold private_key. destruct (privkey_file o) as [f|].
  - rewrite load_private_dirs by done. split; [done|]. destruct (keyfile_load_private env fs _ _) as [[r k] w]. intros k' fs1.
    destruct (negb (r =? 0)); [done|]. by intros [= _ <-].
  - destruct (fs !! snp 768 (key_dir home ++ "/private.key")).
    + rewrite load_private_dirs by done. split; [done|]. destruct (keyfile_load_private env fs _ _) as [[r k] w]. intros k' fs1.
      destruct (negb (r =? 0)); [done|]. by intros [= _ <-].
    + destruct (generate_dirs env dirs1 keypair (snp 768 (key_dir home ++ "/private.key")) (snp 768 (key_dir home ++ "/public.key")) fs)
        as [-> W1]; [by rewrite (parent_key home Hhome "private.key") by (done || (simpl; lia))|
                     by rewrite (parent_key home Hhome "public.key") by (done || (simpl; lia))|done|].
      rewrite load_private_dirs by done. split; [done|]. destruct (keyfile_load_private env _ _ _) as [[r k] w]. intros k' fs1.
      destruct (negb (r =? 0)); [done|]. by intros [= _ <-].
Qed.

Lemma resolve_peer_unaffected dirs fs o found g : wf_disk dirs fs ->
  resolve_peer (in_dirs dirs env) fs o found g = resolve_peer env fs o found g.
Proof.
  intros W. unfold resolve_peer. destruct (peerkey_file o); [|destruct (negb _), found; try done]; by rewrite load_public_dirs.
Qed.

Lemma load_config_unaffected dirs fs o g : wf_disk dirs fs ->
  load_config (in_dirs dirs env) fs home o g = load_config env fs home o g.
Proof. intros W. unfold load_config. destruct (config_file o); [|done]. by rewrite fopen_r_dirs. Qed.

Lemma prepare_unaffected dirs fs found socks start xs : usable dirs fs ->
  let '(r, dirs') := prepare_disk env can_mkdir home iface keypair dirs fs found socks start xs in
  r = main_prepare env fs home iface keypair found socks start xs /\
  dirs ⊆ dirs' /\ dirs' ⊆ {[key_dir home; peer_dir home]} ∪ dirs.
Proof.
  intros U. unfold prepare_disk, main_prepare.
  destruct (apply_options xs (opts_init iface)) as [o| |]; [|set_solver..]. cbn [mbind outcome_bind].
  destruct (start_tun fs start o) as [o1| |]; [|set_solver..]. cbn [mbind outcome_bind]. rewrite load_config_unaffected by apply U.
  destruct (load_config env fs home (auto_config fs o1) peers_init) as [[o2 g]| |]; [|set_solver..]. cbn [mbind outcome_bind].
  destruct (check_options o2) as [[host port]| |]; [|set_solver..]. cbn [mbind outcome_bind].
  destruct (private_key_unaffected dirs fs o2 U) as [-> W].
  pose proof (mkdir_old can_mkdir (key_dir home) dirs) as M1. pose proof (mkdir_only can_mkdir (key_dir home) dirs) as M2.
  set (dirs1 := mkdir can_mkdir (key_dir home) dirs) in *.
  destruct (private_key env fs home keypair o2) as [[priv fs1]| |]; [|set_solver..]. specialize (W _ _ eq_refl). cbn [mbind outcome_bind].
  pose proof (mkdir_old can_mkdir (peer_dir home) dirs1) as M3. pose proof (mkdir_only can_mkdir (peer_dir home) dirs1) as M4.
  split.
  - rewrite resolve_peer_unaffected; [done|]. destruct (peerkey_file o2); [done|]. destruct (_ =? _)%nat; [|done].
    by eapply wf_disk_mono.
  - destruct (peerkey_file o2); [set_solver|]. destruct (_ =? _)%nat; set_solver.
Qed.

(** A command whose peer name, if it adds one, is a file name. *)
Definition plain_name (args : list string) : Prop :=
  forall n k, subcommand args = PeerAdd n k -> has_slash n = false /\ (String.length home + String.length n <= 700)%nat.

(** A command that is not affected, once its directories are made. *)
Lemma done_refines dirs dirs' fs x y : usable dirs fs -> dirs ⊆ dirs' -> dirs' ⊆ {[key_dir home; peer_dir home]} ∪ dirs ->
  unaffected dirs' x y ->
  done_of x = done_of y /\ dirs ⊆ dirs' /\ dirs' ⊆ {[key_dir home; peer_dir home]} ∪ dirs /\
  forall code fs', done_of x = Done code fs' -> usable dirs' fs'.
Proof.
  intros U H1 H2 [-> W]. split_and!; [done..|]. intros code fs'. unfold done_of. intros [= _ <-]. by eapply usable_mono.
Qed.

(** Directories can be left out of account.  On such a disk, where the two key
    directories can be made, every command and every start of the program has
    the outcome it has when directories are ignored; it makes no directory but
    those two, and leaves such a disk again. *)
Lemma main_disk_refines dirs fs args : usable dirs fs -> plain_name args ->
  let '(r, dirs') := main_disk env can_mkdir home iface pid keypair ok entries args dirs fs in
  r = main env home iface pid keypair ok entries (bool_decide (key_dir home ∈ dirs)) args fs /\
  dirs ⊆ dirs' /\ dirs' ⊆ {[key_dir home; peer_dir home]} ∪ dirs /\
  forall code fs', r = Done code fs' -> usable dirs' fs'.
Proof.
  intros U Hn. unfold plain_name in Hn. unfold main_disk, main.
  assert (dirs ⊆ {[key_dir home; peer_dir home]} ∪ dirs) as Hsub by (clear; set_solver).
  destruct (subcommand args) as [| |name| |n k|n|s| |start socks rest].
  - apply (done_refines dirs _ fs); [done|apply mkdir_old| |].
    + unfold keygen_dirs. pose proof (mkdir_only can_mkdir (key_dir home) dirs) as M. clear - M. set_solver.
    + apply keygen_unaffected; [done|apply (mkdir_old can_mkdir (key_dir home) dirs), U|by eapply key_dir_made|].
      eapply wf_disk_mono; [apply mkdir_old|apply U].
  - by split_and!.
  - by split_and!.
  - by split_and!.
  - destruct (Hn n k eq_refl) as [Hs Hl]. apply (done_refines dirs _ fs); [done|apply peer_add_old| |].
    + unfold peer_add_dirs. pose proof (mkdir_only can_mkdir (key_dir home) dirs) as M1.
      pose proof (mkdir_only can_mkdir (peer_dir home) (mkdir can_mkdir (key_dir home) dirs)) as M2. clear - M1 M2. set_solver.
    + apply peer_add_unaffected; [apply (peer_add_old dirs), U| |].
      * rewrite parent_peer by done. by eapply peer_dir_made.
      * eapply wf_disk_mono; [apply peer_add_old|apply U].
  - apply (done_refines dirs _ fs); [done..|]. apply peer_delete_unaffected; done || apply U.
  - apply (done_refines dirs _ fs); [done..|]. apply create_tun_unaffected; done || apply U.
  - split_and!; [done..|]. by intros code fs' [= _ <-].
  - pose proof (prepare_unaffected dirs fs (found_peer home entries) socks start (getopt (map ascii_bytes rest)) U) as H.
    destruct (prepare_disk _ _ _ _ _ _ _ _ _ _ _) as [r dirs']. destruct H as (-> & H1 & H2). by split_and!.
Qed.
End main_dirs.

(** Without the home directory nothing is stored: [keygen] and [peer add]
    report failure and leave the disk as it was. *)
Lemma no_home_no_key env can_mkdir home iface pid pub priv ok entries dirs fs :
  (String.length home <= 600)%nat -> key_dir home ∉ dirs -> parent (key_dir home) ∉ dirs ->
  main_disk env can_mkdir home iface pid (Some (pub, priv)) ok entries ["keygen"] dirs fs = (Done 1 fs, dirs).
Proof.
  intros Hh Hk Hp. unfold main_disk. change (subcommand ["keygen"]) with Keygen. cbv match zeta.
  assert (keygen_dirs can_mkdir home dirs = dirs) as ->.
  { unfold keygen_dirs, mkdir. by rewrite !bool_decide_eq_false_2. }
  f_equal. unfold cmd_keygen, keyfile_generate, open_trunc. cbn [can_open in_dirs].
  rewrite (parent_key home Hh "private.key"), (bool_decide_eq_false_2 (key_dir home ∈ dirs)) by (done || (simpl; lia)).
  by rewrite andb_false_r.
Qed.

(** ** Several commands *)

Section shell_disk.
Context (env : fs_env) (can_mkdir : path -> bool) (home : string) (iface : bytes) (pid : string) (keypair : option (bytes * bytes)).
Context (ok : list argv -> argv -> bool) (entries : option (list string)).

(** Commands joined by [&&], on a disk. *)
Fixpoint shell_disk (cmds : list (list string)) (dirs : gset path) (fs : filesystem) : result :=
  match cmds with
  | [] => Done 0 fs
  | c :: cmds' =>
      match main_disk env can_mkdir home iface pid keypair ok entries c dirs fs with
      | (Done code fs', dirs') => if code =? 0 then shell_disk cmds' dirs' fs' else Done code fs'
      | (r, _) => r
      end
  end.

Lemma shell_disk_refines has_dir cmds : (String.length home <= 600)%nat -> has_slash pid = false ->
  can_mkdir (key_dir home) = true -> can_mkdir (peer_dir home) = true ->
  Forall (fun c => plain_name home c /\ subcommand c <> Status) cmds ->
  forall dirs fs, usable home dirs fs ->
    shell_disk cmds dirs fs = shell env home iface pid keypair ok entries has_dir cmds fs.
Proof.
  intros Hh Hpid Hk Hq. induction 1 as [|c cmds [Hn Hs] _ IH]; intros dirs fs U; [done|]. cbn [shell_disk shell].
  pose proof (main_disk_refines env can_mkdir home iface pid keypair ok entries Hh Hpid Hk Hq dirs fs c U Hn) as H.
  destruct (main_disk _ _ _ _ _ _ _ _ _ _ _) as [r dirs']. destruct H as (Hr & _ & _ & HU).
  assert (main env home iface pid keypair ok entries has_dir c fs = r) as ->.
  { rewrite Hr. unfold main. by destruct (subcommand c). }
  destruct r as [code fs'| | | |]; [|done..]. destruct (code =? 0); [|done]. by apply IH, (HU code).
Qed.
End shell_disk.

(** ** From nothing to a running server *)

Lemma workflow_plain home ps : Forall (peer_ok home) ps -> Forall (fun p => has_slash (np_host p) = false) ps ->
  Forall (fun c => plain_name home c /\ subcommand c <> Status) (workflow ps).
Proof.
  intros Hp Hs. unfold workflow. apply Forall_app. split; [|apply Forall_app; split].
  - apply Forall_singleton. by split.
  - apply Forall_map, Forall_forall. intros p Hin. rewrite Forall_forall in Hp, Hs. split; [|done].
    intros n k. change (subcommand (add_cmd p)) with (PeerAdd (np_host p) (np_hex p)). intros [= <- _].
    split; [by apply Hs|by apply pk_home, Hp].
  - apply Forall_cons. split; [by split|]. apply Forall_singleton. by split.
Qed.

(** C9: the recommended workflow works.  On a disk that need only have the
    current and the home directory, whatever its files, [keygen], then
    [peer add] for one to five peers with different keys, then
    [create tun -server] and [start tun -server] end in the TUN server on port
    9000 with address 10.0.0.1/24, with the private key that [keygen] made and
    exactly the keys that were added, in order.  (All five of them get the TUN
    address 10.0.0.2.) *)
Theorem workflow_starts_server env can_mkdir n home iface pid ok entries pub priv ps dirs fs :
  let own := hex_text pub in
  let secs := plain (base_doc own iface) ++ map peer_sec ps in
  roomy env n -> (65 <= n)%nat ->
  (length (unlines (base_conf own iface) ++ concat (map (fun p => peer_text (ascii_bytes (np_hex p)) (np_host p)) ps)) <= n)%nat ->
  (length (doc_text (tun_pre true) (tun_doc true secs own iface)) <= n)%nat ->
  (String.length home <= 600)%nat -> has_slash pid = false -> length pub = 32%nat -> wf_bytes pub -> length priv = 32%nat ->
  short iface -> contains (assign "NATInterface" iface ++ [10]) (ascii_bytes "PublicKey") = false ->
  Forall (peer_ok home) ps -> Forall (fun p => has_slash (np_host p) = false) ps ->
  NoDup (map np_hex ps) -> Forall (fun p => own <> ascii_bytes (np_hex p)) ps -> (1 <= length ps <= 5)%nat ->
  usable home dirs fs -> can_mkdir (key_dir home) = true -> can_mkdir (peer_dir home) = true ->
  exists o g, shell_disk env can_mkdir home iface pid (Some (pub, priv)) ok entries (workflow ps) dirs fs = Started (Ok (TunServer o, priv, g)) /\
    server_started o (ascii_bytes home) /\ g_peer_count g = length ps /\
    forall i p, ps !! i = Some p -> g_asym_peers g !! i = Some (np_key p) /\ g_peer_tun_ips g !! i = Some (10 * 2 ^ 24 + 2).
Proof.
  intros own secs R H65 Hn1 Hn2 Hh Hpid Hpub Hwf Hpriv Hif Hnat Hps Hsl Hnd Hown Hlen U Hk Hq.
  destruct (workflow_runs env n home iface pid ok entries true pub priv ps fs) as (o & g & Hsh & H); [done..|].
  exists o, g. split; [|exact H]. rewrite <- Hsh. apply shell_disk_refines; [done..| |done]. by apply workflow_plain.
Qed.

(** *** Example *)

(** Only the home directory and the current one. *)
Definition fresh_dirs : gset path := {["."; "/root"]}.

Lemma fresh_usable : usable "/root" fresh_dirs ∅.
Proof.
  split; [unfold fresh_dirs; set_solver..|]. intros p [f Hf]. by rewrite lookup_empty in Hf.
Qed.

Lemma workflow_starts_server_witness :
  exists o g, shell_disk env0 (fun _ => true) "/root" (ascii_bytes "eth0") "17" (Some (seqZ 50 32, seqZ 7 32)) (fun _ _ => true) None
      (workflow [alice; bob]) fresh_dirs ∅ = Started (Ok (TunServer o, seqZ 7 32, g)) /\
    server_started o (ascii_bytes "/root") /\ g_peer_count g = 2%nat /\
    forall i p, [alice; bob] !! i = Some p -> g_asym_peers g !! i = Some (np_key p) /\ g_peer_tun_ips g !! i = Some (10 * 2 ^ 24 + 2).
Proof.
  apply (workflow_starts_server env0 (fun _ => true) 3000 "/root" (ascii_bytes "eth0") "17" (fun _ _ => true) None (seqZ 50 32) (seqZ 7 32)
    [alice; bob] fresh_dirs ∅).
  - apply env0_roomy. lia.
  - lia.
  - vm_compute. lia.
  - vm_compute. lia.
  - vm_compute. lia.
  - vm_compute. reflexivity.
  - reflexivity.
  - apply wf_bytesb_spec. vm_compute. reflexivity.
  - reflexivity.
  - apply shortb_spec. vm_compute. reflexivity.
  - vm_compute. reflexivity.
  - apply Forall_cons_2; [|apply Forall_cons_2; [|apply Forall_nil_2]]; constructor.
    + apply hex0_key.
    + apply shortb_spec. vm_compute. reflexivity.
    + vm_compute. lia.
    + vm_compute. reflexivity.
    + split; [|reflexivity]. change (ascii_bytes (np_hex bob)) with (ascii_bytes (path_of (hex_text (seqZ 100 32)))).
      replace (ascii_bytes (path_of (hex_text (seqZ 100 32)))) with (hex_text (seqZ 100 32)) by (vm_compute; reflexivity).
      apply hex_text_spells, wf_bytesb_spec. vm_compute. reflexivity.
    + apply shortb_spec. vm_compute. reflexivity.
    + vm_compute. lia.
    + vm_compute. reflexivity.
  - repeat (apply Forall_cons_2 || apply Forall_nil_2); vm_compute; reflexivity.
  - apply NoDup_cons. split; [|apply NoDup_singleton]. intros H%list_elem_of_singleton. vm_compute in H. discriminate H.
  - apply Forall_cons_2; [|apply Forall_cons_2; [|apply Forall_nil_2]]; vm_compute; discriminate.
  - simpl. lia.
  - apply fresh_usable.
  - reflexivity.
  - reflexivity.
Defined.
